(* ===== verification/_CoqProject ===== *)
-Q . S2P
Prelude.v
GoStd.v
Utf8.v
Json.v
JsonStruct.v
Rfc3339.v
Sha256.v
Duration.v
Base64.v
Domain.v
Store.v
OutboxJson.v
Effects.v
Ledger.v
Transfers.v
Withdrawals.v
WithdrawalSpecs.v
WithdrawalInvariant.v
Ports.v
Broadcast.v
Deposits.v
DepositSpecs.v
Customers.v
Solvency.v
Conservation.v
History.v
BroadcastProofs.v
CreateWithdrawals.v
Sql.v
Idempotency.v
Handlers.v
ApiJson.v
Answers.v
ApiTransfers.v
Router.v
Watcher.v
WatcherProofs.v
System.v
Sessions.v
Interleaving.v
Deadlock.v
ApiFrame.v
Schema.v
SchemaKept.v
Scanner.v
ScannerProofs.v
FeeEstimation.v
EvmBroadcaster.v
Signers.v
Config.v
Walletd.v
Roles.v
RoleGuarantees.v
Progress.v
ApiEndToEnd.v
Lifecycle.v
BroadcasterGuarantees.v
WatcherGuarantees.v
Demo.v
DemoSessions.v
DemoNode.v
Witnesses.v
AdapterWitnesses.v
RoleWitnesses.v
