(* ===== verification/Prelude.v ===== *)
(** * Digital asset wallet platform: a verification development

    The program (Go, [src/cmd/walletd] and [src/internal]) keeps customers' crypto
    assets. One binary runs in three roles over one PostgreSQL database: the [api]
    role serves HTTP (customers, transfers, withdrawals, reads), a [watcher] per
    chain turns on-chain transfers into deposits and credits them once final, and a
    [broadcaster] per chain signs approved withdrawals, sends them and settles them
    by their receipts. [internal/core] holds the use cases and the ports they call;
    [internal/adapter/{api,postgres,evm,signer}] implement the ports. The roles
    interact only through the database.

    ** How the model reads

    - A Go function that takes a context and may fail is a computation of the monad
      [M] of Effects.v: it reads a [Ctx] (the environment and the transaction put on
      the context, if any), threads a [St] (the committed or in-flight database, the
      tick, a trace of the externally visible events) and returns [Ok] or [Err].
    - Every statement, [Begin], [Commit], generated id and remote call is a tick of
      the environment, where it may fail; a [Commit] may also succeed and lose its
      acknowledgement; between a process's transactions the other processes may
      change the database arbitrarily (theorems state what they rely on).
    - The database (Store.v) is the tables of the migrations as lists of rows, with
      the declared keys, foreign keys and checks decided at each insertion. Go's
      [uint64] and [int64] are [Z] with the wrap-around written out ([u64], [i64]
      of GoStd.v), amounts are unbounded [Z] limited by [NUMERIC(78,0)].
    - Ports are type classes (Ports.v; [TransferRepository] in Transfers.v). The laws
      a use case's theorems rely on are classes of their own, which the postgres, evm
      and signer adapters' instances discharge.
    - Code outside src/ is a parameter: the JSON-RPC node ([scanClient], [feeClient],
      [broadcastClient]), go-ethereum's pure functions ([GoEthereum],
      [GoEthereumTx]), oapi-codegen's binding functions ([OapiRuntime]), what the
      roles dial and lock ([Startup]), secp256k1 and KMS ([Custody]), Keccak-256, the
      UUID library, the local time zone. What the theorems ask of them are named
      hypotheses or [...Laws] classes, all met by the concrete instances of Demo.v,
      DemoNode.v and RoleWitnesses.v.
    - The Go standard library is modelled: [encoding/json] (Json, JsonStruct), UTF-8
      strings (Utf8), RFC 3339 times (Rfc3339, at PostgreSQL's microsecond precision, so
      an answer that was not read back shows no finer digits), SHA-256 and HMAC (Sha256),
      base64, hex, durations. Handlers.v and Idempotency.v take the codecs as
      parameters; Roles.v instantiates them.

    ** The files

    - Prelude: tactics and generic lemmas. GoStd, Utf8, Json, JsonStruct, Rfc3339,
      Sha256, Base64: the Go standard library functions the code calls ([strings],
      [encoding/hex], [encoding/json], [time], [crypto/sha256], [encoding/base64],
      [math/big]).
    - Domain, Store, Effects, Ledger: core's types and errors; the schema; the monad;
      balances, the shape of a journal write and the ledger invariant.
    - Transfers, Withdrawals, Deposits, Customers, History: the repositories of
      adapter/postgres with the use cases that only call them. WithdrawalSpecs and
      DepositSpecs give, per operation, the relation on databases it refines;
      WithdrawalInvariant, Conservation and Solvency the invariants those preserve.
    - Ports, CreateWithdrawals, Broadcast, Watcher: the core use cases over the ports.
      BroadcastProofs, WatcherProofs: their behaviour over time and faults.
    - Idempotency, Handlers, Router, ApiFrame: the HTTP layer of adapter/api, from
      [http.ServeMux] to the handlers' answers. ApiJson: the request and response types
      of server.gen.go as JSON; Answers: the schemas of api/openapi.yaml for the answers, by
      name; OutboxJson: the payloads of the outbox events.
      ApiTransfers, ApiEndToEnd: POST /v1/transfers from the bytes of the request to the
      bytes of the answer and the committed database.
    - Scanner, ScannerProofs, FeeEstimation, EvmBroadcaster, Signers: adapter/evm and
      adapter/signer.
    - System: all entry points together, the abstract transaction system [commit]
      and its reachable databases. Schema, SchemaKept: the constraints of the schema
      and that every function keeps them.
    - Sql, Sessions, Interleaving, Deadlock: transfers, withdrawal requests, approvals
      and credits as programs of SQL statements, shown to be the repositories' methods;
      the order in which they lock and insert; sessions interleaved under READ COMMITTED;
      who waits for whom.
    - Duration, Config, Walletd, Roles: cmd/walletd/main.go, as durations, the roles'
      environments, their locks and loops, and the roles from their configuration to
      what they serve. Progress, RoleGuarantees: theorems over them.
    - Lifecycle, BroadcasterGuarantees, WatcherGuarantees: theorems over System and
      the use cases. Demo, DemoSessions, DemoNode, Witnesses, AdapterWitnesses,
      RoleWitnesses: a concrete platform and every property with hypotheses applied to it.

    ** What the theorems show

    - Refinement (C9, C11; System, RoleGuarantees): every interleaving of API
      requests, polls and broadcaster runs moves the committed database only along
      [commit], the atomic business steps, whatever fails; every run of a binary from
      main leaves a database those steps reach.
    - Concurrency (C10, C13, C38; Interleaving, Deadlock): transfers, withdrawal
      requests and approvals interleaved statement by statement commit whole business
      steps, never wait for each other in a circle, and all end.
      [crediting_can_deadlock] (DemoSessions) is a schedule in which a crediting poll
      and a transfer do deadlock.
    - Types (C14; Schema, SchemaKept): every key, reference, check and range of the
      schema holds of every database the entry points leave. The UPDATEs of the model
      check nothing: that none of them puts a second row under the partial unique
      index of deposits, or a nonce out of range, is proved.
    - Money (C1, C2, C4, C5, C8; System): in every reachable database entries balance,
      no customer is overdrawn, holds equal open withdrawals, settlements, releases
      and credits happen once, nonces are gapless.
    - Broadcasting (C3, C7, C31, C39, C15): bytes are recorded before they are sent
      and never signed twice; a final receipt settles as it says, and nothing else
      does; the drain loop ends, and on a healthy platform ends with every pending
      withdrawal sent.
    - Watching (C6, C18): nothing is credited before finality; the calls of
      [ScanDeposits] over any polls, failed ones too, cover each block once and their
      findings are recorded; polls never run the reorg check ([poll_never_orphans];
      [checkForReorgs_exact]: what it would do).
    - Requests (C16, C17, C21, C22, C23, C32, C36, C37, C24, C12, C25, C26, C27):
      which requests are operations and what their JSON says, what a client finds in
      each answer, that only authenticated mutating operations change anything, the
      outcome of each write on each branch, at-most-once retries, complete pagination,
      bound cursors.
    - Adapters (C29, C30, C33, C34, C35): scans report exactly what moved, receipts
      count once final and then as their status says, transactions pay what was asked,
      signatures are canonical.
    - Rows (C19, C20): status and state only move along their state machines,
      orphaning by the reorg check included.
    - Processes (C28, C40): a role changes nothing before its guards hold, and accepts
      only configurations within bounds.

    ** Fuel and bounds

    [drain] (Walletd.v) takes fuel since the code's inner loop has no bound of its
    own; C39 shows one more than the number of withdrawals left is enough. The walks
    of call traces and of HTTP answers are structural. [watcher_loop] and
    [broadcaster_loop] run a given number of iterations of endless loops. The parser of
    durations takes the length of its input ([parse_components_fuel]: more is the same).

    ** Not modelled

    The HTTP server, signals, timers, deadlines and logging of main.go; the embedded
    OpenAPI document of server.gen.go and its unused constructors; goose and the down
    migrations; closing of RPC clients; the AWS SDK; the Solidity contracts (their addresses and
    init code hashes are constants of the Go code). Outside
    Sessions, Interleaving and Deadlock a database transaction is a sequence of statements
    that nothing interrupts. Interleaving shows the code's locks give that to transfers,
    withdrawal requests and approvals, against each other and against the other transactions taken
    whole; those (claims, settlements, polls, provisioning) are not split into
    statements there, and PostgreSQL's detection of deadlocks is a rollback. *)

From Stdlib Require Import ZArith Lia.
From stdpp Require Import prelude strings sorting.

Open Scope Z_scope.

(** ** Tactics shared by the development *)

(** Case analysis on every [if]/[match] of a hypothesis, discarding the
    branches that contradict the equation it states. *)
Ltac destruct_match_in H :=
  repeat (match type of H with
          | context [match ?x with _ => _ end] =>
              let E := fresh "E" in destruct x eqn:E
          end; try discriminate H); simplify_eq.

(** Same for the goal. *)
Ltac destruct_match_goal :=
  repeat match goal with
         | |- context [match ?x with _ => _ end] =>
             let E := fresh "E" in destruct x eqn:E
         end.

(** Boolean decisions in hypotheses and goal become propositions. *)
Ltac bool_to_prop :=
  repeat match goal with
         | H : bool_decide _ = true |- _ => apply bool_decide_eq_true in H
         | H : bool_decide _ = false |- _ => apply bool_decide_eq_false in H
         | H : (_ && _)%bool = true |- _ => apply andb_true_iff in H; destruct H
         | H : (_ || _)%bool = false |- _ => apply orb_false_iff in H; destruct H
         | H : negb _ = true |- _ => apply negb_true_iff in H
         | H : negb _ = false |- _ => apply negb_false_iff in H
         | H : (_ <=? _) = true |- _ => apply Z.leb_le in H
         | H : (_ <=? _) = false |- _ => apply Z.leb_gt in H
         | H : (_ <? _) = true |- _ => apply Z.ltb_lt in H
         | H : (_ <? _) = false |- _ => apply Z.ltb_ge in H
         | H : (_ =? _) = true |- _ => apply Z.eqb_eq in H
         | H : (_ =? _) = false |- _ => apply Z.eqb_neq in H
         end.

(** ** Sums of integers over lists *)

Definition sumZ {A} (f : A → Z) (l : list A) : Z :=
  foldr (λ x acc, f x + acc) 0 l.

Section sumZ_lemmas.
Context {A : Type}.
Implicit Types (f g : A → Z) (l : list A).

Lemma sumZ_nil f : sumZ f [] = 0.
Proof. done. Qed.

Lemma sumZ_cons f x l : sumZ f (x :: l) = f x + sumZ f l.
Proof. done. Qed.

Lemma sumZ_app f l1 l2 : sumZ f (l1 ++ l2) = sumZ f l1 + sumZ f l2.
Proof. induction l1 as [|x l1 IH]; simpl; [done|]. rewrite IH. lia. Qed.

Lemma sumZ_snoc f l x : sumZ f (l ++ [x]) = sumZ f l + f x.
Proof. rewrite sumZ_app; simpl; lia. Qed.

Lemma sumZ_ext f g l : (∀ x, x ∈ l → f x = g x) → sumZ f l = sumZ g l.
Proof.
  induction l as [|x l IH]; simpl; intros Hfg; [done|].
  rewrite (Hfg x) by set_solver. rewrite IH; [done|set_solver].
Qed.

Lemma sumZ_zero f l : (∀ x, x ∈ l → f x = 0) → sumZ f l = 0.
Proof.
  induction l as [|x l IH]; simpl; intros Hz; [done|].
  rewrite (Hz x) by set_solver. rewrite IH; [done|set_solver].
Qed.

Lemma sumZ_nonneg f l : (∀ x, x ∈ l → 0 ≤ f x) → 0 ≤ sumZ f l.
Proof.
  induction l as [|x l IH]; simpl; intros Hz; [done|].
  pose proof (Hz x ltac:(set_solver)).
  pose proof (IH ltac:(set_solver)). lia.
Qed.

Lemma sumZ_add f g l : sumZ (λ x, f x + g x) l = sumZ f l + sumZ g l.
Proof. induction l as [|x l IH]; simpl; [done|]. lia. Qed.

(** Replacing one element of a duplicate-free list changes the sum by the
    difference at that element. *)
Lemma sumZ_map_one (key : A → string) f (h : A → A) l x :
  NoDup (map key l) → x ∈ l → (∀ y, y ∈ l → key y ≠ key x → h y = y) →
  sumZ f (map h l) = sumZ f l - f x + f (h x).
Proof.
  induction l as [|y l IH]; simpl; intros Hnd Hx Hother; [set_solver|].
  apply NoDup_cons in Hnd as [Hy Hnd].
  destruct (decide (key y = key x)) as [E|Ne].
  - assert (y = x) as ->.
    { apply elem_of_cons in Hx as [->|Hx]; [done|].
      exfalso. apply Hy. rewrite E. apply list_elem_of_fmap. eauto. }
    assert (map h l = l) as Hid.
    { clear -Hy Hother. induction l as [|z l IHl]; simpl; [done|].
      rewrite (Hother z); [|set_solver|].
      - f_equal. apply IHl; [|intros; apply Hother; set_solver].
        simpl in Hy. set_solver.
      - simpl in Hy. intros E. apply Hy. rewrite E. left. }
    rewrite Hid. lia.
  - rewrite (Hother y) by (done || set_solver).
    rewrite IH; [lia|done|set_solver|].
    intros z Hz. apply Hother. set_solver.
Qed.
End sumZ_lemmas.

#[export] Instance sumZ_perm {A} (f : A → Z) :
  Proper ((≡ₚ) ==> (=)) (sumZ f).
Proof. induction 1; simpl; lia. Qed.

Create HintDb wallet.
#[export] Hint Rewrite @sumZ_nil @sumZ_cons @sumZ_app : wallet.
