(* ===== verification/GoStd.v ===== *)
(** * Go standard library functions used by the wallet

    The byte-string functions of [strings], [encoding/hex] and [math/big] that
    the modelled code calls. A Go [string] and a [[]byte] are both modelled as
    Rocq strings (sequences of bytes). [ToLower] and [EqualFold] are given for
    ASCII letters; every theorem that uses them is about ASCII text (hexadecimal
    addresses, node error phrases). [TrimSpace] covers every code point of
    Unicode's White_Space property, in its UTF-8 encoding. *)

From Stdlib Require Import ZArith Lia Ascii DecimalString DecimalZ DecimalPos.
From stdpp Require Import prelude strings.
From S2P Require Import Prelude.

Notation bytes := string (only parsing).

(** ** Bytes *)

Definition byte_val (c : ascii) : Z := Z.of_N (N_of_ascii c).
Definition byte_of (z : Z) : ascii := ascii_of_N (Z.to_N z).

Fixpoint take_bytes (n : nat) (s : bytes) : bytes :=
  match n, s with
  | S n, String c s => String c (take_bytes n s)
  | _, _ => EmptyString
  end.

(** ** [strings] *)

Definition ascii_lower (c : ascii) : ascii :=
  let n := N_of_ascii c in
  if (65 <=? n)%N && (n <=? 90)%N then ascii_of_N (n + 32) else c.

Fixpoint ToLower (s : string) : string :=
  match s with
  | EmptyString => EmptyString
  | String c s => String (ascii_lower c) (ToLower s)
  end.

Definition EqualFold (s t : string) : bool := String.eqb (ToLower s) (ToLower t).

Fixpoint HasPrefix (s p : string) : bool :=
  match p, s with
  | EmptyString, _ => true
  | String a p', String b s' => Ascii.eqb a b && HasPrefix s' p'
  | String _ _, EmptyString => false
  end.

Fixpoint drop_bytes (n : nat) (s : string) : string :=
  match n, s with
  | O, _ => s
  | S n, String _ s => drop_bytes n s
  | S _, EmptyString => EmptyString
  end.

Definition TrimPrefix (s p : string) : string :=
  if HasPrefix s p then drop_bytes (String.length p) s else s.

Fixpoint Contains (s sub : string) : bool :=
  HasPrefix s sub ||
  match s with
  | EmptyString => false
  | String _ s => Contains s sub
  end.

Fixpoint string_rev_app (s acc : string) : string :=
  match s with
  | EmptyString => acc
  | String c s => string_rev_app s (String c acc)
  end.
Definition string_rev (s : string) : string := string_rev_app s EmptyString.

Fixpoint bytes_of (l : list N) : string :=
  match l with [] => EmptyString | n :: l => String (ascii_of_N n) (bytes_of l) end.

(** UTF-8 encodings of the code points [unicode.IsSpace] accepts. *)
Definition white_space : list string :=
  map bytes_of
    ([[9]; [10]; [11]; [12]; [13]; [32]; [194; 133]; [194; 160]; [225; 154; 128];
      [226; 128; 128]; [226; 128; 129]; [226; 128; 130]; [226; 128; 131];
      [226; 128; 132]; [226; 128; 133]; [226; 128; 134]; [226; 128; 135];
      [226; 128; 136]; [226; 128; 137]; [226; 128; 138]; [226; 128; 168];
      [226; 128; 169]; [226; 128; 175]; [226; 129; 159]; [227; 128; 128]])%N.

Fixpoint trim_left_fuel (ws : list string) (fuel : nat) (s : string) : string :=
  match fuel with
  | O => s
  | S fuel =>
      match List.find (HasPrefix s) ws with
      | Some w => trim_left_fuel ws fuel (drop_bytes (String.length w) s)
      | None => s
      end
  end.
Definition trim_left (ws : list string) (s : string) : string :=
  trim_left_fuel ws (String.length s) s.

Definition TrimSpace (s : string) : string :=
  string_rev (trim_left (map string_rev white_space)
                (string_rev (trim_left white_space s))).

(** [strings.Cut] and [strings.Split] on a one-byte separator. *)
Fixpoint Cut (s : string) (sep : ascii) : option (string * string) :=
  match s with
  | EmptyString => None
  | String c s' =>
      if Ascii.eqb c sep then Some (EmptyString, s')
      else match Cut s' sep with
           | Some (a, b) => Some (String c a, b)
           | None => None
           end
  end.

Fixpoint Split (s : string) (sep : ascii) : list string :=
  match s with
  | EmptyString => [EmptyString]
  | String c s' =>
      if Ascii.eqb c sep then EmptyString :: Split s' sep
      else match Split s' sep with
           | [] => [String c EmptyString]
           | x :: xs => String c x :: xs
           end
  end.

Fixpoint contains_byte (c : ascii) (s : string) : bool :=
  match s with
  | EmptyString => false
  | String b s => Ascii.eqb b c || contains_byte c s
  end.

Fixpoint Join (l : list string) (sep : ascii) : string :=
  match l with
  | [] => EmptyString
  | [x] => x
  | x :: l => x +:+ String sep (Join l sep)
  end.

(** ** [encoding/hex] *)

Definition hex_digit (n : N) : ascii :=
  if (n <? 10)%N then ascii_of_N (n + 48) else ascii_of_N (n + 87).

Definition hex_value (c : ascii) : option N :=
  let n := N_of_ascii c in
  if (48 <=? n)%N && (n <=? 57)%N then Some (n - 48)%N
  else if (97 <=? n)%N && (n <=? 102)%N then Some (n - 87)%N
  else if (65 <=? n)%N && (n <=? 70)%N then Some (n - 55)%N
  else None.

Fixpoint hex_EncodeToString (b : bytes) : string :=
  match b with
  | EmptyString => EmptyString
  | String c b =>
      let n := N_of_ascii c in
      String (hex_digit (n / 16)) (String (hex_digit (n mod 16)) (hex_EncodeToString b))
  end.

Fixpoint hex_DecodeString (s : string) : option bytes :=
  match s with
  | EmptyString => Some EmptyString
  | String a (String b s) =>
      match hex_value a, hex_value b, hex_DecodeString s with
      | Some h, Some l, Some r => Some (String (ascii_of_N (16 * h + l)) r)
      | _, _, _ => None
      end
  | String _ EmptyString => None
  end.

(** The regular expression [^0x[0-9a-fA-F]{n}$]. *)
Fixpoint all_hex (s : string) : bool :=
  match s with
  | EmptyString => true
  | String c s => bool_decide (is_Some (hex_value c)) && all_hex s
  end.
Definition matches_0x_hex (n : nat) (s : string) : bool :=
  HasPrefix s "0x" && (String.length s =? n + 2)%nat && all_hex (drop_bytes 2 s).

(** ** [math/big] *)

(** [big.Int]'s [String] and PostgreSQL's [numeric::text] on integers. *)
Definition big_String (z : Z) : string := NilZero.string_of_int (Z.to_int z).

(** [new(big.Int).SetString(s, 10)]: an optional sign and at least one digit. *)
Definition big_SetString10 (s : string) : option Z :=
  match s with
  | String "+" t => option_map (λ u, Z.of_uint u) (NilZero.uint_of_string t)
  | _ => option_map Z.of_int (NilZero.int_of_string s)
  end.

(** [x.BitLen()]: the length of the absolute value. *)
Definition big_BitLen (z : Z) : Z :=
  if Z.eqb z 0 then 0 else Z.log2 (Z.abs z) + 1.

(** [new(big.Int).SetBytes(b)]: the unsigned big-endian value. *)
Fixpoint big_SetBytes_acc (acc : Z) (b : bytes) : Z :=
  match b with
  | EmptyString => acc
  | String c b => big_SetBytes_acc (256 * acc + Z.of_N (N_of_ascii c)) b
  end.
Definition big_SetBytes (b : bytes) : Z := big_SetBytes_acc 0 b.

(** [x.FillBytes(buf)] with an [n]-byte buffer; Go panics when [x] does not fit. *)
Fixpoint big_FillBytes (n : nat) (z : Z) : bytes :=
  match n with
  | O => EmptyString
  | S n => String (ascii_of_N (Z.to_N (z / 256 ^ Z.of_nat n mod 256))) (big_FillBytes n z)
  end.

(** Conversions to [uint64] and [int64]. *)
Definition u64 (z : Z) : Z := z mod 2 ^ 64.
Definition i64 (z : Z) : Z := (z + 2 ^ 63) mod 2 ^ 64 - 2 ^ 63.

(** ** Lemmas *)

Lemma byte_val_of z : 0 <= z < 256 → byte_val (byte_of z) = z.
Proof. intros Hz. unfold byte_val, byte_of. rewrite N_ascii_embedding; lia. Qed.

Lemma byte_val_bound c : 0 <= byte_val c < 256.
Proof. unfold byte_val. pose proof (N_ascii_bounded c). lia. Qed.

Lemma string_length_app (a b : string) : String.length (a +:+ b) = (String.length a + String.length b)%nat.
Proof. induction a as [|c a IH]; simpl; [done|]. by rewrite IH. Qed.

Lemma take_bytes_app a b : take_bytes (String.length a) (a +:+ b) = a.
Proof. induction a as [|c a IH]; [by destruct b|]. change (String c (take_bytes (String.length a) (a +:+ b)) = String c a). by rewrite IH. Qed.

Lemma string_app_empty_r (a : string) : a +:+ EmptyString = a.
Proof. induction a as [|c a IH]; [done|]. change (String c (a +:+ EmptyString) = String c a). by rewrite IH. Qed.

Lemma byte_of_val c : byte_of (byte_val c) = c.
Proof. unfold byte_val, byte_of. by rewrite N2Z.id, ascii_N_embedding. Qed.

Lemma byte_val_inj c c' : byte_val c = byte_val c' → c = c'.
Proof. intros E. by rewrite <-(byte_of_val c), E, byte_of_val. Qed.

Lemma string_app_assoc (a b c : string) : (a +:+ b) +:+ c = a +:+ b +:+ c.
Proof.
  induction a as [|x a IH]; [done|]. change (String x ((a +:+ b) +:+ c) = String x (a +:+ b +:+ c)). by rewrite IH.
Qed.

Lemma big_SetBytes_acc_bound b acc :
  0 <= acc → 0 <= big_SetBytes_acc acc b < (acc + 1) * 256 ^ Z.of_nat (String.length b).
Proof.
  revert acc. induction b as [|c b IH]; intros acc Ha; [simpl; lia|].
  cbn [big_SetBytes_acc String.length].
  assert (0 <= Z.of_N (N_of_ascii c) < 256) as Hc by (pose proof (N_ascii_bounded c); lia).
  specialize (IH (256 * acc + Z.of_N (N_of_ascii c)) ltac:(lia)).
  rewrite Nat2Z.inj_succ, Z.pow_succ_r by lia. nia.
Qed.

Lemma big_SetBytes_bound b : 0 <= big_SetBytes b < 256 ^ Z.of_nat (String.length b).
Proof. pose proof (big_SetBytes_acc_bound b 0). unfold big_SetBytes. lia. Qed.

Lemma big_SetBytes_acc_Fill n z acc :
  0 <= z → big_SetBytes_acc acc (big_FillBytes n z) = acc * 256 ^ Z.of_nat n + z mod 256 ^ Z.of_nat n.
Proof.
  intros Hz. revert acc. induction n as [|n IH]; intros acc; cbn [big_FillBytes big_SetBytes_acc].
  { simpl. rewrite Z.mod_1_r. lia. }
  rewrite IH, N_ascii_embedding
    by (pose proof (Z.mod_pos_bound (z / 256 ^ Z.of_nat n) 256); lia).
  rewrite Z2N.id by (apply Z.mod_pos_bound; lia).
  rewrite Nat2Z.inj_succ, Z.pow_succ_r, (Z.mul_comm 256 (256 ^ _)) by lia.
  rewrite (Z.rem_mul_r z (256 ^ Z.of_nat n) 256) by lia. lia.
Qed.

Lemma big_SetBytes_Fill n z : 0 <= z < 256 ^ Z.of_nat n → big_SetBytes (big_FillBytes n z) = z.
Proof.
  intros Hz. unfold big_SetBytes. rewrite big_SetBytes_acc_Fill by lia. rewrite Z.mod_small; lia.
Qed.

Lemma big_SetBytes_acc_split b acc :
  big_SetBytes_acc acc b = acc * 256 ^ Z.of_nat (String.length b) + big_SetBytes b.
Proof.
  unfold big_SetBytes. revert acc. induction b as [|c b IH]; intros acc; cbn [big_SetBytes_acc String.length]; [lia|].
  rewrite (IH (256 * acc + _)), (IH (256 * 0 + _)), Nat2Z.inj_succ, Z.pow_succ_r by lia. lia.
Qed.

Lemma big_FillBytes_SetBytes_acc b acc :
  0 <= acc → big_FillBytes (String.length b) (big_SetBytes_acc acc b) = b.
Proof.
  revert acc. induction b as [|c b IH]; intros acc Hacc; [done|].
  cbn [String.length big_SetBytes_acc big_FillBytes]. pose proof (N_ascii_bounded c) as Hc.
  f_equal; [|apply IH; lia]. rewrite big_SetBytes_acc_split. pose proof (big_SetBytes_bound b) as Hb.
  rewrite Z.div_add_l, (Z.div_small (big_SetBytes b)), Z.add_0_r by lia.
  rewrite Z.add_comm, Z.mul_comm, Z.mod_add, Z.mod_small by lia.
  by rewrite N2Z.id, ascii_N_embedding.
Qed.

Lemma big_FillBytes_SetBytes b : big_FillBytes (String.length b) (big_SetBytes b) = b.
Proof. by apply big_FillBytes_SetBytes_acc. Qed.

Lemma big_FillBytes_length n z : String.length (big_FillBytes n z) = n.
Proof. induction n; simpl; congruence. Qed.

Lemma HasPrefix_app p s : HasPrefix (p +:+ s) p = true.
Proof. induction p as [|c p IH]; simpl; [by destruct s|]. by rewrite Ascii.eqb_refl, IH. Qed.

Lemma drop_bytes_app p s : drop_bytes (String.length p) (p +:+ s) = s.
Proof. by induction p. Qed.

Lemma HasPrefix_drop p s : HasPrefix s p = true → s = p +:+ drop_bytes (String.length p) s.
Proof.
  revert s. induction p as [|c p IH]; intros s H; [done|]. destruct s as [|b s]; [done|].
  cbn [HasPrefix] in H. apply andb_true_iff in H as [->%Ascii.eqb_eq H].
  change (String b s = String b (p +:+ drop_bytes (String.length p) s)). by rewrite <-IH.
Qed.

Lemma Contains_app_l p s sub : Contains s sub = true → Contains (p +:+ s) sub = true.
Proof.
  intros H. induction p as [|c p IH]; simpl; [done|].
  by rewrite IH, orb_true_r.
Qed.

Lemma ToLower_app s t : ToLower (s +:+ t) = ToLower s +:+ ToLower t.
Proof. induction s as [|c s IH]; simpl; [done|]. by rewrite IH. Qed.

Lemma Cut_append a sep b :
  contains_byte sep a = false → Cut (a +:+ String sep b) sep = Some (a, b).
Proof.
  induction a as [|c a IH]; simpl; [by rewrite Ascii.eqb_refl|].
  intros [Hc H]%orb_false_iff. by rewrite Hc, IH.
Qed.

Lemma Split_append a sep b :
  contains_byte sep a = false → Split (a +:+ String sep b) sep = a :: Split b sep.
Proof.
  induction a as [|c a IH]; simpl; [by rewrite Ascii.eqb_refl|].
  intros [Hc H]%orb_false_iff. by rewrite Hc, IH.
Qed.

Lemma Split_single a sep : contains_byte sep a = false → Split a sep = [a].
Proof.
  induction a as [|c a IH]; simpl; [done|]. intros [Hc H]%orb_false_iff. by rewrite Hc, IH.
Qed.

Lemma hex_value_digit_hi c : hex_value (hex_digit (N_of_ascii c / 16)) = Some (N_of_ascii c / 16)%N.
Proof. destruct c as [[] [] [] [] [] [] [] []]; reflexivity. Qed.

Lemma hex_value_digit_lo c : hex_value (hex_digit (N_of_ascii c mod 16)) = Some (N_of_ascii c mod 16)%N.
Proof. destruct c as [[] [] [] [] [] [] [] []]; reflexivity. Qed.

Lemma hex_decode_encode b : hex_DecodeString (hex_EncodeToString b) = Some b.
Proof.
  induction b as [|c b IH]; [done|]. cbn [hex_EncodeToString hex_DecodeString].
  rewrite hex_value_digit_hi, hex_value_digit_lo, IH.
  rewrite <- N.div_mod by done. by rewrite ascii_N_embedding.
Qed.

Lemma hex_encode_no_0x b : HasPrefix (hex_EncodeToString b) "0x" = false.
Proof.
  destruct b as [|c b]; [done|].
  destruct c as [[] [] [] [] [] [] [] []]; reflexivity.
Qed.

Lemma hex_encode_empty b : hex_EncodeToString b = EmptyString ↔ b = EmptyString.
Proof. by destruct b. Qed.

Lemma to_int_not_nil z : Z.to_int z ≠ Decimal.Pos Decimal.Nil ∧ Z.to_int z ≠ Decimal.Neg Decimal.Nil.
Proof.
  destruct z as [|p|p]; simpl; (split; [|done || idtac]); try done;
    intros E; injection E as E; by apply (Unsigned.to_uint_nonnil p).
Qed.

Lemma big_String_no_plus z t : big_String z ≠ String "+" t.
Proof.
  unfold big_String, NilZero.string_of_int.
  destruct (Z.to_int z) as [d|d]; [|done].
  destruct d; simpl; done.
Qed.

Lemma big_SetString10_String z : big_SetString10 (big_String z) = Some z.
Proof.
  pose proof (to_int_not_nil z) as [H1 H2].
  assert (option_map Z.of_int (NilZero.int_of_string (big_String z)) = Some z) as Hz.
  { unfold big_String. rewrite NilZero.isi by done. simpl. by rewrite DecimalZ.of_to. }
  unfold big_SetString10.
  destruct (big_String z) as [|c s] eqn:E; [done|].
  destruct c as [[] [] [] [] [] [] [] []]; try exact Hz.
  by destruct (big_String_no_plus z s).
Qed.

Lemma big_BitLen_le_256 z : 0 ≤ z → big_BitLen z ≤ 256 ↔ z < 2 ^ 256.
Proof.
  intros Hz. unfold big_BitLen. destruct (Z.eqb_spec z 0) as [->|Hne]; [lia|].
  rewrite Z.abs_eq by done.
  rewrite (Z.log2_lt_pow2 z 256) by lia. lia.
Qed.

#[export] Hint Rewrite hex_decode_encode big_SetString10_String : wallet.
