(* ===== verification/Utf8.v ===== *)
(** * UTF-8

    [unicode/utf8]: a byte string as the runes [DecodeRune] reads from it, a byte that
    starts no valid encoding being [Bad] (Go's [RuneError] of width 1), and
    [AppendRune]. *)

From Stdlib Require Import ZArith Lia Ascii.
From stdpp Require Import prelude strings.
From S2P Require Import Prelude GoStd.

Inductive rune := Rune (c : Z) | Bad.
#[export] Instance rune_eq_dec : EqDecision rune.
Proof. solve_decision. Defined.

Definition continuation (b : Z) : bool := (128 <=? b) && (b <=? 191).

(** The second byte's range depends on the first: no overlong form, no surrogate,
    nothing above U+10FFFF. *)
Definition second_ok (b0 b1 : Z) : bool :=
  ((if b0 =? 0xE0 then 0xA0 else if b0 =? 0xF0 then 0x90 else 0x80) <=? b1) &&
  (b1 <=? (if b0 =? 0xED then 0x9F else if b0 =? 0xF4 then 0x8F else 0xBF)).

Fixpoint runes (s : bytes) : list rune :=
  match s with
  | EmptyString => []
  | String c0 s1 =>
      let b0 := byte_val c0 in
      if b0 <? 128 then Rune b0 :: runes s1
      else if (b0 <? 0xC2) || (0xF4 <? b0) then Bad :: runes s1
      else match s1 with
      | EmptyString => [Bad]
      | String c1 s2 =>
          let b1 := byte_val c1 in
          if negb (second_ok b0 b1) then Bad :: runes s1
          else if b0 <? 0xE0 then Rune ((b0 - 0xC0) * 64 + (b1 - 128)) :: runes s2
          else match s2 with
          | EmptyString => Bad :: runes s1
          | String c2 s3 =>
              let b2 := byte_val c2 in
              if negb (continuation b2) then Bad :: runes s1
              else if b0 <? 0xF0
              then Rune ((b0 - 0xE0) * 4096 + (b1 - 128) * 64 + (b2 - 128)) :: runes s3
              else match s3 with
              | EmptyString => Bad :: runes s1
              | String c3 s4 =>
                  let b3 := byte_val c3 in
                  if negb (continuation b3) then Bad :: runes s1
                  else Rune ((b0 - 0xF0) * 262144 + (b1 - 128) * 4096 + (b2 - 128) * 64 + (b3 - 128))
                         :: runes s4
              end
          end
      end
  end.

(** [utf8.RuneError]. *)
Definition RuneError : Z := 0xFFFD.

(** A Unicode scalar value: neither a surrogate nor out of range. *)
Definition scalar (c : Z) : bool := (0 <=? c) && (c <? 0xD800) || (0xE000 <=? c) && (c <=? 0x10FFFF).

Definition AppendRune (c : Z) : bytes :=
  let c := if scalar c then c else RuneError in
  if c <? 0x80 then String (byte_of c) EmptyString
  else if c <? 0x800 then String (byte_of (0xC0 + c / 64)) (String (byte_of (128 + c mod 64)) EmptyString)
  else if c <? 0x10000
  then String (byte_of (0xE0 + c / 4096)) (String (byte_of (128 + c / 64 mod 64))
         (String (byte_of (128 + c mod 64)) EmptyString))
  else String (byte_of (0xF0 + c / 262144)) (String (byte_of (128 + c / 4096 mod 64))
         (String (byte_of (128 + c / 64 mod 64)) (String (byte_of (128 + c mod 64)) EmptyString))).

Definition rune_bytes (r : rune) : bytes := match r with Rune c => AppendRune c | Bad => AppendRune RuneError end.
Fixpoint flatten (rs : list rune) : bytes :=
  match rs with [] => EmptyString | r :: rs => rune_bytes r +:+ flatten rs end.

Definition valid_rune (r : rune) : bool := match r with Rune c => scalar c | Bad => false end.
(** [utf8.ValidString]. *)
Definition ValidString (s : bytes) : bool := forallb valid_rune (runes s).

Example runes_mixed :
  runes (String (byte_of 0x41) (String (byte_of 0xC3) (String (byte_of 0xA9) (String (byte_of 0xC3) EmptyString)))) =
    [Rune 65; Rune 233; Bad].
Proof. reflexivity. Qed.

(** ** The codec round trips *)

Ltac ltb_cases :=
  repeat match goal with
  | |- context [?a <? ?b] => destruct (Z.ltb_spec a b); try lia
  | |- context [?a <=? ?b] => destruct (Z.leb_spec a b); try lia
  | |- context [?a =? ?b] => destruct (Z.eqb_spec a b); try lia
  end.

Lemma scalar_range c : scalar c = true ↔ 0 <= c < 0xD800 ∨ 0xE000 <= c <= 0x10FFFF.
Proof. unfold scalar. ltb_cases; simpl; split; intros; try done; lia. Qed.

(** Six bits at a time. *)
Lemma split64 c : 0 <= c → c = c / 64 * 64 + c mod 64 ∧ 0 <= c mod 64 < 64.
Proof. intros Hc. pose proof (Z.div_mod c 64). pose proof (Z.mod_pos_bound c 64). lia. Qed.

(** Any continuation byte is fine after a lead byte but for the four bounds. *)
Lemma second_ok_intro b0 b1 :
  128 <= b1 <= 191 → (b0 = 0xE0 → 0xA0 <= b1) → (b0 = 0xF0 → 0x90 <= b1) → (b0 = 0xED → b1 <= 0x9F) →
  (b0 = 0xF4 → b1 <= 0x8F) → second_ok b0 b1 = true.
Proof.
  intros. unfold second_ok. apply andb_true_iff. rewrite !Z.leb_le.
  destruct (Z.eqb_spec b0 0xE0), (Z.eqb_spec b0 0xF0), (Z.eqb_spec b0 0xED), (Z.eqb_spec b0 0xF4); lia.
Qed.

(** Takes the branch of the outermost conditional that arithmetic allows. *)
Ltac take_branch :=
  match goal with
  | |- (if ?a <? ?b then _ else _) = _ => destruct (Z.ltb_spec a b); try lia
  | |- (if (?a <? ?b) || (?c <? ?d) then _ else _) = _ =>
      destruct (Z.ltb_spec a b), (Z.ltb_spec c d); try lia; cbn [orb]
  | |- (if negb ((?a <=? ?b) && (?c <=? ?d)) then _ else _) = _ =>
      destruct (Z.leb_spec a b), (Z.leb_spec c d); try lia; cbn [andb negb]
  end.

Lemma runes_AppendRune c s : scalar c = true → runes (AppendRune c +:+ s) = Rune c :: runes s.
Proof.
  intros Hc. unfold AppendRune. rewrite Hc. apply scalar_range in Hc.
  pose proof (split64 c ltac:(lia)) as [E0 H0]. pose proof (split64 (c / 64) ltac:(lia)) as [E1 H1].
  pose proof (split64 (c / 64 / 64) ltac:(lia)) as [E2 H2].
  rewrite !Z.div_div in E1, E2, H2 by lia.
  change (64 * 64) with 4096 in *. rewrite Z.div_div in E2 by lia. change (4096 * 64) with 262144 in *.
  destruct (Z.ltb_spec c 0x80) as [L1|L1].
  { change (String (byte_of c) EmptyString +:+ s) with (String (byte_of c) s). cbn [runes].
    rewrite byte_val_of by lia. by destruct (Z.ltb_spec c 128); [|lia]. }
  destruct (Z.ltb_spec c 0x800) as [L2|L2].
  { change (String ?a (String ?b EmptyString) +:+ s) with (String a (String b s)). cbn [runes].
    rewrite !byte_val_of, (second_ok_intro (0xC0 + _)) by lia. cbn [negb]. repeat take_branch. f_equal. f_equal. lia. }
  destruct (Z.ltb_spec c 0x10000) as [L3|L3].
  { change (String ?a (String ?b (String ?d EmptyString)) +:+ s) with (String a (String b (String d s))).
    cbn [runes]. rewrite !byte_val_of, (second_ok_intro (0xE0 + _)) by lia. cbn [negb]. unfold continuation.
    repeat take_branch. f_equal. f_equal. lia. }
  change (String ?a (String ?b (String ?d (String ?e EmptyString))) +:+ s)
    with (String a (String b (String d (String e s)))).
  cbn [runes]. rewrite !byte_val_of, (second_ok_intro (0xF0 + _)) by lia. cbn [negb]. unfold continuation.
  repeat take_branch. f_equal. f_equal. lia.
Qed.

Lemma runes_flatten rs : forallb valid_rune rs = true → runes (flatten rs) = rs.
Proof.
  induction rs as [|r rs IH]; [done|]. cbn [forallb flatten]. intros [Hr Hrs]%andb_true_iff.
  destruct r as [c|]; [|done]. cbn [rune_bytes]. by rewrite runes_AppendRune, IH.
Qed.

Lemma byte_of_eq z c : z = byte_val c → byte_of z = c.
Proof. intros ->. apply byte_of_val. Qed.

Lemma second_ok_elim b0 b1 :
  second_ok b0 b1 = true →
  128 <= b1 <= 191 ∧ (b0 = 0xE0 → 0xA0 <= b1) ∧ (b0 = 0xF0 → 0x90 <= b1) ∧ (b0 = 0xED → b1 <= 0x9F) ∧
  (b0 = 0xF4 → b1 <= 0x8F).
Proof.
  unfold second_ok. rewrite andb_true_iff, !Z.leb_le.
  destruct (Z.eqb_spec b0 0xE0), (Z.eqb_spec b0 0xF0), (Z.eqb_spec b0 0xED), (Z.eqb_spec b0 0xF4); lia.
Qed.

(** The quotients [AppendRune] computes, of a number given by its groups of six bits. *)
Lemma groups a b : 0 <= b < 64 → (a * 64 + b) / 64 = a ∧ (a * 64 + b) mod 64 = b.
Proof.
  intros Hb. rewrite Z.div_add_l, (Z.div_small b), Z.add_0_r by lia.
  split; [done|]. rewrite Z.add_comm, Z.mod_add, Z.mod_small; lia.
Qed.

Lemma AppendRune_2 b0 b1 :
  0xC2 <= b0 < 0xE0 → 128 <= b1 <= 191 →
  let c := (b0 - 0xC0) * 64 + (b1 - 128) in
  scalar c = true ∧ AppendRune c = String (byte_of b0) (String (byte_of b1) EmptyString).
Proof.
  intros H0 H1 c. assert (scalar c = true) as Hs by (apply scalar_range; lia). split; [done|].
  unfold AppendRune. rewrite Hs. destruct (groups (b0 - 0xC0) (b1 - 128)) as [Eq Em]; [lia|].
  fold c in Eq, Em. rewrite Eq, Em.
  destruct (Z.ltb_spec c 0x80), (Z.ltb_spec c 0x800); try lia. repeat f_equal; lia.
Qed.

Lemma AppendRune_3 b0 b1 b2 :
  0xE0 <= b0 < 0xF0 → second_ok b0 b1 = true → 128 <= b2 <= 191 →
  let c := (b0 - 0xE0) * 4096 + (b1 - 128) * 64 + (b2 - 128) in
  scalar c = true ∧
  AppendRune c = String (byte_of b0) (String (byte_of b1) (String (byte_of b2) EmptyString)).
Proof.
  intros H0 H1%second_ok_elim H2 c. assert (scalar c = true) as Hs by (apply scalar_range; lia). split; [done|].
  unfold AppendRune. rewrite Hs. change 4096 with (64 * 64). rewrite <-Z.div_div by lia.
  replace c with (((b0 - 0xE0) * 64 + (b1 - 128)) * 64 + (b2 - 128)) by lia.
  set (c' := _ * 64 + (b2 - 128)).
  destruct (groups ((b0 - 0xE0) * 64 + (b1 - 128)) (b2 - 128)) as [Eq Em]; [lia|].
  fold c' in Eq, Em. rewrite Eq, Em.
  destruct (groups (b0 - 0xE0) (b1 - 128)) as [-> ->]; [lia|].
  destruct (Z.ltb_spec c' 0x80), (Z.ltb_spec c' 0x800), (Z.ltb_spec c' 0x10000); try (unfold c' in *; lia).
  repeat f_equal; lia.
Qed.

Lemma AppendRune_4 b0 b1 b2 b3 :
  0xF0 <= b0 <= 0xF4 → second_ok b0 b1 = true → 128 <= b2 <= 191 → 128 <= b3 <= 191 →
  let c := (b0 - 0xF0) * 262144 + (b1 - 128) * 4096 + (b2 - 128) * 64 + (b3 - 128) in
  scalar c = true ∧
  AppendRune c =
    String (byte_of b0) (String (byte_of b1) (String (byte_of b2) (String (byte_of b3) EmptyString))).
Proof.
  intros H0 H1%second_ok_elim H2 H3 c. assert (scalar c = true) as Hs by (apply scalar_range; lia).
  split; [done|]. unfold AppendRune. rewrite Hs. change 262144 with (64 * 64 * 64). change 4096 with (64 * 64).
  rewrite <-!Z.div_div by lia.
  replace c with ((((b0 - 0xF0) * 64 + (b1 - 128)) * 64 + (b2 - 128)) * 64 + (b3 - 128)) by lia.
  set (c' := _ * 64 + (b3 - 128)).
  destruct (groups (((b0 - 0xF0) * 64 + (b1 - 128)) * 64 + (b2 - 128)) (b3 - 128)) as [Eq Em]; [lia|].
  fold c' in Eq, Em. rewrite Eq, Em.
  destruct (groups ((b0 - 0xF0) * 64 + (b1 - 128)) (b2 - 128)) as [-> ->]; [lia|].
  destruct (groups (b0 - 0xF0) (b1 - 128)) as [-> ->]; [lia|].
  destruct (Z.ltb_spec c' 0x80), (Z.ltb_spec c' 0x800), (Z.ltb_spec c' 0x10000); try (unfold c' in *; lia).
  repeat f_equal; lia.
Qed.

(** Each step reads one encoding or one bad byte. *)
Lemma runes_step b s :
  (∃ c t, scalar c = true ∧ String b s = AppendRune c +:+ t ∧ runes (String b s) = Rune c :: runes t) ∨
  runes (String b s) = Bad :: runes s.
Proof.
  cbn [runes]. cbv zeta. pose proof (byte_val_bound b) as B0.
  destruct (Z.ltb_spec (byte_val b) 128) as [L0|L0].
  { left. exists (byte_val b), s. assert (scalar (byte_val b) = true) as Hs by (apply scalar_range; lia).
    split_and!; [done| |done]. unfold AppendRune. rewrite Hs. destruct (Z.ltb_spec (byte_val b) 0x80); [|lia].
    by rewrite byte_of_val. }
  destruct (Z.ltb_spec (byte_val b) 0xC2), (Z.ltb_spec 0xF4 (byte_val b)); simpl; try by right.
  destruct s as [|c1 s2]; [by right|]. destruct (second_ok _ _) eqn:S1; simpl; [|by right].
  pose proof (second_ok_elim _ _ S1) as (B1 & _).
  destruct (Z.ltb_spec (byte_val b) 0xE0) as [L1|L1].
  { left. destruct (AppendRune_2 (byte_val b) (byte_val c1)) as [Hs E]; [lia..|].
    eexists _, s2. split_and!; [exact Hs| |done]. by rewrite E, !byte_of_val. }
  destruct s2 as [|c2 s3]; [by right|]. destruct (continuation (byte_val c2)) eqn:S2; simpl; [|by right].
  apply andb_true_iff in S2 as [?%Z.leb_le ?%Z.leb_le].
  destruct (Z.ltb_spec (byte_val b) 0xF0) as [L2|L2].
  { left. destruct (AppendRune_3 (byte_val b) (byte_val c1) (byte_val c2)) as [Hs E]; [lia|done|lia|].
    eexists _, s3. split_and!; [exact Hs| |done]. by rewrite E, !byte_of_val. }
  destruct s3 as [|c3 s4]; [by right|]. destruct (continuation (byte_val c3)) eqn:S3; simpl; [|by right].
  apply andb_true_iff in S3 as [?%Z.leb_le ?%Z.leb_le]. left.
  destruct (AppendRune_4 (byte_val b) (byte_val c1) (byte_val c2) (byte_val c3)) as [Hs E]; [lia|done|lia|lia|].
  eexists _, s4. split_and!; [exact Hs| |done]. by rewrite E, !byte_of_val.
Qed.

Lemma AppendRune_length c : (0 < String.length (AppendRune c))%nat.
Proof. unfold AppendRune. repeat case_match; simpl; lia. Qed.

(** A valid string is the encoding of its runes. *)
Lemma flatten_runes s : ValidString s = true → flatten (runes s) = s.
Proof.
  unfold ValidString. induction s as [s IH] using (induction_ltof1 _ String.length).
  destruct s as [|b s]; [done|]. destruct (runes_step b s) as [(c & t & _ & E & ->)| ->]; [|done].
  cbn [forallb flatten rune_bytes]. intros [_ Ht]%andb_true_iff. rewrite IH; [done| |done].
  unfold ltof. rewrite E, string_length_app. pose proof (AppendRune_length c). lia.
Qed.

Lemma ValidString_flatten rs : forallb valid_rune rs = true → ValidString (flatten rs) = true.
Proof. intros H. unfold ValidString. by rewrite runes_flatten. Qed.

Lemma flatten_app rs rs' : flatten (rs ++ rs') = flatten rs +:+ flatten rs'.
Proof. induction rs as [|r rs IH]; [done|]. cbn [flatten app]. by rewrite IH, string_app_assoc. Qed.

(** ASCII text is valid, one rune a byte. *)
Fixpoint ascii_text (s : bytes) : bool :=
  match s with EmptyString => true | String c s => (byte_val c <? 128) && ascii_text s end.

Lemma runes_ascii s t : ascii_text s = true → runes (s +:+ t) = map (λ c, Rune (byte_val c)) (String.list_ascii_of_string s) ++ runes t.
Proof.
  induction s as [|c s IH]; [done|]. cbn [ascii_text]. intros [Hc Hs]%andb_true_iff.
  change (String c s +:+ t) with (String c (s +:+ t)). cbn [runes String.list_ascii_of_string map app].
  by rewrite Hc, IH.
Qed.

Lemma runes_scalar s c : Rune c ∈ runes s → scalar c = true.
Proof.
  induction s as [s IH] using (induction_ltof1 _ String.length).
  destruct s as [|b s]; [by intros ?%elem_of_nil|].
  destruct (runes_step b s) as [(c' & t & Hc & E & ->)| ->]; intros [H|H]%elem_of_cons; try discriminate H.
  - by injection H as ->.
  - apply (IH t); [|done]. unfold ltof. rewrite E, string_length_app. pose proof (AppendRune_length c'). lia.
  - apply (IH s); [|done]. unfold ltof. simpl. lia.
Qed.
