(* ===== verification/Json.v ===== *)
(** * encoding/json

    What the API uses of Go's [encoding/json]: the text [Marshal] and
    [Encoder.Encode] produce (compact, HTML-escaped), the values [Decoder.Decode]
    accepts, and decoding an object into a struct of strings and text unmarshalers.
    Text is read as runes (Utf8.v); a value's strings are byte strings. *)

From Stdlib Require Import ZArith Lia Ascii DecimalString DecimalN DecimalPos DecimalFacts.
From stdpp Require Import prelude strings.
From S2P Require Import Prelude GoStd Utf8.

Inductive Json :=
  | JNull
  | JBool (b : bool)
  | JNumber (text : bytes)
  | JString (s : bytes)
  | JArray (elements : list Json)
  | JObject (members : list (bytes * Json)).

(** ** Encoding *)

Definition ascii_runes (s : bytes) : list rune :=
  map (λ c, Rune (byte_val c)) (String.list_ascii_of_string s).

Definition dquote : Z := 34.
Definition backslash : Z := 92.

Definition hex_rune (z : Z) : rune := Rune (byte_val (hex_digit (Z.to_N z))).
Definition u_escape (c : Z) : list rune :=
  [Rune backslash; Rune 117; hex_rune (c / 4096 mod 16); hex_rune (c / 256 mod 16);
   hex_rune (c / 16 mod 16); hex_rune (c mod 16)].

(** [appendString] with [escapeHTML]. *)
Definition escape_rune (r : rune) : list rune :=
  match r with
  | Bad => u_escape RuneError
  | Rune c =>
      if (c =? dquote) || (c =? backslash) then [Rune backslash; Rune c]
      else if c =? 8 then [Rune backslash; Rune 98]
      else if c =? 12 then [Rune backslash; Rune 102]
      else if c =? 10 then [Rune backslash; Rune 110]
      else if c =? 13 then [Rune backslash; Rune 114]
      else if c =? 9 then [Rune backslash; Rune 116]
      else if (c <? 32) || (c =? 60) || (c =? 62) || (c =? 38) || (c =? 0x2028) || (c =? 0x2029)
      then u_escape c
      else [Rune c]
  end.
Definition render_string (s : bytes) : list rune :=
  Rune dquote :: (runes s ≫= escape_rune) ++ [Rune dquote].

Fixpoint separated (l : list (list rune)) : list rune :=
  match l with
  | [] => []
  | [x] => x
  | x :: l => x ++ Rune 44 :: separated l
  end.

Fixpoint render (v : Json) : list rune :=
  match v with
  | JNull => ascii_runes "null"
  | JBool b => ascii_runes (if b then "true" else "false")
  | JNumber text => ascii_runes text
  | JString s => render_string s
  | JArray l => Rune 91 :: separated (map render l) ++ [Rune 93]
  | JObject ms =>
      Rune 123 :: separated (map (λ '(k, v), render_string k ++ Rune 58 :: render v) ms) ++ [Rune 125]
  end.

Definition Marshal (v : Json) : bytes := flatten (render v).
(** [Encoder.Encode] ends the value with a newline. *)
Definition Encode (v : Json) : bytes := Marshal v +:+ String (byte_of 10) EmptyString.

(** ** Decoding *)

Definition is_space (c : Z) : bool := (c =? 32) || (c =? 9) || (c =? 13) || (c =? 10).
Fixpoint skip_space (l : list rune) : list rune :=
  match l with
  | Rune c :: l' => if is_space c then skip_space l' else l
  | _ => l
  end.

Definition hex_of (c : Z) : option Z :=
  if c <? 128 then option_map Z.of_N (hex_value (byte_of c)) else None.
Definition getu4 (a b c d : Z) : option Z :=
  match hex_of a, hex_of b, hex_of c, hex_of d with
  | Some a, Some b, Some c, Some d => Some (a * 4096 + b * 256 + c * 16 + d)
  | _, _, _, _ => None
  end.

(** [utf16.IsSurrogate] and [utf16.DecodeRune]. *)
Definition IsSurrogate (r : Z) : bool := (0xD800 <=? r) && (r <? 0xE000).
Definition DecodePair (r1 r2 : Z) : option Z :=
  if (0xD800 <=? r1) && (r1 <? 0xDC00) && (0xDC00 <=? r2) && (r2 <? 0xE000)
  then Some ((r1 - 0xD800) * 1024 + (r2 - 0xDC00) + 0x10000)
  else None.

Definition simple_escape (e : Z) : option Z :=
  if (e =? dquote) || (e =? backslash) || (e =? 47) then Some e
  else if e =? 98 then Some 8
  else if e =? 102 then Some 12
  else if e =? 110 then Some 10
  else if e =? 114 then Some 13
  else if e =? 116 then Some 9
  else None.

Definition prepend {A} (r : rune) (o : option (list rune * A)) : option (list rune * A) :=
  option_map (λ '(s, rest), (r :: s, rest)) o.

(** A string after its opening quote. A lone surrogate and a bad byte both read as
    [RuneError]. *)
Fixpoint parse_string (l : list rune) : option (list rune * list rune) :=
  match l with
  | [] => None
  | Bad :: l => prepend (Rune RuneError) (parse_string l)
  | Rune c :: l1 =>
      if c =? dquote then Some ([], l1)
      else if c <? 32 then None
      else if negb (c =? backslash) then prepend (Rune c) (parse_string l1)
      else match l1 with
      | Rune e :: l2 =>
          if negb (e =? 117)
          then match simple_escape e with
               | Some b => prepend (Rune b) (parse_string l2)
               | None => None
               end
          else match l2 with
          | Rune a :: Rune b :: Rune c :: Rune d :: l6 =>
              match getu4 a b c d with
              | None => None
              | Some r =>
                  if negb (IsSurrogate r) then prepend (Rune r) (parse_string l6)
                  else match l6 with
                  | Rune x :: Rune y :: Rune a' :: Rune b' :: Rune c' :: Rune d' :: l12 =>
                      match (if (x =? backslash) && (y =? 117) then getu4 a' b' c' d' else None) with
                      | None => prepend (Rune RuneError) (parse_string l6)
                      | Some r' =>
                          match DecodePair r r' with
                          | Some dec => prepend (Rune dec) (parse_string l12)
                          | None => prepend (Rune RuneError) (parse_string l6)
                          end
                      end
                  | _ => prepend (Rune RuneError) (parse_string l6)
                  end
              end
          | _ => None
          end
      | _ => None
      end
  end.

(** ** Numbers and values *)

Definition is_digit (c : Z) : bool := (48 <=? c) && (c <=? 57).
Fixpoint span_digits (l : list rune) : list rune * list rune :=
  match l with
  | Rune c :: l' => if is_digit c then let '(ds, rest) := span_digits l' in (Rune c :: ds, rest) else ([], l)
  | _ => ([], l)
  end.
(** At least one digit. *)
Definition digits1 (l : list rune) : option (list rune * list rune) :=
  match span_digits l with ([], _) => None | p => Some p end.

Definition int_part (l : list rune) : option (list rune * list rune) :=
  match l with
  | Rune c :: l' => if c =? 48 then Some ([Rune 48], l') else digits1 l
  | _ => None
  end.
Definition frac_part (l : list rune) : option (list rune * list rune) :=
  match l with
  | Rune c :: l' => if c =? 46 then prepend (Rune 46) (digits1 l') else Some ([], l)
  | _ => Some ([], l)
  end.
Definition exp_part (l : list rune) : option (list rune * list rune) :=
  match l with
  | Rune c :: l' =>
      if (c =? 101) || (c =? 69)
      then match l' with
           | Rune s :: l'' => if (s =? 43) || (s =? 45) then prepend (Rune c) (prepend (Rune s) (digits1 l''))
                              else prepend (Rune c) (digits1 l')
           | _ => None
           end
      else Some ([], l)
  | _ => Some ([], l)
  end.
Definition then_part (o : option (list rune * list rune)) (f : list rune → option (list rune * list rune))
    : option (list rune * list rune) :=
  match o with
  | Some (a, l) => option_map (λ '(b, rest), (a ++ b, rest)) (f l)
  | None => None
  end.
Definition parse_number (l : list rune) : option (list rune * list rune) :=
  let body l := then_part (then_part (int_part l) frac_part) exp_part in
  match l with
  | Rune c :: l' => if c =? 45 then prepend (Rune 45) (body l') else body l
  | _ => None
  end.

Fixpoint expect (p l : list rune) : option (list rune) :=
  match p, l with
  | [], _ => Some l
  | a :: p, b :: l => if decide (a = b) then expect p l else None
  | _, [] => None
  end.

Definition maxNestingDepth : Z := 10000.

Definition literal (text : bytes) (v : Json) (l : list rune) : option (Json * list rune) :=
  option_map (λ rest, (v, rest)) (expect (ascii_runes text) l).

(** [d] objects and arrays are open. *)
Fixpoint parse_value (n : nat) (d : Z) (l : list rune) {struct n} : option (Json * list rune) :=
  match n with
  | O => None
  | S n =>
      match skip_space l with
      | Rune c :: l' =>
          if c =? 123 then
            if maxNestingDepth <=? d then None else
            match skip_space l' with
            | Rune c' :: l'' =>
                if c' =? 125 then Some (JObject [], l'')
                else option_map (λ '(ms, rest), (JObject ms, rest)) (parse_members n (d + 1) (Rune c' :: l''))
            | _ => None
            end
          else if c =? 91 then
            if maxNestingDepth <=? d then None else
            match skip_space l' with
            | Rune c' :: l'' =>
                if c' =? 93 then Some (JArray [], l'')
                else option_map (λ '(vs, rest), (JArray vs, rest)) (parse_elements n (d + 1) (Rune c' :: l''))
            | _ => None
            end
          else if c =? dquote then
            option_map (λ '(s, rest), (JString (flatten s), rest)) (parse_string l')
          else if c =? 116 then literal "true" (JBool true) (Rune c :: l')
          else if c =? 102 then literal "false" (JBool false) (Rune c :: l')
          else if c =? 110 then literal "null" JNull (Rune c :: l')
          else option_map (λ '(t, rest), (JNumber (flatten t), rest)) (parse_number (Rune c :: l'))
      | _ => None
      end
  end
with parse_elements (n : nat) (d : Z) (l : list rune) {struct n} : option (list Json * list rune) :=
  match n with
  | O => None
  | S n =>
      match parse_value n d l with
      | None => None
      | Some (v, l) =>
          match skip_space l with
          | Rune c :: l =>
              if c =? 44 then option_map (λ '(vs, rest), (v :: vs, rest)) (parse_elements n d l)
              else if c =? 93 then Some ([v], l)
              else None
          | _ => None
          end
      end
  end
with parse_members (n : nat) (d : Z) (l : list rune) {struct n}
    : option (list (bytes * Json) * list rune) :=
  match n with
  | O => None
  | S n =>
      match skip_space l with
      | Rune q :: l =>
          if negb (q =? dquote) then None else
          match parse_string l with
          | None => None
          | Some (k, l) =>
              match skip_space l with
              | Rune c :: l =>
                  if negb (c =? 58) then None else
                  match parse_value n d l with
                  | None => None
                  | Some (v, l) =>
                      match skip_space l with
                      | Rune c :: l =>
                          if c =? 44
                          then option_map (λ '(ms, rest), ((flatten k, v) :: ms, rest)) (parse_members n d l)
                          else if c =? 125 then Some ([(flatten k, v)], l)
                          else None
                      | _ => None
                      end
                  end
              | _ => None
              end
          end
      | _ => None
      end
  end.

(** The first value of the text; what follows it is not looked at. *)
Definition fuel_for (l : list rune) : nat := S (2 * length l).
Definition Decode (b : bytes) : option Json :=
  let l := runes b in option_map fst (parse_value (fuel_for l) 0 l).

Definition text_of (l : list Z) : bytes := flatten (map Rune l).
Example Decode_object :
  Decode (text_of [123; 32; 34; 97; 34; 58; 91; 49; 44; 45; 48; 46; 53; 101; 43; 55; 44; 116; 114; 117; 101; 93; 125; 120]) =
    Some (JObject [("a", JArray [JNumber "1"; JNumber "-0.5e+7"; JBool true])]).
Proof. vm_compute. reflexivity. Qed.
Example Decode_bad : map (λ t, Decode (text_of t)) [[]; [49; 46]; [91; 49; 44; 93]; [34; 10; 34]] = [None; None; None; None].
Proof. vm_compute. reflexivity. Qed.
Example Encode_escapes :
  Marshal (JString (flatten [Rune 60; Rune 34; Rune 7; Rune 233; Bad])) =
    flatten ([Rune dquote] ++ ascii_runes "\u003c\" ++ [Rune dquote] ++ ascii_runes "\u0007" ++ [Rune 233; Rune RuneError; Rune dquote]).
Proof. vm_compute. reflexivity. Qed.

(** ** What is written is read back *)

(** What a decoder sees of a rune: a bad byte is a replacement character. *)
Definition seen (r : rune) : rune := match r with Bad => Rune RuneError | r => r end.
Definition sanitize_string (s : bytes) : bytes := flatten (runes s).
Fixpoint sanitize (v : Json) : Json :=
  match v with
  | JString s => JString (sanitize_string s)
  | JArray l => JArray (map sanitize l)
  | JObject ms => JObject (map (λ '(k, v), (sanitize_string k, sanitize v)) ms)
  | v => v
  end.

Lemma flatten_seen rs : flatten (map seen rs) = flatten rs.
Proof. induction rs as [|[c|] rs IH]; [done|..]; cbn [map flatten]; by rewrite IH. Qed.

Lemma hex_of_rune z : 0 <= z < 16 → hex_of (byte_val (hex_digit (Z.to_N z))) = Some z.
Proof.
  intros Hz. destruct z as [|p|p]; [reflexivity| |lia].
  do 4 (destruct p as [p|p|]; try reflexivity). all: lia.
Qed.

Lemma getu4_escape c :
  0 <= c < 65536 →
  getu4 (byte_val (hex_digit (Z.to_N (c / 4096 mod 16)))) (byte_val (hex_digit (Z.to_N (c / 256 mod 16))))
    (byte_val (hex_digit (Z.to_N (c / 16 mod 16)))) (byte_val (hex_digit (Z.to_N (c mod 16)))) = Some c.
Proof.
  intros Hc. unfold getu4. rewrite !hex_of_rune by (apply Z.mod_pos_bound; lia). f_equal.
  change 4096 with (16 * 16 * 16) at 1. change 256 with (16 * 16) at 1. rewrite <-!Z.div_div by lia.
  pose proof (Z.div_mod c 16). pose proof (Z.div_mod (c / 16) 16). pose proof (Z.div_mod (c / 16 / 16) 16).
  rewrite (Z.mod_small (c / 16 / 16 / 16)); [lia|].
  split; [repeat apply Z.div_pos; lia|]. repeat apply Z.div_lt_upper_bound; lia.
Qed.

Lemma parse_string_u c T :
  0 <= c < 65536 → IsSurrogate c = false →
  parse_string (u_escape c ++ T) = prepend (Rune c) (parse_string T).
Proof.
  intros Hc Hs. unfold u_escape. cbn [app parse_string]. unfold hex_rune.
  change (backslash =? dquote) with false. change (backslash <? 32) with false.
  change (backslash =? backslash) with true. cbn [negb]. cbv iota.
  change (117 =? 117) with true. cbn [negb]. cbv iota. rewrite getu4_escape by done. by rewrite Hs.
Qed.

Lemma parse_string_escape r T :
  valid_rune r = true ∨ r = Bad → parse_string (escape_rune r ++ T) = prepend (seen r) (parse_string T).
Proof.
  intros Hr. destruct r as [c|]; [|by apply parse_string_u]. destruct Hr as [Hr%scalar_range|]; [|done].
  unfold escape_rune. destruct ((c =? dquote) || (c =? backslash)) eqn:E1.
  { apply orb_true_iff in E1 as [->%Z.eqb_eq| ->%Z.eqb_eq]; reflexivity. }
  apply orb_false_iff in E1 as [N1%Z.eqb_neq N2%Z.eqb_neq].
  do 5 (match goal with |- context [if c =? ?k then _ else _] => destruct (Z.eqb_spec c k) as [->|]; [reflexivity|] end).
  destruct (_ || (c =? 0x2029)) eqn:E2.
  - apply parse_string_u.
    + repeat (apply orb_true_iff in E2 as [E2|E2]); bool_to_prop; lia.
    + unfold IsSurrogate. apply andb_false_iff. rewrite Z.leb_gt, Z.ltb_ge.
      repeat (apply orb_true_iff in E2 as [E2|E2]); bool_to_prop; lia.
  - repeat (apply orb_false_iff in E2 as [E2 ?]). cbn [app parse_string].
    destruct (Z.eqb_spec c dquote); [done|]. rewrite E2. by destruct (Z.eqb_spec c backslash).
Qed.

Lemma parse_string_render s rest :
  parse_string ((runes s ≫= escape_rune) ++ Rune dquote :: rest) = Some (map seen (runes s), rest).
Proof.
  assert (∀ rs, Forall (λ r, valid_rune r = true ∨ r = Bad) rs →
    parse_string ((rs ≫= escape_rune) ++ Rune dquote :: rest) = Some (map seen rs, rest)) as H.
  { induction 1 as [|r rs Hr _ IH]; [done|].
    rewrite bind_cons, <-app_assoc, parse_string_escape, IH by done. done. }
  apply H, Forall_forall. intros [c|] Hin; [left; by eapply runes_scalar|by right].
Qed.

(** *** Integers *)

Definition delimiter (rest : list rune) : Prop :=
  match rest with
  | Rune c :: _ => is_digit c = false ∧ c ≠ 46 ∧ c ≠ 101 ∧ c ≠ 69
  | _ => True
  end.

Lemma span_digits_app ds rest :
  Forall (λ r, match r with Rune c => is_digit c = true | Bad => False end) ds → delimiter rest →
  span_digits (ds ++ rest) = (ds, rest).
Proof.
  induction 1 as [|r ds Hr _ IH]; intros Hd.
  - destruct rest as [|[c|] rest]; [done| |done]. cbn [app span_digits]. destruct Hd as [-> _]. done.
  - destruct r as [c|]; [|done]. cbn [app span_digits]. by rewrite Hr, IH.
Qed.

Definition uint_runes (d : Decimal.uint) : list rune := ascii_runes (NilEmpty.string_of_uint d).

Lemma uint_runes_digits d : Forall (λ r, match r with Rune c => is_digit c = true | Bad => False end) (uint_runes d).
Proof. unfold uint_runes. induction d; cbn; constructor; done. Qed.

Lemma to_uint_leading p d : Pos.to_uint p ≠ Decimal.D0 d.
Proof.
  intros E. pose proof (DecimalN.Unsigned.to_of (Pos.to_uint p)) as H.
  change (Pos.to_uint p) with (N.to_uint (Npos p)) in H at 1. rewrite DecimalN.Unsigned.of_to in H.
  change (N.to_uint (Npos p)) with (Pos.to_uint p) in H. rewrite E in H. unfold Decimal.unorm in H.
  destruct (Decimal.nzhead (Decimal.D0 d)) eqn:En; try discriminate H.
  - injection H as ->. by apply (DecimalPos.Unsigned.to_uint_nonzero p).
  - by apply DecimalFacts.nzhead_nonzero in En.
Qed.

Lemma digits1_app ds rest : ds ≠ [] →
  Forall (λ r, match r with Rune c => is_digit c = true | Bad => False end) ds → delimiter rest →
  digits1 (ds ++ rest) = Some (ds, rest).
Proof. intros Hne Hds Hr. unfold digits1. rewrite span_digits_app by done. by destruct ds. Qed.

Lemma body_integer ds rest :
  int_part (ds ++ rest) = Some (ds, rest) → delimiter rest →
  then_part (then_part (int_part (ds ++ rest)) frac_part) exp_part = Some (ds, rest).
Proof.
  intros -> Hd. unfold then_part, frac_part, exp_part.
  assert (delimiter rest → match rest with Rune c :: _ => c =? 46 = false ∧ (c =? 101) || (c =? 69) = false | _ => True end) as H.
  { destruct rest as [|[c|] ?]; [done| |done]. intros (_ & ? & ? & ?).
    destruct (Z.eqb_spec c 46), (Z.eqb_spec c 101), (Z.eqb_spec c 69); done. }
  specialize (H Hd). destruct rest as [|[c|] rest]; [simpl; by rewrite !app_nil_r| |simpl; by rewrite !app_nil_r].
  destruct H as [H1 H2]. rewrite H1. simpl. rewrite H2. simpl. by rewrite !app_nil_r.
Qed.

Lemma int_part_uint d rest :
  d ≠ Decimal.Nil → (∀ d', d = Decimal.D0 d' → d' = Decimal.Nil) → delimiter rest →
  int_part (uint_runes d ++ rest) = Some (uint_runes d, rest).
Proof.
  intros Hn H0 Hr. pose proof (uint_runes_digits d) as Hd.
  destruct d; [done|..]; try (by apply digits1_app). rewrite (H0 _ eq_refl). done.
Qed.

(** A number's text is as [strconv.AppendInt] writes it. *)
Lemma parse_number_integer z rest :
  delimiter rest →
  parse_number (ascii_runes (big_String z) ++ rest) = Some (ascii_runes (big_String z), rest).
Proof.
  intros Hr. unfold big_String, NilZero.string_of_int.
  assert (∀ p, NilZero.string_of_uint (Pos.to_uint p) = NilEmpty.string_of_uint (Pos.to_uint p)) as Hz.
  { intros p. unfold NilZero.string_of_uint. pose proof (DecimalPos.Unsigned.to_uint_nonnil p).
    by destruct (Pos.to_uint p). }
  assert (∀ p, then_part (then_part (int_part (uint_runes (Pos.to_uint p) ++ rest)) frac_part) exp_part =
     Some (uint_runes (Pos.to_uint p), rest)) as Hb.
  { intros p. apply body_integer; [|done]. apply int_part_uint; [apply DecimalPos.Unsigned.to_uint_nonnil| |done].
    intros d' E. by apply to_uint_leading in E. }
  destruct z as [|p|p]; cbn [Z.to_int].
  - apply (body_integer (ascii_runes "0")); [done|done].
  - rewrite Hz. specialize (Hb p). fold (uint_runes (Pos.to_uint p)). unfold parse_number.
    pose proof (uint_runes_digits (Pos.to_uint p)) as Hd.
    destruct (uint_runes (Pos.to_uint p)) as [|[c|] ds] eqn:E; [|apply Forall_cons in Hd as [Hc _]|].
    + by destruct (Pos.to_uint p) eqn:E'; [apply DecimalPos.Unsigned.to_uint_nonnil in E'|..].
    + cbn [app]. destruct (Z.eqb_spec c 45) as [->|]; [done|]. exact Hb.
    + by apply Forall_cons in Hd as [[] _].
  - rewrite Hz. unfold parse_number. specialize (Hb p). unfold ascii_runes.
    cbn [String.list_ascii_of_string map app]. change (byte_val "-" =? 45) with true. cbv iota.
    fold (ascii_runes (NilEmpty.string_of_uint (Pos.to_uint p))). fold (uint_runes (Pos.to_uint p)).
    by rewrite Hb.
Qed.

(** *** Values *)

Section json_ind.
Context (P : Json → Prop).
Hypothesis (Hnull : P JNull) (Hbool : ∀ b, P (JBool b)) (Hnum : ∀ t, P (JNumber t)) (Hstr : ∀ s, P (JString s)).
Hypothesis (Harr : ∀ l, Forall P l → P (JArray l)) (Hobj : ∀ ms, Forall (λ m, P (snd m)) ms → P (JObject ms)).

Fixpoint Json_nested_ind (v : Json) : P v :=
  match v with
  | JNull => Hnull
  | JBool b => Hbool b
  | JNumber t => Hnum t
  | JString s => Hstr s
  | JArray l =>
      Harr l ((fix go l : Forall P l :=
                 match l with [] => Forall_nil_2 P | v :: l => Forall_cons_2 P v l (Json_nested_ind v) (go l) end) l)
  | JObject ms =>
      Hobj ms ((fix go ms : Forall (λ m, P (snd m)) ms :=
                  match ms with
                  | [] => Forall_nil_2 _
                  | m :: ms => Forall_cons_2 (λ m, P (snd m)) m ms (Json_nested_ind (snd m)) (go ms)
                  end) ms)
  end.
End json_ind.

(** Every number is an integer as Go writes it. *)
Fixpoint integers (v : Json) : Prop :=
  match v with
  | JNumber t => ∃ z, t = big_String z
  | JArray l => foldr (λ v acc, integers v ∧ acc) True l
  | JObject ms => foldr (λ m acc, integers (snd m) ∧ acc) True ms
  | _ => True
  end.
Fixpoint depth (v : Json) : Z :=
  match v with
  | JArray l => 1 + foldr (λ v m, Z.max (depth v) m) 0 l
  | JObject ms => 1 + foldr (λ m d, Z.max (depth (snd m)) d) 0 ms
  | _ => 0
  end.
(** The calls that parse the value's text make. *)
Fixpoint cost (v : Json) : nat :=
  match v with
  | JArray l => S (foldr (λ v n, S (cost v + n)) O l)
  | JObject ms => S (foldr (λ m n, S (cost (snd m) + n)) O ms)
  | _ => 1%nat
  end.

Definition parses (v : Json) : Prop := ∀ n d rest,
  integers v → (cost v <= n)%nat → depth v + d <= maxNestingDepth → delimiter rest →
  parse_value n d (render v ++ rest) = Some (sanitize v, rest).

(** No value's text starts with a space or a closing bracket. *)
Definition opens (l : list rune) : Prop :=
  ∃ c l', l = Rune c :: l' ∧ is_space c = false ∧ c ≠ 93 ∧ c ≠ 125.

Lemma opens_app l r : opens l → opens (l ++ r).
Proof. intros (c & l' & -> & H). by exists c, (l' ++ r). Qed.

Lemma skip_space_opens l : opens l → skip_space l = l.
Proof. intros (c & l' & -> & H & _). simpl. by rewrite H. Qed.

Lemma integer_first z : ∃ c l, ascii_runes (big_String z) = Rune c :: l ∧ (c = 45 ∨ is_digit c = true).
Proof.
  pose proof (parse_number_integer z [] I) as H. rewrite app_nil_r in H. unfold parse_number in H.
  destruct (ascii_runes (big_String z)) as [|[c|] l]; [done| |done]. exists c, l. split; [done|].
  destruct (Z.eqb_spec c 45); [by left|right]. unfold then_part, int_part in H.
  destruct (Z.eqb_spec c 48) as [->|]; [done|]. unfold digits1 in H. cbn [span_digits] in H.
  by destruct (is_digit c).
Qed.

Lemma digit_range c : is_digit c = true → 48 <= c <= 57.
Proof. unfold is_digit. intros [?%Z.leb_le ?%Z.leb_le]%andb_true_iff. done. Qed.

Lemma render_opens v : integers v → opens (render v).
Proof.
  destruct v as [|[]|t|s|l|ms]; cbn [render]; intros Hi; try (by eexists _, _).
  destruct Hi as [z ->]. destruct (integer_first z) as (c & l & -> & Hc). exists c, l. split; [done|].
  destruct Hc as [->|Hc%digit_range]; [done|]. unfold is_space.
  destruct (Z.eqb_spec c 32), (Z.eqb_spec c 9), (Z.eqb_spec c 13), (Z.eqb_spec c 10); simpl; repeat split; lia.
Qed.

Lemma separated_cons x y l : separated (x :: y :: l) = x ++ Rune 44 :: separated (y :: l).
Proof. done. Qed.

Lemma parse_elements_render l n d rest :
  l ≠ [] → Forall parses l → foldr (λ v acc, integers v ∧ acc) True l →
  (foldr (λ v n, S (cost v + n)) O l <= n)%nat → foldr (λ v m, Z.max (depth v) m) 0 l + d <= maxNestingDepth →
  parse_elements n d (separated (map render l) ++ Rune 93 :: rest) = Some (map sanitize l, rest).
Proof.
  intros Hne Hl. revert n Hne. induction Hl as [|v l Hv Hl IH]; intros n Hne Hi Hc Hd; [done|].
  cbn [foldr] in Hi, Hc, Hd. destruct Hi as [Hi Hil]. destruct n as [|n]; [lia|]. cbn [parse_elements].
  destruct l as [|v' l].
  - cbn [map separated]. rewrite Hv; [|done|simpl in *; lia|simpl in *; lia|done]. done.
  - cbn [map]. rewrite separated_cons, <-app_assoc, Hv; [|done|simpl in *; lia|lia|done].
    cbn [app skip_space]. change (is_space 44) with false. cbv iota. change (44 =? 44) with true. cbv iota.
    change (render v' :: map render l) with (map render (v' :: l)).
    rewrite IH; [done|done|done|simpl in *; lia|lia].
Qed.

Lemma parse_members_render ms n d rest :
  ms ≠ [] → Forall (λ m, parses (snd m)) ms → foldr (λ m acc, integers (snd m) ∧ acc) True ms →
  (foldr (λ m n, S (cost (snd m) + n)) O ms <= n)%nat → foldr (λ m m', Z.max (depth (snd m)) m') 0 ms + d <= maxNestingDepth →
  parse_members n d (separated (map (λ '(k, v), render_string k ++ Rune 58 :: render v) ms) ++ Rune 125 :: rest) =
    Some (map (λ '(k, v), (sanitize_string k, sanitize v)) ms, rest).
Proof.
  intros Hne Hl. revert n Hne. induction Hl as [|[k v] ms Hv Hl IH]; intros n Hne Hi Hc Hd; [done|].
  cbn [foldr snd] in Hi, Hc, Hd. destruct Hi as [Hi Hil]. destruct n as [|n]; [lia|]. cbn [parse_members].
  assert (∀ T, skip_space (separated (map (λ '(k, v), render_string k ++ Rune 58 :: render v) ((k, v) :: ms)) ++ T) =
    Rune dquote :: (runes k ≫= escape_rune) ++ Rune dquote :: Rune 58 :: render v ++
      match ms with [] => T | _ => Rune 44 :: separated (map (λ '(k, v), render_string k ++ Rune 58 :: render v) ms) ++ T end) as HT.
  { intros T. destruct ms as [|m ms]; [|cbn [map]; rewrite separated_cons; destruct m];
      unfold render_string; cbn [map separated app skip_space]; rewrite <-!app_assoc; cbn [app]; by rewrite <-?app_assoc. }
  rewrite HT. change (dquote =? dquote) with true. cbn [negb]. cbv iota.
  rewrite parse_string_render. cbn [skip_space]. change (is_space 58) with false. cbv iota.
  change (58 =? 58) with true. cbn [negb]. cbv iota.
  rewrite flatten_seen. fold (sanitize_string k).
  rewrite Hv; [|done|simpl in *; lia|simpl in *; lia|by destruct ms].
  destruct ms as [|m' ms]; [done|]. cbn [skip_space]. change (is_space 44) with false. cbv iota.
  change (44 =? 44) with true. cbv iota.
  rewrite IH; [done|done|done|simpl in *; lia|simpl in *; lia].
Qed.

Lemma opens_not_close (l : list rune) : opens l → ∃ c l', l = Rune c :: l' ∧ c =? 93 = false ∧ c =? 125 = false.
Proof. intros (c & l' & -> & _ & ?%Z.eqb_neq & ?%Z.eqb_neq). eauto. Qed.

Lemma depth_nonneg v : 0 <= depth v.
Proof. destruct v; simpl; try lia; [induction elements|induction members]; simpl; lia. Qed.

(** *** ASCII text *)

Lemma runes_ascii_runes s : ascii_text s = true → runes s = ascii_runes s.
Proof. intros H. pose proof (runes_ascii s EmptyString H) as E. by rewrite string_app_empty_r, app_nil_r in E. Qed.

Lemma valid_ascii_runes s : ascii_text s = true → forallb valid_rune (ascii_runes s) = true.
Proof.
  unfold ascii_runes. induction s as [|c s IH]; [done|].
  cbn [ascii_text String.list_ascii_of_string map forallb valid_rune]. intros [Hc%Z.ltb_lt Hs]%andb_true_iff.
  rewrite IH by done. pose proof (byte_val_bound c). rewrite andb_true_r. apply scalar_range. lia.
Qed.

Lemma flatten_ascii_runes s : ascii_text s = true → flatten (ascii_runes s) = s.
Proof.
  intros H. rewrite <-(runes_ascii_runes s) by done. apply flatten_runes. unfold ValidString.
  by rewrite runes_ascii_runes, valid_ascii_runes.
Qed.

Lemma sanitize_valid s : ValidString s = true → sanitize_string s = s.
Proof. apply flatten_runes. Qed.
Lemma sanitize_ascii s : ascii_text s = true → sanitize_string s = s.
Proof. intros H. unfold sanitize_string. by rewrite runes_ascii_runes, flatten_ascii_runes. Qed.

Lemma big_String_ascii z : ascii_text (big_String z) = true.
Proof.
  assert (∀ d, ascii_text (NilEmpty.string_of_uint d) = true) as Hd by (induction d; simpl; done).
  unfold big_String, NilZero.string_of_int, NilZero.string_of_uint.
  destruct (Z.to_int z) as [[]|[]]; try apply Hd; try done; apply (Hd (Decimal.D0 _)).
Qed.

Lemma parse_number_value n d z rest :
  delimiter rest →
  parse_value (S n) d (ascii_runes (big_String z) ++ rest) = Some (JNumber (big_String z), rest).
Proof.
  intros Hr. pose proof (parse_number_integer z rest Hr) as Hp. destruct (integer_first z) as (c & l & El & Hc).
  pose proof (flatten_ascii_runes _ (big_String_ascii z)) as Ef. rewrite El in *.
  cbn [app] in *. cbn [parse_value skip_space].
  assert (is_space c = false ∧ c =? 123 = false ∧ c =? 91 = false ∧ c =? dquote = false ∧ c =? 116 = false ∧
    c =? 102 = false ∧ c =? 110 = false) as (-> & -> & -> & -> & -> & -> & ->).
  { destruct Hc as [->|Hc%digit_range]; [done|]. unfold is_space, dquote. rewrite !orb_false_iff, !Z.eqb_neq. lia. }
  rewrite Hp. cbn [option_map]. by rewrite Ef.
Qed.

(** *** The whole grammar *)

Lemma parse_render v : parses v.
Proof.
  induction v as [|b|t|s|l Hl|ms Hl] using Json_nested_ind; intros [|n] d rest Hi Hc Hd Hr;
    try (simpl in Hc; lia); cbn [render sanitize].
  - done.
  - by destruct b.
  - destruct Hi as [z ->]. by apply parse_number_value.
  - unfold render_string. rewrite <-app_comm_cons, <-app_assoc. cbn [app parse_value skip_space].
    change (is_space dquote) with false. cbv iota. change (dquote =? 123) with false. change (dquote =? 91) with false.
    change (dquote =? dquote) with true. cbv iota. rewrite parse_string_render. simpl. by rewrite flatten_seen.
  - cbn [app parse_value skip_space]. change (is_space 91) with false. cbv iota.
    change (91 =? 123) with false. change (91 =? 91) with true. cbv iota. cbn [depth cost] in Hd, Hc.
    destruct l as [|v l]; [|].
    { destruct (Z.leb_spec maxNestingDepth d); [simpl in *; lia|]. done. }
    destruct (Z.leb_spec maxNestingDepth d); [pose proof (depth_nonneg v); simpl in *; lia|].
    rewrite <-app_assoc. cbn [app].
    pose proof (parse_elements_render (v :: l) n (d + 1) rest ltac:(done) Hl Hi ltac:(lia) ltac:(lia)) as E.
    assert (opens (separated (map render (v :: l)) ++ Rune 93 :: rest)) as Ho.
    { apply opens_app. destruct Hi as [Hi _]. destruct l; [|cbn [map]; rewrite separated_cons; apply opens_app];
        by apply render_opens. }
    rewrite (skip_space_opens _ Ho). destruct (opens_not_close _ Ho) as (c & l' & El & H1 & _). rewrite El in *.
    rewrite H1, E. done.
  - cbn [app parse_value skip_space]. change (is_space 123) with false. cbv iota.
    change (123 =? 123) with true. cbv iota. cbn [depth cost] in Hd, Hc. destruct ms as [|[k v] ms].
    { destruct (Z.leb_spec maxNestingDepth d); [simpl in *; lia|]. done. }
    destruct (Z.leb_spec maxNestingDepth d); [pose proof (depth_nonneg v); simpl in *; lia|].
    rewrite <-app_assoc. cbn [app].
    pose proof (parse_members_render ((k, v) :: ms) n (d + 1) rest ltac:(done) Hl Hi ltac:(lia) ltac:(lia)) as E.
    set (body := separated _ ++ _) in *.
    assert (opens body) as Ho.
    { apply opens_app. exists dquote. destruct ms; cbn [map]; unfold render_string;
        [|rewrite separated_cons]; cbn [app separated]; eexists; repeat split; done. }
    rewrite (skip_space_opens _ Ho). destruct (opens_not_close _ Ho) as (c & l' & El & _ & H1). rewrite El in *.
    rewrite H1, E. done.
Qed.

(** Each call of the parser reads at least half a rune. *)
Lemma separated_length l : l ≠ [] → S (length (separated l)) = foldr (λ x n, S (length x + n))%nat O l.
Proof.
  induction l as [|x l IH]; [done|]. intros _. destruct l as [|y l]; [simpl; lia|].
  rewrite separated_cons, length_app. cbn [length]. rewrite IH by done. simpl. lia.
Qed.

Lemma cost_render v : integers v → (cost v <= 2 * length (render v))%nat.
Proof.
  induction v as [|b|t|s|l Hl|ms Hl] using Json_nested_ind; intros Hi; cbn [cost render]; try (simpl; lia).
  - destruct b; simpl; lia.
  - destruct Hi as [z ->]. destruct (integer_first z) as (c & l & -> & _). simpl. lia.
  - cbn [length]. rewrite length_app. destruct l as [|v l]; [simpl; lia|].
    enough (foldr (λ v n, S (cost v + n)) O (v :: l) <= 2 * S (length (separated (map render (v :: l)))))%nat by (cbn [length]; lia).
    rewrite separated_length by done. cbn [integers] in Hi. revert Hi. induction Hl as [|w l' Hw _ IH]; [done|].
    cbn [foldr map]. intros [Hiw Hi]. specialize (Hw Hiw). specialize (IH Hi). lia.
  - cbn [length]. rewrite length_app. destruct ms as [|m ms]; [simpl; lia|].
    enough (foldr (λ m n, S (cost (snd m) + n)) O (m :: ms) <=
      2 * S (length (separated (map (λ '(k, v), render_string k ++ Rune 58 :: render v) (m :: ms)))))%nat by (cbn [length]; lia).
    rewrite separated_length by done. cbn [integers] in Hi. revert Hi. induction Hl as [|[k w] l' Hw _ IH]; [done|].
    cbn [foldr map snd]. intros [Hiw Hi]. specialize (Hw Hiw). specialize (IH Hi). simpl in Hw.
    rewrite length_app. cbn [length]. lia.
Qed.

Lemma escape_valid r : valid_rune r = true ∨ r = Bad → forallb valid_rune (escape_rune r) = true.
Proof.
  assert (∀ c, forallb valid_rune (u_escape c) = true) as Hu.
  { intros c. unfold u_escape, hex_rune. cbn [forallb valid_rune]. rewrite !andb_true_r.
    assert (∀ z, 0 <= z < 16 → scalar (byte_val (hex_digit (Z.to_N z))) = true) as Hh.
    { intros z Hz. apply scalar_range. pose proof (byte_val_bound (hex_digit (Z.to_N z))). lia. }
    rewrite !Hh by (apply Z.mod_pos_bound; lia). done. }
  intros [Hr| ->]; [|done]. destruct r as [c|]; [|done]. unfold escape_rune.
  repeat (match goal with |- context [if ?b then _ else _] =>
    destruct b; [first [apply Hu | cbn [forallb valid_rune] in *; by rewrite ?Hr]|] end).
  cbn [forallb valid_rune] in *. by rewrite Hr.
Qed.

Lemma forallb_app {A} (f : A → bool) l l' : forallb f (l ++ l') = forallb f l && forallb f l'.
Proof. induction l as [|x l IH]; [done|]. simpl. by rewrite IH, andb_assoc. Qed.

Lemma render_string_valid s : forallb valid_rune (render_string s) = true.
Proof.
  unfold render_string. cbn [forallb]. rewrite forallb_app. change (valid_rune (Rune dquote)) with true.
  rewrite andb_true_r. simpl.
  assert (∀ rs, Forall (λ r, valid_rune r = true ∨ r = Bad) rs → forallb valid_rune (rs ≫= escape_rune) = true) as H.
  { induction 1 as [|r rs Hr _ IH]; [done|]. rewrite bind_cons, forallb_app, IH, escape_valid; done. }
  apply H, Forall_forall. intros [c|] Hin; [left; by eapply runes_scalar|by right].
Qed.

Lemma separated_valid l : Forall (λ x, forallb valid_rune x = true) l → forallb valid_rune (separated l) = true.
Proof.
  induction 1 as [|x l Hx Hl IH]; [done|]. destruct l as [|y l]; [done|].
  rewrite separated_cons, forallb_app, Hx. cbn [forallb]. by rewrite IH.
Qed.

Lemma render_valid v : integers v → forallb valid_rune (render v) = true.
Proof.
  induction v as [|b|t|s|l Hl|ms Hl] using Json_nested_ind; intros Hi; cbn [render].
  - done.
  - by destruct b.
  - destruct Hi as [z ->]. apply valid_ascii_runes, big_String_ascii.
  - apply render_string_valid.
  - cbn [forallb]. rewrite forallb_app, separated_valid; [done|]. cbn [integers] in Hi.
    revert Hi. induction Hl as [|w l' Hw _ IH]; intros Hi; [constructor|]. destruct Hi as [Hiw Hi].
    constructor; [by apply Hw|by apply IH].
  - cbn [forallb]. rewrite forallb_app, separated_valid; [done|]. cbn [integers] in Hi.
    revert Hi. induction Hl as [|[k w] l' Hw _ IH]; intros Hi; [constructor|]. destruct Hi as [Hiw Hi].
    constructor; [|by apply IH]. rewrite forallb_app, render_string_valid. cbn [forallb]. by apply Hw.
Qed.

Lemma runes_flatten_app rs t : forallb valid_rune rs = true → runes (flatten rs +:+ t) = rs ++ runes t.
Proof.
  induction rs as [|r rs IH]; [done|]. cbn [forallb flatten]. intros [Hr Hrs]%andb_true_iff.
  destruct r as [c|]; [|done]. cbn [rune_bytes]. rewrite string_app_assoc, runes_AppendRune, IH; done.
Qed.

(** Decoding what was encoded gives the value with its strings made valid UTF-8,
    whatever follows it, unless digits could run on. *)
Lemma Decode_Marshal v t :
  integers v → depth v <= maxNestingDepth → delimiter (runes t) → Decode (Marshal v +:+ t) = Some (sanitize v).
Proof.
  intros Hi Hd Ht. unfold Decode, Marshal. rewrite runes_flatten_app by (by apply render_valid).
  rewrite parse_render; [done|done| |lia|done].
  pose proof (cost_render v Hi). unfold fuel_for. rewrite length_app. lia.
Qed.

Lemma Decode_Encode v : integers v → depth v <= maxNestingDepth → Decode (Encode v) = Some (sanitize v).
Proof. intros Hi Hd. by apply Decode_Marshal. Qed.

(** Every string of the value is UTF-8. *)
Fixpoint utf8 (v : Json) : Prop :=
  match v with
  | JString s => ValidString s = true
  | JArray l => foldr (λ v acc, utf8 v ∧ acc) True l
  | JObject ms => foldr (λ m acc, ValidString (fst m) = true ∧ utf8 (snd m) ∧ acc) True ms
  | _ => True
  end.

Lemma sanitize_utf8 v : utf8 v → sanitize v = v.
Proof.
  induction v as [|b|t|s|l Hl|ms Hl] using Json_nested_ind; intros Hv; cbn [sanitize]; try done.
  - by rewrite sanitize_valid.
  - f_equal. cbn [utf8] in Hv. revert Hv. induction Hl as [|w l' Hw _ IH]; [done|]. cbn [foldr map].
    intros [Hu Hv]. by rewrite Hw, IH.
  - f_equal. cbn [utf8] in Hv. revert Hv. induction Hl as [|[k w] l' Hw _ IH]; [done|]. cbn [foldr map fst snd].
    intros (Hk & Hu & Hv). simpl in Hw. by rewrite Hw, IH, sanitize_valid.
Qed.

Lemma ascii_valid s : ascii_text s = true → ValidString s = true.
Proof. intros H. unfold ValidString. by rewrite runes_ascii_runes, valid_ascii_runes. Qed.
