(* ===== verification/JsonStruct.v ===== *)
(** * Decoding JSON into a struct

    How [encoding/json] fills a struct from an object: a member is matched to a field
    by its exact name, else by its case-folded name; a member that matches no field is
    ignored; later members overwrite earlier ones; null changes nothing. The fields
    are those of the API's request types: strings and text unmarshalers. *)

From Stdlib Require Import ZArith Lia Ascii.
From stdpp Require Import prelude strings.
From S2P Require Import Prelude GoStd Utf8 Json.

(** ** Names *)

(** [foldRune] on what can equal an ASCII name: the letters, and the two other runes
    that fold to one (long s and the Kelvin sign). *)
Definition foldRune (r : rune) : rune :=
  match r with
  | Rune c =>
      if (97 <=? c) && (c <=? 122) then Rune (c - 32)
      else if c =? 0x17F then Rune 83
      else if c =? 0x212A then Rune 75
      else Rune c
  | Bad => Rune RuneError
  end.
Definition foldName (s : bytes) : list rune := map foldRune (runes s).

Record Field (S : Type) := mkField { f_name : bytes; f_set : Json → S → option S }.
Arguments mkField {S} _ _.
Arguments f_name {S} _.
Arguments f_set {S} _ _ _.

Definition find_field {S} (fields : list (Field S)) (key : bytes) : option (Field S) :=
  match List.find (λ f, String.eqb (f_name f) key) fields with
  | Some f => Some f
  | None => List.find (λ f, bool_decide (foldName (f_name f) = foldName key)) fields
  end.

(** ** Values *)

(** What a value does to a field of text: nothing, a new content, or an error. *)
Definition text_value {A} (UnmarshalText : bytes → option A) (v : Json) : option (option A) :=
  match v with
  | JNull => Some None
  | JString s => option_map Some (UnmarshalText s)
  | _ => None
  end.

Definition text_field {A S} (UnmarshalText : bytes → option A) (set : A → S → S) (v : Json) (s : S) : option S :=
  option_map (λ r, match r with Some a => set a s | None => s end) (text_value UnmarshalText v).

Definition set_member {S} (fields : list (Field S)) (s : option S) (m : bytes * Json) : option S :=
  match s with
  | None => None
  | Some s => match find_field fields (fst m) with Some f => f_set f (snd m) s | None => Some s end
  end.

Definition UnmarshalStruct {S} (fields : list (Field S)) (zero : S) (v : Json) : option S :=
  match v with
  | JNull => Some zero
  | JObject ms => foldl (set_member fields) (Some zero) ms
  | _ => None
  end.

(** ** Field by field *)

(** The values of the members that match the field called [name], in order. *)
Definition values_of {S} (fields : list (Field S)) (name : bytes) (ms : list (bytes * Json)) : list Json :=
  omap (λ m, match find_field fields (fst m) with
             | Some f => if String.eqb (f_name f) name then Some (snd m) else None
             | None => None
             end) ms.

(** What the values leave in a field that held [a]; [None] if one of them is of the
    wrong type. *)
Definition content_after {A} (UnmarshalText : bytes → option A) (a : A) (vs : list Json) : option A :=
  foldl (λ acc v, match acc, text_value UnmarshalText v with
                  | Some a, Some r => Some (default a r)
                  | _, _ => None
                  end) (Some a) vs.

Section field.
Context {S A : Type} (fields : list (Field S)) (name : bytes).
Context (UnmarshalText : bytes → option A) (get : S → A).

(** [get] reads the field called [name], which the other fields leave alone. *)
Definition reads_field : Prop := ∀ f v s s', f ∈ fields → f_set f v s = Some s' →
  if String.eqb (f_name f) name
  then ∃ r, text_value UnmarshalText v = Some r ∧ get s' = default (get s) r
  else get s' = get s.

Lemma find_field_elem key f : find_field fields key = Some f → f ∈ fields.
Proof.
  unfold find_field. destruct (List.find _ _) as [g|] eqn:E; intros H.
  - injection H as <-. apply find_some in E as [E _]. by apply list_elem_of_In.
  - apply find_some in H as [H _]. by apply list_elem_of_In.
Qed.

Lemma set_members_None ms : foldl (set_member fields) None ms = None.
Proof. by induction ms. Qed.

Lemma decoded_field ms zero s :
  reads_field → foldl (set_member fields) (Some zero) ms = Some s →
  content_after UnmarshalText (get zero) (values_of fields name ms) = Some (get s).
Proof.
  intros Hf. revert zero. induction ms as [|[k v] ms IH]; intros zero; cbn [foldl]; [by intros [= ->]|].
  cbn [set_member fst snd]. unfold values_of. cbn [omap list_omap fst snd]. fold (values_of fields name ms).
  destruct (find_field fields k) as [f|] eqn:Ef; [|apply IH].
  destruct (f_set f v zero) as [s1|] eqn:E1; [|by rewrite set_members_None].
  pose proof (Hf f v zero s1 (find_field_elem k f Ef) E1) as H. intros Hs%IH.
  destruct (String.eqb _ _); [|by rewrite <-H].
  destruct H as (r & Hr & Hg). unfold content_after. cbn [foldl]. rewrite Hr. by rewrite <-Hg.
Qed.
End field.

(** A struct is decoded exactly when every member that matches a field is of its type. *)
Definition uniform {S} (fields : list (Field S)) : Prop := ∀ f v s s', f ∈ fields →
  is_Some (f_set f v s) → is_Some (f_set f v s').

Lemma members_accepted {S} (fields : list (Field S)) zero ms :
  uniform fields →
  is_Some (foldl (set_member fields) (Some zero) ms) ↔
  Forall (λ m, ∀ f, find_field fields (fst m) = Some f → is_Some (f_set f (snd m) zero)) ms.
Proof.
  intros Hu. assert (∀ s, is_Some (foldl (set_member fields) (Some s) ms) ↔
    Forall (λ m, ∀ f, find_field fields (fst m) = Some f → is_Some (f_set f (snd m) zero)) ms) as H; [|apply H].
  induction ms as [|[k v] ms IH]; intros s; cbn [foldl]; [by split|].
  rewrite Forall_cons. cbn [set_member fst snd].
  destruct (find_field fields k) as [f|] eqn:Ef.
  - pose proof (find_field_elem fields k f Ef) as Hin. destruct (f_set f v s) as [s1|] eqn:E1.
    + rewrite IH. split; [|tauto]. intros H. split; [|done]. intros ? [= <-]. by apply (Hu f v s zero Hin).
    + rewrite set_members_None. split; [by intros []|]. intros [H _]. specialize (H f eq_refl).
      apply (Hu f v zero s Hin) in H. rewrite E1 in H. by destruct H.
  - rewrite IH. naive_solver.
Qed.

Lemma text_field_uniform {A S} (UnmarshalText : bytes → option A) (set : A → S → S) v s s' :
  is_Some (text_field UnmarshalText set v s) → is_Some (text_field UnmarshalText set v s').
Proof. unfold text_field. rewrite !fmap_is_Some. done. Qed.

Lemma text_field_reads {A S} (UnmarshalText : bytes → option A) (set : A → S → S) (get : S → A) v s s' :
  (∀ a s, get (set a s) = a) → text_field UnmarshalText set v s = Some s' →
  ∃ r, text_value UnmarshalText v = Some r ∧ get s' = default (get s) r.
Proof.
  intros Hg. unfold text_field. destruct (text_value _ _) as [r|]; [|done]. intros [= <-].
  exists r. split; [done|]. destruct r; [apply Hg|done].
Qed.

Lemma text_field_other {A B S} (UnmarshalText : bytes → option A) (set : A → S → S) (get : S → B) v s s' :
  (∀ a s, get (set a s) = get s) → text_field UnmarshalText set v s = Some s' → get s' = get s.
Proof.
  intros Hg. unfold text_field. destruct (text_value _ _) as [[a|]|]; [| |done]; intros [= <-]; [apply Hg|done].
Qed.

Example folded_names :
  map (λ k, option_map f_name (find_field [mkField (S := unit) "asset" (λ _, Some); mkField "Asset" (λ _, Some)] k))
    ["asset"; "Asset"; "ASSET"; flatten [Rune 97; Rune 0x17F; Rune 115; Rune 101; Rune 116]; "assets"] =
    [Some "asset"; Some "Asset"; Some "asset"; Some "asset"; None].
Proof. vm_compute. reflexivity. Qed.

Lemma content_accepts {A} (UnmarshalText : bytes → option A) a vs v :
  is_Some (content_after UnmarshalText a vs) → v ∈ vs → is_Some (text_value UnmarshalText v).
Proof.
  unfold content_after. revert a. induction vs as [|w vs IH]; intros a Hs Hv; [by apply elem_of_nil in Hv|].
  cbn [foldl] in Hs. destruct (text_value UnmarshalText w) as [r|] eqn:E.
  - apply elem_of_cons in Hv as [->|Hv]; [by rewrite E|by eapply IH].
  - exfalso. clear -Hs. induction vs as [|w vs IH]; [by destruct Hs|auto].
Qed.

Lemma values_of_elem {S} (fields : list (Field S)) f m ms :
  m ∈ ms → find_field fields (fst m) = Some f → snd m ∈ values_of fields (f_name f) ms.
Proof.
  intros Hm Hf. unfold values_of. rewrite list_elem_of_omap. exists m. split; [done|]. by rewrite Hf, String.eqb_refl.
Qed.

(** A field whose values have a content takes each of them. *)
Lemma content_sets {A S} (fields : list (Field S)) f (UnmarshalText : bytes → option A) set (a : A) m ms s :
  f_set f = text_field UnmarshalText set →
  is_Some (content_after UnmarshalText a (values_of fields (f_name f) ms)) →
  m ∈ ms → find_field fields (fst m) = Some f → is_Some (f_set f (snd m) s).
Proof.
  intros Ef Hc Hm Hf. rewrite Ef. unfold text_field. rewrite fmap_is_Some.
  eapply content_accepts; [exact Hc|by apply values_of_elem].
Qed.
