(* ===== verification/Rfc3339.v ===== *)
(** * Timestamps

    The part of package [time] the platform shows times with: the Gregorian calendar,
    [Time.Format(time.RFC3339Nano)], [time.Parse] of that layout and
    [Time.MarshalJSON]. An instant is a number of microseconds since 1970 (what
    PostgreSQL keeps); the process's location is a function from an instant to its
    offset from UTC in minutes. *)

From Stdlib Require Import ZArith Lia Ascii.
From stdpp Require Import prelude strings.
From S2P Require Import Prelude GoStd Utf8 Json.

(** ** The calendar *)

Definition isLeap (year : Z) : bool := (year mod 4 =? 0) && (negb (year mod 100 =? 0) || (year mod 400 =? 0)).

Definition month_lengths (leap : bool) : list Z :=
  [31; if leap then 29 else 28; 31; 30; 31; 30; 31; 31; 30; 31; 30; 31].
Definition daysIn (month year : Z) : Z := nth (Z.to_nat (month - 1)) (month_lengths (isLeap year)) 0.
Definition daysBefore (month : Z) (leap : bool) : Z :=
  foldr Z.add 0 (take (Z.to_nat (month - 1)) (month_lengths leap)).

Definition daysPer400Years : Z := 146097.
Definition daysPer100Years : Z := 36524.
Definition daysPer4Years : Z := 1461.
(** 1970-01-01, in days since 0001-01-01. *)
Definition unixEpochDays : Z := 719162.

(** Days since 1970-01-01 of a date. *)
Definition days_from_civil (year month day : Z) : Z :=
  let y := year - 1 in
  365 * y + y / 4 - y / 100 + y / 400 + daysBefore month (isLeap year) + (day - 1) - unixEpochDays.

(** The month and the day of it, the first of [lens] being month [m]. *)
Fixpoint month_day (lens : list Z) (m yday : Z) : Z * Z :=
  match lens with
  | [] => (m, yday + 1)
  | n :: lens => if yday <? n then (m, yday + 1) else month_day lens (m + 1) (yday - n)
  end.

(** A cycle of 400 years, then centuries, four-year cycles and years, the last of each
    a day longer; and the day of the year from 0. *)
Definition year_yday (days : Z) : Z * Z :=
  let d := days + unixEpochDays in
  let n400 := d / daysPer400Years in
  let d := d mod daysPer400Years in
  let n100 := Z.min 3 (d / daysPer100Years) in
  let d := d - daysPer100Years * n100 in
  let n4 := d / daysPer4Years in
  let d := d - daysPer4Years * n4 in
  let n1 := Z.min 3 (d / 365) in
  (400 * n400 + 100 * n100 + 4 * n4 + n1 + 1, d - 365 * n1).
Definition civil_from_days (days : Z) : Z * Z * Z :=
  let '(year, yday) := year_yday days in
  let '(month, day) := month_day (month_lengths (isLeap year)) 1 yday in
  (year, month, day).

Example civil_dates :
  map civil_from_days [0; 19782; 11016; -719162; -1] =
    [(1970, 1, 1); (2024, 2, 29); (2000, 2, 29); (1, 1, 1); (1969, 12, 31)].
Proof. reflexivity. Qed.

(** Within the 400-year cycle that starts on 0001-01-01. *)
Lemma leap_of_parts n400 n100 n4 n1 :
  0 <= n100 <= 3 → 0 <= n4 <= 24 → 0 <= n1 <= 3 →
  isLeap (400 * n400 + 100 * n100 + 4 * n4 + n1 + 1) = (n1 =? 3) && (negb (n4 =? 24) || (n100 =? 3)).
Proof.
  intros H100 H4 H1. unfold isLeap.
  assert ((400 * n400 + 100 * n100 + 4 * n4 + n1 + 1) mod 4 = 0 ↔ n1 = 3) as E4.
  { Z.to_euclidean_division_equations. lia. }
  assert ((400 * n400 + 100 * n100 + 4 * n4 + n1 + 1) mod 100 = 0 ↔ n4 = 24 ∧ n1 = 3) as E100.
  { Z.to_euclidean_division_equations. lia. }
  assert ((400 * n400 + 100 * n100 + 4 * n4 + n1 + 1) mod 400 = 0 ↔ n100 = 3 ∧ n4 = 24 ∧ n1 = 3) as E400.
  { Z.to_euclidean_division_equations. lia. }
  apply eq_true_iff_eq. rewrite !andb_true_iff, !orb_true_iff, !negb_true_iff, !Z.eqb_neq, !Z.eqb_eq, E4, E100, E400. lia.
Qed.

Lemma year_yday_spec days year yday :
  year_yday days = (year, yday) →
  0 <= yday < 365 + (if isLeap year then 1 else 0) ∧
  365 * (year - 1) + (year - 1) / 4 - (year - 1) / 100 + (year - 1) / 400 + yday = days + unixEpochDays.
Proof.
  unfold year_yday. set (d := days + unixEpochDays). intros [= <- <-].
  set (n400 := d / daysPer400Years). set (d1 := d mod daysPer400Years).
  assert (d = daysPer400Years * n400 + d1 ∧ 0 <= d1 < daysPer400Years) as [Ed H1].
  { split; [apply Z.div_mod; done|by apply Z.mod_pos_bound]. }
  clearbody n400 d1. unfold daysPer400Years in *.
  set (n100 := Z.min 3 (d1 / daysPer100Years)).
  assert (0 <= n100 <= 3 ∧ 0 <= d1 - daysPer100Years * n100 ∧
    d1 - daysPer100Years * n100 < daysPer100Years + (if n100 =? 3 then 1 else 0)) as (B100 & L2 & U2).
  { unfold n100, daysPer100Years. destruct (Z.eqb_spec (Z.min 3 (d1 / 36524)) 3); Z.to_euclidean_division_equations; lia. }
  set (d2 := d1 - daysPer100Years * n100) in *. assert (d1 = daysPer100Years * n100 + d2) as E2 by lia.
  clearbody n100 d2. unfold daysPer100Years in *.
  set (n4 := d2 / daysPer4Years).
  assert (0 <= n4 <= 24 ∧ 0 <= d2 - daysPer4Years * n4 ∧
    d2 - daysPer4Years * n4 < daysPer4Years - (if (n4 =? 24) && negb (n100 =? 3) then 1 else 0)) as (B4 & L3 & U3).
  { unfold n4, daysPer4Years. destruct (Z.eqb_spec n100 3), (Z.eqb_spec (d2 / 1461) 24); simpl;
      Z.to_euclidean_division_equations; lia. }
  set (d3 := d2 - daysPer4Years * n4) in *. assert (d2 = daysPer4Years * n4 + d3) as E3 by lia.
  clearbody n4 d3. unfold daysPer4Years in *.
  set (n1 := Z.min 3 (d3 / 365)).
  assert (0 <= n1 <= 3 ∧ 0 <= d3 - 365 * n1 ∧
    d3 - 365 * n1 < 365 + (if (n1 =? 3) && (negb (n4 =? 24) || (n100 =? 3)) then 1 else 0)) as (B1 & L4 & U4).
  { unfold n1. destruct (Z.eqb_spec n100 3), (Z.eqb_spec n4 24), (Z.eqb_spec (Z.min 3 (d3 / 365)) 3); simpl in *;
      Z.to_euclidean_division_equations; lia. }
  clearbody n1. rewrite leap_of_parts by lia. split; [lia|].
  replace (400 * n400 + 100 * n100 + 4 * n4 + n1 + 1 - 1) with (400 * n400 + 100 * n100 + 4 * n4 + n1) by lia.
  assert ((400 * n400 + 100 * n100 + 4 * n4 + n1) / 4 = 100 * n400 + 25 * n100 + n4) as ->.
  { Z.to_euclidean_division_equations. lia. }
  assert ((400 * n400 + 100 * n100 + 4 * n4 + n1) / 100 = 4 * n400 + n100) as ->.
  { Z.to_euclidean_division_equations. lia. }
  assert ((400 * n400 + 100 * n100 + 4 * n4 + n1) / 400 = n400) as ->.
  { Z.to_euclidean_division_equations. lia. }
  lia.
Qed.

Lemma month_day_spec lens m yday :
  0 <= yday < foldr Z.add 0 lens →
  let '(month, day) := month_day lens m yday in
  m <= month < m + Z.of_nat (length lens) ∧
  1 <= day <= nth (Z.to_nat (month - m)) lens 0 ∧
  foldr Z.add 0 (take (Z.to_nat (month - m)) lens) + (day - 1) = yday.
Proof.
  revert m yday. induction lens as [|n lens IH]; intros m yday Hy; cbn [month_day]; [simpl in Hy; lia|].
  destruct (Z.ltb_spec yday n) as [Hn|Hn].
  - rewrite Z.sub_diag. simpl. lia.
  - specialize (IH (m + 1) (yday - n) ltac:(simpl in Hy; lia)). destruct (month_day _ _ _) as [month day].
    destruct IH as (Hm & Hd & E). replace (Z.to_nat (month - m)) with (S (Z.to_nat (month - (m + 1)))) by lia.
    cbn [nth take foldr length]. lia.
Qed.

(** A valid date, and the day it names. *)
Definition valid_date (year month day : Z) : Prop := 1 <= month <= 12 ∧ 1 <= day <= daysIn month year.

Lemma civil_from_days_spec days year month day :
  civil_from_days days = (year, month, day) →
  valid_date year month day ∧ days_from_civil year month day = days.
Proof.
  unfold civil_from_days. destruct (year_yday days) as [y yday] eqn:E.
  apply year_yday_spec in E as [Hy Ed].
  pose proof (month_day_spec (month_lengths (isLeap y)) 1 yday) as H.
  destruct (month_day _ _ _) as [m d]. intros [= <- <- <-].
  destruct H as (Hm & Hd & Eb); [destruct (isLeap y); simpl; lia|].
  change (Z.of_nat (length (month_lengths (isLeap y)))) with 12 in Hm.
  split; [split; [lia|exact Hd]|]. unfold days_from_civil, daysBefore. lia.
Qed.

(** ** Digits *)

Definition digit (z : Z) : ascii := byte_of (48 + z).
Definition digit_val (c : ascii) : option Z :=
  let z := byte_val c - 48 in if (0 <=? z) && (z <=? 9) then Some z else None.

Lemma digit_val_digit z : 0 <= z <= 9 → digit_val (digit z) = Some z.
Proof.
  intros Hz. unfold digit_val, digit. rewrite byte_val_of by lia.
  replace (48 + z - 48) with z by lia. destruct (Z.leb_spec 0 z), (Z.leb_spec z 9); (done || lia).
Qed.

(** The last [w] digits of a number. *)
Fixpoint fixed (w : nat) (n : Z) : bytes :=
  match w with
  | O => EmptyString
  | S w => String (digit (n / 10 ^ Z.of_nat w mod 10)) (fixed w n)
  end.

(** [getnum]. *)
Definition getnum (fixed : bool) (s : bytes) : option (Z * bytes) :=
  match s with
  | String a s1 =>
      match digit_val a with
      | None => None
      | Some x =>
          match (match s1 with String b s2 => option_map (λ y, (y, s2)) (digit_val b) | EmptyString => None end) with
          | Some (y, s2) => Some (x * 10 + y, s2)
          | None => if fixed then None else Some (x, s1)
          end
      end
  | EmptyString => None
  end.

Lemma getnum_fixed b n rest : 0 <= n < 100 → getnum b (fixed 2 n +:+ rest) = Some (n, rest).
Proof.
  intros Hn. 
  change (fixed 2 n +:+ rest) with (String (digit (n / 10 mod 10)) (String (digit (n / 1 mod 10)) rest)).
  cbn [getnum].
  rewrite !digit_val_digit by (Z.to_euclidean_division_equations; lia). cbn [option_map].
  do 2 f_equal. Z.to_euclidean_division_equations. lia.
Qed.

(** The year: exactly four digits. *)
Definition getyear (s : bytes) : option (Z * bytes) :=
  match getnum true s with
  | None => None
  | Some (hi, s) => option_map (λ '(lo, rest), (hi * 100 + lo, rest)) (getnum true s)
  end.

Lemma fixed_mod w n k : (w <= k)%nat → fixed w (n mod 10 ^ Z.of_nat k) = fixed w n.
Proof.
  induction w as [|w IH]; [done|]. intros Hk. cbn [fixed]. rewrite IH by lia. f_equal. f_equal.
  replace (Z.of_nat k) with (Z.of_nat w + (1 + (Z.of_nat k - Z.of_nat w - 1))) by lia.
  rewrite !Z.pow_add_r by lia. change (10 ^ 1) with 10.
  set (p := 10 ^ Z.of_nat w). set (q := 10 ^ _). assert (0 < p) by (by apply Z.pow_pos_nonneg; lia).
  assert (0 < q) by (by apply Z.pow_pos_nonneg; lia).
  rewrite Z.rem_mul_r, Z.mul_comm, Z.div_add, Z.rem_mul_r by lia. rewrite (Z.div_small (n mod p)) by (by apply Z.mod_pos_bound).
  rewrite Z.add_0_l, Z.mul_comm, Z.mod_add by lia. by rewrite Z.mod_mod by lia.
Qed.

Lemma fixed_app a b n : fixed (a + b) n = fixed a (n / 10 ^ Z.of_nat b) +:+ fixed b n.
Proof.
  induction a as [|a IH]; [done|]. cbn [fixed Nat.add]. rewrite IH.
  change (String ?c ?s +:+ ?t) with (String c (s +:+ t)). f_equal. f_equal.
  rewrite Z.div_div, <-Z.pow_add_r by (lia || apply Z.pow_pos_nonneg; lia). do 3 f_equal. lia.
Qed.

Lemma getyear_fixed n rest : 0 <= n < 10000 → getyear (fixed 4 n +:+ rest) = Some (n, rest).
Proof.
  intros Hn. rewrite (fixed_app 2 2), string_app_assoc, <-(fixed_mod 2 n 2) by lia. unfold getyear.
  change (10 ^ Z.of_nat 2) with 100. rewrite getnum_fixed by (Z.to_euclidean_division_equations; lia).
  rewrite getnum_fixed by (apply Z.mod_pos_bound; lia). simpl. do 2 f_equal.
  Z.to_euclidean_division_equations. lia.
Qed.

(** The digits after the decimal point, without trailing zeros. *)
Fixpoint trim_zeros (s : bytes) : bytes :=
  match s with
  | EmptyString => EmptyString
  | String c s =>
      let s := trim_zeros s in
      if String.eqb s EmptyString && Ascii.eqb c "0" then EmptyString else String c s
  end.

(** Digits as nanoseconds, the first weighing [weight]; digits past the ninth weigh
    nothing. *)
Fixpoint frac_digits (weight : Z) (s : bytes) : Z * bytes :=
  match s with
  | EmptyString => (0, EmptyString)
  | String c s' =>
      match digit_val c with
      | Some x => let '(n, rest) := frac_digits (weight / 10) s' in (x * weight + n, rest)
      | None => (0, s)
      end
  end.

Definition not_digit_first (s : bytes) : Prop :=
  match s with EmptyString => True | String c _ => digit_val c = None end.

Lemma string_cons_app c s t : String c s +:+ t = String c (s +:+ t).
Proof. done. Qed.

Lemma frac_digits_stop w rest : not_digit_first rest → frac_digits w rest = (0, rest).
Proof. destruct rest as [|c rest]; [done|]. simpl. by intros ->. Qed.

(** All of [s] is digits. *)
Fixpoint all_digits (s : bytes) : bool :=
  match s with EmptyString => true | String c s => bool_decide (is_Some (digit_val c)) && all_digits s end.

Lemma digit_zero c : digit_val c = Some 0 ↔ c = "0"%char.
Proof.
  split; [|by intros ->]. unfold digit_val. destruct (_ && _); [|done]. intros [= H].
  apply byte_val_inj. change (byte_val "0") with 48. lia.
Qed.

Lemma frac_digits_trim s w rest :
  all_digits s = true → not_digit_first rest →
  frac_digits w (trim_zeros s +:+ rest) = (fst (frac_digits w (s +:+ rest)), rest).
Proof.
  intros Hs Hr. revert w. induction s as [|c s IH]; intros w.
  { change (frac_digits w rest = (fst (frac_digits w rest), rest)). by rewrite frac_digits_stop. }
  cbn [all_digits] in Hs. apply andb_true_iff in Hs as [[x Hx]%bool_decide_eq_true Hs]. specialize (IH Hs).
  cbn [trim_zeros]. rewrite (string_cons_app c s). cbn [frac_digits]. rewrite Hx.
  destruct (String.eqb_spec (trim_zeros s) EmptyString) as [E|E]; cbn [andb].
  - specialize (IH (w / 10)). rewrite E in IH. change (EmptyString +:+ rest) with rest in IH.
    rewrite frac_digits_stop in IH by done. destruct (frac_digits (w / 10) (s +:+ rest)) as [n r]. simpl in *.
    injection IH as <-. destruct (Ascii.eqb_spec c "0") as [->|Hc].
    + change (EmptyString +:+ rest) with rest. rewrite frac_digits_stop by done. injection Hx as <-. done.
    + rewrite E. rewrite string_cons_app. cbn [frac_digits]. rewrite Hx.
      change (EmptyString +:+ rest) with rest. by rewrite frac_digits_stop.
  - rewrite string_cons_app. cbn [frac_digits]. rewrite Hx, IH.
    by destruct (frac_digits (w / 10) (s +:+ rest)).
Qed.

Lemma fixed_digits w n : all_digits (fixed w n) = true.
Proof.
  induction w as [|w IH]; [done|]. cbn [fixed all_digits]. rewrite digit_val_digit; [by rewrite IH|].
  pose proof (Z.mod_pos_bound (n / 10 ^ Z.of_nat w) 10). lia.
Qed.

Lemma frac_digits_fixed w n rest :
  not_digit_first rest → fst (frac_digits (10 ^ Z.of_nat (w - 1)) (fixed w n +:+ rest)) = n mod 10 ^ Z.of_nat w.
Proof.
  intros Hr. induction w as [|w IH].
  { change (fixed 0 n +:+ rest) with rest. rewrite frac_digits_stop by done. simpl. by rewrite Z.mod_1_r. }
  cbn [fixed]. rewrite string_cons_app. cbn [frac_digits].
  rewrite digit_val_digit by (pose proof (Z.mod_pos_bound (n / 10 ^ Z.of_nat w) 10); lia).
  replace (S w - 1)%nat with w by lia.
  assert (10 ^ Z.of_nat (S w) = 10 ^ Z.of_nat w * 10) as E by (rewrite Nat2Z.inj_succ, Z.pow_succ_r; lia).
  assert (0 < 10 ^ Z.of_nat w) by (by apply Z.pow_pos_nonneg; lia).
  rewrite E, Z.rem_mul_r by lia.
  destruct w as [|w].
  - change (fixed 0 n +:+ rest) with rest. rewrite frac_digits_stop by done. simpl. rewrite Z.mod_1_r. lia.
  - assert (10 ^ Z.of_nat (S w) / 10 = 10 ^ Z.of_nat (S w - 1)) as ->.
    { replace (S w - 1)%nat with w by lia. rewrite Nat2Z.inj_succ, Z.pow_succ_r, Z.mul_comm, Z.div_mul by lia. done. }
    destruct (frac_digits _ (fixed (S w) n +:+ rest)) as [m r]. simpl in IH |- *. lia.
Qed.

(** ** [Format] *)

Definition microseconds : Z := 1000000.
Definition secondsPerDay : Z := 86400.

Definition year_text (y : Z) : bytes :=
  let digits u := if u <? 10000 then fixed 4 u else big_String u in
  if y <? 0 then "-" +:+ digits (- y) else digits y.

(** The offset from UTC in minutes: [Z07:00]. *)
Definition zone_text (offset : Z) : bytes :=
  if offset =? 0 then "Z"
  else (if offset <? 0 then "-" else "+") +:+
       fixed 2 (Z.abs offset / 60) +:+ ":" +:+ fixed 2 (Z.abs offset mod 60).

(** Of a fraction of a second in microseconds. *)
Definition frac_text (us : Z) : bytes :=
  let s := trim_zeros (fixed 9 (us * 1000)) in
  if String.eqb s EmptyString then EmptyString else "." +:+ s.

(** [t.Format(time.RFC3339Nano)] of an instant shown at an offset. *)
Definition Format (offset t : Z) : bytes :=
  let local := t + offset * 60 * microseconds in
  let secs := local / microseconds in
  let '(year, month, day) := civil_from_days (secs / secondsPerDay) in
  let sod := secs mod secondsPerDay in
  year_text year +:+ "-" +:+ fixed 2 month +:+ "-" +:+ fixed 2 day +:+ "T" +:+
  fixed 2 (sod / 3600) +:+ ":" +:+ fixed 2 (sod / 60 mod 60) +:+ ":" +:+ fixed 2 (sod mod 60) +:+
  frac_text (local mod microseconds) +:+ zone_text offset.

(** A [time.Time] carries the location it is shown in: UTC, or the process's own for
    one scanned from the database, whose offset at an instant is [zone]'s. *)
Inductive Location := UTC | Local.
Definition offset_at (zone : Z → Z) (loc : Location) (t : Z) : Z :=
  match loc with UTC => 0 | Local => zone t end.
Definition format_time (zone : Z → Z) (t : Z) : bytes := Format (offset_at zone Local t) t.

(** ** [Parse] *)

Definition skip (c : ascii) (s : bytes) : option bytes :=
  match s with String a s => if Ascii.eqb a c then Some s else None | EmptyString => None end.

(** The fraction may be left out, and may start with a comma. *)
Definition getfrac (s : bytes) : Z * bytes :=
  match s with
  | String c (String d _ as s') =>
      if (Ascii.eqb c "." || Ascii.eqb c ",") && bool_decide (is_Some (digit_val d))
      then frac_digits 100000000 s' else (0, s)
  | _ => (0, s)
  end.

(** The offset in seconds. *)
Definition getzone (s : bytes) : option (Z * bytes) :=
  match s with
  | EmptyString => None
  | String c s' =>
      if Ascii.eqb c "Z" then Some (0, s') else
      match getnum true s' with
      | None => None
      | Some (hr, s) =>
          match skip ":" s with
          | None => None
          | Some s =>
              match getnum true s with
              | None => None
              | Some (mm, rest) =>
                  if (24 <? hr) || (60 <? mm) then None
                  else if Ascii.eqb c "+" then Some ((hr * 60 + mm) * 60, rest)
                  else if Ascii.eqb c "-" then Some (- ((hr * 60 + mm) * 60), rest)
                  else None
              end
          end
      end
  end.

Definition guard_some {A} (b : bool) (o : option A) : option A := if b then o else None.

(** [time.Parse(time.RFC3339Nano, s)]. *)
Definition parse_time (s : bytes) : option Z :=
  s ← getyear s; let '(year, s) := s in
  s ← skip "-" s; s ← getnum true s; let '(month, s) := s in
  s ← skip "-" s; s ← getnum true s; let '(day, s) := s in
  s ← skip "T" s; s ← getnum false s; let '(hour, s) := s in
  s ← skip ":" s; s ← getnum true s; let '(minute, s) := s in
  s ← skip ":" s; s ← getnum true s; let '(second, s) := s in
  let '(ns, s) := getfrac s in
  s ← getzone s; let '(offset, s) := s in
  guard_some
    ((1 <=? month) && (month <=? 12) && (hour <? 24) && (minute <? 60) && (second <? 60) &&
     String.eqb s EmptyString && (1 <=? day) && (day <=? daysIn month year))
    (Some ((days_from_civil year month day * secondsPerDay + hour * 3600 + minute * 60 + second - offset)
             * microseconds + ns / 1000)).

Example Format_examples :
  map (λ p, Format (fst p) (snd p)) [(0, 0); (120, 1709164800123400); (-210, 1709164800000001); (0, -62135596800000000)] =
    ["1970-01-01T00:00:00Z"; "2024-02-29T02:00:00.1234+02:00"; "2024-02-28T20:30:00.000001-03:30";
     "0001-01-01T00:00:00Z"]%string.
Proof. vm_compute. reflexivity. Qed.
Example parse_time_examples :
  map parse_time ["2024-02-29T02:00:00.1234+02:00"; "2024-02-29T2:00:00,5Z"; "2023-02-29T02:00:00Z";
                  "2024-02-29T02:00:00Zx"; "2024-02-29T24:00:00Z"; "1970-01-01T00:00:00-24:60"]%string =
    [Some 1709164800123400; Some 1709172000500000; None; None; None; Some 90000000000].
Proof. vm_compute. reflexivity. Qed.

(** ** What is written is read back *)

Lemma skip_app c s : skip c (String c EmptyString +:+ s) = Some s.
Proof. change (String c EmptyString +:+ s) with (String c s). simpl. by rewrite Ascii.eqb_refl. Qed.

Lemma trim_zeros_first s c t : all_digits s = true → trim_zeros s = String c t → is_Some (digit_val c).
Proof.
  destruct s as [|a s]; [done|]. cbn [all_digits trim_zeros]. intros [Ha _]%andb_true_iff.
  case_match; [done|]. intros [= <- _]. by apply bool_decide_eq_true in Ha.
Qed.

Lemma zone_text_first offset : not_digit_first (zone_text offset) ∧ ∃ c t, zone_text offset = String c t ∧ c ≠ "."%char ∧ c ≠ ","%char.
Proof.
  unfold zone_text. destruct (Z.eqb_spec offset 0); [split; [done|by eexists _, _]|].
  destruct (offset <? 0); (split; [done|by eexists _, _]).
Qed.

Lemma getfrac_text us offset :
  0 <= us < microseconds → getfrac (frac_text us +:+ zone_text offset) = (us * 1000, zone_text offset).
Proof.
  intros Hus. unfold microseconds in Hus. destruct (zone_text_first offset) as (Hz & c & t & Ez & N1 & N2).
  pose proof (frac_digits_fixed 9 (us * 1000) _ Hz) as Hv. cbn [Nat.sub] in Hv.
  rewrite Z.mod_small in Hv by (change (10 ^ Z.of_nat 9) with 1000000000; lia).
  pose proof (frac_digits_trim (fixed 9 (us * 1000)) (10 ^ Z.of_nat 8) _ (fixed_digits _ _) Hz) as Ht.
  rewrite Hv in Ht. clear Hv. change (10 ^ Z.of_nat 8) with 100000000 in Ht.
  unfold frac_text. destruct (trim_zeros _) as [|d s] eqn:E.
  - change (EmptyString +:+ zone_text offset) with (zone_text offset) in *. rewrite frac_digits_stop in Ht by done.
    injection Ht as <-. cbn [String.eqb]. change (EmptyString +:+ zone_text offset) with (zone_text offset).
    rewrite Ez. unfold getfrac. destruct t; [done|].
    by rewrite (proj2 (Ascii.eqb_neq _ _) N1), (proj2 (Ascii.eqb_neq _ _) N2).
  - apply trim_zeros_first in E; [|apply fixed_digits]. cbn [String.eqb].
    change (("." +:+ String d s) +:+ zone_text offset) with (String "."%char (String d (s +:+ zone_text offset))).
    cbn [getfrac]. rewrite bool_decide_eq_true_2 by done. exact Ht.
Qed.

Lemma getzone_text offset : -1440 < offset < 1440 → getzone (zone_text offset) = Some (offset * 60, EmptyString).
Proof.
  intros Ho. unfold zone_text. destruct (Z.eqb_spec offset 0) as [->|Hn]; [done|].
  assert (∀ c, c = "+"%char ∨ c = "-"%char →
    getzone (String c EmptyString +:+ fixed 2 (Z.abs offset / 60) +:+ ":" +:+ fixed 2 (Z.abs offset mod 60)) =
      Some ((if Ascii.eqb c "+" then 1 else -1) * Z.abs offset * 60, EmptyString)) as H.
  { intros c Hc. change (String c EmptyString +:+ ?s) with (String c s). cbn [getzone].
    assert (Ascii.eqb c "Z" = false) as -> by (by destruct Hc as [-> | ->]).
    assert (0 <= Z.abs offset / 60 < 24) by (Z.to_euclidean_division_equations; lia).
    pose proof (Z.mod_pos_bound (Z.abs offset) 60 ltac:(lia)).
    rewrite getnum_fixed by lia. rewrite skip_app.
    rewrite <-(string_app_empty_r (fixed 2 (Z.abs offset mod 60))), getnum_fixed by lia.
    destruct (Z.ltb_spec 24 (Z.abs offset / 60)), (Z.ltb_spec 60 (Z.abs offset mod 60)); try lia. cbn [orb].
    pose proof (Z.div_mod (Z.abs offset) 60 ltac:(lia)).
    destruct Hc as [-> | ->]; simpl; do 2 f_equal; lia. }
  destruct (Z.ltb_spec offset 0); rewrite H by auto; simpl; do 2 f_equal; lia.
Qed.

(** The instants that RFC 3339 can show at an offset: the year has four digits. *)
Definition local_year (offset t : Z) : Z :=
  let '(year, _, _) := civil_from_days ((t + offset * 60 * microseconds) / microseconds / secondsPerDay) in year.
Definition representable (offset t : Z) : Prop := 0 <= local_year offset t <= 9999.

Lemma bind_eq {A B} (m : option A) a (f : A → option B) r : m = Some a → f a = r → m ≫= f = r.
Proof. by intros ->. Qed.

Ltac read_field t := eapply bind_eq; [t|cbv beta iota].

(** The text of a timestamp's fields reads back as the instant they name. *)
Lemma parse_fields year month day h m s us offset :
  0 <= year <= 9999 → valid_date year month day → 0 <= h < 24 → 0 <= m < 60 → 0 <= s < 60 →
  0 <= us < microseconds → -1440 < offset < 1440 →
  parse_time (year_text year +:+ "-" +:+ fixed 2 month +:+ "-" +:+ fixed 2 day +:+ "T" +:+
    fixed 2 h +:+ ":" +:+ fixed 2 m +:+ ":" +:+ fixed 2 s +:+ frac_text us +:+ zone_text offset) =
  Some ((days_from_civil year month day * secondsPerDay + h * 3600 + m * 60 + s - offset * 60) * microseconds + us).
Proof.
  intros Hy [Hm Hd] Hh Hmi Hs Hus Ho.
  assert (day <= 31) as Hd31.
  { etrans; [apply Hd|]. unfold daysIn.
    assert (month ∈ [1; 2; 3; 4; 5; 6; 7; 8; 9; 10; 11; 12]) as Hin by (rewrite !elem_of_cons; lia).
    clear -Hin. destruct (isLeap year); repeat (apply elem_of_cons in Hin as [->|Hin]; [simpl; lia|]);
      by apply elem_of_nil in Hin. }
  unfold parse_time, year_text. destruct (Z.ltb_spec year 0), (Z.ltb_spec year 10000); try lia.
  read_field ltac:(apply getyear_fixed; lia).
  do 5 (read_field ltac:(apply skip_app); read_field ltac:(apply getnum_fixed; lia)).
  rewrite getfrac_text by done. cbv beta iota. read_field ltac:(by apply getzone_text).
  assert ((1 <=? month) && (month <=? 12) && (h <? 24) && (m <? 60) && (s <? 60) && String.eqb EmptyString EmptyString &&
    (1 <=? day) && (day <=? daysIn month year) = true) as ->.
  { rewrite !andb_true_iff, !Z.leb_le, !Z.ltb_lt. repeat split; lia. }
  unfold guard_some. by rewrite Z.div_mul by lia.
Qed.

Lemma clock_fields sod : sod / 3600 * 3600 + sod / 60 mod 60 * 60 + sod mod 60 = sod.
Proof.
  change (sod / 3600) with (sod / (60 * 60)). rewrite <-Z.div_div by lia.
  pose proof (Z.div_mod sod 60). pose proof (Z.div_mod (sod / 60) 60). lia.
Qed.

Lemma Format_fields offset t year month day :
  let local := t + offset * 60 * microseconds in
  let secs := local / microseconds in
  civil_from_days (secs / secondsPerDay) = (year, month, day) →
  Format offset t = year_text year +:+ "-" +:+ fixed 2 month +:+ "-" +:+ fixed 2 day +:+ "T" +:+
    fixed 2 (secs mod secondsPerDay / 3600) +:+ ":" +:+ fixed 2 (secs mod secondsPerDay / 60 mod 60) +:+ ":" +:+
    fixed 2 (secs mod secondsPerDay mod 60) +:+ frac_text (local mod microseconds) +:+ zone_text offset.
Proof. intros local secs E. unfold Format. fold local secs. by rewrite E. Qed.

Lemma parse_Format offset t :
  -1440 < offset < 1440 → representable offset t → parse_time (Format offset t) = Some t.
Proof.
  unfold representable, local_year. intros Ho Hr.
  destruct (civil_from_days _) as [[year month] day] eqn:E. rewrite (Format_fields _ _ _ _ _ E).
  apply civil_from_days_spec in E as [Hv Ed].
  set (local := t + offset * 60 * microseconds) in *. set (secs := local / microseconds) in *.
  pose proof (Z.mod_pos_bound secs secondsPerDay ltac:(done)) as Hs.
  rewrite parse_fields; [|done|done| |by apply Z.mod_pos_bound..|done].
  - f_equal. rewrite Ed. pose proof (clock_fields (secs mod secondsPerDay)).
    pose proof (Z.div_mod secs secondsPerDay ltac:(done)).
    pose proof (Z.div_mod local microseconds ltac:(done)) as E2. fold secs in E2. clearbody secs.
    assert (local = t + offset * 60 * microseconds) by done. clearbody local.
    unfold microseconds in *. lia.
  - unfold secondsPerDay in *. split; [apply Z.div_pos; lia|apply Z.div_lt_upper_bound; lia].
Qed.

(** ** The characters of a timestamp *)

Definition time_byte (c : ascii) : bool :=
  bool_decide (is_Some (digit_val c)) || existsb (Ascii.eqb c) ["-"; "+"; ":"; "."; "T"; "Z"]%char.
Fixpoint time_text (s : bytes) : bool :=
  match s with EmptyString => true | String c s => time_byte c && time_text s end.

Lemma time_text_app s t : time_text (s +:+ t) = time_text s && time_text t.
Proof. induction s as [|c s IH]; [done|]. rewrite string_cons_app. cbn [time_text]. by rewrite IH, andb_assoc. Qed.

Lemma time_text_digits s : all_digits s = true → time_text s = true.
Proof.
  induction s as [|c s IH]; [done|]. cbn [all_digits time_text]. intros [Hc Hs]%andb_true_iff.
  unfold time_byte. by rewrite Hc, IH.
Qed.

Lemma trim_zeros_digits s : all_digits s = true → all_digits (trim_zeros s) = true.
Proof.
  induction s as [|c s IH]; [done|]. cbn [all_digits trim_zeros]. intros [Hc Hs]%andb_true_iff.
  specialize (IH Hs). case_match; [done|]. cbn [all_digits]. by rewrite Hc, IH.
Qed.

Lemma digits_big_String z : 0 <= z → all_digits (big_String z) = true.
Proof.
  assert (∀ d, all_digits (DecimalString.NilEmpty.string_of_uint d) = true) as Hd by (induction d; simpl; done).
  intros Hz. unfold big_String, DecimalString.NilZero.string_of_int, DecimalString.NilZero.string_of_uint.
  destruct z as [|p|p]; [done| |lia]. cbn [Z.to_int].
  destruct (Pos.to_uint p); try apply Hd; try done; apply (Hd (Decimal.D0 _)).
Qed.

Lemma Format_time_text offset t : time_text (Format offset t) = true.
Proof.
  unfold Format. destruct (civil_from_days _) as [[y m] d]. rewrite !time_text_app.
  rewrite !(time_text_digits (fixed 2 _)) by apply fixed_digits.
  assert (∀ u, 0 <= u → time_text (if u <? 10000 then fixed 4 u else big_String u) = true) as Hu.
  { intros u Hu. apply time_text_digits. destruct (u <? 10000); [apply fixed_digits|by apply digits_big_String]. }
  assert (time_text (year_text y) = true) as ->.
  { unfold year_text. destruct (Z.ltb_spec y 0); [rewrite time_text_app|]; rewrite Hu by lia; done. }
  assert (∀ us, time_text (frac_text us) = true) as ->.
  { intros us. unfold frac_text. case_match; [done|]. rewrite time_text_app.
    by rewrite (time_text_digits (trim_zeros _)) by (apply trim_zeros_digits, fixed_digits). }
  unfold zone_text. destruct (offset =? 0); [done|].
  destruct (offset <? 0); rewrite !time_text_app, !(time_text_digits (fixed 2 _)) by apply fixed_digits; done.
Qed.

Lemma time_byte_not c d : time_byte c = true → time_byte d = false → Ascii.eqb c d = false.
Proof. intros Hc Hd. apply Ascii.eqb_neq. intros ->. by rewrite Hc in Hd. Qed.

Lemma time_text_no c s : time_byte c = false → time_text s = true → contains_byte c s = false.
Proof.
  intros Hc. induction s as [|d s IH]; [done|]. cbn [time_text contains_byte]. intros [Hd Hs]%andb_true_iff.
  rewrite IH by done. by rewrite (time_byte_not d c).
Qed.

Lemma time_text_ascii s : time_text s = true → ascii_text s = true.
Proof.
  induction s as [|c s IH]; [done|]. cbn [time_text ascii_text]. intros [Hc Hs]%andb_true_iff.
  rewrite IH by done. rewrite andb_true_r. unfold time_byte in Hc. apply orb_true_iff in Hc as [Hc|Hc].
  - apply bool_decide_eq_true in Hc as [x Hx]. unfold digit_val in Hx.
    destruct ((0 <=? _) && _) eqn:E; [|done]. bool_to_prop. apply Z.ltb_lt. lia.
  - apply existsb_exists in Hc as (d & Hd & ->%Ascii.eqb_eq). simpl in Hd.
    repeat destruct Hd as [<-|Hd]; done.
Qed.

Lemma Format_no_bar offset t : contains_byte "|"%char (Format offset t) = false.
Proof. apply time_text_no; [done|apply Format_time_text]. Qed.

(** [Time.MarshalJSON]: an error unless RFC 3339 can show the instant. *)
Definition time_json (offset t : Z) : option Json :=
  let year := local_year offset t in
  if (0 <=? year) && (year <=? 9999) && (-1440 <? offset) && (offset <? 1440)
  then Some (JString (Format offset t)) else None.

(** [Time.UnmarshalJSON] of a string. *)
Definition time_of_json (v : Json) : option Z := match v with JString s => parse_time s | _ => None end.

Lemma time_json_roundtrip offset t v : time_json offset t = Some v → time_of_json v = Some t.
Proof.
  unfold time_json. destruct (_ && (offset <? 1440)) eqn:E; [|done]. intros [= <-].
  bool_to_prop. apply parse_Format; [lia|unfold representable; lia].
Qed.

(** Its text is ASCII, so nothing is replaced on the way. *)
Lemma time_json_sanitize offset t v : time_json offset t = Some v → sanitize v = v.
Proof.
  unfold time_json. destruct (_ && (offset <? 1440)); [|done]. intros [= <-].
  cbn [sanitize]. by rewrite sanitize_ascii by apply time_text_ascii, Format_time_text.
Qed.
