(* ===== verification/Sha256.v ===== *)
(** * SHA-256 and HMAC

    [crypto/sha256] and [crypto/hmac] (FIPS 180-4 and RFC 2104) on byte strings:
    what fingerprints a request and signs a page cursor. The constants are computed
    from their definition, the fractional parts of roots of the first primes. *)

From Stdlib Require Import ZArith Lia Ascii.
From stdpp Require Import prelude strings.
From S2P Require Import Prelude GoStd.

(** ** 32-bit words *)

Definition w32 (x : Z) : Z := Z.land x 0xFFFFFFFF.
Definition rotr (n x : Z) : Z := Z.lor (Z.shiftr x n) (w32 (Z.shiftl x (32 - n))).

Definition Ch (x y z : Z) : Z := Z.lxor (Z.land x y) (Z.land (Z.lxor x 0xFFFFFFFF) z).
Definition Maj (x y z : Z) : Z := Z.lxor (Z.lxor (Z.land x y) (Z.land x z)) (Z.land y z).
Definition big_sigma0 (x : Z) : Z := Z.lxor (Z.lxor (rotr 2 x) (rotr 13 x)) (rotr 22 x).
Definition big_sigma1 (x : Z) : Z := Z.lxor (Z.lxor (rotr 6 x) (rotr 11 x)) (rotr 25 x).
Definition sigma0 (x : Z) : Z := Z.lxor (Z.lxor (rotr 7 x) (rotr 18 x)) (Z.shiftr x 3).
Definition sigma1 (x : Z) : Z := Z.lxor (Z.lxor (rotr 17 x) (rotr 19 x)) (Z.shiftr x 10).

(** ** The constants *)

Fixpoint primes_from (fuel : nat) (candidate : Z) (found : list Z) : list Z :=
  match fuel with
  | O => found
  | S fuel =>
      primes_from fuel (candidate + 1)
        (if existsb (λ p, candidate mod p =? 0) found then found else found ++ [candidate])
  end.
(** The first 64 primes; the last is 311. *)
Definition primes : list Z := primes_from 310 2 [].

(** The largest [r] with [r^3 <= x], one bit at a time from bit [n - 1]. *)
Fixpoint cube_root (n : nat) (x r : Z) : Z :=
  match n with
  | O => r
  | S n => let r' := r + 2 ^ Z.of_nat n in cube_root n x (if r' * r' * r' <=? x then r' else r)
  end.

Definition round_constants : list Z :=
  Eval vm_compute in map (λ p, w32 (cube_root 36 (p * 2 ^ 96) 0)) primes.
Definition initial_hash : list Z :=
  Eval vm_compute in map (λ p, w32 (Z.sqrt (p * 2 ^ 64))) (take 8 primes).

Lemma constants_spec :
  round_constants = map (λ p, w32 (cube_root 36 (p * 2 ^ 96) 0)) primes ∧
  initial_hash = map (λ p, w32 (Z.sqrt (p * 2 ^ 64))) (take 8 primes).
Proof. split; vm_compute; reflexivity. Qed.

(** ** The compression function *)

(** The message schedule, newest word first, [n] more words. *)
Fixpoint schedule (n : nat) (w : list Z) : list Z :=
  match n with
  | O => w
  | S n =>
      schedule n
        (w32 (sigma1 (nth 1 w 0) + nth 6 w 0 + sigma0 (nth 14 w 0) + nth 15 w 0) :: w)
  end.

Definition digest_state : Type := Z * Z * Z * Z * Z * Z * Z * Z.
Definition round (s : digest_state) (kw : Z * Z) : digest_state :=
  let '(a, b, c, d, e, f, g, h) := s in
  let t1 := h + big_sigma1 e + Ch e f g + fst kw + snd kw in
  let t2 := big_sigma0 a + Maj a b c in
  (w32 (t1 + t2), a, b, c, w32 (d + t1), e, f, g).

Definition state_of (l : list Z) : digest_state :=
  (nth 0 l 0, nth 1 l 0, nth 2 l 0, nth 3 l 0, nth 4 l 0, nth 5 l 0, nth 6 l 0, nth 7 l 0).
Definition words_of (s : digest_state) : list Z :=
  let '(a, b, c, d, e, f, g, h) := s in [a; b; c; d; e; f; g; h].

(** One block of sixteen words. *)
Definition compress (h block : list Z) : list Z :=
  let w := rev (schedule 48 (rev block)) in
  zip_with (λ x y, w32 (x + y)) h (words_of (fold_left round (zip round_constants w) (state_of h))).

(** ** Messages *)

Definition byte_vals (s : bytes) : list Z := map byte_val (String.list_ascii_of_string s).
Definition bytes_of_vals (l : list Z) : bytes := String.string_of_list_ascii (map byte_of l).

(** A word as four bytes, the most significant first. *)
Definition word_bytes (w : Z) : list Z :=
  [Z.shiftr w 24 mod 256; Z.shiftr w 16 mod 256; Z.shiftr w 8 mod 256; w mod 256].
Fixpoint words (l : list Z) : list Z :=
  match l with
  | a :: b :: c :: d :: l => (a * 16777216 + b * 65536 + c * 256 + d) :: words l
  | _ => []
  end.

(** A one bit, zeros up to 56 modulo 64, the length in bits in eight bytes. *)
Definition pad (l : list Z) : list Z :=
  let n := Z.of_nat (length l) in
  l ++ 128 :: repeat 0 (Z.to_nat ((55 - n) mod 64)) ++
  word_bytes (Z.shiftr (8 * n) 32) ++ word_bytes (w32 (8 * n)).

Fixpoint blocks (n : nat) (w : list Z) : list (list Z) :=
  match n with O => [] | S n => take 16 w :: blocks n (drop 16 w) end.

Definition sha256_vals (l : list Z) : list Z :=
  let w := words (pad l) in
  mjoin (map word_bytes (fold_left compress (blocks (length w / 16) w) initial_hash)).
Definition sha256 (s : bytes) : bytes := bytes_of_vals (sha256_vals (byte_vals s)).

(** ** HMAC *)

Definition blockSize : nat := 64.
(** The key as one block: hashed when it is longer, then filled up with zeros. *)
Definition block_key (key : list Z) : list Z :=
  let key := if (blockSize <? length key)%nat then sha256_vals key else key in
  key ++ repeat 0 (blockSize - length key).
Definition hmac_vals (key message : list Z) : list Z :=
  let k := block_key key in
  sha256_vals (map (Z.lxor 0x5C) k ++ sha256_vals (map (Z.lxor 0x36) k ++ message)).
Definition HMAC (key message : bytes) : bytes := bytes_of_vals (hmac_vals (byte_vals key) (byte_vals message)).

(** ** Test vectors *)

Example sha256_abc :
  hex_EncodeToString (sha256 "abc") = "ba7816bf8f01cfea414140de5dae2223b00361a396177a9cb410ff61f20015ad"%string.
Proof. vm_compute. reflexivity. Qed.
Example sha256_empty :
  hex_EncodeToString (sha256 "") = "e3b0c44298fc1c149afbf4c8996fb92427ae41e4649b934ca495991b7852b855"%string.
Proof. vm_compute. reflexivity. Qed.
Example sha256_two_blocks :
  hex_EncodeToString (sha256 "abcdbcdecdefdefgefghfghighijhijkijkljklmklmnlmnomnopnopq") =
    "248d6a61d20638b8e5c026930c3e6039a33ce45964ff2167f6ecedd419db06c1"%string.
Proof. vm_compute. reflexivity. Qed.
Example hmac_jefe :
  hex_EncodeToString (HMAC "Jefe" "what do ya want for nothing?") =
    "5bdcc146bf60754e6a042426089575c75a003f089d2739839dec58b964ec3843"%string.
Proof. vm_compute. reflexivity. Qed.

(** ** Sizes *)

Lemma compress_length h block : length h = 8%nat → length (compress h block) = 8%nat.
Proof.
  intros Hh. unfold compress. rewrite length_zip_with, Hh.
  by destruct (fold_left round _ _) as [[[[[[[? ?] ?] ?] ?] ?] ?] ?].
Qed.

Lemma fold_compress_length bs h : length h = 8%nat → length (fold_left compress bs h) = 8%nat.
Proof. revert h. induction bs as [|b bs IH]; [done|]. intros h Hh. apply IH. by apply compress_length. Qed.

Lemma mjoin_word_bytes l : length (mjoin (map word_bytes l)) = (4 * length l)%nat.
Proof. induction l as [|w l IH]; [done|]. change (mjoin (map word_bytes (w :: l))) with (word_bytes w ++ mjoin (map word_bytes l)).
  rewrite length_app, IH. simpl. lia.
Qed.

Lemma bytes_of_vals_length l : String.length (bytes_of_vals l) = length l.
Proof. unfold bytes_of_vals. induction l as [|x l IH]; [done|]. simpl. by rewrite IH. Qed.

(** A digest is 32 bytes. *)
Lemma sha256_vals_length l : length (sha256_vals l) = 32%nat.
Proof. unfold sha256_vals. by rewrite mjoin_word_bytes, fold_compress_length. Qed.
Lemma sha256_length s : String.length (sha256 s) = 32%nat.
Proof. unfold sha256. by rewrite bytes_of_vals_length, sha256_vals_length. Qed.
Lemma HMAC_length key s : String.length (HMAC key s) = 32%nat.
Proof. unfold HMAC, hmac_vals. by rewrite bytes_of_vals_length, sha256_vals_length. Qed.

(** A padded message is whole blocks, and nothing of it is left out. *)
Lemma pad_length l : (length (pad l) mod 64 = 0)%nat.
Proof.
  unfold pad. rewrite length_app. cbn [length]. rewrite length_app, repeat_length. cbn [length app word_bytes].
  apply Nat2Z.inj. rewrite Nat2Z.inj_mod, Nat2Z.inj_add, Nat2Z.inj_succ, Nat2Z.inj_add.
  rewrite Z2Nat.id by (apply Z.mod_pos_bound; lia). set (n := Z.of_nat (length l)).
  change (Z.of_nat 8) with 8. change (Z.of_nat 64) with 64. change (Z.of_nat 0) with 0. clearbody n.
  Z.to_euclidean_division_equations. lia.
Qed.
