(* ===== verification/Duration.v ===== *)
(** * [time.ParseDuration]

    The standard library's parser of durations, which cmd/walletd/main.go reads its
    intervals and thresholds with: decimal numbers with an optional fraction and a
    unit, summed up in nanoseconds. Unsigned 64-bit integers are [Z] with their
    overflow checks and wrap-around written out; the fraction is computed in IEEE
    double precision, as the library does. *)

From Stdlib Require Import ZArith Lia Ascii SpecFloat.
From stdpp Require Import prelude strings.
From S2P Require Import Prelude GoStd.

Definition digit (c : ascii) : option Z :=
  let n := Z.of_N (N_of_ascii c) in if (48 <=? n) && (n <=? 57) then Some (n - 48) else None.

(** [leadingInt]: the digits in front of [s], and the rest. *)
Fixpoint leadingInt (x : Z) (s : string) : option (Z * string) :=
  match s with
  | EmptyString => Some (x, EmptyString)
  | String c s' =>
      match digit c with
      | None => Some (x, s)
      | Some d =>
          if 2 ^ 63 / 10 <? x then None
          else let x := x * 10 + d in if 2 ^ 63 <? x then None else leadingInt x s'
      end
  end.

(** ** [float64] *)

Definition float_of_int (z : Z) : spec_float := binary_normalize 53 1024 z 0 false.
Definition float_mul : spec_float → spec_float → spec_float := SFmul 53 1024.
Definition float_div : spec_float → spec_float → spec_float := SFdiv 53 1024.
(** The conversion to an unsigned integer, of a value that is in range. *)
Definition float_to_uint (x : spec_float) : Z :=
  match x with
  | S754_finite false m e => if 0 <=? e then Z.pos m * 2 ^ e else Z.pos m / 2 ^ (- e)
  | _ => 0
  end.

(** [leadingFraction]: digits that no longer fit are dropped. *)
Fixpoint leadingFraction (x : Z) (scale : spec_float) (overflow : bool) (s : string)
    : Z * spec_float * string :=
  match s with
  | EmptyString => (x, scale, EmptyString)
  | String c s' =>
      match digit c with
      | None => (x, scale, s)
      | Some d =>
          if overflow || ((2 ^ 63 - 1) / 10 <? x) then leadingFraction x scale true s'
          else let y := x * 10 + d in
               if 2 ^ 63 <? y then leadingFraction x scale true s'
               else leadingFraction y (float_mul scale (float_of_int 10)) false s'
      end
  end.

(** The unit: everything up to the next digit or dot. *)
Fixpoint leadingUnit (s : string) : string * string :=
  match s with
  | EmptyString => (EmptyString, EmptyString)
  | String c s' =>
      match digit c with
      | Some _ => (EmptyString, s)
      | None => if Ascii.eqb c "." then (EmptyString, s)
                else let '(u, rest) := leadingUnit s' in (String c u, rest)
      end
  end.

(** The two spellings of micro are U+00B5 and U+03BC in UTF-8. *)
Definition unitMap (u : string) : option Z :=
  if String.eqb u "ns" then Some 1
  else if String.eqb u "us" || String.eqb u (bytes_of [194; 181; 115]%N)
          || String.eqb u (bytes_of [206; 188; 115]%N) then Some 1000
  else if String.eqb u "ms" then Some (10 ^ 6)
  else if String.eqb u "s" then Some (10 ^ 9)
  else if String.eqb u "m" then Some (60 * 10 ^ 9)
  else if String.eqb u "h" then Some (3600 * 10 ^ 9)
  else None.

(** One number with its unit: its nanoseconds, and the rest. *)
Definition parse_component (s : string) : option (Z * string) :=
  match leadingInt 0 s with
  | None => None
  | Some (v, s1) =>
      let pre := negb (String.length s1 =? String.length s)%nat in
      let '(f, scale, s2, post) :=
        match s1 with
        | String "."%char s' =>
            let '(f, scale, s2) := leadingFraction 0 (float_of_int 1) false s' in
            (f, scale, s2, negb (String.length s2 =? String.length s')%nat)
        | _ => (0, float_of_int 1, s1, false)
        end in
      if negb pre && negb post then None else
      let '(u, rest) := leadingUnit s2 in
      if String.eqb u EmptyString then None else
      match unitMap u with
      | None => None
      | Some unit =>
          if 2 ^ 63 / unit <? v then None else
          let v := v * unit in
          if 0 <? f then
            let v := u64 (v + float_to_uint (float_mul (float_of_int f) (float_div (float_of_int unit) scale))) in
            if 2 ^ 63 <? v then None else Some (v, rest)
          else Some (v, rest)
      end
  end.

(** The loop over the components; each one consumes its unit at least. *)
Fixpoint parse_components (fuel : nat) (d : Z) (s : string) : option Z :=
  if String.eqb s EmptyString then Some d else
  match fuel with
  | O => None
  | S fuel =>
      match parse_component s with
      | None => None
      | Some (v, rest) =>
          let d := u64 (d + v) in if 2 ^ 63 <? d then None else parse_components fuel d rest
      end
  end.

Definition ParseDuration (s : string) : option Z :=
  let '(neg, s) :=
    match s with
    | String "-"%char s => (true, s)
    | String "+"%char s => (false, s)
    | _ => (false, s)
    end in
  if String.eqb s "0" then Some 0
  else if String.eqb s EmptyString then None
  else match parse_components (String.length s) 0 s with
       | None => None
       | Some d => if neg then Some (i64 (- i64 d)) else if 2 ^ 63 - 1 <? d then None else Some d
       end.

Example ParseDuration_5s : ParseDuration "5s" = Some (5 * 10 ^ 9).
Proof. vm_compute. reflexivity. Qed.
Example ParseDuration_fraction : ParseDuration "-1h1.5m0.1ms" = Some (- (3690 * 10 ^ 9 + 10 ^ 5)).
Proof. vm_compute. reflexivity. Qed.
Example ParseDuration_bad : map ParseDuration ["5"; ".s"; "s"; "1x"; "9223372036854775808ns"] = [None; None; None; None; None].
Proof. vm_compute. reflexivity. Qed.

(** ** Range and fuel *)

Lemma i64_range z : - 2 ^ 63 <= i64 z < 2 ^ 63.
Proof. unfold i64. pose proof (Z.mod_pos_bound (z + 2 ^ 63) (2 ^ 64) ltac:(lia)). lia. Qed.

Lemma parse_components_nonneg fuel d s z : 0 <= d → parse_components fuel d s = Some z → 0 <= z.
Proof.
  revert d s. induction fuel as [|fuel IH]; intros d s Hd; simpl; destruct (String.eqb s EmptyString);
    try (intros; by simplify_eq).
  destruct (parse_component s) as [[v rest]|]; [|done]. destruct (_ <? _); [done|].
  apply IH. unfold u64. apply Z.mod_pos_bound. lia.
Qed.

(** A parsed duration is a 64-bit integer. *)
Lemma ParseDuration_range s d : ParseDuration s = Some d → - 2 ^ 63 <= d < 2 ^ 63.
Proof.
  unfold ParseDuration. destruct (match s with EmptyString => _ | _ => _ end) as [neg s'].
  destruct (String.eqb s' "0"); [intros [= <-]; lia|]. destruct (String.eqb s' EmptyString); [done|].
  destruct (parse_components _ _ _) as [z|] eqn:E; [|done]. apply parse_components_nonneg in E; [|done].
  destruct neg; [intros [= <-]; apply i64_range|]. destruct (Z.ltb_spec (2 ^ 63 - 1) z); [done|].
  intros [= <-]. lia.
Qed.

Lemma leadingInt_length x s v rest : leadingInt x s = Some (v, rest) → (String.length rest <= String.length s)%nat.
Proof.
  revert x. induction s as [|c s IH]; intros x; simpl; [intros; by simplify_eq|].
  destruct (digit c); [|intros; by simplify_eq]. destruct (_ <? _); [done|]. destruct (_ <? _); [done|].
  intros H%IH. lia.
Qed.
Lemma leadingFraction_length x scale o s f sc rest :
  leadingFraction x scale o s = (f, sc, rest) → (String.length rest <= String.length s)%nat.
Proof.
  revert x scale o. induction s as [|c s IH]; intros x scale o; simpl; [intros; by simplify_eq|].
  destruct (digit c); [|intros; by simplify_eq]. destruct (_ || _); [intros H%IH; lia|].
  destruct (_ <? _); intros H%IH; lia.
Qed.
Lemma leadingUnit_length s u rest :
  leadingUnit s = (u, rest) → (String.length u + String.length rest = String.length s)%nat.
Proof.
  revert u. induction s as [|c s IH]; intros u; simpl; [intros; by simplify_eq|].
  destruct (digit c); [intros; by simplify_eq|]. destruct (Ascii.eqb c "."); [intros; by simplify_eq|].
  destruct (leadingUnit s) as [u' r]. intros. simplify_eq/=. by rewrite (IH u').
Qed.
Lemma parse_component_shorter s v rest :
  parse_component s = Some (v, rest) → (String.length rest < String.length s)%nat.
Proof.
  unfold parse_component. destruct (leadingInt 0 s) as [[w s1]|] eqn:E1; [|done].
  apply leadingInt_length in E1.
  destruct (match s1 with EmptyString => _ | _ => _ end) as [[[f scale] s2] post] eqn:E2.
  assert (String.length s2 <= String.length s1)%nat as H2.
  { destruct s1 as [|c s']; [by simplify_eq|]. destruct (Ascii.eqb_spec c "."%char) as [->|Hc].
    - destruct (leadingFraction _ _ _ s') as [[f' sc'] r'] eqn:EF. apply leadingFraction_length in EF.
      simplify_eq/=. lia.
    - assert ((0, float_of_int 1, String c s', false) = (f, scale, s2, post)) as E; [|by simplify_eq].
      rewrite <-E2. destruct c as [[] [] [] [] [] [] [] []]; try done. }
  destruct (negb _ && negb _); [done|]. destruct (leadingUnit s2) as [u r] eqn:EU.
  apply leadingUnit_length in EU. destruct (String.eqb_spec u EmptyString) as [|Hu]; [done|].
  assert (0 < String.length u)%nat by (destruct u; [done|simpl; lia]).
  destruct (unitMap u); [|done]. destruct (_ <? w); [done|].
  destruct (0 <? f); [destruct (_ <? _); [done|]|]; intros; simplify_eq; lia.
Qed.

(** The fuel is enough: more changes nothing. *)
Lemma parse_components_fuel s d n m :
  (String.length s <= n)%nat → (String.length s <= m)%nat → parse_components n d s = parse_components m d s.
Proof.
  revert s d m. induction n as [|n IH]; intros s d m Hn Hm; destruct m as [|m]; simpl;
    destruct (String.eqb_spec s EmptyString) as [|Hs]; try done;
    try (exfalso; destruct s; [done|simpl in *; lia]).
  destruct (parse_component s) as [[v rest]|] eqn:E; [|done]. apply parse_component_shorter in E.
  destruct (_ <? _); [done|]. apply IH; lia.
Qed.
