(* ===== verification/Base64.v ===== *)
(** * [encoding/base64.RawURLEncoding]

    The encoder, and the decoder with Go's leniencies (carriage returns and line
    feeds are skipped, unused trailing bits are ignored). *)

From Stdlib Require Import ZArith Lia Ascii.
From stdpp Require Import prelude strings.
From S2P Require Import Prelude GoStd.

Local Open Scope N_scope.

Definition b64_char (n : N) : ascii :=
  ascii_of_N (if n <? 26 then n + 65 else if n <? 52 then n + 71
              else if n <? 62 then n - 4 else if n =? 62 then 45 else 95).

Definition b64_value (c : ascii) : option N :=
  let n := N_of_ascii c in
  if (65 <=? n) && (n <=? 90) then Some (n - 65)
  else if (97 <=? n) && (n <=? 122) then Some (n - 71)
  else if (48 <=? n) && (n <=? 57) then Some (n + 4)
  else if n =? 45 then Some 62
  else if n =? 95 then Some 63
  else None.

Fixpoint base64_EncodeToString (s : bytes) : string :=
  match s with
  | String a (String b (String c s)) =>
      let '(a, b, c) := (N_of_ascii a, N_of_ascii b, N_of_ascii c) in
      String (b64_char (a / 4)) (String (b64_char (a mod 4 * 16 + b / 16))
        (String (b64_char (b mod 16 * 4 + c / 64)) (String (b64_char (c mod 64))
          (base64_EncodeToString s))))
  | String a (String b EmptyString) =>
      let '(a, b) := (N_of_ascii a, N_of_ascii b) in
      String (b64_char (a / 4)) (String (b64_char (a mod 4 * 16 + b / 16))
        (String (b64_char (b mod 16 * 4)) EmptyString))
  | String a EmptyString =>
      let a := N_of_ascii a in
      String (b64_char (a / 4)) (String (b64_char (a mod 4 * 16)) EmptyString)
  | EmptyString => EmptyString
  end.

Fixpoint skip_newlines (s : string) : string :=
  match s with
  | EmptyString => EmptyString
  | String c s =>
      if (N_of_ascii c =? 10) || (N_of_ascii c =? 13) then skip_newlines s
      else String c (skip_newlines s)
  end.

Fixpoint b64_decode (s : string) : option bytes :=
  match s with
  | String w (String x (String y (String z s))) =>
      match b64_value w, b64_value x, b64_value y, b64_value z, b64_decode s with
      | Some w, Some x, Some y, Some z, Some r =>
          Some (String (ascii_of_N (w * 4 + x / 16)) (String (ascii_of_N (x mod 16 * 16 + y / 4))
                  (String (ascii_of_N (y mod 4 * 64 + z)) r)))
      | _, _, _, _, _ => None
      end
  | String w (String x (String y EmptyString)) =>
      match b64_value w, b64_value x, b64_value y with
      | Some w, Some x, Some y =>
          Some (String (ascii_of_N (w * 4 + x / 16))
                  (String (ascii_of_N (x mod 16 * 16 + y / 4)) EmptyString))
      | _, _, _ => None
      end
  | String w (String x EmptyString) =>
      match b64_value w, b64_value x with
      | Some w, Some x => Some (String (ascii_of_N (w * 4 + x / 16)) EmptyString)
      | _, _ => None
      end
  | String _ EmptyString => None
  | EmptyString => Some EmptyString
  end.

Definition base64_DecodeString (s : string) : option bytes := b64_decode (skip_newlines s).

(** ** Round trip *)

Lemma b64_alphabet n :
  n < 64 → b64_value (b64_char n) = Some n ∧ b64_char n ≠ "."%char ∧
           N_of_ascii (b64_char n) ≠ 10 ∧ N_of_ascii (b64_char n) ≠ 13.
Proof.
  intros Hn. assert (∀ m, (m < 64)%nat →
    bool_decide (b64_value (b64_char (N.of_nat m)) = Some (N.of_nat m) ∧ b64_char (N.of_nat m) ≠ "."%char ∧
      N_of_ascii (b64_char (N.of_nat m)) ≠ 10 ∧ N_of_ascii (b64_char (N.of_nat m)) ≠ 13) = true) as H.
  { intros m Hm. do 64 (destruct m as [|m]; [vm_compute; reflexivity|]). lia. }
  specialize (H (N.to_nat n) ltac:(lia)). rewrite N2Nat.id in H. by apply bool_decide_eq_true in H.
Qed.

(** Strong induction by groups of three bytes. *)
Lemma bytes3_ind (P : string → Prop) :
  P EmptyString → (∀ a, P (String a EmptyString)) → (∀ a b, P (String a (String b EmptyString))) →
  (∀ a b c s, P s → P (String a (String b (String c s)))) → ∀ s, P s.
Proof.
  intros H0 H1 H2 H3.
  fix IH 1. intros [|a [|b [|c s]]]; [apply H0|apply H1|apply H2|apply H3, IH].
Qed.

Lemma byte_bound c : N_of_ascii c < 256.
Proof. apply N_ascii_bounded. Qed.

Lemma sextet_div a : a < 256 → a / 4 < 64.
Proof. intros. apply N.Div0.div_lt_upper_bound. lia. Qed.
Lemma sextet_mid a b : b < 256 → a mod 4 * 16 + b / 16 < 64.
Proof.
  intros. pose proof (N.mod_lt a 4 ltac:(lia)).
  assert (b / 16 < 16) by (apply N.Div0.div_lt_upper_bound; lia). lia.
Qed.
Lemma sextet_mid2 b c : c < 256 → b mod 16 * 4 + c / 64 < 64.
Proof.
  intros. pose proof (N.mod_lt b 16 ltac:(lia)).
  assert (c / 64 < 4) by (apply N.Div0.div_lt_upper_bound; lia). lia.
Qed.
Lemma sextet_low a : a mod 4 * 16 < 64.
Proof. pose proof (N.mod_lt a 4 ltac:(lia)). lia. Qed.
Lemma sextet_low2 b : b mod 16 * 4 < 64.
Proof. pose proof (N.mod_lt b 16 ltac:(lia)). lia. Qed.
Lemma sextet_mod c : c mod 64 < 64.
Proof. apply N.mod_lt. lia. Qed.

Lemma merge1 a b : b < 256 → a / 4 * 4 + (a mod 4 * 16 + b / 16) / 16 = a.
Proof.
  intros. rewrite N.div_add_l by lia. rewrite (N.div_small (b / 16) 16).
  - pose proof (N.div_mod a 4 ltac:(lia)). lia.
  - apply N.Div0.div_lt_upper_bound. lia.
Qed.
Lemma merge1' a : a / 4 * 4 + (a mod 4 * 16) / 16 = a.
Proof. rewrite N.div_mul by lia. pose proof (N.div_mod a 4 ltac:(lia)). lia. Qed.
Lemma merge2 a b c :
  b < 256 → c < 256 → (a mod 4 * 16 + b / 16) mod 16 * 16 + (b mod 16 * 4 + c / 64) / 4 = b.
Proof.
  intros. rewrite (N.add_comm (a mod 4 * 16)), N.Div0.mod_add.
  rewrite (N.mod_small (b / 16)) by (apply N.Div0.div_lt_upper_bound; lia).
  rewrite N.div_add_l by lia. rewrite (N.div_small (c / 64)) by (apply N.Div0.div_lt_upper_bound; lia).
  pose proof (N.div_mod b 16 ltac:(lia)). lia.
Qed.
Lemma merge2' a b : b < 256 → (a mod 4 * 16 + b / 16) mod 16 * 16 + (b mod 16 * 4) / 4 = b.
Proof.
  intros. rewrite (N.add_comm (a mod 4 * 16)), N.Div0.mod_add.
  rewrite (N.mod_small (b / 16)) by (apply N.Div0.div_lt_upper_bound; lia).
  rewrite N.div_mul by lia. pose proof (N.div_mod b 16 ltac:(lia)). lia.
Qed.
Lemma merge3 b c : c < 256 → (b mod 16 * 4 + c / 64) mod 4 * 64 + c mod 64 = c.
Proof.
  intros. rewrite (N.add_comm (b mod 16 * 4)), N.Div0.mod_add.
  rewrite (N.mod_small (c / 64)) by (apply N.Div0.div_lt_upper_bound; lia).
  pose proof (N.div_mod c 64 ltac:(lia)). lia.
Qed.

Ltac sextets :=
  repeat rewrite (fun n H => proj1 (b64_alphabet n H))
    by (first [apply sextet_div|apply sextet_mid|apply sextet_mid2|apply sextet_low|apply sextet_low2
              |apply sextet_mod]; apply byte_bound).

Lemma b64_decode_encode s : b64_decode (base64_EncodeToString s) = Some s.
Proof.
  induction s as [|a|a b|a b c s IH] using bytes3_ind; [done|..];
    cbn [base64_EncodeToString b64_decode]; sextets.
  - by rewrite merge1', ascii_N_embedding.
  - rewrite merge1, merge2' by apply byte_bound. by rewrite !ascii_N_embedding.
  - rewrite IH, merge1, merge2, merge3 by apply byte_bound. by rewrite !ascii_N_embedding.
Qed.

(** The alphabet has no line break and no dot. *)
Lemma skip_newlines_char n s :
  n < 64 → skip_newlines (String (b64_char n) s) = String (b64_char n) (skip_newlines s).
Proof.
  intros (_ & _ & H1 & H2)%b64_alphabet. cbn [skip_newlines].
  by rewrite (proj2 (N.eqb_neq _ _) H1), (proj2 (N.eqb_neq _ _) H2).
Qed.

Lemma contains_dot_char n s :
  n < 64 → contains_byte "." (String (b64_char n) s) = contains_byte "." s.
Proof.
  intros (_ & H & _)%b64_alphabet. cbn [contains_byte].
  by destruct (Ascii.eqb_spec (b64_char n) ".").
Qed.

Ltac sextet_bound :=
  first [apply sextet_div|apply sextet_mid|apply sextet_mid2|apply sextet_low|apply sextet_low2
        |apply sextet_mod]; apply byte_bound.

Lemma skip_newlines_encode s : skip_newlines (base64_EncodeToString s) = base64_EncodeToString s.
Proof.
  induction s as [|a|a b|a b c s IH] using bytes3_ind; [done|..]; cbn [base64_EncodeToString];
    rewrite !skip_newlines_char by sextet_bound; [done|done|]. by rewrite IH.
Qed.

Lemma base64_no_dot s : contains_byte "." (base64_EncodeToString s) = false.
Proof.
  induction s as [|a|a b|a b c s IH] using bytes3_ind; [done|..]; cbn [base64_EncodeToString];
    rewrite !contains_dot_char by sextet_bound; [done|done|]. by rewrite IH.
Qed.

Lemma base64_roundtrip s : base64_DecodeString (base64_EncodeToString s) = Some s.
Proof. unfold base64_DecodeString. rewrite skip_newlines_encode. apply b64_decode_encode. Qed.
