(* ===== verification/Domain.v ===== *)
(** * The domain package: values, errors and requests

    The types of [src/internal/core] (customer.go, deposit.go, withdrawal.go,
    fee_estimate.go) and of Go's [error]. A [*big.Int] is a [Z] ([option Z]
    where the code distinguishes nil), a [time.Time] is a [Z] counting
    PostgreSQL's microseconds, a [*T] is an [option T]. [Chain], [Asset] and the
    ids are Go strings and stay strings; the closed vocabularies the database
    enforces with CHECK constraints ([AccountType], [DepositState], the
    withdrawal statuses) are inductive types. *)

From Stdlib Require Import ZArith Lia.
From stdpp Require Import prelude strings.
From S2P Require Import Prelude GoStd.

(** ** Errors *)

(** The sentinel errors of [internal/core] and [internal/adapter/postgres], and
    go-ethereum's [ethereum.NotFound], which the evm adapter tests for. *)
Inductive sentinel :=
  | ErrCustomerNotFound | ErrInsufficientBalance | ErrDuplicateTransferCause
  | ErrInvalidCursor | ErrInvalidPageSize
  | ErrMalformedDestinationAddress | ErrInvalidDestinationAddress
  | ErrInsufficientBalanceForFee | ErrWithdrawalNotAwaitingApproval
  | ErrWithdrawalNotFound | ErrDuplicateWithdrawalCause | ErrWithdrawalNotSigned
  | ErrWithdrawalNotBroadcast | ErrMissingApprovalActor | ErrMissingApprovalReason
  | ErrSelfTransfer | ErrNonPositiveAmount | ErrAmountTooLarge | ErrKeyConflict
  | ErrNoChainNonceState | ErrNoTreasuryAccount | ErrNoHoldAccount
  | ErrNoAvailableAccount | ErrNoWithdrawalApprovalThreshold
  | EthereumNotFound.

#[export] Instance sentinel_eq_dec : EqDecision sentinel.
Proof. solve_decision. Defined.

(** A Go error value: a sentinel; [errors.New]/[fmt.Errorf] with no wrapped
    error; [fmt.Errorf] with one [%w] (the text before and after it);
    [errors.Join]; and pgx's [PgError] with its SQLSTATE code. *)
Inductive error :=
  | ErrIs (s : sentinel)
  | ErrText (msg : string)
  | ErrWrap (before : string) (e : error) (after : string)
  | ErrJoin (es : list error)
  | ErrPg (code msg : string).

(** [errors.Is(e, s)]. *)
Fixpoint errors_Is (e : error) (s : sentinel) : bool :=
  match e with
  | ErrIs s' => bool_decide (s' = s)
  | ErrText _ => false
  | ErrWrap _ e _ => errors_Is e s
  | ErrJoin es => existsb (λ e, errors_Is e s) es
  | ErrPg _ _ => false
  end.

(** The sentinel at the end of a chain of [%w]s. *)
Fixpoint wrapped (e : error) : option sentinel :=
  match e with ErrIs s => Some s | ErrWrap _ e _ => wrapped e | _ => None end.

Lemma errors_Is_wrapped e s s' : wrapped e = Some s → errors_Is e s' = bool_decide (s = s').
Proof. induction e; simpl; try done. by intros [= ->]. Qed.

(** The texts of the sentinels ([errors.New] in the files named above). *)
Definition sentinel_text (s : sentinel) : string :=
  match s with
  | ErrCustomerNotFound => "customer not found"
  | ErrInsufficientBalance => "source account balance is less than the requested transfer amount"
  | ErrDuplicateTransferCause => "a journal entry already exists for this idempotency key"
  | ErrInvalidCursor => "cursor is not a valid page marker"
  | ErrInvalidPageSize => "page size must be a positive integer"
  | ErrMalformedDestinationAddress =>
      "destination address must be a well-formed 0x-prefixed 40-hex-character address"
  | ErrInvalidDestinationAddress =>
      "destination address is a known-invalid target (the zero address)"
  | ErrInsufficientBalanceForFee => "available balance does not cover the estimated withdrawal fee"
  | ErrWithdrawalNotAwaitingApproval => "withdrawal is not awaiting approval"
  | ErrWithdrawalNotFound => "withdrawal not found"
  | ErrDuplicateWithdrawalCause => "a journal entry already exists for this idempotency key"
  | ErrWithdrawalNotSigned => "withdrawal is not signed"
  | ErrWithdrawalNotBroadcast => "withdrawal is not broadcast"
  | ErrMissingApprovalActor => "actor is required to approve a withdrawal"
  | ErrMissingApprovalReason => "reason is required to approve a withdrawal"
  | ErrSelfTransfer => "source and destination customer must differ"
  | ErrNonPositiveAmount => "transfer amount must be a positive integer"
  | ErrAmountTooLarge => "amount exceeds the maximum representable on-chain value"
  | ErrKeyConflict => "idempotency key already inserted by a concurrent request"
  | ErrNoChainNonceState => "no chain_nonce_state row configured for this chain"
  | ErrNoTreasuryAccount => "no platform treasury account configured for this chain/asset"
  | ErrNoHoldAccount => "customer has no hold account for this chain/asset"
  | ErrNoAvailableAccount => "customer has no available account for this chain/asset"
  | ErrNoWithdrawalApprovalThreshold =>
      "no withdrawal approval threshold configured for this chain/asset"
  | EthereumNotFound => "not found"
  end.

Definition newline : string := bytes_of [10%N].

(** [e.Error()]. *)
Fixpoint error_text (e : error) : string :=
  match e with
  | ErrIs s => sentinel_text s
  | ErrText m => m
  | ErrWrap b e a => b +:+ error_text e +:+ a
  | ErrJoin es =>
      (fix go es :=
         match es with
         | [] => EmptyString
         | [e] => error_text e
         | e :: es => error_text e +:+ newline +:+ go es
         end) es
  | ErrPg _ m => m
  end.

(** [errors.As(err, &pgErr) && pgErr.Code == "23505"]. *)
Definition pgUniqueViolation : string := "23505".
Fixpoint is_unique_violation (e : error) : bool :=
  match e with
  | ErrPg code _ => String.eqb code pgUniqueViolation
  | ErrWrap _ e _ => is_unique_violation e
  | _ => false
  end.

(** [fmt.Errorf("ctx: %w", e)]. *)
Definition wrap (ctx : string) (e : error) : error := ErrWrap (ctx +:+ ": ") e "".

(** The value or the error a Go function returns. *)
Inductive result (A : Type) := Ok (a : A) | Err (e : error).
Arguments Ok {_} _.
Arguments Err {_} _.

(** [v, err := r; if err != nil { return err }]. *)
Definition bindE {A B} (r : result A) (k : A → result B) : result B :=
  match r with Ok a => k a | Err e => Err e end.

Definition is_Ok {A} (r : result A) : bool :=
  match r with Ok _ => true | Err _ => false end.

(** [errors.Join(errs...)]: nil when no error was collected. *)
Definition errors_Join (errs : list error) : option error :=
  match errs with [] => None | _ => Some (ErrJoin errs) end.

(** ** customer.go *)

Notation Chain := string (only parsing).
Notation Asset := string (only parsing).

Definition ChainBase : Chain := "base".
Definition ChainArbitrum : Chain := "arbitrum".
Definition AssetETH : Asset := "eth".
Definition AssetUSDC : Asset := "usdc".

Definition SupportedChainAssetPairs : list (Chain * Asset) :=
  [(ChainBase, AssetETH); (ChainBase, AssetUSDC);
   (ChainArbitrum, AssetETH); (ChainArbitrum, AssetUSDC)].

Inductive AccountType := AccountTypeAvailable | AccountTypeHold | AccountTypeTreasury.
#[export] Instance AccountType_eq_dec : EqDecision AccountType.
Proof. solve_decision. Defined.

Definition AccountType_text (t : AccountType) : string :=
  match t with
  | AccountTypeAvailable => "available"
  | AccountTypeHold => "hold"
  | AccountTypeTreasury => "treasury"
  end.

Record Customer := mkCustomer {
  cust_ID : string;
  cust_CreatedAt : Z;
  cust_DepositAddress : string;
}.

Record Account := mkAccount {
  acct_ID : string;
  acct_CustomerID : string;
  acct_Chain : Chain;
  acct_Asset : Asset;
  acct_Type : AccountType;
  acct_CreatedAt : Z;
}.

Record AccountBalance := mkAccountBalance {
  ab_Chain : Chain;
  ab_Asset : Asset;
  ab_Balance : Z;
}.

Record TransferRequest := mkTransferRequest {
  tr_Source : string;
  tr_Destination : string;
  tr_Chain : Chain;
  tr_Asset : Asset;
  tr_Amount : option Z;
  tr_IdempotencyKey : string;
}.

Record Transfer := mkTransfer {
  tf_ID : string;
  tf_Source : string;
  tf_Destination : string;
  tf_Chain : Chain;
  tf_Asset : Asset;
  tf_Amount : Z;
  tf_CreatedAt : Z;
}.

Record Transaction := mkTransaction {
  txn_ID : string;
  txn_Type : string;
  txn_Amount : Z;
  txn_Chain : Chain;
  txn_Asset : Asset;
  txn_Status : string;
  txn_CreatedAt : Z;
}.

Record TransactionPage := mkTransactionPage {
  tp_Transactions : list Transaction;
  tp_NextCursor : string;
}.

(** ** deposit.go *)

Inductive DepositState :=
  | DepositObserved | DepositSafe | DepositFinalized | DepositOrphaned | DepositCredited.
#[export] Instance DepositState_eq_dec : EqDecision DepositState.
Proof. solve_decision. Defined.

Definition CursorTierObserved : string := "observed".
Definition CursorTierSafe : string := "safe".
Definition CursorTierFinalized : string := "finalized".

Record Deposit := mkDeposit {
  dep_ID : string;
  dep_Chain : Chain;
  dep_Asset : Asset;
  dep_Address : string;
  dep_TxHash : string;
  dep_LogIndex : Z;
  dep_Amount : Z;
  dep_BlockNumber : Z;
  dep_BlockHash : string;
  dep_State : DepositState;
  dep_ObservedAt : Z;
  dep_UpdatedAt : Z;
}.

Record ObservedTransfer := mkObservedTransfer {
  ot_Chain : Chain;
  ot_Asset : Asset;
  ot_Address : string;
  ot_TxHash : string;
  ot_LogIndex : Z;
  ot_Amount : Z;
  ot_BlockNumber : Z;
  ot_BlockHash : string;
}.
#[export] Instance ObservedTransfer_eq_dec : EqDecision ObservedTransfer.
Proof. solve_decision. Defined.

Record UnsupportedTokenObservation := mkUnsupported {
  un_ID : string;
  un_Chain : Chain;
  un_Address : string;
  un_ContractAddress : string;
  un_TxHash : string;
  un_LogIndex : Z;
  un_Amount : Z;
  un_BlockNumber : Z;
  un_ObservedAt : Z;
}.

(** ** withdrawal.go *)

Inductive WithdrawalStatus :=
  | WithdrawalStatusCreated | WithdrawalStatusAwaitingApproval
  | WithdrawalStatusApproved | WithdrawalStatusSigned | WithdrawalStatusBroadcast
  | WithdrawalStatusConfirmed | WithdrawalStatusFailed.
#[export] Instance WithdrawalStatus_eq_dec : EqDecision WithdrawalStatus.
Proof. solve_decision. Defined.

Definition WithdrawalStatus_text (s : WithdrawalStatus) : string :=
  match s with
  | WithdrawalStatusCreated => "created"
  | WithdrawalStatusAwaitingApproval => "awaiting-approval"
  | WithdrawalStatusApproved => "approved"
  | WithdrawalStatusSigned => "signed"
  | WithdrawalStatusBroadcast => "broadcast"
  | WithdrawalStatusConfirmed => "confirmed"
  | WithdrawalStatusFailed => "failed"
  end.

Record WithdrawalRequest := mkWithdrawalRequest {
  wq_CustomerID : string;
  wq_Chain : Chain;
  wq_Asset : Asset;
  wq_Amount : option Z;
  wq_DestinationAddress : string;
  wq_IdempotencyKey : string;
}.

(** [SignedTx] is [""] for Go's nil or empty slice. *)
Record Withdrawal := mkWithdrawal {
  w_ID : string;
  w_CustomerID : string;
  w_Chain : Chain;
  w_Asset : Asset;
  w_Amount : Z;
  w_DestinationAddress : string;
  w_Status : WithdrawalStatus;
  w_CreatedAt : Z;
  w_ApprovedAt : option Z;
  w_ApprovedBy : string;
  w_ApprovalReason : string;
  w_TxHash : string;
  w_Nonce : option Z;
  w_SignedTx : bytes;
  w_StuckAlertedAt : option Z;
}.

(** ** fee_estimate.go *)

Record FeeEstimate := mkFeeEstimate {
  fe_L2Fee : Z;
  fe_L1Fee : Z;
  fe_TotalFee : option Z;
}.

(** The value of a sequence of fallible calls comes from the values of each. *)
Lemma bindE_Ok {A B} (r : result A) (k : A → result B) b : bindE r k = Ok b ↔ ∃ a, r = Ok a ∧ k a = Ok b.
Proof. destruct r as [a|e]; simpl; split; [eauto|by intros (a' & [= ->] & ?)|done|by intros (a' & ? & _)]. Qed.
