(* ===== verification/Store.v ===== *)
(** * The PostgreSQL store

    The tables the migrations create (src/internal/adapter/postgres/migrations)
    as lists of rows in insertion order, the constraints they declare (PRIMARY
    KEY, UNIQUE, FOREIGN KEY, CHECK, the ranges of [bigint], [integer] and
    [NUMERIC(78,0)]) checked by the row insertions, and the
    row selections and updates the statements are made of. The effects (faults,
    transactions, other sessions) are those of Effects.v. *)

From Stdlib Require Import ZArith Lia.
From stdpp Require Import prelude strings sorting.
From S2P Require Import Prelude GoStd Domain.

(** ** Rows *)

Record CustomerRow := mkCustomerRow { cu_id : string; cu_created_at : Z }.

(** [ac_customer] is NULL for a platform account (forwarder float, treasury). *)
Record AccountRow := mkAccountRow {
  ac_id : string; ac_customer : option string; ac_chain : Chain; ac_asset : Asset;
  ac_type : AccountType; ac_created_at : Z;
}.

Record DepositAddressRow := mkDepositAddressRow {
  da_customer : string; da_address : string; da_created_at : Z;
}.

Record IdempotencyRow := mkIdempotencyRow {
  ik_key : string; ik_hash : bytes; ik_status : Z; ik_body : bytes; ik_ctype : string;
}.

#[export] Instance AccountRow_eq_dec : EqDecision AccountRow.
Proof. solve_decision. Defined.

Record JournalEntry := mkJournalEntry {
  je_id : string; je_cause_type : string; je_cause_id : string; je_created_at : Z;
}.

Record Posting := mkPosting {
  po_id : string; po_entry : string; po_account : string; po_amount : Z; po_created_at : Z;
}.

(** [dr_block_hash] is NULL for a row older than migration 0008. *)
Record DepositRow := mkDepositRow {
  dr_id : string; dr_chain : Chain; dr_asset : Asset; dr_address : string;
  dr_tx_hash : string; dr_log_index : Z; dr_amount : Z; dr_block_number : Z;
  dr_block_hash : option string; dr_state : DepositState;
  dr_observed_at : Z; dr_updated_at : Z;
}.

Record CursorRow := mkCursorRow {
  cr_chain : Chain; cr_tier : string; cr_last_block : Z; cr_updated_at : Z;
}.

Record CreditingPolicyRow := mkCreditingPolicyRow {
  cp_chain : Chain; cp_asset : Asset; cp_credit_tier : string;
}.

Record TokenRow := mkTokenRow { tk_chain : Chain; tk_contract : string; tk_asset : Asset }.

Record WithdrawalRow := mkWithdrawalRow {
  wr_id : string; wr_customer : string; wr_chain : Chain; wr_asset : Asset; wr_amount : Z;
  wr_destination : string; wr_status : WithdrawalStatus; wr_hold_entry : string;
  wr_created_at : Z; wr_updated_at : Z;
  wr_approved_at : option Z; wr_approved_by : option string;
  wr_approval_reason : option string;
  wr_tx_hash : option string; wr_nonce : option Z; wr_stuck_alerted_at : option Z;
}.

Record ThresholdRow := mkThresholdRow { th_chain : Chain; th_asset : Asset; th_amount : Z }.

Record NonceRow := mkNonceRow { nn_chain : Chain; nn_next : Z; nn_updated_at : Z }.

Record AttemptRow := mkAttemptRow {
  ba_id : string; ba_withdrawal : string; ba_chain : Chain; ba_nonce : Z;
  ba_tx_hash : option string; ba_created_at : Z; ba_signed_tx : option string;
}.

(** The [jsonb] payload of an outbox event, one constructor per payload struct. *)
Inductive OutboxPayload :=
  | depositOrphanedPayload (depositId : string)
  | depositCreditedPayload
      (depositId journalEntryId chain asset amount customerId : string)
  | depositPendingPayload
      (depositId chain asset address txHash : string) (logIndex : Z) (amount : string)
  | withdrawalRoutedPayload
      (withdrawalId customerId chain asset amount destinationAddress
       approvedBy approvalReason : string)
  | withdrawalStuckPayload
      (withdrawalId customerId chain asset amount destinationAddress status txHash : string)
  | withdrawalSettledPayload
      (withdrawalId journalEntryId customerId chain asset amount : string).

Record OutboxRow := mkOutboxRow {
  ob_id : string; ob_type : string; ob_payload : OutboxPayload; ob_created_at : Z;
}.

Record DB := mkDB {
  t_customers : list CustomerRow;
  t_accounts : list AccountRow;
  t_deposit_addresses : list DepositAddressRow;
  t_idempotency_keys : list IdempotencyRow;
  t_journal_entries : list JournalEntry;
  t_postings : list Posting;
  t_deposits : list DepositRow;
  t_watcher_cursors : list CursorRow;
  t_outbox_events : list OutboxRow;
  t_crediting_policy : list CreditingPolicyRow;
  t_token_registry : list TokenRow;
  t_unsupported : list UnsupportedTokenObservation;
  t_withdrawals : list WithdrawalRow;
  t_thresholds : list ThresholdRow;
  t_chain_nonce_state : list NonceRow;
  t_broadcast_attempts : list AttemptRow;
}.

(** Replacing one table. *)
Definition set_customers l (db : DB) : DB :=
  mkDB
    l (t_accounts db) (t_deposit_addresses db) (t_idempotency_keys db)
    (t_journal_entries db) (t_postings db) (t_deposits db) (t_watcher_cursors db)
    (t_outbox_events db) (t_crediting_policy db) (t_token_registry db) (t_unsupported
    db) (t_withdrawals db) (t_thresholds db) (t_chain_nonce_state db)
    (t_broadcast_attempts db).
Definition set_accounts l (db : DB) : DB :=
  mkDB
    (t_customers db) l (t_deposit_addresses db) (t_idempotency_keys db)
    (t_journal_entries db) (t_postings db) (t_deposits db) (t_watcher_cursors db)
    (t_outbox_events db) (t_crediting_policy db) (t_token_registry db) (t_unsupported
    db) (t_withdrawals db) (t_thresholds db) (t_chain_nonce_state db)
    (t_broadcast_attempts db).
Definition set_deposit_addresses l (db : DB) : DB :=
  mkDB
    (t_customers db) (t_accounts db) l (t_idempotency_keys db) (t_journal_entries db)
    (t_postings db) (t_deposits db) (t_watcher_cursors db) (t_outbox_events db)
    (t_crediting_policy db) (t_token_registry db) (t_unsupported db) (t_withdrawals db)
    (t_thresholds db) (t_chain_nonce_state db) (t_broadcast_attempts db).
Definition set_idempotency_keys l (db : DB) : DB :=
  mkDB
    (t_customers db) (t_accounts db) (t_deposit_addresses db) l (t_journal_entries db)
    (t_postings db) (t_deposits db) (t_watcher_cursors db) (t_outbox_events db)
    (t_crediting_policy db) (t_token_registry db) (t_unsupported db) (t_withdrawals db)
    (t_thresholds db) (t_chain_nonce_state db) (t_broadcast_attempts db).
Definition set_journal_entries l (db : DB) : DB :=
  mkDB
    (t_customers db) (t_accounts db) (t_deposit_addresses db) (t_idempotency_keys db) l
    (t_postings db) (t_deposits db) (t_watcher_cursors db) (t_outbox_events db)
    (t_crediting_policy db) (t_token_registry db) (t_unsupported db) (t_withdrawals db)
    (t_thresholds db) (t_chain_nonce_state db) (t_broadcast_attempts db).
Definition set_postings l (db : DB) : DB :=
  mkDB
    (t_customers db) (t_accounts db) (t_deposit_addresses db) (t_idempotency_keys db)
    (t_journal_entries db) l (t_deposits db) (t_watcher_cursors db) (t_outbox_events db)
    (t_crediting_policy db) (t_token_registry db) (t_unsupported db) (t_withdrawals db)
    (t_thresholds db) (t_chain_nonce_state db) (t_broadcast_attempts db).
Definition set_deposits l (db : DB) : DB :=
  mkDB
    (t_customers db) (t_accounts db) (t_deposit_addresses db) (t_idempotency_keys db)
    (t_journal_entries db) (t_postings db) l (t_watcher_cursors db) (t_outbox_events db)
    (t_crediting_policy db) (t_token_registry db) (t_unsupported db) (t_withdrawals db)
    (t_thresholds db) (t_chain_nonce_state db) (t_broadcast_attempts db).
Definition set_watcher_cursors l (db : DB) : DB :=
  mkDB
    (t_customers db) (t_accounts db) (t_deposit_addresses db) (t_idempotency_keys db)
    (t_journal_entries db) (t_postings db) (t_deposits db) l (t_outbox_events db)
    (t_crediting_policy db) (t_token_registry db) (t_unsupported db) (t_withdrawals db)
    (t_thresholds db) (t_chain_nonce_state db) (t_broadcast_attempts db).
Definition set_outbox_events l (db : DB) : DB :=
  mkDB
    (t_customers db) (t_accounts db) (t_deposit_addresses db) (t_idempotency_keys db)
    (t_journal_entries db) (t_postings db) (t_deposits db) (t_watcher_cursors db) l
    (t_crediting_policy db) (t_token_registry db) (t_unsupported db) (t_withdrawals db)
    (t_thresholds db) (t_chain_nonce_state db) (t_broadcast_attempts db).
Definition set_crediting_policy l (db : DB) : DB :=
  mkDB
    (t_customers db) (t_accounts db) (t_deposit_addresses db) (t_idempotency_keys db)
    (t_journal_entries db) (t_postings db) (t_deposits db) (t_watcher_cursors db)
    (t_outbox_events db) l (t_token_registry db) (t_unsupported db) (t_withdrawals db)
    (t_thresholds db) (t_chain_nonce_state db) (t_broadcast_attempts db).
Definition set_token_registry l (db : DB) : DB :=
  mkDB
    (t_customers db) (t_accounts db) (t_deposit_addresses db) (t_idempotency_keys db)
    (t_journal_entries db) (t_postings db) (t_deposits db) (t_watcher_cursors db)
    (t_outbox_events db) (t_crediting_policy db) l (t_unsupported db) (t_withdrawals db)
    (t_thresholds db) (t_chain_nonce_state db) (t_broadcast_attempts db).
Definition set_unsupported l (db : DB) : DB :=
  mkDB
    (t_customers db) (t_accounts db) (t_deposit_addresses db) (t_idempotency_keys db)
    (t_journal_entries db) (t_postings db) (t_deposits db) (t_watcher_cursors db)
    (t_outbox_events db) (t_crediting_policy db) (t_token_registry db) l (t_withdrawals
    db) (t_thresholds db) (t_chain_nonce_state db) (t_broadcast_attempts db).
Definition set_withdrawals l (db : DB) : DB :=
  mkDB
    (t_customers db) (t_accounts db) (t_deposit_addresses db) (t_idempotency_keys db)
    (t_journal_entries db) (t_postings db) (t_deposits db) (t_watcher_cursors db)
    (t_outbox_events db) (t_crediting_policy db) (t_token_registry db) (t_unsupported
    db) l (t_thresholds db) (t_chain_nonce_state db) (t_broadcast_attempts db).
Definition set_thresholds l (db : DB) : DB :=
  mkDB
    (t_customers db) (t_accounts db) (t_deposit_addresses db) (t_idempotency_keys db)
    (t_journal_entries db) (t_postings db) (t_deposits db) (t_watcher_cursors db)
    (t_outbox_events db) (t_crediting_policy db) (t_token_registry db) (t_unsupported
    db) (t_withdrawals db) l (t_chain_nonce_state db) (t_broadcast_attempts db).
Definition set_chain_nonce_state l (db : DB) : DB :=
  mkDB
    (t_customers db) (t_accounts db) (t_deposit_addresses db) (t_idempotency_keys db)
    (t_journal_entries db) (t_postings db) (t_deposits db) (t_watcher_cursors db)
    (t_outbox_events db) (t_crediting_policy db) (t_token_registry db) (t_unsupported
    db) (t_withdrawals db) (t_thresholds db) l (t_broadcast_attempts db).
Definition set_broadcast_attempts l (db : DB) : DB :=
  mkDB
    (t_customers db) (t_accounts db) (t_deposit_addresses db) (t_idempotency_keys db)
    (t_journal_entries db) (t_postings db) (t_deposits db) (t_watcher_cursors db)
    (t_outbox_events db) (t_crediting_policy db) (t_token_registry db) (t_unsupported
    db) (t_withdrawals db) (t_thresholds db) (t_chain_nonce_state db) l.

(** ** Statements *)

(** A statement's outcome: its rows, or the SQLSTATE of the violated constraint. *)
Inductive pgres (A : Type) := PgOk (a : A) | PgFail (code : string).
Arguments PgOk {_} _.
Arguments PgFail {_} _.

Definition unique_violation : string := "23505".
Definition foreign_key_violation : string := "23503".
Definition check_violation : string := "23514".
Definition numeric_out_of_range : string := "22003".
Definition character_not_in_repertoire : string := "22021".

Definition pg_require {A} (P : Prop) `{Decision P} (code : string) (k : pgres A) : pgres A :=
  if decide P then k else PgFail code.

Lemma pg_require_ok {A} P `{Decision P} code (k : pgres A) a :
  pg_require P code k = PgOk a ↔ P ∧ k = PgOk a.
Proof. unfold pg_require. destruct (decide P); naive_solver. Qed.

Definition numeric78 (z : Z) : Prop := Z.abs z < 10 ^ 78.
Definition is_bigint (z : Z) : Prop := - 2 ^ 63 ≤ z < 2 ^ 63.
Definition is_integer (z : Z) : Prop := - 2 ^ 31 ≤ z < 2 ^ 31.
Definition known_chain (c : Chain) : Prop := c ∈ [ChainBase; ChainArbitrum].
Definition known_asset (a : Asset) : Prop := a ∈ [AssetETH; AssetUSDC].
#[export] Instance numeric78_dec z : Decision (numeric78 z).
Proof. unfold numeric78. apply _. Defined.
#[export] Instance is_bigint_dec z : Decision (is_bigint z).
Proof. unfold is_bigint. apply _. Defined.
#[export] Instance is_integer_dec z : Decision (is_integer z).
Proof. unfold is_integer. apply _. Defined.
#[export] Instance known_chain_dec z : Decision (known_chain z).
Proof. unfold known_chain. apply _. Defined.
#[export] Instance known_asset_dec z : Decision (known_asset z).
Proof. unfold known_asset. apply _. Defined.

(** [0x] and [n] hexadecimal digits. *)
Definition hex_text (n : nat) (s : string) : Prop := matches_0x_hex n s = true.
#[export] Instance hex_text_dec n s : Decision (hex_text n s).
Proof. unfold hex_text. apply _. Defined.

(** A FOREIGN KEY or CHECK on a nullable column holds of NULL. *)
Definition not_null_ok {A} (P : A → Prop) (o : option A) : Prop :=
  match o with Some a => P a | None => True end.
#[export] Instance not_null_ok_dec {A} (P : A → Prop) `{∀ a, Decision (P a)} o :
  Decision (not_null_ok P o).
Proof. destruct o; simpl; apply _. Defined.

Definition insert_customer (r : CustomerRow) (db : DB) : pgres DB :=
  pg_require (cu_id r ∉ map cu_id (t_customers db)) unique_violation $
  PgOk (set_customers (t_customers db ++ [r]) db).

(** Migrations 0001, 0006, 0009, 0011. Two NULL customers are distinct for
    UNIQUE (customer_id, ...); the partial index covers the platform rows. *)
Definition same_account (a r : AccountRow) : Prop :=
  ac_customer a = ac_customer r ∧ ac_chain a = ac_chain r ∧
  ac_asset a = ac_asset r ∧ ac_type a = ac_type r.
#[export] Instance same_account_dec a r : Decision (same_account a r).
Proof. unfold same_account. apply _. Defined.

Definition insert_account (r : AccountRow) (db : DB) : pgres DB :=
  pg_require (ac_id r ∉ map ac_id (t_accounts db)) unique_violation $
  pg_require (Forall (λ a, ¬ same_account a r) (t_accounts db)) unique_violation $
  pg_require (not_null_ok (λ c, c ∈ map cu_id (t_customers db)) (ac_customer r))
    foreign_key_violation $
  PgOk (set_accounts (t_accounts db ++ [r]) db).

Definition insert_deposit_address (r : DepositAddressRow) (db : DB) : pgres DB :=
  pg_require (da_customer r ∉ map da_customer (t_deposit_addresses db)) unique_violation $
  pg_require (da_address r ∉ map da_address (t_deposit_addresses db)) unique_violation $
  pg_require (da_customer r ∈ map cu_id (t_customers db)) foreign_key_violation $
  pg_require (hex_text 40 (da_address r)) check_violation $
  PgOk (set_deposit_addresses (t_deposit_addresses db ++ [r]) db).

Definition insert_idempotency_key (r : IdempotencyRow) (db : DB) : pgres DB :=
  pg_require (is_integer (ik_status r)) numeric_out_of_range $
  pg_require (ik_key r ∉ map ik_key (t_idempotency_keys db)) unique_violation $
  PgOk (set_idempotency_keys (t_idempotency_keys db ++ [r]) db).

(** UNIQUE (cause_type, cause_id): one journal entry per cause. *)
Definition je_cause (r : JournalEntry) : string * string := (je_cause_type r, je_cause_id r).

Definition insert_journal_entry (r : JournalEntry) (db : DB) : pgres DB :=
  pg_require (je_id r ∉ map je_id (t_journal_entries db)) unique_violation $
  pg_require (je_cause r ∉ map je_cause (t_journal_entries db)) unique_violation $
  PgOk (set_journal_entries (t_journal_entries db ++ [r]) db).

Definition insert_posting (r : Posting) (db : DB) : pgres DB :=
  pg_require (po_id r ∉ map po_id (t_postings db)) unique_violation $
  pg_require (po_entry r ∈ map je_id (t_journal_entries db)) foreign_key_violation $
  pg_require (po_account r ∈ map ac_id (t_accounts db)) foreign_key_violation $
  pg_require (numeric78 (po_amount r)) numeric_out_of_range $
  PgOk (set_postings (t_postings db ++ [r]) db).

Definition insert_outbox_event (r : OutboxRow) (db : DB) : pgres DB :=
  pg_require (ob_id r ∉ map ob_id (t_outbox_events db)) unique_violation $
  PgOk (set_outbox_events (t_outbox_events db ++ [r]) db).

(** Migration 0008's partial unique index: non-orphaned rows only. *)
Definition dr_key (r : DepositRow) : Chain * string * Z :=
  (dr_chain r, dr_tx_hash r, dr_log_index r).

(** INSERT ... ON CONFLICT (chain, tx_hash, log_index) WHERE state != 'orphaned'
    DO NOTHING, with the number of rows inserted. *)
Definition insert_deposit_on_conflict_do_nothing (r : DepositRow) (db : DB) : pgres (nat * DB) :=
  pg_require (is_bigint (dr_block_number r)) numeric_out_of_range $
  pg_require (is_integer (dr_log_index r)) numeric_out_of_range $
  pg_require (numeric78 (dr_amount r)) numeric_out_of_range $
  pg_require (known_chain (dr_chain r)) check_violation $
  pg_require (known_asset (dr_asset r)) check_violation $
  pg_require (hex_text 40 (dr_address r)) check_violation $
  pg_require (0 < dr_amount r) check_violation $
  pg_require (not_null_ok (hex_text 64) (dr_block_hash r)) check_violation $
  if decide (dr_key r ∈ map dr_key
               (filter (λ d, dr_state d ≠ DepositOrphaned) (t_deposits db)))
  then PgOk (0%nat, db)
  else
    pg_require (dr_id r ∉ map dr_id (t_deposits db)) unique_violation $
    PgOk (1%nat, set_deposits (t_deposits db ++ [r]) db).

Definition un_key (r : UnsupportedTokenObservation) : Chain * string * Z :=
  (un_Chain r, un_TxHash r, un_LogIndex r).

Definition insert_unsupported_on_conflict_do_nothing
    (r : UnsupportedTokenObservation) (db : DB) : pgres (nat * DB) :=
  pg_require (is_bigint (un_BlockNumber r)) numeric_out_of_range $
  pg_require (is_integer (un_LogIndex r)) numeric_out_of_range $
  pg_require (numeric78 (un_Amount r)) numeric_out_of_range $
  pg_require (known_chain (un_Chain r)) check_violation $
  pg_require (hex_text 40 (un_Address r)) check_violation $
  pg_require (hex_text 40 (un_ContractAddress r)) check_violation $
  pg_require (0 < un_Amount r) check_violation $
  if decide (un_key r ∈ map un_key (t_unsupported db))
  then PgOk (0%nat, db)
  else
    pg_require (un_ID r ∉ map un_ID (t_unsupported db)) unique_violation $
    PgOk (1%nat, set_unsupported (t_unsupported db ++ [r]) db).

Definition insert_withdrawal (r : WithdrawalRow) (db : DB) : pgres DB :=
  pg_require (numeric78 (wr_amount r)) numeric_out_of_range $
  pg_require (known_chain (wr_chain r)) check_violation $
  pg_require (known_asset (wr_asset r)) check_violation $
  pg_require (0 < wr_amount r) check_violation $
  pg_require (hex_text 40 (wr_destination r)) check_violation $
  pg_require (wr_id r ∉ map wr_id (t_withdrawals db)) unique_violation $
  pg_require (wr_customer r ∈ map cu_id (t_customers db)) foreign_key_violation $
  pg_require (wr_hold_entry r ∈ map je_id (t_journal_entries db)) foreign_key_violation $
  PgOk (set_withdrawals (t_withdrawals db ++ [r]) db).

Definition insert_broadcast_attempt (r : AttemptRow) (db : DB) : pgres DB :=
  pg_require (is_bigint (ba_nonce r)) numeric_out_of_range $
  pg_require (known_chain (ba_chain r)) check_violation $
  pg_require (ba_id r ∉ map ba_id (t_broadcast_attempts db)) unique_violation $
  pg_require (ba_withdrawal r ∉ map ba_withdrawal (t_broadcast_attempts db)) unique_violation $
  pg_require (ba_withdrawal r ∈ map wr_id (t_withdrawals db)) foreign_key_violation $
  PgOk (set_broadcast_attempts (t_broadcast_attempts db ++ [r]) db).

(** ORDER BY a text (or uuid, in its canonical text) column. *)
Definition str_le (a b : string) : Prop := String.leb a b = true.
#[export] Instance str_le_dec a b : Decision (str_le a b).
Proof. unfold str_le. apply _. Defined.

(** UPDATE ... WHERE P: the new table and RowsAffected. *)
Definition update_where {R} (P : R → Prop) `{∀ r, Decision (P r)} (f : R → R) (l : list R)
    : list R := map (λ r, if decide (P r) then f r else r) l.
Definition rows_affected {R} (P : R → Prop) `{∀ r, Decision (P r)} (l : list R) : nat :=
  length (filter P l).

(** ** Inversion of successful insertions *)

(** Splits the constraints off a successful statement [H]. *)
Ltac pg_inv H :=
  repeat (apply pg_require_ok in H; let C := fresh "C" in destruct H as [C H]);
  try (injection H as H).

Section insertions.
Context (db db' : DB).

Lemma insert_journal_entry_eq r :
  insert_journal_entry r db = PgOk db' →
  db' = set_journal_entries (t_journal_entries db ++ [r]) db.
Proof. unfold insert_journal_entry. intros H. by pg_inv H. Qed.

Lemma insert_posting_eq r :
  insert_posting r db = PgOk db' → db' = set_postings (t_postings db ++ [r]) db.
Proof. unfold insert_posting. intros H. by pg_inv H. Qed.

Lemma insert_customer_eq r :
  insert_customer r db = PgOk db' → db' = set_customers (t_customers db ++ [r]) db.
Proof. unfold insert_customer. intros H. by pg_inv H. Qed.

Lemma insert_account_eq r :
  insert_account r db = PgOk db' → db' = set_accounts (t_accounts db ++ [r]) db.
Proof. unfold insert_account. intros H. by pg_inv H. Qed.

Lemma insert_deposit_address_eq r :
  insert_deposit_address r db = PgOk db' →
  db' = set_deposit_addresses (t_deposit_addresses db ++ [r]) db.
Proof. unfold insert_deposit_address. intros H. by pg_inv H. Qed.

Lemma insert_idempotency_key_eq r :
  insert_idempotency_key r db = PgOk db' →
  db' = set_idempotency_keys (t_idempotency_keys db ++ [r]) db.
Proof. unfold insert_idempotency_key. intros H. by pg_inv H. Qed.

Lemma insert_outbox_event_eq r :
  insert_outbox_event r db = PgOk db' → db' = set_outbox_events (t_outbox_events db ++ [r]) db.
Proof. unfold insert_outbox_event. intros H. by pg_inv H. Qed.

Lemma insert_withdrawal_eq r :
  insert_withdrawal r db = PgOk db' → db' = set_withdrawals (t_withdrawals db ++ [r]) db.
Proof. unfold insert_withdrawal. intros H. by pg_inv H. Qed.

Lemma insert_broadcast_attempt_eq r :
  insert_broadcast_attempt r db = PgOk db' →
  db' = set_broadcast_attempts (t_broadcast_attempts db ++ [r]) db.
Proof. unfold insert_broadcast_attempt. intros H. by pg_inv H. Qed.
End insertions.

(** ** Insertions that succeed *)

Lemma pg_require_true {A} P `{Decision P} code (k : pgres A) : P → pg_require P code k = k.
Proof. intros HP. unfold pg_require. by rewrite decide_True. Qed.

Lemma pg_require_false {A} P `{Decision P} code (k : pgres A) :
  ¬ P → pg_require P code k = PgFail code.
Proof. intros HP. unfold pg_require. by rewrite decide_False. Qed.

Lemma insert_journal_entry_run r db :
  je_id r ∉ map je_id (t_journal_entries db) → je_cause r ∉ map je_cause (t_journal_entries db) →
  insert_journal_entry r db = PgOk (set_journal_entries (t_journal_entries db ++ [r]) db).
Proof. intros. unfold insert_journal_entry. by rewrite !pg_require_true. Qed.

Lemma insert_journal_entry_duplicate r db :
  je_cause r ∈ map je_cause (t_journal_entries db) →
  insert_journal_entry r db = PgFail unique_violation.
Proof.
  intros. unfold insert_journal_entry, pg_require. by repeat case_decide.
Qed.

Lemma insert_posting_run p db :
  po_id p ∉ map po_id (t_postings db) → po_entry p ∈ map je_id (t_journal_entries db) →
  po_account p ∈ map ac_id (t_accounts db) → numeric78 (po_amount p) →
  insert_posting p db = PgOk (set_postings (t_postings db ++ [p]) db).
Proof. intros. unfold insert_posting. by rewrite !pg_require_true. Qed.

(** Replaces the databases successful insertions produce by their value. *)
Ltac insert_eqs :=
  repeat match goal with
  | H : insert_journal_entry _ _ = PgOk ?d |- _ =>
      is_var d; pose proof (insert_journal_entry_eq _ _ _ H); subst d
  | H : insert_posting _ _ = PgOk ?d |- _ =>
      is_var d; pose proof (insert_posting_eq _ _ _ H); subst d
  | H : insert_customer _ _ = PgOk ?d |- _ =>
      is_var d; pose proof (insert_customer_eq _ _ _ H); subst d
  | H : insert_account _ _ = PgOk ?d |- _ =>
      is_var d; pose proof (insert_account_eq _ _ _ H); subst d
  | H : insert_deposit_address _ _ = PgOk ?d |- _ =>
      is_var d; pose proof (insert_deposit_address_eq _ _ _ H); subst d
  | H : insert_idempotency_key _ _ = PgOk ?d |- _ =>
      is_var d; pose proof (insert_idempotency_key_eq _ _ _ H); subst d
  | H : insert_outbox_event _ _ = PgOk ?d |- _ =>
      is_var d; pose proof (insert_outbox_event_eq _ _ _ H); subst d
  | H : insert_withdrawal _ _ = PgOk ?d |- _ =>
      is_var d; pose proof (insert_withdrawal_eq _ _ _ H); subst d
  | H : insert_broadcast_attempt _ _ = PgOk ?d |- _ =>
      is_var d; pose proof (insert_broadcast_attempt_eq _ _ _ H); subst d
  end.

(** ** Updating the one row a key selects *)

Section update_one.
Context {R : Type} (key : R → string) (P : R → Prop) `{∀ r, Decision (P r)} (f : R → R).
Hypothesis (Pkey : ∀ r, key (f r) = key r).

Lemma update_where_keys l : map key (update_where P f l) = map key l.
Proof.
  unfold update_where. rewrite map_map. apply map_ext. intros r. by case_decide.
Qed.

Context (l : list R) (row : R) (Hnd : NoDup (map key l)) (Hrow : row ∈ l) (HP : P row).
Hypothesis (Pid : ∀ r, P r → key r = key row).

Lemma key_unique x : x ∈ l → key x = key row → x = row.
Proof.
  intros Hx E. clear Pkey HP Pid. induction l as [|y l' IH]; [by apply not_elem_of_nil in Hx|].
  apply NoDup_cons in Hnd as [Hy Hnd'].
  apply elem_of_cons in Hx as [->|Hx], Hrow as [->|Hr]; [done|..|by apply IH].
  - exfalso. apply Hy. rewrite E. by apply list_elem_of_fmap_2.
  - exfalso. apply Hy. rewrite <-E. by apply list_elem_of_fmap_2.
Qed.

Lemma update_one_elem x :
  x ∈ update_where P f l ↔ x = f row ∨ (x ∈ l ∧ key x ≠ key row).
Proof.
  unfold update_where. rewrite list_elem_of_fmap. split.
  - intros (y & -> & Hy). case_decide as Hd.
    + left. by rewrite (key_unique y Hy (Pid y Hd)).
    + right. split; [done|]. intros E. apply Hd. by rewrite (key_unique y Hy E).
  - intros [->|[Hx Hne]].
    + exists row. by rewrite decide_True.
    + exists x. rewrite decide_False; [done|]. intros Hd. by apply Hne, Pid.
Qed.

Lemma update_one_sum g : sumZ g (update_where P f l) = sumZ g l - g row + g (f row).
Proof.
  unfold update_where. rewrite (sumZ_map_one key g _ l row); [by rewrite decide_True|done|done|].
  intros y Hy Hne. rewrite decide_False; [done|]. intros Hd. by apply Hne, Pid.
Qed.
End update_one.

Lemma update_where_map {R X} (P : R → Prop) `{∀ r, Decision (P r)} f (g : R → X) l :
  (∀ r, g (f r) = g r) → map g (update_where P f l) = map g l.
Proof. intros Hg. unfold update_where. rewrite map_map. apply map_ext. intros r. by case_decide. Qed.

Lemma filter_update_where {R} (P Q : R → Prop) `{∀ r, Decision (P r), ∀ r, Decision (Q r)} f l :
  (∀ r, r ∈ l → P r → Q (f r) ↔ Q r) → filter Q (update_where P f l) = update_where P f (filter Q l).
Proof.
  intros HQ. induction l as [|r l IH]; [done|].
  change (update_where P f (r :: l)) with ((if decide (P r) then f r else r) :: update_where P f l).
  assert (r ∈ r :: l) as Hr by left.
  assert (∀ x, x ∈ l → P x → Q (f x) ↔ Q x) as HQ' by set_solver.
  destruct (decide (Q r)) as [Hq|Hq].
  - rewrite (filter_cons_True Q r) by done.
    rewrite filter_cons_True by (case_decide; [by apply HQ|done]). by rewrite IH.
  - rewrite (filter_cons_False Q r) by done.
    rewrite filter_cons_False by (case_decide; [by rewrite HQ|done]). by rewrite IH.
Qed.
