(* ===== verification/OutboxJson.v ===== *)
(** * The outbox events' JSON

    The payload structs of src/internal/adapter/postgres/withdrawal_repo.go and
    deposit_repo.go as [json.Marshal] writes them for the [payload] column of
    [outbox_events] (a jsonb column keeps the value): a consumer reads back the event
    that was recorded. *)

From Stdlib Require Import ZArith Lia.
From stdpp Require Import prelude strings.
From S2P Require Import Prelude GoStd Utf8 Json Domain Store.

(** A string field with [omitempty]. *)
Definition nonempty_member (name s : bytes) : list (bytes * Json) :=
  if String.eqb s EmptyString then [] else [(name, JString s)].

Definition depositOrphanedPayload_json (depositId : string) : Json := JObject [("depositId", JString depositId)].

Definition depositCreditedPayload_json (depositId journalEntryId : string) (chain : Chain) (asset : Asset)
    (amount customerId : string) : Json :=
  JObject [("depositId", JString depositId); ("journalEntryId", JString journalEntryId);
           ("chain", JString chain); ("asset", JString asset); ("amount", JString amount);
           ("customerId", JString customerId)].

Definition depositPendingPayload_json (depositId : string) (chain : Chain) (asset : Asset)
    (address txHash : string) (logIndex : Z) (amount : string) : Json :=
  JObject [("depositId", JString depositId); ("chain", JString chain); ("asset", JString asset);
           ("address", JString address); ("txHash", JString txHash);
           ("logIndex", JNumber (big_String logIndex)); ("amount", JString amount)].

Definition withdrawalRoutedPayload_json (withdrawalId customerId : string) (chain : Chain) (asset : Asset)
    (amount destinationAddress approvedBy approvalReason : string) : Json :=
  JObject ([("withdrawalId", JString withdrawalId); ("customerId", JString customerId);
            ("chain", JString chain); ("asset", JString asset); ("amount", JString amount);
            ("destinationAddress", JString destinationAddress)] ++
           nonempty_member "approvedBy" approvedBy ++ nonempty_member "approvalReason" approvalReason).

Definition withdrawalStuckPayload_json (withdrawalId customerId : string) (chain : Chain) (asset : Asset)
    (amount destinationAddress status txHash : string) : Json :=
  JObject [("withdrawalId", JString withdrawalId); ("customerId", JString customerId);
           ("chain", JString chain); ("asset", JString asset); ("amount", JString amount);
           ("destinationAddress", JString destinationAddress); ("status", JString status);
           ("txHash", JString txHash)].

Definition withdrawalSettledPayload_json (withdrawalId journalEntryId customerId : string) (chain : Chain)
    (asset : Asset) (amount : string) : Json :=
  JObject [("withdrawalId", JString withdrawalId); ("journalEntryId", JString journalEntryId);
           ("customerId", JString customerId); ("chain", JString chain); ("asset", JString asset);
           ("amount", JString amount)].

Definition outbox_json (p : OutboxPayload) : Json :=
  match p with
  | depositOrphanedPayload depositId => depositOrphanedPayload_json depositId
  | depositCreditedPayload depositId journalEntryId chain asset amount customerId =>
      depositCreditedPayload_json depositId journalEntryId chain asset amount customerId
  | depositPendingPayload depositId chain asset address txHash logIndex amount =>
      depositPendingPayload_json depositId chain asset address txHash logIndex amount
  | withdrawalRoutedPayload withdrawalId customerId chain asset amount destinationAddress approvedBy approvalReason =>
      withdrawalRoutedPayload_json withdrawalId customerId chain asset amount destinationAddress approvedBy approvalReason
  | withdrawalStuckPayload withdrawalId customerId chain asset amount destinationAddress status txHash =>
      withdrawalStuckPayload_json withdrawalId customerId chain asset amount destinationAddress status txHash
  | withdrawalSettledPayload withdrawalId journalEntryId customerId chain asset amount =>
      withdrawalSettledPayload_json withdrawalId journalEntryId customerId chain asset amount
  end.

(** The bytes [json.Marshal] gives for the [payload] column. *)
Definition outbox_text (p : OutboxPayload) : bytes := Marshal (outbox_json p).

Lemma big_String_inj z z' : big_String z = big_String z' → z = z'.
Proof.
  intros H. pose proof (big_SetString10_String z) as E. rewrite H, big_SetString10_String in E. by injection E.
Qed.

Lemma nonempty_member_inj name s s' l l' :
  (∀ v, head l ≠ Some (name, v)) → (∀ v, head l' ≠ Some (name, v)) →
  nonempty_member name s ++ l = nonempty_member name s' ++ l' → s = s' ∧ l = l'.
Proof.
  unfold nonempty_member. intros Hl Hl'.
  destruct (String.eqb_spec s EmptyString) as [->|], (String.eqb_spec s' EmptyString) as [->|]; simpl.
  - done.
  - intros ->. by destruct (Hl (JString s')).
  - intros <-. by destruct (Hl' (JString s)).
  - by intros [= -> ->].
Qed.

(** The JSON of an event determines it: no field is lost or confused with another. *)
Lemma outbox_json_inj p q : outbox_json p = outbox_json q → p = q.
Proof.
  destruct p, q; intros E; try discriminate E; injection E; clear E; intros; subst; try done.
  - by f_equal; apply big_String_inj.
  - match goal with H : _ ++ _ = _ ++ _ |- _ => apply (nonempty_member_inj "approvedBy") in H as [-> H];
      [|unfold nonempty_member; by destruct (String.eqb _ _)..] end.
    rewrite <-(app_nil_r (nonempty_member "approvalReason" approvalReason)),
      <-(app_nil_r (nonempty_member "approvalReason" approvalReason0)) in H.
    by apply (nonempty_member_inj "approvalReason") in H as [-> _].
  - unfold nonempty_member in *. repeat destruct (String.eqb _ _); done.
  - unfold nonempty_member in *. repeat destruct (String.eqb _ _); done.
Qed.

Lemma outbox_json_plain p : integers (outbox_json p) ∧ depth (outbox_json p) <= 1.
Proof.
  destruct p; simpl; try (split; [by repeat split; try done; eexists|lia]).
  unfold nonempty_member. repeat destruct (String.eqb _ _); simpl; split; (done || lia).
Qed.

(** What a consumer reads of the recorded text. *)
Lemma outbox_text_readable p : Decode (outbox_text p) = Some (sanitize (outbox_json p)).
Proof.
  destruct (outbox_json_plain p) as [Hi Hd]. unfold outbox_text.
  rewrite <-(string_app_empty_r (Marshal _)). apply Decode_Marshal; [done| |done]. unfold maxNestingDepth. lia.
Qed.

(** Two events of UTF-8 strings with the same recorded text are the same event. *)
Lemma outbox_text_inj p q :
  utf8 (outbox_json p) → utf8 (outbox_json q) → outbox_text p = outbox_text q → p = q.
Proof.
  intros Hp Hq E. pose proof (outbox_text_readable p) as H. rewrite E, outbox_text_readable in H.
  rewrite !sanitize_utf8 in H by done. by injection H as H%outbox_json_inj.
Qed.

(** C27: outbox events. What the code records in [outbox_events] is JSON from which a
    consumer reads every field of the event back, and two events of UTF-8 strings with
    the same JSON are the same event: no kind, field or omitted field is confused with
    another. *)
Theorem outbox_recorded (p : OutboxPayload) :
  Decode (outbox_text p) = Some (sanitize (outbox_json p)) ∧
  (utf8 (outbox_json p) →
     Decode (outbox_text p) = Some (outbox_json p) ∧
     ∀ q, utf8 (outbox_json q) → outbox_text p = outbox_text q ↔ p = q).
Proof.
  split; [apply outbox_text_readable|]. intros Hp. split.
  - by rewrite outbox_text_readable, sanitize_utf8.
  - intros q Hq. split; [by apply outbox_text_inj|by intros ->].
Qed.
