(* ===== verification/Effects.v ===== *)
(** * Effects: contexts, transactions, faults and other sessions

    The monad [M] in which repositories, adapters and use cases are written. A
    computation reads a Go context ([Ctx]: the environment, and the transaction
    [TxBeginner.Begin] put on it) and threads the process's state ([St]).

    - Every statement, [Begin], [Commit], id generation and remote call is one
      tick of the environment, at which it may fail ([env_fault]).
    - The rest of the system (the other binaries, the other requests) acts on the
      database only where it can: between this process's transactions
      ([env_other], applied before a pool query and at [Begin]). A transaction
      itself runs in isolation here: that the code's [FOR UPDATE] locks and unique
      constraints give it is shown in Interleaving.v.
    - A statement that fails aborts its transaction (SQLSTATE 25P02 afterwards).
    - A failed [Commit] may still have been applied ([env_ack_lost]).
    - [st_trace] is the history of external effects.
    - [st_internalTraceDisabled] is the one piece of process memory an adapter keeps
      between calls (the watcher's Scanner, scanner.go). *)

From Stdlib Require Import ZArith Lia.
From stdpp Require Import prelude strings.
From S2P Require Import Prelude GoStd Domain Store.

(** ** State *)

(** External effects: a signature asked for a withdrawal, signed bytes sent for it
    (with the committed database at the moment they leave the process), and a
    handler run for an idempotency key. *)
Inductive Event :=
  | EvSign (withdrawalID : string) (digest : bytes)
  | EvSend (withdrawalID : string) (chain : Chain) (signedTx : bytes) (db : DB)
  | EvHandled (key : string).

Record Env := mkEnv {
  env_fault : nat → option string;
  env_ack_lost : nat → bool;
  env_uuid : nat → string;
  env_now : nat → Z;
  env_other : nat → DB → DB;
}.

Record St := mkSt {
  st_db : DB;
  st_aborted : bool;
  st_tick : nat;
  st_trace : list Event;
  st_internalTraceDisabled : bool;
}.

(** [cx_tx] is the committed database at [Begin], when a transaction is on the
    context: what pool queries, which do not join it, still see. *)
Record Ctx := mkCtx { cx_env : Env; cx_tx : option DB }.

Definition in_transaction (c : Ctx) : bool := match cx_tx c with Some _ => true | None => false end.

Definition M (A : Type) : Type := Ctx → St → result A * St.

Definition set_db (db : DB) (s : St) : St := mkSt db (st_aborted s) (st_tick s) (st_trace s) (st_internalTraceDisabled s).
Definition set_aborted (b : bool) (s : St) : St := mkSt (st_db s) b (st_tick s) (st_trace s) (st_internalTraceDisabled s).
Definition bump (s : St) : St := mkSt (st_db s) (st_aborted s) (S (st_tick s)) (st_trace s) (st_internalTraceDisabled s).
Definition log_event (ev : Event) (s : St) : St :=
  mkSt (st_db s) (st_aborted s) (st_tick s) (st_trace s ++ [ev]) (st_internalTraceDisabled s).
Definition set_internalTraceDisabled (b : bool) (s : St) : St :=
  mkSt (st_db s) (st_aborted s) (st_tick s) (st_trace s) b.

(** ** The monad *)

Definition ret {A} (a : A) : M A := λ _ s, (Ok a, s).
Definition throw {A} (e : error) : M A := λ _ s, (Err e, s).
Definition bind {A B} (m : M A) (k : A → M B) : M B := λ c s,
  match m c s with
  | (Ok a, s') => k a c s'
  | (Err e, s') => (Err e, s')
  end.

(** [fmt.Errorf("ctx: %w", err)] on the error path, and the general form. *)
Definition map_err {A} (f : error → error) (m : M A) : M A := λ c s,
  match m c s with
  | (Ok a, s') => (Ok a, s')
  | (Err e, s') => (Err (f e), s')
  end.
Definition wrapping {A} (ctx : string) (m : M A) : M A := map_err (wrap ctx) m.

(** The error as a value: [v, err := m]. *)
Definition try {A} (m : M A) : M (result A) := λ c s, let '(r, s') := m c s in (Ok r, s').

Definition when (b : bool) (m : M unit) : M unit := if b then m else ret tt.
Definition lift_option {A} (o : option A) (e : error) : M A :=
  match o with Some a => ret a | None => throw e end.
Definition lift_result {A} (r : result A) : M A :=
  match r with Ok a => ret a | Err e => throw e end.
Definition emit (ev : Event) : M unit := λ _ s, (Ok tt, log_event ev s).
Definition internalTraceDisabled : M bool := λ _ s, (Ok (st_internalTraceDisabled s), s).
Definition disableInternalTrace : M unit := λ _ s, (Ok tt, set_internalTraceDisabled true s).
Definition committed_db : M DB := λ _ s, (Ok (st_db s), s).

Declare Scope wallet_scope.
Delimit Scope wallet_scope with wallet.
Notation "'let!' x := m 'in' k" := (bind m (λ x, k))
  (at level 200, x pattern, m at level 100, k at level 200) : wallet_scope.
Notation "'do!' m 'in' k" := (bind m (λ _, k))
  (at level 200, m at level 100, k at level 200) : wallet_scope.
Notation "'assert!' b 'else' e 'in' k" := (if b then k else throw e)
  (at level 200, b at level 100, e at level 100, k at level 200) : wallet_scope.
Open Scope wallet_scope.

Fixpoint mapM {A B} (f : A → M B) (l : list A) : M (list B) :=
  match l with
  | [] => ret []
  | x :: l => let! y := f x in let! ys := mapM f l in ret (y :: ys)
  end.
Fixpoint forM_ {A} (l : list A) (f : A → M unit) : M unit :=
  match l with [] => ret tt | x :: l => do! f x in forM_ l f end.

(** ** Ticks, ids and clocks *)

Definition ErrFault (msg : string) : error := ErrText msg.

(** One interaction with the environment: it fails, or [m] happens. *)
Definition step {A} (m : M A) : M A := λ c s,
  match env_fault (cx_env c) (st_tick s) with
  | Some msg => (Err (ErrFault msg), bump s)
  | None => m c (bump s)
  end.

(** [uuid.NewV7()] and [time.Now()]. *)
Definition newUUID (ctx : string) : M string :=
  wrapping ctx (step (λ c s, (Ok (env_uuid (cx_env c) (st_tick s)), s))).
Definition now : M Z := λ c s, (Ok (env_now (cx_env c) (st_tick s)), bump s).

(** ** Statements *)

Definition in_failed_transaction : string := "25P02".
Definition no_transaction : error :=
  ErrText "panic: postgres: no transaction on context".

(** The transaction on the context, which every mutating repository call needs. *)
Definition txFromContext {A} (m : M A) : M A := λ c s,
  match cx_tx c with Some _ => m c s | None => (Err no_transaction, s) end.

(** One statement of the transaction on the context. *)
Definition tx_exec {A} (f : DB → pgres (A * DB)) : M A :=
  txFromContext (λ c s,
    if st_aborted s then (Err (ErrPg in_failed_transaction "current transaction is aborted"), bump s)
    else match env_fault (cx_env c) (st_tick s) with
         | Some msg => (Err (ErrFault msg), set_aborted true (bump s))
         | None =>
             match f (st_db s) with
             | PgOk (a, db') => (Ok a, set_db db' (bump s))
             | PgFail code => (Err (ErrPg code "constraint violation"), set_aborted true (bump s))
             end
         end).
Definition tx_insert (f : DB → pgres DB) : M unit :=
  tx_exec (λ db, match f db with PgOk db' => PgOk (tt, db') | PgFail c => PgFail c end).
Definition tx_update (f : DB → DB) : M unit := tx_exec (λ db, PgOk (tt, f db)).
Definition tx_query {A} (f : DB → A) : M A := tx_exec (λ db, PgOk (f db, db)).

(** An UPDATE of one table: its WHERE, its SET, and RowsAffected. *)
Definition tx_update_rows {R} (get : DB → list R) (set : list R → DB → DB)
    (P : R → Prop) `{∀ r, Decision (P r)} (f : R → R) : M nat :=
  tx_exec (λ db, PgOk (rows_affected P (get db), set (update_where P f (get db)) db)).

(** A query on the pool: outside any transaction, it sees what others committed. *)
Definition pool_query {A} (f : DB → A) : M A := step (λ c s,
  match cx_tx c with
  | Some db0 => (Ok (f db0), s)
  | None => let db := env_other (cx_env c) (st_tick s) (st_db s) in (Ok (f db), set_db db s)
  end).

(** ** Transactions *)

(** How a function that opened a transaction left it: committed, or by a return
    that runs into the deferred [Rollback] with no error. *)
Inductive TxOutcome (A : Type) := TxCommit (a : A) | TxRollback (a : A).
Arguments TxCommit {_} _.
Arguments TxRollback {_} _.

Definition begin_tx (c : Ctx) (s : St) : Ctx * St :=
  let db := env_other (cx_env c) (st_tick s) (st_db s) in
  (mkCtx (cx_env c) (Some db),
   mkSt db false (S (st_tick s)) (st_trace s) (st_internalTraceDisabled s)).

Definition end_tx (db : DB) (s : St) : St := 
  mkSt db false (S (st_tick s)) (st_trace s) (st_internalTraceDisabled s).

(** [txCtx, tx, err := Begin(ctx)] (its error mapped by [on_begin]), [body] with
    [txCtx], then [tx.Commit] (its error mapped by [on_commit]); every other way
    out runs [tx.Rollback]. *)
Definition in_tx_out {A} (on_begin on_commit : error → error) (body : M (TxOutcome A)) : M A :=
  λ c s,
  match env_fault (cx_env c) (st_tick s) with
  | Some msg => (Err (on_begin (wrap "begin transaction" (ErrFault msg))), bump s)
  | None =>
      let '(c1, s1) := begin_tx c s in
      match body c1 s1 with
      | (Err e, s2) => (Err e, end_tx (st_db s1) s2)
      | (Ok (TxRollback a), s2) => (Ok a, end_tx (st_db s1) s2)
      | (Ok (TxCommit a), s2) =>
          if st_aborted s2
          then (Err (on_commit (ErrText "commit unexpectedly resulted in rollback")),
                end_tx (st_db s1) s2)
          else match env_fault (cx_env c) (st_tick s2) with
               | Some msg =>
                   (Err (on_commit (ErrFault msg)),
                    end_tx (if env_ack_lost (cx_env c) (st_tick s2) then st_db s2 else st_db s1) s2)
               | None => (Ok a, end_tx (st_db s2) s2)
               end
      end
  end.

Definition in_tx {A} (ctx_begin ctx_commit : string) (body : M A) : M A :=
  in_tx_out (wrap ctx_begin) (wrap ctx_commit) (let! a := body in ret (TxCommit a)).

(** ** Inversion of successful computations *)

Section inversion.
Context {A B : Type}.
Implicit Types (c : Ctx) (s : St).

Lemma bind_Ok (m : M A) (k : A → M B) c s b s' :
  bind m k c s = (Ok b, s') → ∃ a s1, m c s = (Ok a, s1) ∧ k a c s1 = (Ok b, s').
Proof. unfold bind. destruct (m c s) as [[a|e] s1]; naive_solver. Qed.

Lemma bind_Err (m : M A) (k : A → M B) c s e s' :
  bind m k c s = (Err e, s') →
  m c s = (Err e, s') ∨ ∃ a s1, m c s = (Ok a, s1) ∧ k a c s1 = (Err e, s').
Proof. unfold bind. destruct (m c s) as [[a|e'] s1]; naive_solver. Qed.

Lemma ret_Ok (a : A) c s b s' : ret a c s = (Ok b, s') → b = a ∧ s' = s.
Proof. unfold ret. naive_solver. Qed.

Lemma throw_Ok e c s (b : A) s' : throw e c s = (Ok b, s') → False.
Proof. unfold throw. naive_solver. Qed.

Lemma map_err_Ok f (m : M A) c s a s' : map_err f m c s = (Ok a, s') → m c s = (Ok a, s').
Proof. unfold map_err. destruct (m c s) as [[?|?] ?]; naive_solver. Qed.

Lemma wrapping_Ok ctx (m : M A) c s a s' : wrapping ctx m c s = (Ok a, s') → m c s = (Ok a, s').
Proof. apply map_err_Ok. Qed.

Lemma try_Ok (m : M A) c s r s' : try m c s = (Ok r, s') → m c s = (r, s').
Proof. unfold try. destruct (m c s). naive_solver. Qed.

Lemma lift_option_Ok (o : option A) e c s a s' :
  lift_option o e c s = (Ok a, s') → o = Some a ∧ s' = s.
Proof. destruct o; simpl; [intros []%ret_Ok; naive_solver|intros []%throw_Ok]. Qed.

Lemma lift_result_Ok (r : result A) c s a s' :
  lift_result r c s = (Ok a, s') → r = Ok a ∧ s' = s.
Proof. destruct r; simpl; [intros []%ret_Ok; naive_solver|intros []%throw_Ok]. Qed.

Lemma step_Ok (m : M A) c s a s' : step m c s = (Ok a, s') → m c (bump s) = (Ok a, s').
Proof. unfold step. destruct (env_fault _ _); naive_solver. Qed.

Lemma tx_exec_Ok (f : DB → pgres (A * DB)) c s a s' :
  tx_exec f c s = (Ok a, s') →
  ∃ db', f (st_db s) = PgOk (a, db') ∧ s' = set_db db' (bump s) ∧ st_aborted s = false.
Proof.
  unfold tx_exec, txFromContext. destruct (cx_tx c); [|naive_solver].
  destruct (st_aborted s); [naive_solver|]. destruct (env_fault _ _); [naive_solver|].
  destruct (f (st_db s)) as [[a' db']|]; naive_solver.
Qed.

Lemma tx_query_Ok (f : DB → A) c s a s' :
  tx_query f c s = (Ok a, s') → a = f (st_db s) ∧ s' = bump s.
Proof.
  intros (db' & E & -> & Ha)%tx_exec_Ok. simplify_eq. split; [done|]. by destruct s.
Qed.

End inversion.

Lemma tx_insert_Ok f c s u s' :
  tx_insert f c s = (Ok u, s') → ∃ db', f (st_db s) = PgOk db' ∧ s' = set_db db' (bump s).
Proof.
  intros (db' & E & -> & Ha)%tx_exec_Ok. destruct (f (st_db s)) eqn:F; simplify_eq. eauto.
Qed.

Lemma tx_update_Ok f c s u s' :
  tx_update f c s = (Ok u, s') → s' = set_db (f (st_db s)) (bump s).
Proof. intros (db' & E & -> & Ha)%tx_exec_Ok. by simplify_eq. Qed.

Lemma tx_update_rows_Ok {R} get set (P : R → Prop) `{∀ r, Decision (P r)} f c s n s' :
  tx_update_rows get set P f c s = (Ok n, s') →
  n = rows_affected P (get (st_db s)) ∧
  s' = set_db (set (update_where P f (get (st_db s))) (st_db s)) (bump s).
Proof. intros (db' & E & -> & Ha)%tx_exec_Ok. by simplify_eq. Qed.

Lemma newUUID_Ok ctx c s i s' : newUUID ctx c s = (Ok i, s') → s' = bump s.
Proof. intros H%wrapping_Ok%step_Ok. by simplify_eq. Qed.

Lemma now_Ok c s t s' : now c s = (Ok t, s') → s' = bump s.
Proof. unfold now. naive_solver. Qed.

(** Inversion of one layer of a successful computation; later files extend it. *)
Ltac m_ext := fail.
Ltac m_inv1 :=
  first [m_ext|
  match goal with
  | H : bind _ _ _ _ = (Ok _, _) |- _ => apply bind_Ok in H; destruct H as (? & ? & ? & ?)
  | H : ret _ _ _ = (Ok _, _) |- _ => apply ret_Ok in H; destruct H; subst
  | H : throw _ _ _ = (Ok _, _) |- _ => destruct (throw_Ok _ _ _ _ _ H)
  | H : map_err _ _ _ _ = (Ok _, _) |- _ => apply map_err_Ok in H
  | H : wrapping _ _ _ _ = (Ok _, _) |- _ => apply wrapping_Ok in H
  | H : try _ _ _ = (Ok _, _) |- _ => apply try_Ok in H
  | H : lift_option _ _ _ _ = (Ok _, _) |- _ => apply lift_option_Ok in H; destruct H; subst
  | H : lift_result _ _ _ = (Ok _, _) |- _ => apply lift_result_Ok in H; destruct H; subst
  | H : newUUID _ _ _ = (Ok _, _) |- _ => apply newUUID_Ok in H; subst
  | H : now _ _ = (Ok _, _) |- _ => apply now_Ok in H; subst
  | H : tx_query _ _ _ = (Ok _, _) |- _ => apply tx_query_Ok in H; destruct H; subst
  | H : tx_update _ _ _ = (Ok _, _) |- _ => apply tx_update_Ok in H; subst
  | H : tx_update_rows _ _ _ _ _ _ = (Ok _, _) |- _ =>
      apply tx_update_rows_Ok in H; destruct H; subst
  | H : tx_insert _ _ _ = (Ok _, _) |- _ =>
      apply tx_insert_Ok in H; destruct H as (? & ? & ?); subst
  | H : tx_exec _ _ _ = (Ok _, _) |- _ =>
      apply tx_exec_Ok in H; destruct H as (? & ? & ? & ?); subst
  end].
Ltac m_case1 :=
  match goal with
  | H : (if decide ?P then _ else _) _ _ = (Ok _, _) |- _ => destruct (decide P)
  | H : (if ?b then _ else _) _ _ = (Ok _, _) |- _ => destruct b eqn:?
  | H : (match ?x with _ => _ end) _ _ = (Ok _, _) |- _ => destruct x eqn:?
  | H : when ?b _ _ _ = (Ok _, _) |- _ => unfold when in H
  end.
Ltac m_inv := repeat (first [m_inv1 | m_case1]; cbn [st_db st_trace set_db bump log_event] in *).
Ltac m_straight := repeat (m_inv1; cbn [st_db st_trace set_db bump log_event] in *).

(** ** Running without faults *)

Definition fault_free (c : Ctx) : Prop := ∀ n, env_fault (cx_env c) n = None.

Section running.
Context (c : Ctx) (Hq : fault_free c).

Lemma bind_run {A B} (m : M A) (k : A → M B) s a s1 :
  m c s = (Ok a, s1) → bind m k c s = k a c s1.
Proof. intros H. unfold bind. by rewrite H. Qed.

Lemma bind_run_Err {A B} (m : M A) (k : A → M B) s e s1 :
  m c s = (Err e, s1) → bind m k c s = (Err e, s1).
Proof. intros H. unfold bind. by rewrite H. Qed.

Lemma wrapping_run {A} ctx (m : M A) s a s1 :
  m c s = (Ok a, s1) → wrapping ctx m c s = (Ok a, s1).
Proof. intros H. unfold wrapping, map_err. by rewrite H. Qed.

Lemma map_err_run_Err {A} f (m : M A) s e s1 :
  m c s = (Err e, s1) → map_err f m c s = (Err (f e), s1).
Proof. intros H. unfold map_err. by rewrite H. Qed.

Lemma map_err_run {A} f (m : M A) s a s1 :
  m c s = (Ok a, s1) → map_err f m c s = (Ok a, s1).
Proof. intros H. unfold map_err. by rewrite H. Qed.

Lemma newUUID_run ctx s :
  newUUID ctx c s = (Ok (env_uuid (cx_env c) (S (st_tick s))), bump s).
Proof. apply wrapping_run. unfold step. by rewrite Hq. Qed.

Context (Htx : is_Some (cx_tx c)).

Lemma tx_exec_run {A} (f : DB → pgres (A * DB)) s :
  st_aborted s = false →
  tx_exec f c s =
    match f (st_db s) with
    | PgOk (a, db') => (Ok a, set_db db' (bump s))
    | PgFail code => (Err (ErrPg code "constraint violation"), set_aborted true (bump s))
    end.
Proof.
  intros Ha. unfold tx_exec, txFromContext. destruct Htx as [db0 ->].
  by rewrite Ha, Hq.
Qed.

Lemma tx_query_run {A} (f : DB → A) s :
  st_aborted s = false → tx_query f c s = (Ok (f (st_db s)), bump s).
Proof. intros Ha. unfold tx_query. rewrite tx_exec_run by done. by destruct s. Qed.

Lemma tx_update_run f s :
  st_aborted s = false → tx_update f c s = (Ok tt, set_db (f (st_db s)) (bump s)).
Proof. intros Ha. unfold tx_update. by rewrite tx_exec_run. Qed.

Lemma tx_insert_run f s db' :
  st_aborted s = false → f (st_db s) = PgOk db' → tx_insert f c s = (Ok tt, set_db db' (bump s)).
Proof. intros Ha Hf. unfold tx_insert. rewrite tx_exec_run by done. by rewrite Hf. Qed.

Lemma tx_insert_run_fail f s code :
  st_aborted s = false → f (st_db s) = PgFail code →
  tx_insert f c s = (Err (ErrPg code "constraint violation"), set_aborted true (bump s)).
Proof. intros Ha Hf. unfold tx_insert. rewrite tx_exec_run by done. by rewrite Hf. Qed.
End running.

(** Runs the next primitive of a computation in a fault-free environment. *)
Ltac m_run1 :=
  first
    [ erewrite bind_run by (apply newUUID_run; assumption)
    | erewrite bind_run by (first [apply wrapping_run|apply map_err_run|idtac];
                           apply tx_insert_run;
                           [assumption|assumption|first [assumption|reflexivity]|eassumption])
    | erewrite bind_run by reflexivity
    | erewrite bind_run by (first [apply wrapping_run|apply map_err_run|idtac];
                           apply tx_query_run; [assumption|assumption|first [assumption|reflexivity]])
    | erewrite bind_run by (first [apply wrapping_run|apply map_err_run|idtac];
                           apply tx_update_run; [assumption|assumption|first [assumption|reflexivity]]) ];
  cbn [st_db set_db bump st_aborted st_tick st_trace].
Ltac m_run := repeat m_run1.

(** Runs an insertion by a lemma [L] on its success, leaving its constraints. *)
Ltac m_insert L :=
  erewrite bind_run;
  [| first [apply wrapping_run|apply map_err_run|idtac]; apply tx_insert_run;
     [assumption|assumption|first [assumption|reflexivity]|apply L] ];
  cbn [st_db set_db bump st_aborted st_tick st_trace].

(** ** What a transaction can leave behind *)

Definition runs_in_tx (c : Ctx) : Prop := is_Some (cx_tx c).

(** A transaction body refines [R] when each successful run relates the database
    before to the result and the database after, and has no external effect. *)
Definition tx_refines {A} (m : M A) (R : DB → A → DB → Prop) : Prop :=
  ∀ c s a s', runs_in_tx c → m c s = (Ok a, s') →
    R (st_db s) a (st_db s') ∧ st_trace s' = st_trace s.

(** The committed database a transaction starts from. *)
Definition visible (c : Ctx) (s : St) : DB := env_other (cx_env c) (st_tick s) (st_db s).

Lemma in_tx_out_cases {A} on_begin on_commit (body : M (TxOutcome A)) c s r s' :
  in_tx_out on_begin on_commit body c s = (r, s') →
  (∃ e, r = Err e ∧ s' = bump s) ∨
  ∃ o s2, body (fst (begin_tx c s)) (snd (begin_tx c s)) = (o, s2) ∧
    st_trace s' = st_trace s2 ∧ st_aborted s' = false ∧
    ((st_db s' = visible c s ∧
      match o with
      | Err e => r = Err e
      | Ok (TxRollback a) => r = Ok a
      | Ok (TxCommit _) => ∃ e, r = Err e
      end) ∨
     (∃ a, o = Ok (TxCommit a) ∧ st_db s' = st_db s2 ∧ st_aborted s2 = false ∧
        (r = Ok a ∨ ∃ e, r = Err (on_commit e) ∧ ∃ n, env_ack_lost (cx_env c) n = true))).
Proof.
  unfold in_tx_out. destruct (env_fault (cx_env c) (st_tick s)) as [msg|]; [naive_solver|].
  intros H. right. unfold begin_tx in *. cbn [fst snd] in *.
  destruct (body _ _) as [[[a|a]|e] s2] eqn:Eb; simplify_eq/=; eexists _, _;
    (split; [reflexivity|]); [|split_and!; eauto..].
  destruct (st_aborted s2) eqn:?; [|destruct (env_fault _ _)]; simplify_eq/=;
    (split; [done|split; [done|]]); eauto 8.
  destruct (env_ack_lost _ (st_tick s2)) eqn:?; [right|left; by eauto].
  eexists. split_and!; eauto 8.
Qed.

(** After [in_tx] the database is the one the transaction found, or the one its
    body computed from it; a success means the latter. *)
Lemma in_tx_refines {A} cb cc (body : M A) R c s r s' :
  tx_refines body R → in_tx cb cc body c s = (r, s') →
  match r with
  | Ok a => R (visible c s) a (st_db s') ∧ st_trace s' = st_trace s
  | Err _ => st_db s' = st_db s ∨ st_db s' = visible c s ∨ ∃ a, R (visible c s) a (st_db s')
  end.
Proof.
  intros HR [(e & -> & ->)|(o & s2 & Hb & Ht & _ & Hc)]%in_tx_out_cases; [by left|].
  assert (runs_in_tx (fst (begin_tx c s))) as Htx by (eexists; reflexivity).
  assert (∀ a, o = Ok (TxCommit a) → R (visible c s) a (st_db s2) ∧ st_trace s2 = st_trace s) as HR'.
  { intros a ->. apply bind_Ok in Hb as (a' & s1 & Hb & [Ha ->]%ret_Ok). simplify_eq.
    by destruct (HR _ _ _ _ Htx Hb). }
  assert (∀ a, o ≠ Ok (TxRollback a)) as Hnr.
  { intros a ->. apply bind_Ok in Hb as (a' & s1 & Hb & [Ha ->]%ret_Ok). done. }
  destruct Hc as [[Hdb Ho]|(a & -> & Hdb & _ & Hr)].
  - destruct o as [[a|a]|e]; [destruct Ho as [e ->]; eauto|by destruct (Hnr a)|subst; eauto].
  - destruct (HR' a eq_refl) as [HRa Htr]. rewrite <- Hdb in HRa.
    destruct Hr as [->|(e & -> & _)]; [split; [done|congruence]|eauto].
Qed.

(** ** Invariants of the committed database *)

Section preserves.
Variable I : DB → Prop.

(** What the rest of the system does keeps the invariant. *)
Definition others_preserve (c : Ctx) : Prop := ∀ n db, I db → I (env_other (cx_env c) n db).

(** Whatever happens (faults, lost acknowledgements, any interleaving), [m] leaves
    the committed database in the invariant. *)
Definition preserves {A} (m : M A) : Prop :=
  ∀ c s r s', cx_tx c = None → others_preserve c → I (st_db s) → m c s = (r, s') → I (st_db s').

Lemma preserves_in_tx_out {A} on_begin on_commit (body : M (TxOutcome A)) :
  (∀ c s a s', runs_in_tx c → I (st_db s) → body c s = (Ok (TxCommit a), s') → I (st_db s')) →
  preserves (in_tx_out on_begin on_commit body).
Proof.
  intros Hb c s r s' Hc Ho HI [(e & -> & ->)|(o & s2 & Eb & _ & _ & Hcase)]%in_tx_out_cases; [done|].
  assert (I (visible c s)) by (by apply Ho).
  destruct Hcase as [[-> _]|(a & -> & -> & _)]; [done|].
  eapply Hb in Eb; [done|by eexists|done].
Qed.

Lemma preserves_in_tx {A} cb cc (body : M A) R :
  tx_refines body R → (∀ db a db', I db → R db a db' → I db') →
  preserves (in_tx cb cc body).
Proof.
  intros HR HI. apply preserves_in_tx_out. intros c s a s' Hc Hs H. m_straight.
  simplify_eq. destruct (HR _ _ _ _ Hc H) as [Hr _]. eauto.
Qed.

Lemma preserves_ret {A} (a : A) : preserves (ret a).
Proof. intros c s r s' _ _ HI H. unfold ret in H. by simplify_eq. Qed.
Lemma preserves_throw {A} e : preserves (throw (A:=A) e).
Proof. intros c s r s' _ _ HI H. unfold throw in H. by simplify_eq. Qed.
Lemma preserves_bind {A B} (m : M A) (k : A → M B) :
  preserves m → (∀ a, preserves (k a)) → preserves (bind m k).
Proof.
  intros Hm Hk c s r s' Hc Ho HI H. unfold bind in H.
  destruct (m c s) as [[a|e] s1] eqn:E; [eapply Hk in H; eauto|simplify_eq; eauto].
Qed.
Lemma preserves_map_err {A} f (m : M A) : preserves m → preserves (map_err f m).
Proof.
  intros Hm c s r s' Hc Ho HI H. unfold map_err in H.
  destruct (m c s) as [[a|e] s1] eqn:E; simplify_eq; eauto.
Qed.
Lemma preserves_wrapping {A} ctx (m : M A) : preserves m → preserves (wrapping ctx m).
Proof. apply preserves_map_err. Qed.
Lemma preserves_try {A} (m : M A) : preserves m → preserves (try m).
Proof.
  intros Hm c s r s' Hc Ho HI H. unfold try in H.
  destruct (m c s) as [r' s1] eqn:E; simplify_eq; eauto.
Qed.
Lemma preserves_when b m : preserves m → preserves (when b m).
Proof. intros Hm. destruct b; [done|apply preserves_ret]. Qed.
Lemma preserves_lift_option {A} (o : option A) e : preserves (lift_option o e).
Proof. destruct o; [apply preserves_ret|apply preserves_throw]. Qed.
Lemma preserves_lift_result {A} (r : result A) : preserves (lift_result r).
Proof. destruct r; [apply preserves_ret|apply preserves_throw]. Qed.
Lemma preserves_emit ev : preserves (emit ev).
Proof. intros c s r s' _ _ HI H. unfold emit in H. by simplify_eq. Qed.
Lemma preserves_now : preserves now.
Proof. intros c s r s' _ _ HI H. unfold now in H. by simplify_eq. Qed.
Lemma preserves_step {A} (m : M A) : preserves m → preserves (step m).
Proof.
  intros Hm c s r s' Hc Ho HI H. unfold step in H.
  destruct (env_fault _ _); simplify_eq; [done|]. by eapply (Hm c (bump s)).
Qed.
Lemma preserves_newUUID ctx : preserves (newUUID ctx).
Proof.
  apply preserves_wrapping, preserves_step. intros c s r s' _ _ HI H. by simplify_eq.
Qed.
Lemma preserves_pool_query {A} (f : DB → A) : preserves (pool_query f).
Proof.
  apply preserves_step. intros c s r s' Hc Ho HI H. rewrite Hc in H.
  injection H as _ <-. by apply Ho.
Qed.
Lemma preserves_mapM {A B} (f : A → M B) l : (∀ x, preserves (f x)) → preserves (mapM f l).
Proof.
  intros Hf. induction l; simpl; [apply preserves_ret|].
  apply preserves_bind; [done|]. intros y. apply preserves_bind; [done|].
  intros ys. apply preserves_ret.
Qed.
Lemma preserves_forM {A} (l : list A) f : (∀ x, preserves (f x)) → preserves (forM_ l f).
Proof.
  intros Hf. induction l; simpl; [apply preserves_ret|]. by apply preserves_bind.
Qed.
End preserves.

Create HintDb preserves.
#[export] Hint Resolve preserves_ret preserves_throw preserves_bind preserves_map_err
  preserves_wrapping preserves_try preserves_when preserves_lift_option
  preserves_lift_result preserves_emit preserves_now preserves_newUUID
  preserves_pool_query preserves_mapM preserves_forM : preserves.

(** ** Computations with no external effect *)

Definition silent {A} (m : M A) : Prop :=
  ∀ c s r s', m c s = (r, s') → st_trace s' = st_trace s.

Section silent_lemmas.
Context {A B : Type}.

Lemma silent_ret (a : A) : silent (ret a).
Proof. by intros c s r s' [= _ <-]. Qed.
Lemma silent_throw e : silent (throw (A:=A) e).
Proof. by intros c s r s' [= _ <-]. Qed.
Lemma silent_bind (m : M A) (k : A → M B) : silent m → (∀ a, silent (k a)) → silent (bind m k).
Proof.
  intros Hm Hk c s r s' H. unfold bind in H. destruct (m c s) as [[a|e] s1] eqn:E.
  - apply Hm in E. apply Hk in H. congruence.
  - simplify_eq. by apply Hm in E.
Qed.
Lemma silent_map_err f (m : M A) : silent m → silent (map_err f m).
Proof.
  intros Hm c s r s' H. unfold map_err in H.
  destruct (m c s) as [[a|e] s1] eqn:E; simplify_eq; by apply Hm in E.
Qed.
Lemma silent_wrapping ctx (m : M A) : silent m → silent (wrapping ctx m).
Proof. apply silent_map_err. Qed.
Lemma silent_lift_option (o : option A) e : silent (lift_option o e).
Proof. destruct o; [apply silent_ret|apply silent_throw]. Qed.
Lemma silent_lift_result (r : result A) : silent (lift_result r).
Proof. destruct r; [apply silent_ret|apply silent_throw]. Qed.
Lemma silent_tx_exec (f : DB → pgres (A * DB)) : silent (tx_exec f).
Proof.
  intros c s r s' H. unfold tx_exec, txFromContext in H. destruct (cx_tx c); [|by simplify_eq].
  destruct (st_aborted s); [by simplify_eq|]. destruct (env_fault _ _); [by simplify_eq|].
  destruct (f (st_db s)) as [[? ?]|]; by simplify_eq.
Qed.
Lemma silent_in_tx_out on_begin on_commit (body : M (TxOutcome A)) :
  silent body → silent (in_tx_out on_begin on_commit body).
Proof.
  intros Hb c s r s' [(e & -> & ->)|(o & s2 & E & Ht & _)]%in_tx_out_cases; [done|].
  apply Hb in E. by rewrite Ht, E.
Qed.
End silent_lemmas.

Lemma silent_newUUID ctx : silent (newUUID ctx).
Proof.
  apply silent_wrapping. intros c s r s' H. unfold step in H.
  destruct (env_fault _ _); by simplify_eq.
Qed.
Lemma silent_now : silent now.
Proof. by intros c s r s' [= _ <-]. Qed.
Lemma silent_mapM {A B} (f : A → M B) l : (∀ x, silent (f x)) → silent (mapM f l).
Proof.
  intros Hf. induction l; simpl; [apply silent_ret|].
  apply silent_bind; [done|]. intros y. apply silent_bind; [done|]. intros ys. apply silent_ret.
Qed.
Lemma silent_in_tx {A} cb cc (body : M A) : silent body → silent (in_tx cb cc body).
Proof.
  intros Hb. apply silent_in_tx_out, silent_bind; [done|]. intros a. apply silent_ret.
Qed.

Create HintDb silent.
#[export] Hint Resolve silent_ret silent_throw silent_bind silent_map_err silent_wrapping
  silent_lift_option silent_lift_result silent_tx_exec silent_in_tx_out silent_newUUID silent_now
  silent_mapM silent_in_tx : silent.
(** Statements, guards and matches that emit nothing. *)
Ltac silent_tac :=
  repeat first [ progress (intros) | apply silent_bind | solve [auto with silent]
               | apply silent_mapM | case_match | case_decide ].
