(* ===== verification/Ledger.v ===== *)
(** * The double-entry ledger

    Balances are never stored: an account's balance is the sum of its postings
    (AD-3). This file defines the balance the repositories' SUM queries compute,
    the shape of every journal write the repositories do ([posts]: one entry with a
    fresh cause and two opposite postings), and the ledger's invariant. *)

From Stdlib Require Import ZArith Lia.
From stdpp Require Import prelude strings.
From S2P Require Import Prelude GoStd Domain Store Effects.

(** ** Queries *)

(** SELECT COALESCE(SUM(amount), 0) FROM postings WHERE account_id = $1. *)
Definition sum_postings (db : DB) (account : string) : Z :=
  sumZ po_amount (filter (λ p, po_account p = account) (t_postings db)).

Definition entry_sum (db : DB) (entry : string) : Z :=
  sumZ po_amount (filter (λ p, po_entry p = entry) (t_postings db)).

(** [SetString(balanceText, 10)] of a sum the database rendered with ::text. *)
Definition scan_big (ctx : string) (z : Z) : M Z :=
  lift_option (big_SetString10 (big_String z))
    (ErrText ("parse " +:+ ctx +:+ " " +:+ big_String z +:+ " as integer")).

Lemma scan_big_eq ctx z : scan_big ctx z = ret z.
Proof. unfold scan_big. by rewrite big_SetString10_String. Qed.

Lemma scan_big_Ok ctx z c s a s' : scan_big ctx z c s = (Ok a, s') → a = z ∧ s' = s.
Proof. rewrite scan_big_eq. apply ret_Ok. Qed.

Ltac m_ext ::=
  match goal with
  | H : scan_big _ _ _ _ = (Ok _, _) |- _ => apply scan_big_Ok in H; destruct H; subst
  end.

Definition is_account (c : option string) (ch : Chain) (a : Asset) (t : AccountType)
    (r : AccountRow) : Prop :=
  ac_customer r = c ∧ ac_chain r = ch ∧ ac_asset r = a ∧ ac_type r = t.
#[export] Instance is_account_dec c ch a t r : Decision (is_account c ch a t r).
Proof. unfold is_account. apply _. Defined.

(** The account a WHERE on (customer_id, chain, asset, account_type) selects. *)
Definition find_account (db : DB) c ch a t : option AccountRow :=
  List.find (λ r, bool_decide (is_account c ch a t r)) (t_accounts db).

Lemma find_account_Some db c ch a t r :
  find_account db c ch a t = Some r → r ∈ t_accounts db ∧ is_account c ch a t r.
Proof.
  intros [Hin Hb]%List.find_some. split; [by apply list_elem_of_In|by apply bool_decide_eq_true in Hb].
Qed.

Lemma find_account_None db c ch a t r :
  find_account db c ch a t = None → r ∈ t_accounts db → ¬ is_account c ch a t r.
Proof.
  intros H Hin Hr. apply list_elem_of_In in Hin.
  pose proof (List.find_none _ _ H _ Hin) as Hf. simpl in Hf. by apply bool_decide_eq_false in Hf.
Qed.

(** ** The journal write every money movement does *)

(** [db'] is [db] with the entry [je], debiting [src] and crediting [dst]. *)
Record posts (db : DB) (je : JournalEntry) (src dst : string) (amount : Z) (db' : DB) : Prop := {
  posts_entries : t_journal_entries db' = t_journal_entries db ++ [je];
  posts_postings : ∃ p q, t_postings db' = t_postings db ++ [p; q] ∧
    po_entry p = je_id je ∧ po_account p = src ∧ po_amount p = - amount ∧
    po_entry q = je_id je ∧ po_account q = dst ∧ po_amount q = amount ∧
    po_id p ∉ map po_id (t_postings db) ∧ po_id q ∉ map po_id (t_postings db) ∧
    po_id p ≠ po_id q;
  posts_accounts : t_accounts db' = t_accounts db;
  posts_fresh_id : je_id je ∉ map je_id (t_journal_entries db);
  posts_fresh_cause : je_cause je ∉ map je_cause (t_journal_entries db);
  posts_src : src ∈ map ac_id (t_accounts db);
  posts_dst : dst ∈ map ac_id (t_accounts db);
}.

(** The three INSERTs of a movement, with whatever else the transaction does
    to the other tables in between. *)
Lemma posts_of_inserts db1 db1' db2 db2' db3 db3' je p q :
  insert_journal_entry je db1 = PgOk db1' →
  insert_posting p db2 = PgOk db2' → insert_posting q db3 = PgOk db3' →
  t_accounts db2 = t_accounts db1 → t_accounts db3 = t_accounts db1 →
  t_postings db2 = t_postings db1 → t_postings db3 = t_postings db2' →
  t_journal_entries db3 = t_journal_entries db1' →
  po_entry p = je_id je → po_entry q = je_id je → po_amount p = - po_amount q →
  posts db1 je (po_account p) (po_account q) (po_amount q) db3'.
Proof.
  unfold insert_journal_entry, insert_posting. intros Hj Hp Hq Ha2 Ha3 Hp2 Hp3 Hj3 Ep Eq Eneg.
  repeat match goal with
         | H : pg_require _ _ _ = PgOk _ |- _ => apply pg_require_ok in H as [? H]
         | H : PgOk _ = PgOk _ |- _ => injection H as <-
         end.
  cbn in *. rewrite Ha2, Hp2, Ha3, Hp3 in *.
  rewrite map_app in *. constructor; cbn; try done.
  eexists p, q. rewrite <-app_assoc. split_and!; set_solver.
Qed.

(** Only the journal and the postings differ. *)
Definition only_journal_differs (db db' : DB) : Prop :=
  db' = set_postings (t_postings db') (set_journal_entries (t_journal_entries db') db).

Lemma only_journal_other db db' :
  only_journal_differs db db' →
  t_customers db' = t_customers db ∧ t_accounts db' = t_accounts db ∧
  t_deposit_addresses db' = t_deposit_addresses db ∧
  t_idempotency_keys db' = t_idempotency_keys db ∧ t_deposits db' = t_deposits db ∧
  t_watcher_cursors db' = t_watcher_cursors db ∧ t_outbox_events db' = t_outbox_events db ∧
  t_crediting_policy db' = t_crediting_policy db ∧ t_token_registry db' = t_token_registry db ∧
  t_unsupported db' = t_unsupported db ∧ t_withdrawals db' = t_withdrawals db ∧
  t_thresholds db' = t_thresholds db ∧ t_chain_nonce_state db' = t_chain_nonce_state db ∧
  t_broadcast_attempts db' = t_broadcast_attempts db.
Proof. intros H. rewrite H. split_and!; reflexivity. Qed.

(** The goal [posts ...] from the three insertions in the context. *)
Ltac posts_inserts :=
  match goal with
  | Hj : insert_journal_entry _ _ = PgOk _, Hp : insert_posting ?p _ = PgOk _,
    Hq : insert_posting ?q _ = PgOk _ |- posts _ _ _ _ _ _ =>
      refine (posts_of_inserts _ _ _ _ _ _ _ _ _ Hj Hp Hq _ _ _ _ _ _ _ _);
      cbn; (reflexivity || lia)
  end.

(** ** The invariant of the ledger *)

Record ledger_ok (db : DB) : Prop := {
  lo_entry_ids : NoDup (map je_id (t_journal_entries db));
  lo_causes : NoDup (map je_cause (t_journal_entries db));
  lo_posting_ids : NoDup (map po_id (t_postings db));
  lo_posting_entry : ∀ p, p ∈ t_postings db → po_entry p ∈ map je_id (t_journal_entries db);
  lo_posting_account : ∀ p, p ∈ t_postings db → po_account p ∈ map ac_id (t_accounts db);
  lo_balanced : ∀ e, entry_sum db e = 0;
  lo_account_ids : NoDup (map ac_id (t_accounts db));
  lo_account_keys : ∀ a b, a ∈ t_accounts db → b ∈ t_accounts db → same_account a b → a = b;
}.

Lemma is_account_unique db c ch a t r r' :
  ledger_ok db → r ∈ t_accounts db → r' ∈ t_accounts db →
  is_account c ch a t r → is_account c ch a t r' → r = r'.
Proof.
  intros Hok Hr Hr' (? & ? & ? & ?) (? & ? & ? & ?). eapply lo_account_keys; eauto.
  unfold same_account. split_and!; congruence.
Qed.

(** With unique accounts, the row found is the only candidate. *)
Lemma find_account_eq db c ch a t r :
  ledger_ok db → r ∈ t_accounts db → is_account c ch a t r → find_account db c ch a t = Some r.
Proof.
  intros Hok Hr Hi. destruct (find_account db c ch a t) as [r'|] eqn:F.
  - apply find_account_Some in F as [Hr' Hi']. f_equal. eapply is_account_unique; eauto.
  - by destruct (find_account_None _ _ _ _ _ _ F Hr).
Qed.

Lemma filter_none {X} (P : X → Prop) `{∀ x, Decision (P x)} (l : list X) :
  (∀ x, x ∈ l → ¬ P x) → filter P l = [].
Proof.
  induction l as [|x l IH]; intros Hn; [done|].
  rewrite filter_cons_False by (apply Hn; set_solver). apply IH. set_solver.
Qed.

(** The effect of a movement on every balance. *)
Lemma posts_balance db je src dst amount db' a :
  posts db je src dst amount db' →
  sum_postings db' a =
    sum_postings db a + (if decide (dst = a) then amount else 0)
    - (if decide (src = a) then amount else 0).
Proof.
  intros [_ (p & q & Hp & E1 & E2 & E3 & E4 & E5 & E6 & _) _ _ _ _ _].
  unfold sum_postings. rewrite Hp, filter_app, sumZ_app, filter_cons, filter_cons, filter_nil.
  rewrite E2, E5. repeat case_decide; simpl; lia.
Qed.

Lemma posts_entry_sum db je src dst amount db' e :
  posts db je src dst amount db' → entry_sum db' e = entry_sum db e.
Proof.
  intros [_ (p & q & Hp & E1 & E2 & E3 & E4 & E5 & E6 & _) _ _ _ _ _].
  unfold entry_sum. rewrite Hp, filter_app, sumZ_app, filter_cons, filter_cons, filter_nil.
  rewrite E1, E4. repeat case_decide; simpl; lia.
Qed.

(** A key that does not repeat selects at most one element. *)
Lemma filter_key_le_1 {X K} `{EqDecision K} (key : X → K) (k : K) (l : list X) :
  NoDup (map key l) → (length (filter (λ x, key x = k) l) <= 1)%nat.
Proof.
  induction l as [|x l IH]; intros Hnd; [simpl; lia|]. apply NoDup_cons in Hnd as [Hx Hnd].
  rewrite filter_cons. case_decide as E; [|by apply IH].
  rewrite filter_none; [simpl; lia|]. intros y Hy Ey. apply Hx. apply list_elem_of_fmap.
  exists y. split; [congruence|done].
Qed.

Lemma NoDup_snoc {X} (l : list X) x : NoDup (l ++ [x]) ↔ NoDup l ∧ x ∉ l.
Proof.
  rewrite NoDup_app. split; [set_solver|]. intros [H1 H2]. split_and!; [done|set_solver|].
  apply NoDup_singleton.
Qed.

Lemma posts_ledger_ok db je src dst amount db' :
  posts db je src dst amount db' → ledger_ok db → ledger_ok db'.
Proof.
  intros HP []. pose proof (λ e, posts_entry_sum _ _ _ _ _ _ e HP) as Hsum.
  destruct HP as [He (p & q & Hp & E1 & E2 & E3 & E4 & E5 & E6 & F1 & F2 & F3) Ha Fi Fc Hs Hd].
  constructor; rewrite ?He, ?Hp, ?Ha, ?map_app; simpl; try done.
  - by apply NoDup_snoc.
  - by apply NoDup_snoc.
  - change [po_id p; po_id q] with ([po_id p] ++ [po_id q]). rewrite app_assoc.
    rewrite !NoDup_snoc. set_solver.
  - set_solver.
  - set_solver.
  - intros e. by rewrite Hsum.
Qed.

(** Statements that leave the three ledger tables alone. *)
Definition same_ledger (db db' : DB) : Prop :=
  t_journal_entries db' = t_journal_entries db ∧ t_postings db' = t_postings db ∧
  t_accounts db' = t_accounts db.

Lemma same_ledger_ok db db' : same_ledger db db' → ledger_ok db → ledger_ok db'.
Proof.
  intros (He & Hp & Ha) []. constructor; unfold entry_sum in *; rewrite ?He, ?Hp, ?Ha; done.
Qed.

Lemma same_ledger_balance db db' a : same_ledger db db' → sum_postings db' a = sum_postings db a.
Proof. intros (_ & Hp & _). unfold sum_postings. by rewrite Hp. Qed.

(** The ledger as a whole nets to zero: nothing is minted or lost. *)
Lemma sumZ_filter_split {X} (P : X → Prop) `{∀ x, Decision (P x)} f (l : list X) :
  sumZ f l = sumZ f (filter P l) + sumZ f (filter (λ x, ¬ P x) l).
Proof.
  induction l as [|x l IH]; [done|]. rewrite !filter_cons. simpl.
  repeat case_decide; simpl; try tauto; lia.
Qed.

Lemma total_by_key {X K} `{EqDecision K} (f : X → Z) (key : X → K) ks (l : list X) :
  NoDup ks → (∀ x, x ∈ l → key x ∈ ks) →
  sumZ f l = sumZ (λ k, sumZ f (filter (λ x, key x = k) l)) ks.
Proof.
  revert l. induction ks as [|k ks IH]; intros l Hnd Hin.
  { destruct l; [done|]. exfalso. specialize (Hin x). set_solver. }
  apply NoDup_cons in Hnd as [Hk Hnd]. simpl.
  rewrite (sumZ_filter_split (λ x, key x = k) f l). f_equal.
  rewrite (IH (filter (λ x, key x ≠ k) l)); [|done|].
  - apply sumZ_ext. intros k' Hk'. rewrite list_filter_filter. f_equal.
    apply list_filter_iff. intros x. split; [naive_solver|].
    intros E. split; [done|]. intros E'. apply Hk. by rewrite <-E', E.
  - intros x [Hne Hx]%list_elem_of_filter. specialize (Hin x Hx). set_solver.
Qed.

Lemma ledger_total_zero db : ledger_ok db → sumZ po_amount (t_postings db) = 0.
Proof.
  intros []. rewrite (total_by_key po_amount po_entry (map je_id (t_journal_entries db))) by done.
  apply sumZ_zero. intros e _. apply lo_balanced0.
Qed.

Lemma accounts_total_zero db :
  ledger_ok db → sumZ (sum_postings db) (map ac_id (t_accounts db)) = 0.
Proof.
  intros H. rewrite <-(ledger_total_zero db H). destruct H.
  by rewrite (total_by_key po_amount po_account (map ac_id (t_accounts db))) by done.
Qed.
