(* ===== verification/Transfers.v ===== *)
(** * Internal transfers

    src/internal/core/create_transfer.go and
    src/internal/adapter/postgres/transfer_repo.go: a ledger-only movement between
    the available accounts of two customers. *)

From Stdlib Require Import ZArith Lia.
From stdpp Require Import prelude strings sorting gmap.
From S2P Require Import Prelude GoStd Domain Store Effects Ledger.

(** ** transfer_repo.go *)

(** SELECT id, customer_id ... ORDER BY id FOR UPDATE. *)
Definition transfer_accounts (req : TransferRequest) (db : DB) : list (string * string) :=
  map (λ r, (ac_id r, default EmptyString (ac_customer r)))
    (merge_sort (λ a b, str_le (ac_id a) (ac_id b))
       (filter (λ r, ac_chain r = tr_Chain req ∧ ac_asset r = tr_Asset req ∧
                     ac_customer r ∈ [Some (tr_Source req); Some (tr_Destination req)] ∧
                     ac_type r = AccountTypeAvailable)
          (t_accounts db))).

Definition no_transfer_account (side customer : string) (req : TransferRequest) : error :=
  ErrWrap "" (ErrIs ErrCustomerNotFound)
    (": " +:+ side +:+ " customer " +:+ customer +:+ " has no (" +:+ tr_Chain req +:+ ", "
       +:+ tr_Asset req +:+ ") account").

(** The mapping of the entry INSERT's error. *)
Definition transfer_entry_error (req : TransferRequest) (e : error) : error :=
  if is_unique_violation e
  then ErrWrap "" (ErrIs ErrDuplicateTransferCause) (": idempotency key " +:+ tr_IdempotencyKey req)
  else wrap "insert journal entry" e.

Definition TransferRepository_CreateTransfer (req : TransferRequest) : M Transfer :=
  let! rows := wrapping "lock accounts" (tx_query (transfer_accounts req)) in
  let accountByCustomer : gmap string string :=
    foldl (λ m '(accountID, customerID), <[customerID := accountID]> m) ∅ rows in
  let! sourceAccountID := lift_option (accountByCustomer !! tr_Source req)
    (no_transfer_account "source" (tr_Source req) req) in
  let! destAccountID := lift_option (accountByCustomer !! tr_Destination req)
    (no_transfer_account "destination" (tr_Destination req) req) in
  let! sum := wrapping "sum source balance" (tx_query (λ db, sum_postings db sourceAccountID)) in
  let! balance := scan_big "source balance" sum in
  let amount := default 0 (tr_Amount req) in
  if balance <? amount then throw (ErrIs ErrInsufficientBalance) else
  let! journalEntryID := newUUID "generate journal entry id" in
  let! now := now in
  do! map_err (transfer_entry_error req)
    (tx_insert (insert_journal_entry
      (mkJournalEntry journalEntryID "internal_transfer" (tr_IdempotencyKey req) now))) in
  let! sourcePostingID := newUUID "generate posting id" in
  let! destPostingID := newUUID "generate posting id" in
  let negAmount := - amount in
  do! wrapping "insert posting" (tx_insert (insert_posting
    (mkPosting sourcePostingID journalEntryID sourceAccountID negAmount now))) in
  do! wrapping "insert posting" (tx_insert (insert_posting
    (mkPosting destPostingID journalEntryID destAccountID amount now))) in
  ret (mkTransfer journalEntryID (tr_Source req) (tr_Destination req) (tr_Chain req)
         (tr_Asset req) amount now).

(** ** create_transfer.go *)

Class TransferRepository := { repo_CreateTransfer : TransferRequest → M Transfer }.

Definition CreateTransfer_Execute `{TransferRepository} (req : TransferRequest) : M Transfer :=
  if String.eqb (tr_Source req) (tr_Destination req) then throw (ErrIs ErrSelfTransfer) else
  match tr_Amount req with
  | None => throw (ErrIs ErrNonPositiveAmount)
  | Some amount =>
      if amount <=? 0 then throw (ErrIs ErrNonPositiveAmount)
      else repo_CreateTransfer req
  end.

#[export] Instance postgres_TransferRepository : TransferRepository :=
  { repo_CreateTransfer := TransferRepository_CreateTransfer }.

(** ** What a transfer does *)

Definition available_account (db : DB) (customer : string) (ch : Chain) (a : Asset)
    : option string :=
  option_map ac_id (find_account db (Some customer) ch a AccountTypeAvailable).

(** The lock query's map finds the customer's available account. *)
Lemma foldl_insert_lookup (rows : list (string * string)) (m : gmap string string) c :
  (∀ i j, (i, c) ∈ rows → (j, c) ∈ rows → i = j) →
  foldl (λ m '(accountID, customerID), <[customerID := accountID]> m) m rows !! c =
    match List.find (λ r, bool_decide (snd r = c)) rows with
    | Some r => Some (fst r) | None => m !! c end.
Proof.
  revert m. induction rows as [|[i d] rows IH]; intros m Hu; [done|]. simpl.
  rewrite IH by (intros; apply Hu; set_solver). case_bool_decide as E; simpl in *.
  - subst d. destruct (List.find _ rows) as [[j d]|] eqn:F; [|by rewrite lookup_insert_eq].
    apply List.find_some in F as [Hin%list_elem_of_In Hd%bool_decide_eq_true]. simpl in *. subst.
    f_equal. apply Hu; set_solver.
  - destruct (List.find _ rows); [done|]. by rewrite lookup_insert_ne.
Qed.

Lemma transfer_accounts_elem req db i c :
  (i, c) ∈ transfer_accounts req db ↔
  ∃ r, r ∈ t_accounts db ∧ ac_id r = i ∧ (c = tr_Source req ∨ c = tr_Destination req) ∧
    is_account (Some c) (tr_Chain req) (tr_Asset req) AccountTypeAvailable r.
Proof.
  unfold transfer_accounts, is_account. rewrite list_elem_of_fmap. split.
  - intros (r & E & Hr). rewrite merge_sort_Permutation in Hr.
    apply list_elem_of_filter in Hr as [(? & ? & Hc & ?) Hr]. exists r.
    injection E as -> ->.
    assert (ac_customer r = Some (tr_Source req) ∨ ac_customer r = Some (tr_Destination req))
      as [Hs|Hs] by set_solver; rewrite Hs; simpl; eauto 10.
  - intros (r & Hr & <- & Hc & E & ? & ? & ?). exists r. rewrite E. split; [done|].
    rewrite merge_sort_Permutation. apply list_elem_of_filter. rewrite E. set_solver.
Qed.

Lemma accountByCustomer_lookup req db c :
  ledger_ok db → c = tr_Source req ∨ c = tr_Destination req →
  (foldl (λ m '(accountID, customerID), <[customerID := accountID]> m) (∅ : gmap string string)
     (transfer_accounts req db)) !! c = available_account db c (tr_Chain req) (tr_Asset req).
Proof.
  intros Hok Hc. rewrite foldl_insert_lookup.
  2:{ intros i j Hi Hj. apply transfer_accounts_elem in Hi as (r & Hr & <- & _ & Er).
      apply transfer_accounts_elem in Hj as (r' & Hr' & <- & _ & Er').
      f_equal. eapply is_account_unique; eauto. }
  unfold available_account.
  destruct (find_account _ _ _ _ _) as [r|] eqn:F; simpl.
  - apply find_account_Some in F as [Hr Er].
    destruct (List.find _ _) as [[j d]|] eqn:G.
    + apply List.find_some in G as [Hin%list_elem_of_In Hd%bool_decide_eq_true]. simpl in *. subst.
      apply transfer_accounts_elem in Hin as (r' & Hr' & <- & _ & Er'). f_equal.
      f_equal. eapply is_account_unique; eauto.
    + exfalso. assert ((ac_id r, c) ∈ transfer_accounts req db) as Hin
        by (apply transfer_accounts_elem; eauto 8).
      apply list_elem_of_In, (List.find_none _ _ G) in Hin. simpl in Hin.
      by apply bool_decide_eq_false in Hin.
  - destruct (List.find _ _) as [[j d]|] eqn:G; [|done].
    apply List.find_some in G as [Hin%list_elem_of_In Hd%bool_decide_eq_true]. simpl in *. subst.
    apply transfer_accounts_elem in Hin as (r' & Hr' & <- & _ & Er').
    by destruct (find_account_None _ _ _ _ _ _ F Hr').
Qed.

(** A transfer [t] made for [req]: both accounts exist, the source covered the
    amount, and the journal gained exactly one entry, caused by the idempotency
    key, with the two opposite postings. *)
Definition transferred (req : TransferRequest) (db : DB) (t : Transfer) (db' : DB) : Prop :=
  ledger_ok db →
  ∃ src dst, available_account db (tr_Source req) (tr_Chain req) (tr_Asset req) = Some src ∧
    available_account db (tr_Destination req) (tr_Chain req) (tr_Asset req) = Some dst ∧
    tf_Amount t <= sum_postings db src ∧
    posts db (mkJournalEntry (tf_ID t) "internal_transfer" (tr_IdempotencyKey req) (tf_CreatedAt t))
      src dst (tf_Amount t) db' ∧
    only_journal_differs db db' ∧
    t = mkTransfer (tf_ID t) (tr_Source req) (tr_Destination req) (tr_Chain req) (tr_Asset req)
          (default 0 (tr_Amount req)) (tf_CreatedAt t).

Lemma CreateTransfer_refines req :
  tx_refines (TransferRepository_CreateTransfer req) (transferred req).
Proof.
  intros c s t s' _ H. unfold TransferRepository_CreateTransfer in H.
  m_inv. bool_to_prop. split; [|done]. intros Hok.
  rewrite accountByCustomer_lookup in * by (done || auto).
  eexists _, _. split_and!; [done|done|cbn; lia|..].
  3: reflexivity.
  - insert_eqs. posts_inserts.
  - by insert_eqs.
Qed.

(** The reason the code refuses [req], in the order it checks; [None]: it does not. *)
Definition transfer_refusal (req : TransferRequest) (db : DB) : option sentinel :=
  if decide (tr_Source req = tr_Destination req) then Some ErrSelfTransfer else
  if decide (0 < default 0 (tr_Amount req)) then
    match available_account db (tr_Source req) (tr_Chain req) (tr_Asset req),
          available_account db (tr_Destination req) (tr_Chain req) (tr_Asset req) with
    | Some src, Some _ =>
        if decide (sum_postings db src < default 0 (tr_Amount req)) then Some ErrInsufficientBalance
        else if decide (("internal_transfer", tr_IdempotencyKey req)
                          ∈ map je_cause (t_journal_entries db))
        then Some ErrDuplicateTransferCause else None
    | _, _ => Some ErrCustomerNotFound
    end
  else Some ErrNonPositiveAmount.

Lemma available_account_elem db cust ch a i :
  available_account db cust ch a = Some i → i ∈ map ac_id (t_accounts db).
Proof.
  unfold available_account. destruct (find_account _ _ _ _ _) as [r|] eqn:F; [|done].
  intros [= <-]. apply find_account_Some in F as [Hr _]. by apply list_elem_of_fmap_2.
Qed.

(** The ticks of the next [k] steps. *)
Definition soon (k : nat) (s : St) (n : nat) : Prop := (st_tick s <= n < st_tick s + k)%nat.

(** The ids generated in the next [k] steps are distinct, and no row uses them yet. *)
Definition fresh_uuids (k : nat) (c : Ctx) (s : St) : Prop :=
  (∀ n m, soon k s n → soon k s m → env_uuid (cx_env c) n = env_uuid (cx_env c) m → n = m) ∧
  (∀ n, soon k s n → env_uuid (cx_env c) n ∉ map je_id (t_journal_entries (st_db s))) ∧
  (∀ n, soon k s n → env_uuid (cx_env c) n ∉ map po_id (t_postings (st_db s))).

(** The steps of a transfer within its transaction, generously. *)
Definition transfer_steps : nat := 16.

Ltac soon_now := unfold soon, transfer_steps; cbn [st_tick bump set_db]; lia.

Lemma CreateTransfer_Execute_run req c s :
  ledger_ok (st_db s) → fault_free c → runs_in_tx c → st_aborted s = false → fresh_uuids transfer_steps c s →
  numeric78 (default 0 (tr_Amount req)) →
  let '(r, s') := CreateTransfer_Execute req c s in
  match transfer_refusal req (st_db s) with
  | Some why => ∃ e, r = Err e ∧ wrapped e = Some why ∧ st_db s' = st_db s
  | None => ∃ t n m, r = Ok t ∧ tf_ID t = env_uuid (cx_env c) n ∧ tf_CreatedAt t = env_now (cx_env c) m ∧
      tf_Amount t = default 0 (tr_Amount req) ∧ transferred req (st_db s) t (st_db s') ∧ st_aborted s' = false
  end.
Proof.
  intros Hok Hq Htx Ha (Hinj & Hje & Hpo) Hnum.
  pose proof (CreateTransfer_refines req c s) as Href.
  unfold CreateTransfer_Execute, transfer_refusal.
  destruct (String.eqb_spec (tr_Source req) (tr_Destination req)) as [E|Hne].
  { rewrite decide_True by done. by eexists. }
  rewrite decide_False by done. destruct (tr_Amount req) as [amount|] eqn:Eam; simpl in *; [|eauto].
  destruct (Z.leb_spec amount 0); [rewrite decide_False by lia; by eexists|].
  rewrite decide_True by lia. simpl.
  destruct (TransferRepository_CreateTransfer req c s) as [r s'] eqn:Erun.
  unfold TransferRepository_CreateTransfer in Erun. rewrite Eam in Erun.
  revert Erun. m_run1. rewrite !accountByCustomer_lookup by (done || auto).
  destruct (available_account _ (tr_Source req) _ _) as [src|] eqn:Es; simpl.
  2:{ intros [= <- <-]. by eexists. }
  m_run1. destruct (available_account _ (tr_Destination req) _ _) as [dst|] eqn:Ed; simpl.
  2:{ intros [= <- <-]. by eexists. }
  m_run. rewrite scan_big_eq. m_run1.
  destruct (Z.ltb_spec (sum_postings (st_db s) src) amount).
  { rewrite decide_True by done. intros [= <- <-]. by eexists. }
  rewrite decide_False by lia. m_run. set (je := mkJournalEntry _ _ _ _).
  case_decide as Hdup.
  { pose proof (insert_journal_entry_duplicate je _ Hdup) as Hins.
    erewrite bind_run_Err.
    2:{ apply map_err_run_Err, tx_insert_run_fail; try done. }
    intros [= <- <-]. by eexists. }
  assert (je_id je ∉ map je_id (t_journal_entries (st_db s))) as Hid by (apply Hje; soon_now).
  pose proof (insert_journal_entry_run je _ Hid Hdup) as Hins.
  m_run.
  m_insert insert_posting_run.
  2: apply Hpo; soon_now.
  2: cbn; rewrite map_app; apply elem_of_app; right; by left.
  2: by eapply available_account_elem.
  2: by unfold numeric78 in *; simpl; rewrite Z.abs_opp.
  m_insert insert_posting_run.
  2: cbn; rewrite map_app, not_elem_of_app; split; [apply Hpo; soon_now|];
     intros E%list_elem_of_singleton%Hinj; [lia|soon_now..].
  2: cbn; rewrite map_app; apply elem_of_app; right; by left.
  2: by eapply available_account_elem.
  2: done.
  intros [= <- <-]. eexists _, _, _. split_and!; [done|reflexivity|reflexivity|done| |done]. by apply Href.
Qed.

(** Internal transfers. Without faults, a transfer to oneself, of a missing or
    non-positive amount, between parties without an account for the pair, of more
    than the sender's balance, or with a cause already journaled is refused with its
    own error and the database untouched; every other one succeeds and moves exactly
    the amount between the two available accounts, in one balanced entry. *)
Theorem CreateTransfer_Execute_outcome req c s :
  ledger_ok (st_db s) → fault_free c → runs_in_tx c → st_aborted s = false → fresh_uuids transfer_steps c s →
  numeric78 (default 0 (tr_Amount req)) →
  let '(r, s') := CreateTransfer_Execute req c s in
  match transfer_refusal req (st_db s) with
  | Some why => ∃ e, r = Err e ∧ errors_Is e why = true ∧ st_db s' = st_db s
  | None => ∃ t, r = Ok t ∧ tf_Amount t = default 0 (tr_Amount req) ∧
      transferred req (st_db s) t (st_db s')
  end.
Proof.
  intros Hok Hq Htx Ha Hf Hn. pose proof (CreateTransfer_Execute_run req c s Hok Hq Htx Ha Hf Hn) as H.
  destruct (CreateTransfer_Execute req c s) as [r s']. destruct (transfer_refusal _ _) as [why|].
  - destruct H as (e & ? & He & ?). exists e. split_and!; [done| |done].
    rewrite (errors_Is_wrapped _ _ _ He). by apply bool_decide_eq_true_2.
  - destruct H as (t & n & m & H). destruct_and! H. by exists t.
Qed.
