(* ===== verification/Withdrawals.v ===== *)
(** * The withdrawal repository

    src/internal/adapter/postgres/withdrawal_repo.go: the life of a withdrawal row
    (awaiting-approval or approved, signed, broadcast, confirmed or failed), the
    money movements its transitions make, the nonce allocation and the durable
    record of the signed bytes. The use cases over it are in CreateWithdrawals.v
    and Broadcast.v. *)

From Stdlib Require Import ZArith Lia.
From stdpp Require Import prelude strings sorting gmap.
From S2P Require Import Prelude GoStd Domain Store Effects Ledger.

(** ** Row updates *)

(** SET status = 'approved', approved_at, approved_by, approval_reason, updated_at. *)
Definition wr_approve (now : Z) (actor reason : string) (r : WithdrawalRow) : WithdrawalRow :=
  mkWithdrawalRow (wr_id r) (wr_customer r) (wr_chain r) (wr_asset r) (wr_amount r)
    (wr_destination r) WithdrawalStatusApproved (wr_hold_entry r) (wr_created_at r) now
    (Some now) (Some actor) (Some reason) (wr_tx_hash r) (wr_nonce r) (wr_stuck_alerted_at r).

(** SET status = 'signed', nonce, updated_at. *)
Definition wr_claim (nonce now : Z) (r : WithdrawalRow) : WithdrawalRow :=
  mkWithdrawalRow (wr_id r) (wr_customer r) (wr_chain r) (wr_asset r) (wr_amount r)
    (wr_destination r) WithdrawalStatusSigned (wr_hold_entry r) (wr_created_at r) now
    (wr_approved_at r) (wr_approved_by r) (wr_approval_reason r) (wr_tx_hash r) (Some nonce)
    (wr_stuck_alerted_at r).

(** SET status = 'broadcast', tx_hash, updated_at. *)
Definition wr_broadcast (txHash : string) (now : Z) (r : WithdrawalRow) : WithdrawalRow :=
  mkWithdrawalRow (wr_id r) (wr_customer r) (wr_chain r) (wr_asset r) (wr_amount r)
    (wr_destination r) WithdrawalStatusBroadcast (wr_hold_entry r) (wr_created_at r) now
    (wr_approved_at r) (wr_approved_by r) (wr_approval_reason r) (Some txHash) (wr_nonce r)
    (wr_stuck_alerted_at r).

(** SET status = $1, updated_at. *)
Definition wr_settle (status : WithdrawalStatus) (now : Z) (r : WithdrawalRow) : WithdrawalRow :=
  mkWithdrawalRow (wr_id r) (wr_customer r) (wr_chain r) (wr_asset r) (wr_amount r)
    (wr_destination r) status (wr_hold_entry r) (wr_created_at r) now
    (wr_approved_at r) (wr_approved_by r) (wr_approval_reason r) (wr_tx_hash r) (wr_nonce r)
    (wr_stuck_alerted_at r).

(** SET stuck_alerted_at. *)
Definition wr_alert (now : Z) (r : WithdrawalRow) : WithdrawalRow :=
  mkWithdrawalRow (wr_id r) (wr_customer r) (wr_chain r) (wr_asset r) (wr_amount r)
    (wr_destination r) (wr_status r) (wr_hold_entry r) (wr_created_at r) (wr_updated_at r)
    (wr_approved_at r) (wr_approved_by r) (wr_approval_reason r) (wr_tx_hash r) (wr_nonce r)
    (Some now).

(** SET tx_hash, signed_tx. *)
Definition ba_record (txHash signedTxHex : string) (r : AttemptRow) : AttemptRow :=
  mkAttemptRow (ba_id r) (ba_withdrawal r) (ba_chain r) (ba_nonce r) (Some txHash)
    (ba_created_at r) (Some signedTxHex).

(** SET next_nonce = next_nonce + 1, updated_at. *)
Definition nn_advance (now : Z) (r : NonceRow) : NonceRow :=
  mkNonceRow (nn_chain r) (nn_next r + 1) now.

Definition update_withdrawals (P : WithdrawalRow → Prop) `{∀ r, Decision (P r)} f : M nat :=
  tx_update_rows t_withdrawals set_withdrawals P f.
Definition update_attempts (P : AttemptRow → Prop) `{∀ r, Decision (P r)} f : M nat :=
  tx_update_rows t_broadcast_attempts set_broadcast_attempts P f.

(** A text column holds any characters but U+0000, which a JSON string may have. *)
Definition pg_text (s : string) : Prop := contains_byte Ascii.zero s = false.
Definition bind_text (l : list string) : M unit :=
  tx_exec (λ db, pg_require (Forall pg_text l) character_not_in_repertoire (PgOk (tt, db))).

Lemma bind_text_Ok l c s u s' : bind_text l c s = (Ok u, s') → Forall pg_text l ∧ s' = bump s.
Proof.
  unfold bind_text. intros (db' & Hp & -> & _)%tx_exec_Ok.
  apply pg_require_ok in Hp as [Hz Hp]. split; [done|]. simplify_eq. by destruct s.
Qed.

(** The increment of a [bigint] that is at its maximum is an error. *)
Definition advance_nonce (chain : Chain) (now : Z) : M nat :=
  tx_exec (λ db,
    let P := λ r, nn_chain r = chain in
    pg_require (Forall (λ r, nn_chain r = chain → is_bigint (nn_next r + 1)) (t_chain_nonce_state db))
      numeric_out_of_range $
    PgOk (rows_affected P (t_chain_nonce_state db),
          set_chain_nonce_state (update_where P (nn_advance now) (t_chain_nonce_state db)) db)).

Definition find_withdrawal (db : DB) (id : string) : option WithdrawalRow :=
  List.find (λ r, bool_decide (wr_id r = id)) (t_withdrawals db).
Definition find_attempt (db : DB) (withdrawal : string) : option AttemptRow :=
  List.find (λ r, bool_decide (ba_withdrawal r = withdrawal)) (t_broadcast_attempts db).
Definition find_nonce (db : DB) (chain : Chain) : option NonceRow :=
  List.find (λ r, bool_decide (nn_chain r = chain)) (t_chain_nonce_state db).

(** ORDER BY created_at, id. *)
Definition created_id_le (a b : WithdrawalRow) : Prop :=
  wr_created_at a < wr_created_at b ∨
  (wr_created_at a = wr_created_at b ∧ str_le (wr_id a) (wr_id b)).
#[export] Instance created_id_le_dec a b : Decision (created_id_le a b).
Proof. unfold created_id_le. apply _. Defined.

Definition created_le (a b : WithdrawalRow) : Prop := wr_created_at a <= wr_created_at b.
#[export] Instance created_le_dec a b : Decision (created_le a b).
Proof. unfold created_le. apply _. Defined.

(** ** Causes and events *)

Definition withdrawalHoldCauseType : string := "withdrawal_hold".
Definition withdrawalSettlementCauseType : string := "withdrawal_settlement".
Definition withdrawalFailureCauseType : string := "withdrawal_failure".
Definition approvalRequiredEventType : string := "approval.required".
Definition withdrawalApprovedEventType : string := "withdrawal.approved".
Definition withdrawalConfirmedEventType : string := "withdrawal.confirmed".
Definition withdrawalFailedEventType : string := "withdrawal.failed".
Definition withdrawalStuckEventType : string := "withdrawal.stuck".

(** [uuid.NewV7] and the outbox INSERT. *)
Definition write_outbox (eventType : string) (payload : OutboxPayload) (now : Z) : M unit :=
  let! eventID := newUUID "generate outbox event id" in
  wrapping ("insert " +:+ eventType +:+ " outbox event")
    (tx_insert (insert_outbox_event (mkOutboxRow eventID eventType payload now))).

(** The batch of two posting INSERTs, after their ids. *)
Definition write_postings (entry debit credit : string) (amount now : Z) : M unit :=
  let! debitID := newUUID "generate posting id" in
  let! creditID := newUUID "generate posting id" in
  do! wrapping "insert posting"
    (tx_insert (insert_posting (mkPosting debitID entry debit (- amount) now))) in
  wrapping "insert posting"
    (tx_insert (insert_posting (mkPosting creditID entry credit amount now))).

(** ** CreateWithdrawal *)

(** SELECT id, account_type FROM accounts WHERE customer and type ... ORDER BY id. *)
Definition hold_accounts (req : WithdrawalRequest) (db : DB) : list (string * AccountType) :=
  map (λ r, (ac_id r, ac_type r))
    (merge_sort (λ a b, str_le (ac_id a) (ac_id b))
       (filter (λ r, ac_customer r = Some (wq_CustomerID req) ∧ ac_chain r = wq_Chain req ∧
                     ac_asset r = wq_Asset req ∧
                     ac_type r ∈ [AccountTypeAvailable; AccountTypeHold])
          (t_accounts db))).

Definition by_type (rows : list (string * AccountType)) : gmap string string :=
  foldl (λ m '(accountID, accountType), <[AccountType_text accountType := accountID]> m) ∅ rows.

Definition no_withdrawal_account (req : WithdrawalRequest) (type : string) : error :=
  ErrWrap "" (ErrIs ErrCustomerNotFound)
    (": customer " +:+ wq_CustomerID req +:+ " has no (" +:+ wq_Chain req +:+ ", "
       +:+ wq_Asset req +:+ ") " +:+ type +:+ " account").

Definition hold_entry_error (req : WithdrawalRequest) (e : error) : error :=
  if is_unique_violation e
  then ErrWrap "" (ErrIs ErrDuplicateWithdrawalCause) (": idempotency key " +:+ wq_IdempotencyKey req)
  else wrap "insert withdrawal_hold journal entry" e.

Definition routed_event (targetStatus : WithdrawalStatus) : option string :=
  match targetStatus with
  | WithdrawalStatusAwaitingApproval => Some approvalRequiredEventType
  | WithdrawalStatusApproved => Some withdrawalApprovedEventType
  | _ => None
  end.

Definition WithdrawalRepository_CreateWithdrawal (req : WithdrawalRequest) (feeEstimate : Z)
    (targetStatus : WithdrawalStatus) : M Withdrawal :=
  let amount := default 0 (wq_Amount req) in
  let! rows := wrapping "lock available/hold accounts" (tx_query (hold_accounts req)) in
  let accountByType := by_type rows in
  if decide (length rows ≠ size accountByType)
  then throw (ErrText "expected at most one account per account_type") else
  let! availableAccountID := lift_option (accountByType !! AccountType_text AccountTypeAvailable)
    (no_withdrawal_account req "available") in
  let! holdAccountID := lift_option (accountByType !! AccountType_text AccountTypeHold)
    (no_withdrawal_account req "hold") in
  let! sum := wrapping "sum available balance"
    (tx_query (λ db, sum_postings db availableAccountID)) in
  let! balance := scan_big "available balance" sum in
  if balance <? amount then throw (ErrIs ErrInsufficientBalance) else
  let postHoldAvailable := balance - amount in
  if postHoldAvailable <? feeEstimate then throw (ErrIs ErrInsufficientBalanceForFee) else
  let! journalEntryID := newUUID "generate journal entry id" in
  let! now := now in
  do! map_err (hold_entry_error req)
    (tx_insert (insert_journal_entry
      (mkJournalEntry journalEntryID withdrawalHoldCauseType (wq_IdempotencyKey req) now))) in
  do! write_postings journalEntryID availableAccountID holdAccountID amount now in
  let! withdrawalID := newUUID "generate withdrawal id" in
  do! wrapping "insert withdrawal" (tx_insert (insert_withdrawal
    (mkWithdrawalRow withdrawalID (wq_CustomerID req) (wq_Chain req) (wq_Asset req) amount
       (wq_DestinationAddress req) targetStatus journalEntryID now now
       None None None None None None))) in
  let! eventType := lift_option (routed_event targetStatus)
    (ErrText "unrecognized withdrawal target status") in
  do! write_outbox eventType
    (withdrawalRoutedPayload withdrawalID (wq_CustomerID req) (wq_Chain req) (wq_Asset req)
       (big_String amount) (wq_DestinationAddress req) EmptyString EmptyString) now in
  ret (mkWithdrawal withdrawalID (wq_CustomerID req) (wq_Chain req) (wq_Asset req) amount
         (wq_DestinationAddress req) targetStatus now None EmptyString EmptyString EmptyString
         None EmptyString None).

(** ** ApproveWithdrawal *)

Definition withdrawal_not_found (id : string) : error :=
  ErrWrap "" (ErrIs ErrWithdrawalNotFound) (": withdrawal " +:+ id).
Definition wrong_status (why : sentinel) (id : string) (status : WithdrawalStatus) : error :=
  ErrWrap "" (ErrIs why)
    (": withdrawal " +:+ id +:+ " has status " +:+ WithdrawalStatus_text status).
Definition changed_concurrently (why : sentinel) (id : string) : error :=
  ErrWrap "" (ErrIs why) (": withdrawal " +:+ id +:+ " status changed concurrently").

(** SELECT ... FROM withdrawals WHERE id = $1 FOR UPDATE. *)
Definition lock_withdrawal (id : string) : M WithdrawalRow :=
  let! o := wrapping "lock withdrawal row" (tx_query (λ db, find_withdrawal db id)) in
  lift_option o (withdrawal_not_found id).

Definition WithdrawalRepository_ApproveWithdrawal (id actor reason : string) : M Withdrawal :=
  let! row := lock_withdrawal id in
  if decide (wr_status row ≠ WithdrawalStatusAwaitingApproval)
  then throw (wrong_status ErrWithdrawalNotAwaitingApproval id (wr_status row)) else
  let! amount := scan_big "withdrawal amount" (wr_amount row) in
  let! now := now in
  let! n := wrapping "update withdrawal to approved"
    (do! bind_text [actor; reason] in
     update_withdrawals (λ r, wr_id r = id ∧ wr_status r = WithdrawalStatusAwaitingApproval)
       (wr_approve now actor reason)) in
  if decide (n = 0%nat)
  then throw (changed_concurrently ErrWithdrawalNotAwaitingApproval id) else
  do! write_outbox withdrawalApprovedEventType
    (withdrawalRoutedPayload id (wr_customer row) (wr_chain row) (wr_asset row)
       (big_String (wr_amount row)) (wr_destination row) actor reason) now in
  ret (mkWithdrawal id (wr_customer row) (wr_chain row) (wr_asset row) amount
         (wr_destination row) WithdrawalStatusApproved (wr_created_at row) (Some now)
         actor reason EmptyString None EmptyString None).

(** ** ClaimApprovedWithdrawal *)

(** The oldest approved withdrawal of [chain]. *)
Definition oldest_approved (chain : Chain) (db : DB) : option WithdrawalRow :=
  head (merge_sort created_id_le
          (filter (λ r, wr_chain r = chain ∧ wr_status r = WithdrawalStatusApproved)
             (t_withdrawals db))).

Definition WithdrawalRepository_ClaimApprovedWithdrawal (chain : Chain) : M (option Withdrawal) :=
  let! o := wrapping "claim approved withdrawal" (tx_query (oldest_approved chain)) in
  match o with
  | None => ret None
  | Some row =>
      let! amount := scan_big "withdrawal amount" (wr_amount row) in
      let! nonceRow := wrapping "lock chain nonce state" (tx_query (λ db, find_nonce db chain)) in
      let! nextNonce := lift_option (option_map nn_next nonceRow)
        (ErrWrap "" (ErrIs ErrNoChainNonceState) (": chain " +:+ chain)) in
      let! now := now in
      let! n := wrapping "advance chain nonce state" (advance_nonce chain now) in
      if decide (n = 0%nat)
      then throw (ErrText ("advance chain nonce state for chain " +:+ chain +:+ ": no row updated"))
      else
      let! attemptID := newUUID "generate broadcast attempt id" in
      do! wrapping "insert broadcast attempt" (tx_insert (insert_broadcast_attempt
        (mkAttemptRow attemptID (wr_id row) chain nextNonce None now None))) in
      let! k := wrapping "update withdrawal to signed"
        (update_withdrawals (λ r, wr_id r = wr_id row ∧ wr_status r = WithdrawalStatusApproved)
           (wr_claim nextNonce now)) in
      if decide (k = 0%nat)
      then throw (ErrText ("withdrawal " +:+ wr_id row +:+ " status changed concurrently while claiming"))
      else
      ret (Some (mkWithdrawal (wr_id row) (wr_customer row) chain (wr_asset row) amount
             (wr_destination row) WithdrawalStatusSigned (wr_created_at row) None EmptyString
             EmptyString EmptyString (Some nextNonce) EmptyString None))
  end.

(** ** RecordSignedTx and MarkBroadcast *)

Definition WithdrawalRepository_RecordSignedTx (withdrawalID txHash signedTxHex : string) : M unit :=
  let! row := lock_withdrawal withdrawalID in
  if decide (wr_status row ≠ WithdrawalStatusSigned)
  then throw (wrong_status ErrWithdrawalNotSigned withdrawalID (wr_status row)) else
  let! n := wrapping "record signed tx"
    (update_attempts (λ r, ba_withdrawal r = withdrawalID) (ba_record txHash signedTxHex)) in
  if decide (n = 0%nat)
  then throw (ErrText ("record signed tx for withdrawal " +:+ withdrawalID
                         +:+ ": no broadcast_attempts row found"))
  else ret tt.

Definition WithdrawalRepository_MarkBroadcast (withdrawalID : string) : M unit :=
  let! row := lock_withdrawal withdrawalID in
  if decide (wr_status row ≠ WithdrawalStatusSigned)
  then throw (wrong_status ErrWithdrawalNotSigned withdrawalID (wr_status row)) else
  let! o := wrapping "read broadcast attempt tx hash"
    (tx_query (λ db, find_attempt db withdrawalID)) in
  let! attempt := lift_option o
    (ErrText ("mark withdrawal " +:+ withdrawalID +:+ " broadcast: no broadcast_attempts row found")) in
  let txHash := default EmptyString (ba_tx_hash attempt) in
  if String.eqb txHash EmptyString
  then throw (ErrText ("mark withdrawal " +:+ withdrawalID
                         +:+ " broadcast: broadcast_attempts.tx_hash not yet recorded"))
  else
  let! now := now in
  let! n := wrapping "update withdrawal to broadcast"
    (update_withdrawals (λ r, wr_id r = withdrawalID ∧ wr_status r = WithdrawalStatusSigned)
       (wr_broadcast txHash now)) in
  if decide (n = 0%nat) then throw (changed_concurrently ErrWithdrawalNotSigned withdrawalID)
  else ret tt.

(** ** Listings *)

Definition listSignedWithdrawalsBatchLimit : nat := 50.

(** The rows of a JOIN on broadcast_attempts.withdrawal_id. *)
Definition join_attempts (db : DB) (ws : list WithdrawalRow) : list (WithdrawalRow * AttemptRow) :=
  ws ≫= λ w, map (λ a, (w, a)) (filter (λ a, ba_withdrawal a = wr_id w) (t_broadcast_attempts db)).

Definition signed_rows (chain : Chain) (db : DB) : list (WithdrawalRow * AttemptRow) :=
  take listSignedWithdrawalsBatchLimit
    (join_attempts db
       (merge_sort created_id_le
          (filter (λ r, wr_chain r = chain ∧ wr_status r = WithdrawalStatusSigned)
             (t_withdrawals db)))).

(** One scanned row: skipped ([None]) when its signed_tx does not decode. *)
Definition decode_signed (chain : Chain) (row : WithdrawalRow * AttemptRow) : option Withdrawal :=
  let '(w, a) := row in
  let signedTxHex := default EmptyString (ba_signed_tx a) in
  let out signedTx :=
    mkWithdrawal (wr_id w) (wr_customer w) chain (wr_asset w) (wr_amount w) (wr_destination w)
      WithdrawalStatusSigned (wr_created_at w) None EmptyString EmptyString
      (default EmptyString (ba_tx_hash a)) (Some (ba_nonce a)) signedTx None in
  if String.eqb signedTxHex EmptyString then Some (out EmptyString)
  else option_map out (hex_DecodeString (TrimPrefix signedTxHex "0x")).

Definition WithdrawalRepository_ListSignedWithdrawals (chain : Chain) : M (list Withdrawal) :=
  let! rows := wrapping "list signed withdrawals" (tx_query (signed_rows chain)) in
  do! mapM (λ r, scan_big "withdrawal amount" (wr_amount (fst r))) rows in
  ret (omap (decode_signed chain) rows).

Definition WithdrawalRepository_ListBroadcastWithdrawals (chain : Chain) : M (list Withdrawal) :=
  let! rows := wrapping "list broadcast withdrawals" (tx_query (λ db,
    merge_sort created_le
      (filter (λ r, wr_chain r = chain ∧ wr_status r = WithdrawalStatusBroadcast ∧
                    is_Some (wr_tx_hash r))
         (t_withdrawals db)))) in
  mapM (λ r,
    let! nonce := lift_option (wr_nonce r) (ErrText "scan broadcast withdrawal: NULL nonce") in
    let! amount := scan_big "withdrawal amount" (wr_amount r) in
    ret (mkWithdrawal (wr_id r) (wr_customer r) chain (wr_asset r) amount (wr_destination r)
           WithdrawalStatusBroadcast (wr_created_at r) None EmptyString EmptyString
           (default EmptyString (wr_tx_hash r)) (Some nonce) EmptyString None)) rows.

(** Two staleness clocks: the claim for a signed row, the last update for a
    broadcast one. *)
Definition is_stuck (chain : Chain) (cutoff : Z) (row : WithdrawalRow * AttemptRow) : Prop :=
  let '(w, a) := row in
  wr_chain w = chain ∧ wr_stuck_alerted_at w = None ∧
  ((wr_status w = WithdrawalStatusSigned ∧ ba_created_at a < cutoff) ∨
   (wr_status w = WithdrawalStatusBroadcast ∧ wr_updated_at w < cutoff)).
#[export] Instance is_stuck_dec chain cutoff row : Decision (is_stuck chain cutoff row).
Proof. destruct row. unfold is_stuck. apply _. Defined.

Definition WithdrawalRepository_ListStuckCandidates (chain : Chain) (olderThan : Z)
    : M (list Withdrawal) :=
  let! t := now in
  let cutoff := t - olderThan in
  let! rows := wrapping "list stuck candidates" (tx_query (λ db,
    merge_sort (λ a b, created_id_le (fst a) (fst b))
      (filter (is_stuck chain cutoff) (join_attempts db (t_withdrawals db))))) in
  mapM (λ '(w, a),
    let! amount := scan_big "withdrawal amount" (wr_amount w) in
    ret (mkWithdrawal (wr_id w) (wr_customer w) chain (wr_asset w) amount (wr_destination w)
           (wr_status w) (wr_created_at w) None EmptyString EmptyString
           (default EmptyString (wr_tx_hash w)) (Some (ba_nonce a)) EmptyString None)) rows.

(** ** settleWithdrawal *)

(** The two lock queries: the customer's hold account, with the platform's
    counterpart account or the customer's own. *)
Definition settlement_where (customer : string) (counterpartAccountType : AccountType)
    (counterpartIsPlatform : bool) (r : AccountRow) : Prop :=
  if counterpartIsPlatform
  then (ac_customer r = Some customer ∧ ac_type r = AccountTypeHold) ∨
       (ac_customer r = None ∧ ac_type r = counterpartAccountType)
  else ac_customer r = Some customer ∧ ac_type r ∈ [AccountTypeHold; counterpartAccountType].
#[export] Instance settlement_where_dec customer t b r : Decision (settlement_where customer t b r).
Proof. destruct b; unfold settlement_where; apply _. Defined.

Definition settlement_accounts (customer : string) (chain : Chain) (asset : Asset)
    (counterpartAccountType : AccountType) (counterpartIsPlatform : bool) (db : DB)
    : list (string * AccountType) :=
  map (λ r, (ac_id r, ac_type r))
    (merge_sort (λ a b, str_le (ac_id a) (ac_id b))
       (filter (λ r, ac_chain r = chain ∧ ac_asset r = asset ∧
                     settlement_where customer counterpartAccountType counterpartIsPlatform r)
          (t_accounts db))).

Definition settlement_entry_error (withdrawalID causeType : string) (e : error) : error :=
  if is_unique_violation e
  then ErrText ("withdrawal " +:+ withdrawalID +:+ " already has a " +:+ causeType +:+ " journal entry")
  else wrap ("insert " +:+ causeType +:+ " journal entry") e.

Definition settleWithdrawal (withdrawalID : string) (targetStatus : WithdrawalStatus)
    (causeType eventType : string) (counterpartAccountType : AccountType)
    (counterpartIsPlatform : bool) : M unit :=
  let! row := lock_withdrawal withdrawalID in
  if decide (wr_status row ≠ WithdrawalStatusBroadcast)
  then throw (wrong_status ErrWithdrawalNotBroadcast withdrawalID (wr_status row)) else
  let! amount := scan_big "withdrawal amount" (wr_amount row) in
  let! rows := wrapping "lock hold/counterparty accounts"
    (tx_query (settlement_accounts (wr_customer row) (wr_chain row) (wr_asset row)
                 counterpartAccountType counterpartIsPlatform)) in
  let accountByType := by_type rows in
  let! holdAccountID := lift_option (accountByType !! AccountType_text AccountTypeHold)
    (ErrWrap "" (ErrIs ErrNoHoldAccount) (": customer " +:+ wr_customer row)) in
  let! counterpartAccountID := lift_option (accountByType !! AccountType_text counterpartAccountType)
    (ErrWrap "" (ErrIs (if counterpartIsPlatform then ErrNoTreasuryAccount else ErrNoAvailableAccount))
       (": chain " +:+ wr_chain row +:+ ", asset " +:+ wr_asset row)) in
  let! journalEntryID := newUUID "generate journal entry id" in
  let! now := now in
  do! map_err (settlement_entry_error withdrawalID causeType)
    (tx_insert (insert_journal_entry (mkJournalEntry journalEntryID causeType withdrawalID now))) in
  do! write_postings journalEntryID holdAccountID counterpartAccountID amount now in
  let! n := wrapping "update withdrawal"
    (update_withdrawals (λ r, wr_id r = withdrawalID ∧ wr_status r = WithdrawalStatusBroadcast)
       (wr_settle targetStatus now)) in
  if decide (n = 0%nat)
  then throw (ErrText ("withdrawal " +:+ withdrawalID +:+ " status changed concurrently while settling"))
  else
  write_outbox eventType
    (withdrawalSettledPayload withdrawalID journalEntryID (wr_customer row) (wr_chain row)
       (wr_asset row) (big_String (wr_amount row))) now.

Definition WithdrawalRepository_SettleConfirmedWithdrawal (withdrawalID : string) : M unit :=
  settleWithdrawal withdrawalID WithdrawalStatusConfirmed withdrawalSettlementCauseType
    withdrawalConfirmedEventType AccountTypeTreasury true.

Definition WithdrawalRepository_SettleFailedWithdrawal (withdrawalID : string) : M unit :=
  settleWithdrawal withdrawalID WithdrawalStatusFailed withdrawalFailureCauseType
    withdrawalFailedEventType AccountTypeAvailable false.

(** ** MarkStuckAlerted *)

Definition already_alerted (id : string) : error :=
  ErrText ("withdrawal " +:+ id +:+ " already marked stuck-alerted").

Definition WithdrawalRepository_MarkStuckAlerted (withdrawalID : string) : M unit :=
  let! row := lock_withdrawal withdrawalID in
  if decide (is_Some (wr_stuck_alerted_at row)) then throw (already_alerted withdrawalID) else
  let! now := now in
  let! n := wrapping "set stuck_alerted_at"
    (update_withdrawals (λ r, wr_id r = withdrawalID ∧ wr_stuck_alerted_at r = None) (wr_alert now)) in
  if decide (n = 0%nat) then throw (already_alerted withdrawalID) else
  write_outbox withdrawalStuckEventType
    (withdrawalStuckPayload withdrawalID (wr_customer row) (wr_chain row) (wr_asset row)
       (big_String (wr_amount row)) (wr_destination row) (WithdrawalStatus_text (wr_status row))
       (default EmptyString (wr_tx_hash row))) now.
