(* ===== verification/WithdrawalSpecs.v ===== *)
(** * What each withdrawal operation does to the database

    For every mutating operation of Withdrawals.v, the relation between the
    database before, the value returned and the database after, and the lemma that
    the operation refines it. These are the steps of the withdrawal state machine. *)

From Stdlib Require Import ZArith Lia.
From stdpp Require Import prelude strings sorting gmap.
From S2P Require Import Prelude GoStd Domain Store Effects Ledger Withdrawals.

(** ** Shared lemmas *)

Lemma AccountType_text_inj a b : AccountType_text a = AccountType_text b → a = b.
Proof. by destruct a, b. Qed.

Lemma by_type_lookup rows t i : by_type rows !! AccountType_text t = Some i → (i, t) ∈ rows.
Proof.
  unfold by_type. intros H.
  assert (∀ (m : gmap string string),
    foldl (λ m '(a, ty), <[AccountType_text ty := a]> m) m rows !! AccountType_text t = Some i →
    (i, t) ∈ rows ∨ m !! AccountType_text t = Some i) as Hgen.
  { clear H. induction rows as [|[a ty] rows IH]; intros m H; simpl in H; [by right|].
    destruct (IH _ H) as [Hin|Hm]; [left; set_solver|].
    apply lookup_insert_Some in Hm as [[E ->]|[_ Hm]]; [|by right].
    apply AccountType_text_inj in E as ->. left. set_solver. }
  destruct (Hgen ∅ H) as [|Hm]; [done|]. by rewrite lookup_empty in Hm.
Qed.

Lemma by_type_is_Some rows t i : (i, t) ∈ rows → is_Some (by_type rows !! AccountType_text t).
Proof.
  unfold by_type. intros H.
  assert (∀ m : gmap string string, (i, t) ∈ rows ∨ is_Some (m !! AccountType_text t) →
    is_Some (foldl (λ m '(a, ty), <[AccountType_text ty := a]> m) m rows !! AccountType_text t)) as Hgen;
    [|by apply Hgen; left].
  clear H. induction rows as [|[a ty] rows IH]; intros m H; simpl; [by destruct H as [?%elem_of_nil|]|].
  apply IH. rewrite lookup_insert_is_Some'. destruct H as [[[= -> ->]|]%elem_of_cons|H]; auto.
Qed.

Lemma by_type_size rows : NoDup (map snd rows) → size (by_type rows) = length rows.
Proof.
  unfold by_type. intros Hnd.
  assert (∀ m : gmap string string, (∀ t, t ∈ map snd rows → m !! AccountType_text t = None) →
    size (foldl (λ m '(a, ty), <[AccountType_text ty := a]> m) m rows) = (size m + length rows)%nat) as Hgen.
  { induction rows as [|[a ty] rows IH]; intros m Hm; simpl; [lia|].
    apply NoDup_cons in Hnd as [Hty Hnd]. rewrite IH; [|done|].
    - rewrite map_size_insert_None; [lia|]. apply Hm. by left.
    - intros t Ht. rewrite lookup_insert_ne; [apply Hm; by right|].
      intros E%AccountType_text_inj. by subst. }
  rewrite Hgen; [by rewrite map_size_empty|]. intros t _. apply lookup_empty.
Qed.

Lemma find_withdrawal_Some db id r :
  find_withdrawal db id = Some r → r ∈ t_withdrawals db ∧ wr_id r = id.
Proof. intros [Hin Hb]%List.find_some. by apply list_elem_of_In in Hin; bool_to_prop. Qed.

Lemma find_attempt_Some db id r :
  find_attempt db id = Some r → r ∈ t_broadcast_attempts db ∧ ba_withdrawal r = id.
Proof. intros [Hin Hb]%List.find_some. by apply list_elem_of_In in Hin; bool_to_prop. Qed.

Lemma find_nonce_Some db ch r :
  find_nonce db ch = Some r → r ∈ t_chain_nonce_state db ∧ nn_chain r = ch.
Proof. intros [Hin Hb]%List.find_some. by apply list_elem_of_In in Hin; bool_to_prop. Qed.

Lemma rows_affected_pos {R} (P : R → Prop) `{∀ r, Decision (P r)} l :
  rows_affected P l ≠ 0%nat → ∃ r, r ∈ l ∧ P r.
Proof.
  unfold rows_affected. destruct (filter P l) as [|r l'] eqn:E; [done|]. intros _.
  assert (r ∈ filter P l) as Hr by (rewrite E; set_solver).
  apply list_elem_of_filter in Hr as []. eauto.
Qed.

Lemma lock_withdrawal_Ok id c s r s' :
  lock_withdrawal id c s = (Ok r, s') →
  r ∈ t_withdrawals (st_db s) ∧ wr_id r = id ∧ s' = bump s.
Proof. unfold lock_withdrawal. intros H. m_inv. by edestruct find_withdrawal_Some. Qed.

(** ** The write helpers *)

Lemma write_outbox_Ok ty p t c s u s' :
  write_outbox ty p t c s = (Ok u, s') →
  ∃ id, st_db s' = set_outbox_events (t_outbox_events (st_db s) ++ [mkOutboxRow id ty p t]) (st_db s) ∧
    st_trace s' = st_trace s.
Proof. unfold write_outbox. intros H. m_inv. insert_eqs. eauto. Qed.

(** An entry followed by its two postings. *)
Lemma write_postings_posts db0 je debit credit amount t c s u s' :
  insert_journal_entry je db0 = PgOk (st_db s) →
  write_postings (je_id je) debit credit amount t c s = (Ok u, s') →
  posts db0 je debit credit amount (st_db s') ∧ only_journal_differs db0 (st_db s') ∧
  st_trace s' = st_trace s.
Proof.
  unfold write_postings. intros Hj H. m_inv. insert_eqs.
  pose proof (insert_journal_entry_eq _ _ _ Hj) as E.
  destruct s as [db ab tick tr]; cbn in *; subst db.
  split_and!; [posts_inserts|done|done].
Qed.

Ltac m_ext ::=
  match goal with
  | H : scan_big _ _ _ _ = (Ok _, _) |- _ => apply scan_big_Ok in H; destruct H; subst
  | H : lock_withdrawal _ _ _ = (Ok _, _) |- _ =>
      apply lock_withdrawal_Ok in H; destruct H as (? & ? & ?); subst
  | H : bind_text _ _ _ = (Ok _, _) |- _ => apply bind_text_Ok in H; destruct H as [? ?]; subst
  end.

(** The database after a journal entry and its postings, and after an outbox row. *)
Ltac movement :=
  match goal with
  | Hj : insert_journal_entry ?je ?db0 = PgOk ?d,
    Hw : write_postings _ ?a ?b ?amt ?t ?c (set_db ?d ?s) = (Ok _, ?s') |- _ =>
      let HP := fresh "Hposts" in let HO := fresh "Honly" in let HT := fresh "Htrace" in
      destruct (write_postings_posts db0 je a b amt t c (set_db d s) _ s' Hj Hw) as (HP & HO & HT);
      clear Hw
  end; cbn [st_trace set_db bump] in *.
Ltac m_outbox :=
  match goal with
  | H : write_outbox _ _ _ _ _ = (Ok _, _) |- _ =>
      let HD := fresh "Hdb" in let HT := fresh "Htr" in
      apply write_outbox_Ok in H; destruct H as (? & HD & HT); rewrite HD, HT; clear HD HT
  end; cbn [st_db st_trace set_db bump] in *.

(** ** CreateWithdrawal: the hold and the routed row *)

Record created (req : WithdrawalRequest) (fee : Z) (target : WithdrawalStatus)
    (db : DB) (w : Withdrawal) (db' : DB) : Prop := {
  cr_accounts : ∃ av ho je db1 oid,
    av ∈ t_accounts db ∧
    is_account (Some (wq_CustomerID req)) (wq_Chain req) (wq_Asset req) AccountTypeAvailable av ∧
    ho ∈ t_accounts db ∧
    is_account (Some (wq_CustomerID req)) (wq_Chain req) (wq_Asset req) AccountTypeHold ho ∧
    w_Amount w + fee <= sum_postings db (ac_id av) ∧
    w_Amount w <= sum_postings db (ac_id av) ∧
    je_cause je = (withdrawalHoldCauseType, wq_IdempotencyKey req) ∧
    posts db je (ac_id av) (ac_id ho) (w_Amount w) db1 ∧ only_journal_differs db db1 ∧
    let row := mkWithdrawalRow (w_ID w) (wq_CustomerID req) (wq_Chain req) (wq_Asset req)
                 (w_Amount w) (wq_DestinationAddress req) target (je_id je) (w_CreatedAt w)
                 (w_CreatedAt w) None None None None None None in
    insert_withdrawal row db1 = PgOk (set_withdrawals (t_withdrawals db ++ [row]) db1) ∧
    ∃ ty, routed_event target = Some ty ∧
    db' = set_outbox_events
            (t_outbox_events db ++
             [mkOutboxRow oid ty
                (withdrawalRoutedPayload (w_ID w) (wq_CustomerID req) (wq_Chain req) (wq_Asset req)
                   (big_String (w_Amount w)) (wq_DestinationAddress req) EmptyString EmptyString)
                (w_CreatedAt w)])
            (set_withdrawals (t_withdrawals db ++ [row]) db1);
  cr_result : w = mkWithdrawal (w_ID w) (wq_CustomerID req) (wq_Chain req) (wq_Asset req)
                    (default 0 (wq_Amount req)) (wq_DestinationAddress req) target (w_CreatedAt w)
                    None EmptyString EmptyString EmptyString None EmptyString None;
}.

Lemma hold_accounts_elem req db i t :
  (i, t) ∈ hold_accounts req db →
  ∃ r, r ∈ t_accounts db ∧ ac_id r = i ∧
    is_account (Some (wq_CustomerID req)) (wq_Chain req) (wq_Asset req) t r.
Proof.
  unfold hold_accounts, is_account. intros (r & E & Hr)%list_elem_of_fmap.
  rewrite merge_sort_Permutation in Hr.
  apply list_elem_of_filter in Hr as [(? & ? & ? & ?) Hr]. simplify_eq. eauto 10.
Qed.

Lemma hold_accounts_types req db : ledger_ok db → NoDup (map snd (hold_accounts req db)).
Proof.
  intros Hok. unfold hold_accounts. rewrite map_map. cbn [snd].
  rewrite (fmap_Permutation ac_type _ _ (merge_sort_Permutation _ _)).
  pose proof (lo_account_ids _ Hok) as Hids. apply NoDup_fmap_1 in Hids.
  apply NoDup_fmap_2_strong; [|by apply NoDup_filter].
  intros r r' [(? & ? & ? & _) Hr]%list_elem_of_filter [(? & ? & ? & _) Hr']%list_elem_of_filter Et.
  eapply lo_account_keys; eauto. unfold same_account. split_and!; congruence.
Qed.

(** With unique accounts the locked rows give both ids, and the sanity check passes. *)
Lemma hold_accounts_found req db t r :
  ledger_ok db → t ∈ [AccountTypeAvailable; AccountTypeHold] →
  find_account db (Some (wq_CustomerID req)) (wq_Chain req) (wq_Asset req) t = Some r →
  by_type (hold_accounts req db) !! AccountType_text t = Some (ac_id r).
Proof.
  intros Hok Ht [Hr Ir]%find_account_Some.
  assert ((ac_id r, t) ∈ hold_accounts req db) as Hin.
  { destruct Ir as (E1 & E2 & E3 & E4). apply list_elem_of_fmap. exists r. split; [congruence|].
    rewrite merge_sort_Permutation. apply list_elem_of_filter. rewrite E4. done. }
  apply by_type_is_Some in Hin as [i Ei]. rewrite Ei. f_equal.
  apply by_type_lookup, hold_accounts_elem in Ei as (r' & Hr' & <- & Ir'). f_equal.
  by eapply is_account_unique.
Qed.

Lemma CreateWithdrawal_refines req fee target :
  tx_refines (WithdrawalRepository_CreateWithdrawal req fee target) (created req fee target).
Proof.
  intros c s w s' _ H. unfold WithdrawalRepository_CreateWithdrawal in H.
  m_inv. bool_to_prop. movement. m_outbox.
  match goal with Ha : by_type _ !! AccountType_text AccountTypeAvailable = _,
                  Hh : by_type _ !! AccountType_text AccountTypeHold = _ |- _ =>
    apply by_type_lookup, hold_accounts_elem in Ha as (av & Hav & <- & Eav);
    apply by_type_lookup, hold_accounts_elem in Hh as (ho & Hho & <- & Eho) end.
  insert_eqs. cbn [st_db set_db bump] in *. split; [|done]. split; [|done].
  pose proof (only_journal_other _ _ Honly) as Hsame. destruct_and! Hsame.
  eexists av, ho, _, _, _. split_and!; try done; cbn; [lia|done|].
  match goal with E : t_withdrawals _ = _, E' : t_outbox_events _ = _ |- _ =>
    rewrite <-E, <-E' end. eauto.
Qed.


(** ** ApproveWithdrawal *)

Definition approved (id actor reason : string) (db : DB) (w : Withdrawal) (db' : DB) : Prop :=
  ∃ row now oid, row ∈ t_withdrawals db ∧ wr_id row = id ∧
    wr_status row = WithdrawalStatusAwaitingApproval ∧
    w = mkWithdrawal id (wr_customer row) (wr_chain row) (wr_asset row) (wr_amount row)
          (wr_destination row) WithdrawalStatusApproved (wr_created_at row) (Some now)
          actor reason EmptyString None EmptyString None ∧
    db' = set_outbox_events
            (t_outbox_events db ++
             [mkOutboxRow oid withdrawalApprovedEventType
                (withdrawalRoutedPayload id (wr_customer row) (wr_chain row) (wr_asset row)
                   (big_String (wr_amount row)) (wr_destination row) actor reason) now])
            (set_withdrawals
               (update_where (λ r, wr_id r = id ∧ wr_status r = WithdrawalStatusAwaitingApproval)
                  (wr_approve now actor reason) (t_withdrawals db)) db).

Lemma ApproveWithdrawal_refines id actor reason :
  tx_refines (WithdrawalRepository_ApproveWithdrawal id actor reason) (approved id actor reason).
Proof.
  intros c s w s' _ H. unfold WithdrawalRepository_ApproveWithdrawal, update_withdrawals in H.
  m_inv. m_outbox. split; [|done].
  eexists _, _, _. split_and!; try done. by apply dec_stable.
Qed.

(** ** ClaimApprovedWithdrawal: the oldest approved withdrawal gets the next nonce *)

Definition claimed (chain : Chain) (db : DB) (o : option Withdrawal) (db' : DB) : Prop :=
  match o with
  | None => oldest_approved chain db = None ∧ db' = db
  | Some w =>
      ∃ row nn now aid,
        let attempt := mkAttemptRow aid (wr_id row) chain (nn_next nn) None now None in
        let db1 := set_chain_nonce_state
                     (update_where (λ r, nn_chain r = chain) (nn_advance now)
                        (t_chain_nonce_state db)) db in
        oldest_approved chain db = Some row ∧ find_nonce db chain = Some nn ∧
        insert_broadcast_attempt attempt db1 =
          PgOk (set_broadcast_attempts (t_broadcast_attempts db ++ [attempt]) db1) ∧
        w = mkWithdrawal (wr_id row) (wr_customer row) chain (wr_asset row) (wr_amount row)
              (wr_destination row) WithdrawalStatusSigned (wr_created_at row) None EmptyString
              EmptyString EmptyString (Some (nn_next nn)) EmptyString None ∧
        db' = set_withdrawals
                (update_where (λ r, wr_id r = wr_id row ∧ wr_status r = WithdrawalStatusApproved)
                   (wr_claim (nn_next nn) now) (t_withdrawals db))
                (set_broadcast_attempts (t_broadcast_attempts db ++ [attempt]) db1)
  end.

Lemma advance_nonce_Ok chain t c s n s' :
  advance_nonce chain t c s = (Ok n, s') →
  s' = set_db (set_chain_nonce_state
                 (update_where (λ r, nn_chain r = chain) (nn_advance t)
                    (t_chain_nonce_state (st_db s))) (st_db s)) (bump s).
Proof.
  unfold advance_nonce. intros (db' & Hp & -> & _)%tx_exec_Ok. apply pg_require_ok in Hp as [_ Hp].
  by injection Hp as <- <-.
Qed.

Ltac m_ext ::=
  match goal with
  | H : scan_big _ _ _ _ = (Ok _, _) |- _ => apply scan_big_Ok in H; destruct H; subst
  | H : lock_withdrawal _ _ _ = (Ok _, _) |- _ =>
      apply lock_withdrawal_Ok in H; destruct H as (? & ? & ?); subst
  | H : advance_nonce _ _ _ _ = (Ok _, _) |- _ => apply advance_nonce_Ok in H; subst
  end.

Lemma ClaimApprovedWithdrawal_refines chain :
  tx_refines (WithdrawalRepository_ClaimApprovedWithdrawal chain) (claimed chain).
Proof.
  intros c s o s' _ H. unfold WithdrawalRepository_ClaimApprovedWithdrawal, update_withdrawals in H.
  m_inv; [|done]. insert_eqs. split; [|done].
  match goal with Hn : option_map nn_next _ = Some _ |- _ =>
    destruct (find_nonce (st_db s) chain) as [nn|] eqn:Enn; simplify_eq/= end.
  eexists _, nn, _, _. split_and!; try done.
Qed.

(** ** RecordSignedTx *)

Definition recorded (id txHash signedTxHex : string) (db : DB) (_ : unit) (db' : DB) : Prop :=
  ∃ row a, row ∈ t_withdrawals db ∧ wr_id row = id ∧ wr_status row = WithdrawalStatusSigned ∧
    a ∈ t_broadcast_attempts db ∧ ba_withdrawal a = id ∧
    db' = set_broadcast_attempts
            (update_where (λ r, ba_withdrawal r = id) (ba_record txHash signedTxHex)
               (t_broadcast_attempts db)) db.

Lemma RecordSignedTx_refines id txHash signedTxHex :
  tx_refines (WithdrawalRepository_RecordSignedTx id txHash signedTxHex)
    (recorded id txHash signedTxHex).
Proof.
  intros c s u s' _ H. unfold WithdrawalRepository_RecordSignedTx, update_attempts in H.
  m_inv. split; [|done].
  rename select (_ ≠ 0%nat) into Hn. apply rows_affected_pos in Hn as (a & Ha & Ea).
  eexists _, a. split_and!; try done. by apply dec_stable.
Qed.

(** ** MarkBroadcast *)

Definition marked_broadcast (id : string) (db : DB) (_ : unit) (db' : DB) : Prop :=
  ∃ row a h now, row ∈ t_withdrawals db ∧ wr_id row = id ∧
    wr_status row = WithdrawalStatusSigned ∧
    a ∈ t_broadcast_attempts db ∧ ba_withdrawal a = id ∧ ba_tx_hash a = Some h ∧ h ≠ EmptyString ∧
    db' = set_withdrawals
            (update_where (λ r, wr_id r = id ∧ wr_status r = WithdrawalStatusSigned)
               (wr_broadcast h now) (t_withdrawals db)) db.

Lemma MarkBroadcast_refines id :
  tx_refines (WithdrawalRepository_MarkBroadcast id) (marked_broadcast id).
Proof.
  intros c s u s' _ H. unfold WithdrawalRepository_MarkBroadcast, update_withdrawals in H.
  m_inv. split; [|done].
  match goal with Hf : Some ?a = find_attempt _ _, He : String.eqb _ _ = false |- _ =>
    symmetry in Hf; apply find_attempt_Some in Hf as [Ha Ea]; apply String.eqb_neq in He;
    destruct (ba_tx_hash a) as [h|] eqn:Eh; [|done]; exists x, a, h end.
  eexists. split_and!; try done. by apply dec_stable.
Qed.

(** ** Settlement *)

Definition settled (id : string) (target : WithdrawalStatus) (causeType eventType : string)
    (counterpartAccountType : AccountType) (counterpartIsPlatform : bool)
    (db : DB) (_ : unit) (db' : DB) : Prop :=
  ∃ row ho cp je db1 now oid,
    row ∈ t_withdrawals db ∧ wr_id row = id ∧ wr_status row = WithdrawalStatusBroadcast ∧
    ho ∈ t_accounts db ∧
    is_account (Some (wr_customer row)) (wr_chain row) (wr_asset row) AccountTypeHold ho ∧
    cp ∈ t_accounts db ∧
    is_account (if counterpartIsPlatform then None else Some (wr_customer row))
      (wr_chain row) (wr_asset row) counterpartAccountType cp ∧
    je_cause je = (causeType, id) ∧
    posts db je (ac_id ho) (ac_id cp) (wr_amount row) db1 ∧ only_journal_differs db db1 ∧
    db' = set_outbox_events
            (t_outbox_events db ++
             [mkOutboxRow oid eventType
                (withdrawalSettledPayload id (je_id je) (wr_customer row) (wr_chain row)
                   (wr_asset row) (big_String (wr_amount row))) now])
            (set_withdrawals
               (update_where (λ r, wr_id r = id ∧ wr_status r = WithdrawalStatusBroadcast)
                  (wr_settle target now) (t_withdrawals db)) db1).

Lemma settlement_accounts_elem cust ch a ty plat db i t :
  ty ≠ AccountTypeHold →
  (i, t) ∈ settlement_accounts cust ch a ty plat db → t = AccountTypeHold ∨ t = ty →
  ∃ r, r ∈ t_accounts db ∧ ac_id r = i ∧
    is_account (if decide (t = AccountTypeHold) then Some cust
                else if plat then None else Some cust) ch a t r.
Proof.
  unfold settlement_accounts, settlement_where, is_account.
  intros Hty (r & E & Hr)%list_elem_of_fmap Ht.
  rewrite merge_sort_Permutation in Hr.
  apply list_elem_of_filter in Hr as [(? & ? & Hw) Hr]. injection E as -> ->.
  exists r. split_and!; try done. destruct plat; simpl in *.
  - case_decide; naive_solver.
  - case_decide; naive_solver.
Qed.

Lemma settleWithdrawal_refines id target causeType eventType ty plat :
  ty ≠ AccountTypeHold →
  tx_refines (settleWithdrawal id target causeType eventType ty plat)
    (settled id target causeType eventType ty plat).
Proof.
  intros Hty c s u s' _ H. unfold settleWithdrawal, update_withdrawals in H.
  m_inv. movement. m_outbox.
  match goal with Hh : by_type _ !! AccountType_text AccountTypeHold = _,
                  Hc : by_type _ !! AccountType_text ty = _ |- _ =>
    apply by_type_lookup, settlement_accounts_elem in Hh as (ho & Hho & <- & Eho); [|by auto..];
    apply by_type_lookup, settlement_accounts_elem in Hc as (cp & Hcp & <- & Ecp); [|by auto..] end.
  rewrite decide_True in Eho by done. rewrite decide_False in Ecp by done.
  split; [|done]. pose proof (only_journal_other _ _ Honly) as Hsame. destruct_and! Hsame.
  eexists _, ho, cp, _, _, _, _. split_and!; try done; [by apply dec_stable|done|]; cbn.
  match goal with E : t_withdrawals _ = _, E' : t_outbox_events _ = _ |- _ =>
    rewrite <-E, <-E' end. reflexivity.
Qed.

(** ** MarkStuckAlerted *)

Definition alerted (id : string) (db : DB) (_ : unit) (db' : DB) : Prop :=
  ∃ row now oid, row ∈ t_withdrawals db ∧ wr_id row = id ∧ wr_stuck_alerted_at row = None ∧
    db' = set_outbox_events
            (t_outbox_events db ++
             [mkOutboxRow oid withdrawalStuckEventType
                (withdrawalStuckPayload id (wr_customer row) (wr_chain row) (wr_asset row)
                   (big_String (wr_amount row)) (wr_destination row)
                   (WithdrawalStatus_text (wr_status row)) (default EmptyString (wr_tx_hash row)))
                now])
            (set_withdrawals
               (update_where (λ r, wr_id r = id ∧ wr_stuck_alerted_at r = None) (wr_alert now)
                  (t_withdrawals db)) db).

Lemma MarkStuckAlerted_refines id :
  tx_refines (WithdrawalRepository_MarkStuckAlerted id) (alerted id).
Proof.
  intros c s u s' _ H. unfold WithdrawalRepository_MarkStuckAlerted, update_withdrawals in H.
  m_inv. m_outbox. split; [|done]. eexists x, _, _. split_and!; try done.
  by apply eq_None_not_Some.
Qed.
