(* ===== verification/WithdrawalInvariant.v ===== *)
(** * The withdrawal state machine's invariant

    [wd_ok] ties every withdrawal row to its broadcast attempt, its chain's nonce
    counter and its settlement journal entry; every step of WithdrawalSpecs.v
    preserves it. In particular the nonces of a chain's attempts, in the order they
    were claimed, are 0, 1, 2, ... with no gap and no repetition. *)

From Stdlib Require Import ZArith Lia.
From stdpp Require Import prelude strings sorting list_numbers.
From S2P Require Import Prelude GoStd Domain Store Effects Ledger Withdrawals WithdrawalSpecs.

(** ** Definition *)

(** What its status says about a row and the attempts. *)
Definition row_ok (atts : list AttemptRow) (w : WithdrawalRow) : Prop :=
  match wr_status w with
  | WithdrawalStatusCreated => False
  | WithdrawalStatusAwaitingApproval | WithdrawalStatusApproved =>
      wr_nonce w = None ∧ wr_tx_hash w = None ∧ wr_id w ∉ map ba_withdrawal atts
  | WithdrawalStatusSigned => wr_tx_hash w = None ∧ wr_id w ∈ map ba_withdrawal atts
  | WithdrawalStatusBroadcast | WithdrawalStatusConfirmed | WithdrawalStatusFailed =>
      ∃ a h, a ∈ atts ∧ ba_withdrawal a = wr_id w ∧ ba_tx_hash a = Some h ∧
             wr_tx_hash w = Some h ∧ h ≠ EmptyString
  end.

Definition has_cause (db : DB) (type id : string) : Prop :=
  (type, id) ∈ map je_cause (t_journal_entries db).

Definition with_status (db : DB) (id : string) (s : WithdrawalStatus) : Prop :=
  ∃ w, w ∈ t_withdrawals db ∧ wr_id w = id ∧ wr_status w = s.

Record wd_ok (db : DB) : Prop := {
  wk_ids : NoDup (map wr_id (t_withdrawals db));
  wk_attempt_ids : NoDup (map ba_withdrawal (t_broadcast_attempts db));
  wk_attempt : ∀ a, a ∈ t_broadcast_attempts db →
    ∃ w, w ∈ t_withdrawals db ∧ wr_id w = ba_withdrawal a ∧ wr_chain w = ba_chain a ∧
         wr_nonce w = Some (ba_nonce a);
  wk_rows : ∀ w, w ∈ t_withdrawals db → row_ok (t_broadcast_attempts db) w;
  wk_nonce_chains : NoDup (map nn_chain (t_chain_nonce_state db));
  wk_attempt_chain : ∀ a, a ∈ t_broadcast_attempts db →
    ba_chain a ∈ map nn_chain (t_chain_nonce_state db);
  wk_nonces : ∀ n, n ∈ t_chain_nonce_state db → 0 <= nn_next n ∧
    map ba_nonce (filter (λ a, ba_chain a = nn_chain n) (t_broadcast_attempts db)) =
      seqZ 0 (nn_next n);
  wk_confirmed : ∀ id, has_cause db withdrawalSettlementCauseType id ↔
    with_status db id WithdrawalStatusConfirmed;
  wk_failed : ∀ id, has_cause db withdrawalFailureCauseType id ↔
    with_status db id WithdrawalStatusFailed;
  wk_amounts : ∀ w, w ∈ t_withdrawals db → 0 < wr_amount w;
  wk_customers : ∀ w, w ∈ t_withdrawals db → wr_customer w ∈ map cu_id (t_customers db);
}.

(** [wd_ok] reads these tables only, and of the journal only these causes. *)
Lemma wd_ok_ext db db' :
  t_withdrawals db' = t_withdrawals db → t_broadcast_attempts db' = t_broadcast_attempts db →
  t_chain_nonce_state db' = t_chain_nonce_state db →
  (∀ c, c ∈ map cu_id (t_customers db) → c ∈ map cu_id (t_customers db')) →
  (∀ ty id, ty = withdrawalSettlementCauseType ∨ ty = withdrawalFailureCauseType →
     has_cause db' ty id ↔ has_cause db ty id) →
  wd_ok db → wd_ok db'.
Proof.
  intros Ew Ea En Hc Hj []. constructor; unfold with_status in *; rewrite ?Ew, ?Ea, ?En; eauto.
  - intros id. rewrite Hj by auto. apply wk_confirmed0.
  - intros id. rewrite Hj by auto. apply wk_failed0.
Qed.

(** A movement whose cause is neither settlement leaves it alone. *)
Lemma has_cause_posts db je src dst amount db1 ty id :
  posts db je src dst amount db1 →
  has_cause db1 ty id ↔ has_cause db ty id ∨ je_cause je = (ty, id).
Proof.
  intros HP. unfold has_cause. rewrite (posts_entries _ _ _ _ _ _ HP), map_app, elem_of_app.
  set_solver.
Qed.

Lemma wd_ok_posts db je src dst amount db' :
  posts db je src dst amount db' → only_journal_differs db db' →
  je_cause_type je ≠ withdrawalSettlementCauseType →
  je_cause_type je ≠ withdrawalFailureCauseType → wd_ok db → wd_ok db'.
Proof.
  intros HP HO H1 H2. pose proof (only_journal_other _ _ HO) as Hs. destruct_and! Hs.
  apply wd_ok_ext; try done; [congruence|].
  intros ty id Hty. rewrite (has_cause_posts _ _ _ _ _ _ _ _ HP). split; [|by left].
  intros [Hc|[= E1 E2]]; [done|]. destruct Hty; congruence.
Qed.

(** ** A step on one row that keeps the attempts *)

Section one_row.
Context (db : DB) (Hok : wd_ok db) (row : WithdrawalRow) (Hrow : row ∈ t_withdrawals db).
Context (P : WithdrawalRow → Prop) `{∀ r, Decision (P r)} (f : WithdrawalRow → WithdrawalRow).
Hypothesis (HP : P row) (Pid : ∀ r, P r → wr_id r = wr_id row).
Hypothesis (f_id : ∀ r, wr_id (f r) = wr_id r) (f_amount : ∀ r, wr_amount (f r) = wr_amount r).
Hypothesis (f_customer : ∀ r, wr_customer (f r) = wr_customer r).
Hypothesis (f_chain : ∀ r, wr_chain (f r) = wr_chain r).

Let ws' := update_where P f (t_withdrawals db).

Lemma one_row_elem w :
  w ∈ ws' ↔ w = f row ∨ (w ∈ t_withdrawals db ∧ wr_id w ≠ wr_id row).
Proof. eapply update_one_elem; eauto. apply Hok. Qed.

Lemma one_row_with_status id s :
  (∃ w, w ∈ ws' ∧ wr_id w = id ∧ wr_status w = s) ↔
  (if decide (id = wr_id row) then wr_status (f row) = s else with_status db id s).
Proof.
  unfold with_status. case_decide as E.
  - split.
    + intros (w & [->|[_ Hne]]%one_row_elem & Hid & Hs); [done|congruence].
    + intros Hs. exists (f row). rewrite one_row_elem, f_id. auto.
  - split.
    + intros (w & [->|[Hw Hne]]%one_row_elem & Hid & Hs); [|eauto].
      rewrite f_id in Hid. congruence.
    + intros (w & Hw & Hid & Hs). exists w. rewrite one_row_elem. split; [|done]. right.
      split; congruence.
Qed.

Lemma with_status_row s : with_status db (wr_id row) s ↔ wr_status row = s.
Proof.
  split; [|unfold with_status; eauto].
  intros (w & Hw & Hid & <-).
  by rewrite (key_unique wr_id (t_withdrawals db) row (wk_ids _ Hok) Hrow w Hw Hid).
Qed.

(** The new row is fine, the attempts change only for it, and the settlement
    causes change exactly as the status does. *)
Lemma wd_ok_one_row atts' nonces' db' :
  t_withdrawals db' = ws' → t_broadcast_attempts db' = atts' → t_chain_nonce_state db' = nonces' →
  t_customers db' = t_customers db →
  NoDup (map ba_withdrawal atts') →
  (∀ a, a ∈ atts' → (ba_withdrawal a = wr_id row ∧ wr_chain row = ba_chain a ∧
                     wr_nonce (f row) = Some (ba_nonce a)) ∨
                    (ba_withdrawal a ≠ wr_id row ∧ a ∈ t_broadcast_attempts db)) →
  (∀ a, a ∈ t_broadcast_attempts db → ba_withdrawal a ≠ wr_id row → a ∈ atts') →
  row_ok atts' (f row) →
  NoDup (map nn_chain nonces') →
  (∀ a, a ∈ atts' → ba_chain a ∈ map nn_chain nonces') →
  (∀ n, n ∈ nonces' → 0 <= nn_next n ∧
    map ba_nonce (filter (λ a, ba_chain a = nn_chain n) atts') = seqZ 0 (nn_next n)) →
  (∀ ty s id,
     (ty, s) = (withdrawalSettlementCauseType, WithdrawalStatusConfirmed) ∨
     (ty, s) = (withdrawalFailureCauseType, WithdrawalStatusFailed) →
     has_cause db' ty id ↔
       if decide (id = wr_id row) then wr_status (f row) = s else has_cause db ty id) →
  wd_ok db'.
Proof.
  intros Ew Ea En Ec Hnd Hatt Hkeep Hrow' Hnc Hac Hseq Hcause. pose proof Hok as Hok'.
  destruct Hok'.
  assert (∀ w, w ∈ t_withdrawals db → wr_id w ≠ wr_id row → row_ok atts' w) as Hothers.
  { intros w Hw Hne. specialize (wk_rows0 w Hw). unfold row_ok in *.
    assert (wr_id w ∈ map ba_withdrawal atts' ↔
            wr_id w ∈ map ba_withdrawal (t_broadcast_attempts db)) as Hiff.
    { rewrite !list_elem_of_fmap. split; intros (a & E & Ha); exists a; split; try done.
      - destruct (Hatt a Ha) as [[E' _]|[_ ?]]; [congruence|done].
      - apply Hkeep; [done|congruence]. }
    destruct (wr_status w); rewrite ?Hiff; try done.
    all: destruct wk_rows0 as (a & h & Ha & E & ?); exists a, h; split; [|done].
    all: apply Hkeep; [done|congruence]. }
  constructor; rewrite ?Ew, ?Ea, ?En, ?Ec; try done.
  - unfold ws'. by rewrite update_where_keys.
  - intros a Ha. destruct (Hatt a Ha) as [(E & Ech & En')|[Hne Ha']].
    + exists (f row). rewrite one_row_elem, f_id, f_chain. auto.
    + destruct (wk_attempt0 a Ha') as (w & Hw & E & ?). exists w. rewrite one_row_elem.
      split; [|done]. right. split; [done|congruence].
  - intros w [->|[Hw Hne]]%one_row_elem; [done|]. by apply Hothers.
  - intros id. unfold with_status. rewrite Ew, one_row_with_status.
    rewrite (Hcause _ WithdrawalStatusConfirmed) by auto. case_decide; [done|]. apply wk_confirmed0.
  - intros id. unfold with_status. rewrite Ew, one_row_with_status.
    rewrite (Hcause _ WithdrawalStatusFailed) by auto. case_decide; [done|]. apply wk_failed0.
  - intros w [->|[Hw Hne]]%one_row_elem; [rewrite f_amount|]; auto.
  - intros w [->|[Hw Hne]]%one_row_elem; [rewrite f_customer|]; auto.
Qed.
End one_row.

(** ** Every operation preserves it *)

Section steps.
Context (db : DB) (Hok : wd_ok db).

(** Attempts and counters unchanged. *)
Lemma wd_ok_same_attempts row P `{∀ r, Decision (P r)} f db' :
  row ∈ t_withdrawals db → P row → (∀ r, P r → wr_id r = wr_id row) →
  (∀ r, wr_id (f r) = wr_id r) → (∀ r, wr_amount (f r) = wr_amount r) →
  (∀ r, wr_customer (f r) = wr_customer r) → (∀ r, wr_chain (f r) = wr_chain r) →
  (∀ r, wr_nonce (f r) = wr_nonce r) →
  t_withdrawals db' = update_where P f (t_withdrawals db) →
  t_broadcast_attempts db' = t_broadcast_attempts db →
  t_chain_nonce_state db' = t_chain_nonce_state db → t_customers db' = t_customers db →
  row_ok (t_broadcast_attempts db) (f row) →
  (∀ ty s id,
     (ty, s) = (withdrawalSettlementCauseType, WithdrawalStatusConfirmed) ∨
     (ty, s) = (withdrawalFailureCauseType, WithdrawalStatusFailed) →
     has_cause db' ty id ↔
       if decide (id = wr_id row) then wr_status (f row) = s else has_cause db ty id) →
  wd_ok db'.
Proof.
  intros Hrow HP Pid Fi Fa Fc Fch Fn Ew Ea En Ec Hr Hcause. pose proof Hok as [].
  eapply (wd_ok_one_row db Hok row Hrow P f); try done.
  intros a Ha. destruct (decide (ba_withdrawal a = wr_id row)) as [E|]; [left|by right].
  split; [done|]. destruct (wk_attempt0 a Ha) as (w & Hw & Hid & Hch & Hn). rewrite E in Hid.
  apply (key_unique wr_id _ row wk_ids0 Hrow) in Hid as ->; [|done]. by rewrite Fn.
Qed.

(** No settlement cause is touched and the status is not a settled one. *)
Lemma causes_unsettled row f db' :
  row ∈ t_withdrawals db → t_journal_entries db' = t_journal_entries db →
  wr_status row ≠ WithdrawalStatusConfirmed → wr_status row ≠ WithdrawalStatusFailed →
  wr_status (f row) ≠ WithdrawalStatusConfirmed → wr_status (f row) ≠ WithdrawalStatusFailed →
  ∀ ty s id,
    (ty, s) = (withdrawalSettlementCauseType, WithdrawalStatusConfirmed) ∨
    (ty, s) = (withdrawalFailureCauseType, WithdrawalStatusFailed) →
    has_cause db' ty id ↔
      if decide (id = wr_id row) then wr_status (f row) = s else has_cause db ty id.
Proof.
  intros Hrow Ej H1 H2 H3 H4 ty s id Hts. unfold has_cause at 1. rewrite Ej. fold (has_cause db ty id).
  case_decide as E; [subst id|done]. destruct Hts as [[= -> ->]|[= -> ->]].
  - rewrite (wk_confirmed _ Hok), (with_status_row db Hok row) by done. done.
  - rewrite (wk_failed _ Hok), (with_status_row db Hok row) by done. done.
Qed.

Lemma row_in_attempts w : w ∈ t_withdrawals db → row_ok (t_broadcast_attempts db) w.
Proof. apply Hok. Qed.

Lemma wd_ok_approved id actor reason w db' : approved id actor reason db w db' → wd_ok db'.
Proof.
  intros (row & now & oid & Hrow & <- & Hs & -> & ->).
  pose proof (row_in_attempts row Hrow) as Hr. unfold row_ok in Hr. rewrite Hs in Hr.
  eapply (wd_ok_same_attempts row _ (wr_approve now actor reason)); try done; [by split|by intros ? []|].
  apply causes_unsettled; try done; by rewrite Hs.
Qed.

Lemma wd_ok_marked id u db' : marked_broadcast id db u db' → wd_ok db'.
Proof.
  intros (row & a & h & now & Hrow & <- & Hs & Ha & E & Hh & Hne & ->).
  eapply (wd_ok_same_attempts row _ (wr_broadcast h now)); try done; [by split|by intros ? []|..].
  - exists a, h. auto.
  - apply causes_unsettled; try done; by rewrite Hs.
Qed.

Lemma wd_ok_alerted id u db' : alerted id db u db' → wd_ok db'.
Proof.
  intros (row & now & oid & Hrow & <- & Hs & ->).
  eapply (wd_ok_same_attempts row _ (wr_alert now)); try done; [by split|by intros ? []|..].
  - by apply (row_in_attempts row).
  - intros ty s id Hts. change (has_cause _ ty id) with (has_cause db ty id) at 1.
    case_decide as E; [subst id|done]. destruct Hts as [[= -> ->]|[= -> ->]].
    + by rewrite (wk_confirmed _ Hok), (with_status_row db Hok row).
    + by rewrite (wk_failed _ Hok), (with_status_row db Hok row).
Qed.

Lemma wd_ok_settled id target ty ev ct plat u db' :
  (ty, target) = (withdrawalSettlementCauseType, WithdrawalStatusConfirmed) ∨
  (ty, target) = (withdrawalFailureCauseType, WithdrawalStatusFailed) →
  settled id target ty ev ct plat db u db' → wd_ok db'.
Proof.
  intros Hty (row & ho & cp & je & db1 & now & oid & Hrow & <- & Hs & _ & _ & _ & _ & Hje & HP & HO & ->).
  pose proof (only_journal_other _ _ HO) as Hsame. destruct_and! Hsame.
  eapply (wd_ok_same_attempts row _ (wr_settle target now)); try done; cbn; try done;
    [by intros ? []|..].
  - pose proof (row_in_attempts row Hrow) as Hr. unfold row_ok in *. rewrite Hs in Hr. simpl.
    by destruct Hty as [[= -> ->]|[= -> ->]].
  - intros ty' s id Hts. change (has_cause _ ty' id) with (has_cause db1 ty' id) at 1.
    rewrite (has_cause_posts _ _ _ _ _ _ _ _ HP), Hje.
    assert (∀ s', s' = WithdrawalStatusConfirmed ∨ s' = WithdrawalStatusFailed →
              ¬ with_status db (wr_id row) s') as Hno.
    { intros s' Hs'. rewrite (with_status_row db Hok row) by done. rewrite Hs. naive_solver. }
    case_decide as E; [subst id|].
    + destruct Hts as [[= -> ->]|[= -> ->]].
      * rewrite (wk_confirmed _ Hok). specialize (Hno WithdrawalStatusConfirmed).
        destruct Hty as [[= -> ->]|[= -> ->]]; split; naive_solver.
      * rewrite (wk_failed _ Hok). specialize (Hno WithdrawalStatusFailed).
        destruct Hty as [[= -> ->]|[= -> ->]]; split; naive_solver.
    + split; [|by left]. intros [Hc|[= _ E']]; [done|congruence].
Qed.
Lemma wd_ok_recorded id h tx u db' : recorded id h tx db u db' → wd_ok db'.
Proof.
  intros (row & a0 & Hrow & <- & Hs & Ha0 & E0 & ->). pose proof Hok as [].
  set (P := λ r : AttemptRow, ba_withdrawal r = wr_id row).
  set (f := ba_record h tx).
  assert (∀ a, a ∈ update_where P f (t_broadcast_attempts db) →
    ∃ b, b ∈ t_broadcast_attempts db ∧ ba_withdrawal a = ba_withdrawal b ∧
         ba_chain a = ba_chain b ∧ ba_nonce a = ba_nonce b) as Hinv.
  { intros a (b & -> & Hb)%list_elem_of_fmap. exists b. by case_decide. }
  constructor; cbn; try done.
  - by rewrite (update_where_map P f ba_withdrawal).
  - intros a (b & Hb & E1 & E2 & E3)%Hinv. rewrite E1, E2, E3. by apply wk_attempt0.
  - intros w Hw. specialize (wk_rows0 w Hw). unfold row_ok in *.
    rewrite (update_where_map P f ba_withdrawal) by done.
    destruct (wr_status w) eqn:Ew; try done.
    all: destruct wk_rows0 as (a & x & Ha & E & ?); exists a, x; split; [|done].
    all: apply list_elem_of_fmap; exists a; split; [|done]; rewrite decide_False; [done|].
    all: intros E'; unfold P in E'; rewrite E in E';
      apply (key_unique wr_id _ row wk_ids0 Hrow) in E'; [congruence|done].
  - intros a (b & Hb & E1 & E2 & E3)%Hinv. rewrite E2. by apply wk_attempt_chain0.
  - intros n Hn. rewrite filter_update_where by done.
    rewrite (update_where_map P f ba_nonce) by done. by apply wk_nonces0.
Qed.

Lemma oldest_approved_Some chain row :
  oldest_approved chain db = Some row →
  row ∈ t_withdrawals db ∧ wr_chain row = chain ∧ wr_status row = WithdrawalStatusApproved.
Proof.
  unfold oldest_approved. intros H.
  assert (row ∈ merge_sort created_id_le (filter (λ r, wr_chain r = chain ∧
    wr_status r = WithdrawalStatusApproved) (t_withdrawals db))) as Hin.
  { destruct (merge_sort _ _); [done|]. simpl in H. injection H as ->. left. }
  rewrite merge_sort_Permutation in Hin. apply list_elem_of_filter in Hin as [[] ?]. done.
Qed.

Lemma wd_ok_claimed chain o db' : claimed chain db o db' → wd_ok db'.
Proof.
  destruct o as [w|]; [|by intros [_ ->]].
  intros (row & nn & now & aid & Ho & Hn & Hins & -> & ->).
  apply oldest_approved_Some in Ho as (Hrow & Hch & Hs).
  apply find_nonce_Some in Hn as [Hn Hnc].
  set (att := mkAttemptRow aid (wr_id row) chain (nn_next nn) None now None).
  pose proof Hok as [].
  pose proof (row_in_attempts row Hrow) as Hr. unfold row_ok in Hr. rewrite Hs in Hr.
  destruct Hr as (Hnn & Htx & Hfresh).
  eapply (wd_ok_one_row db Hok row Hrow _ (wr_claim (nn_next nn) now)) with
    (atts' := t_broadcast_attempts db ++ [att])
    (nonces' := update_where (λ r, nn_chain r = chain) (nn_advance now) (t_chain_nonce_state db));
    try reflexivity; [by split|by intros ? []|..].
  - rewrite map_app. by apply NoDup_snoc.
  - intros a [Ha| ->%list_elem_of_singleton]%elem_of_app; [right|left].
    + split; [|done]. intros E. apply Hfresh. rewrite <-E. by apply list_elem_of_fmap_2.
    + by rewrite Hch.
  - set_solver.
  - unfold row_ok. simpl. split; [done|]. rewrite map_app. set_solver.
  - by rewrite (update_where_map _ _ nn_chain).
  - intros a [Ha| ->%list_elem_of_singleton]%elem_of_app;
      rewrite (update_where_map _ _ nn_chain) by done; [by apply wk_attempt_chain0|].
    simpl. rewrite <-Hnc. by apply list_elem_of_fmap_2.
  - intros n (m & -> & Hm)%list_elem_of_fmap. rewrite filter_app, map_app.
    destruct (wk_nonces0 m Hm) as [Hpos Hseq]. case_decide as E.
    + assert (m = nn) as -> by (apply (key_unique nn_chain _ nn wk_nonce_chains0 Hn m Hm); congruence).
      simpl. rewrite Hseq. rewrite filter_cons_True by (simpl; congruence). simpl.
      split; [lia|]. rewrite seqZ_app by lia. rewrite Z.add_0_l. reflexivity.
    + rewrite filter_cons_False; [|simpl; congruence].
      rewrite filter_nil. simpl. by rewrite app_nil_r.
  - apply causes_unsettled; try done; by rewrite Hs.
Qed.

Lemma wd_ok_created req fee target w db' :
  target = WithdrawalStatusAwaitingApproval ∨ target = WithdrawalStatusApproved →
  created req fee target db w db' → wd_ok db'.
Proof.
  intros Ht [(av & ho & je & db1 & oid & _ & _ & _ & _ & _ & _ & Hje & HP & HO & Hins & ty & _ & ->) _].
  assert (wd_ok db1) as Hok1.
  { eapply wd_ok_posts; eauto; intros E; unfold je_cause in Hje; rewrite E in Hje; discriminate. }
  unfold insert_withdrawal in Hins.
  repeat (apply pg_require_ok in Hins; let C := fresh "C" in destruct Hins as [C Hins]).
  cbn in *. clear Hins. pose proof (only_journal_other _ _ HO) as Hsame. destruct_and! Hsame.
  set (row := mkWithdrawalRow _ _ _ _ _ _ _ _ _ _ _ _ _ _ _ _).
  pose proof Hok1 as []. rename select (t_withdrawals db1 = _) into Ew. rewrite <-Ew.
  assert (∀ id s, s ≠ target → (∃ x, x ∈ t_withdrawals db1 ++ [row] ∧ wr_id x = id ∧ wr_status x = s) ↔
            with_status db1 id s) as Hst.
  { intros id s Hs. unfold with_status. split; [|set_solver].
    intros (x & [Hx| ->%list_elem_of_singleton]%elem_of_app & Hid & Hxs); [eauto|]. by simpl in Hxs. }
  assert (w_ID w ∉ map ba_withdrawal (t_broadcast_attempts db1)) as Hna.
  { intros (a & E & Ha)%list_elem_of_fmap. apply wk_attempt0 in Ha as (x & Hx & E' & _).
    apply C4. rewrite E, <-E'. by apply list_elem_of_fmap_2. }
  constructor; cbn; try done.
  - rewrite map_app. by apply NoDup_snoc.
  - intros a Ha. destruct (wk_attempt0 a Ha) as (x & Hx & ?). exists x. set_solver.
  - intros x [Hx| ->%list_elem_of_singleton]%elem_of_app; [by apply wk_rows0|].
    unfold row_ok. simpl. by destruct Ht as [->| ->].
  - intros id. change (has_cause _ withdrawalSettlementCauseType id)
      with (has_cause db1 withdrawalSettlementCauseType id).
    rewrite wk_confirmed0. symmetry. apply Hst. by destruct Ht as [->| ->].
  - intros id. change (has_cause _ withdrawalFailureCauseType id)
      with (has_cause db1 withdrawalFailureCauseType id).
    rewrite wk_failed0. symmetry. apply Hst. by destruct Ht as [->| ->].
  - intros x [Hx| ->%list_elem_of_singleton]%elem_of_app; [by apply wk_amounts0|done].
  - intros x [Hx| ->%list_elem_of_singleton]%elem_of_app; [by apply wk_customers0|done].
Qed.
End steps.
