(* ===== verification/Ports.v ===== *)
(** * The ports of internal/core

    The interfaces of src/internal/core/ports.go as type classes of operations in
    [M], and the laws the use cases' theorems are proved against. The postgres
    adapter's instances and their laws are in the repository files; the evm and
    signer adapters' are in EvmBroadcaster.v, Scanner.v, FeeEstimation.v and
    Signers.v. *)

From Stdlib Require Import ZArith Lia.
From stdpp Require Import prelude strings gmap.
From S2P Require Import Prelude GoStd Domain Store Effects Ledger Withdrawals WithdrawalSpecs.

(** A computation that neither writes the database nor records an event: every
    remote call of the evm and signer adapters. *)
Definition external {A} (m : M A) : Prop :=
  ∀ c s r s', m c s = (r, s') →
    st_db s' = st_db s ∧ st_trace s' = st_trace s ∧ st_aborted s' = st_aborted s.

Section external_lemmas.
Context {A B : Type}.

Lemma external_ret (a : A) : external (ret a).
Proof. intros c s r s' [= <- <-]. done. Qed.
Lemma external_throw e : external (throw (A:=A) e).
Proof. intros c s r s' [= <- <-]. done. Qed.
Lemma external_bind (m : M A) (k : A → M B) :
  external m → (∀ a, external (k a)) → external (bind m k).
Proof.
  intros Hm Hk c s r s' H. unfold bind in H. destruct (m c s) as [[a|e] s1] eqn:E.
  - apply Hm in E as (E1 & E2 & E3). apply Hk in H as (F1 & F2 & F3). split_and!; congruence.
  - simplify_eq. by apply Hm in E.
Qed.
Lemma external_map_err f (m : M A) : external m → external (map_err f m).
Proof.
  intros Hm c s r s' H. unfold map_err in H.
  destruct (m c s) as [[a|e] s1] eqn:E; simplify_eq; by apply Hm in E.
Qed.
Lemma external_try (m : M A) : external m → external (try m).
Proof.
  intros Hm c s r s' H. unfold try in H. destruct (m c s) as [r1 s1] eqn:E. simplify_eq.
  by apply Hm in E.
Qed.
Lemma external_lift_option (o : option A) e : external (lift_option o e).
Proof. destruct o; [apply external_ret|apply external_throw]. Qed.
Lemma external_lift_result (r : result A) : external (lift_result r).
Proof. destruct r; [apply external_ret|apply external_throw]. Qed.
Lemma external_step (m : M A) : external m → external (step m).
Proof.
  intros Hm c s r s' H. unfold step in H. destruct (env_fault _ _); simplify_eq; [done|].
  by apply Hm in H.
Qed.
End external_lemmas.

Create HintDb external.
#[export] Hint Resolve external_ret external_throw external_bind external_map_err external_try
  external_lift_option external_lift_result external_step : external.

Lemma external_mapM {A B} (f : A → M B) l : (∀ x, external (f x)) → external (mapM f l).
Proof. intros Hf. induction l; simpl; auto 8 with external. Qed.
#[export] Hint Resolve external_mapM : external.

(** A remote call: one tick, and whatever the remote side answers at that time. *)
Definition remote {A} (answer : nat → result A) : M A :=
  step (λ c s, (answer (st_tick s), s)).
Lemma external_remote {A} (answer : nat → result A) : external (remote answer).
Proof. apply external_step. intros c s r s' [= <- <-]. done. Qed.
#[export] Hint Resolve external_remote : external.

(** A computation that neither writes nor records an event, but may query the pool:
    outside a transaction it then sees what the others committed. *)
Definition others_step (c : Ctx) (db db' : DB) : Prop := ∃ n, db' = env_other (cx_env c) n db.
Definition others_only (c : Ctx) (db db' : DB) : Prop :=
  match cx_tx c with Some _ => db' = db | None => rtc (others_step c) db db' end.
Definition quiet {A} (m : M A) : Prop :=
  ∀ c s r s', m c s = (r, s') →
    others_only c (st_db s) (st_db s') ∧ st_trace s' = st_trace s ∧ st_aborted s' = st_aborted s.

Lemma others_only_refl c db : others_only c db db.
Proof. unfold others_only. by destruct (cx_tx c). Qed.
Lemma others_only_trans c db1 db2 db3 :
  others_only c db1 db2 → others_only c db2 db3 → others_only c db1 db3.
Proof. unfold others_only. destruct (cx_tx c); [congruence|by intros; etrans]. Qed.

(** A property of the database the others keep. *)
Lemma others_only_keeps (I : DB → Prop) c db db' :
  (∀ n d, I d → I (env_other (cx_env c) n d)) → others_only c db db' → I db → I db'.
Proof.
  intros Ho H HI. unfold others_only in H. destruct (cx_tx c); [by subst|].
  induction H as [|d1 d2 d3 [n ->] _ IH]; auto.
Qed.

Section quiet_lemmas.
Context {A B : Type}.

Lemma quiet_external (m : M A) : external m → quiet m.
Proof. intros Hm c s r s' H. apply Hm in H as (-> & ? & ?). split; [apply others_only_refl|done]. Qed.
Lemma quiet_bind (m : M A) (k : A → M B) : quiet m → (∀ a, quiet (k a)) → quiet (bind m k).
Proof.
  intros Hm Hk c s r s' H. unfold bind in H. destruct (m c s) as [[a|e] s1] eqn:E.
  - apply Hm in E as (E1 & E2 & E3). apply Hk in H as (F1 & F2 & F3).
    split_and!; [by eapply others_only_trans|congruence..].
  - simplify_eq. by apply Hm in E.
Qed.
Lemma quiet_map_err f (m : M A) : quiet m → quiet (map_err f m).
Proof.
  intros Hm c s r s' H. unfold map_err in H.
  destruct (m c s) as [[a|e] s1] eqn:E; simplify_eq; by apply Hm in E.
Qed.
Lemma quiet_wrapping ctx (m : M A) : quiet m → quiet (wrapping ctx m).
Proof. apply quiet_map_err. Qed.
Lemma quiet_pool_query (f : DB → A) : quiet (pool_query f).
Proof.
  intros c s r s' H. unfold pool_query, step in H.
  destruct (env_fault _ _); [simplify_eq; split; [apply others_only_refl|done]|].
  unfold others_only. destruct (cx_tx c); simplify_eq; (split; [|done]); [done|].
  apply rtc_once. by eexists.
Qed.
End quiet_lemmas.

Create HintDb quiet.
#[export] Hint Resolve quiet_bind quiet_map_err quiet_wrapping quiet_pool_query : quiet.
#[export] Hint Extern 5 (quiet _) => apply quiet_external : quiet.

(** ** Withdrawals *)

Class FeeEstimator := { EstimateFee : Chain → Asset → Z → M FeeEstimate }.

Class WithdrawalThresholdLister := { GetApprovalThreshold : Chain → Asset → M (option Z) }.

Class WithdrawalRepository := {
  CreateWithdrawal : WithdrawalRequest → Z → WithdrawalStatus → M Withdrawal;
  ApproveWithdrawal : string → string → string → M Withdrawal;
  ClaimApprovedWithdrawal : Chain → M (option Withdrawal);
  RecordSignedTx : string → string → string → M unit;
  MarkBroadcast : string → M unit;
  ListSignedWithdrawals : Chain → M (list Withdrawal);
  ListBroadcastWithdrawals : Chain → M (list Withdrawal);
  SettleConfirmedWithdrawal : string → M unit;
  SettleFailedWithdrawal : string → M unit;
  ListStuckCandidates : Chain → Z → M (list Withdrawal);
  MarkStuckAlerted : string → M unit;
}.

(** What core relies on: each operation is the step of the state machine its
    documentation promises, and the listings only read. *)
Class WithdrawalRepositoryLaws (R : WithdrawalRepository) := {
  CreateWithdrawal_law req fee target :
    tx_refines (CreateWithdrawal req fee target) (created req fee target);
  ApproveWithdrawal_law id actor reason :
    tx_refines (ApproveWithdrawal id actor reason) (approved id actor reason);
  ClaimApprovedWithdrawal_law chain :
    tx_refines (ClaimApprovedWithdrawal chain) (claimed chain);
  RecordSignedTx_law id h tx : tx_refines (RecordSignedTx id h tx) (recorded id h tx);
  MarkBroadcast_law id : tx_refines (MarkBroadcast id) (marked_broadcast id);
  SettleConfirmed_law id : tx_refines (SettleConfirmedWithdrawal id)
    (settled id WithdrawalStatusConfirmed withdrawalSettlementCauseType
       withdrawalConfirmedEventType AccountTypeTreasury true);
  SettleFailed_law id : tx_refines (SettleFailedWithdrawal id)
    (settled id WithdrawalStatusFailed withdrawalFailureCauseType
       withdrawalFailedEventType AccountTypeAvailable false);
  MarkStuckAlerted_law id : tx_refines (MarkStuckAlerted id) (alerted id);
  ListSigned_law chain : tx_refines (ListSignedWithdrawals chain)
    (λ db ws db', db' = db ∧ ws = omap (decode_signed chain) (signed_rows chain db));
  ListBroadcast_law chain : tx_refines (ListBroadcastWithdrawals chain) (λ db _ db', db' = db);
  ListStuck_law chain t : tx_refines (ListStuckCandidates chain t) (λ db _ db', db' = db);
  ClaimApprovedWithdrawal_silent chain : silent (ClaimApprovedWithdrawal chain);
  RecordSignedTx_silent id h tx : silent (RecordSignedTx id h tx);
  MarkBroadcast_silent id : silent (MarkBroadcast id);
  ListSigned_silent chain : silent (ListSignedWithdrawals chain);
}.

(** [unsignedTx] is opaque bytes; the digest and the signature are 32 and 65 bytes. *)
Class Signer := { Sign : Chain → bytes → M bytes }.

Class TransactionBroadcaster := {
  BuildUnsignedWithdrawal : Chain → Asset → Z → string → Z → M (bytes * bytes);
  AssembleSignedTx : bytes → bytes → result (bytes * string);
  SendRawTransaction : Chain → bytes → M unit;
  GetFinalizedReceipt : Chain → string → M (bool * bool);
}.

(** The remote side does not write our database ([BuildUnsignedWithdrawal] also
    reads the token registry), and assembling a transaction
    gives at least one byte. *)
Class SignerLaws (S : Signer) := { Sign_external chain d : external (Sign chain d) }.
Class TransactionBroadcasterLaws (B : TransactionBroadcaster) := {
  Build_quiet chain a n to v : quiet (BuildUnsignedWithdrawal chain a n to v);
  Send_external chain tx : external (SendRawTransaction chain tx);
  Receipt_external chain h : external (GetFinalizedReceipt chain h);
  Assemble_nonempty u sig tx h : AssembleSignedTx u sig = Ok (tx, h) → tx ≠ EmptyString;
}.

(** ** Deposits *)

Class ChainScanner := {
  Head : M (Z * Z * Z);
  BlockHash : Z → M (option string);
  ScanDeposits : list string → gmap string Asset → Z → Z →
    M (list ObservedTransfer * list UnsupportedTokenObservation);
}.
Class ChainScannerLaws (S : ChainScanner) := {
  Head_external : external Head;
  BlockHash_external n : external (BlockHash n);
  ScanDeposits_external ks reg a b : external (ScanDeposits ks reg a b);
}.

Class DepositAddressLister := { ListDepositAddresses : M (list string) }.
Class TokenRegistryLister := { ListTokenRegistry : Chain → M (gmap string Asset) }.

Class DepositRepository := {
  RecordObserved : Deposit → M bool;
  PromoteToSafe : Chain → Z → M nat;
  PromoteToFinalized : Chain → Z → M nat;
  CreditFinalizedDeposits : Chain → M nat;
  ListPendingDeposits : Chain → M (list Deposit);
  OrphanDeposit : string → M unit;
  Cursor : Chain → string → M Z;
  SetCursor : Chain → string → Z → M unit;
}.
Class UnsupportedTokenRepository := {
  RecordObservation : UnsupportedTokenObservation → M bool;
  ListObservations : M (list UnsupportedTokenObservation);
}.
Class WatcherLivenessChecker := { IsLive : Chain → Z → M bool }.

(** ** Customers and reads *)

Class CustomerRepository := { CreateCustomer : Customer → list Account → string → M unit }.
Class CustomerReader := { GetCustomer : string → M Customer }.
Class DepositAddressDeriver := { DeriveAddress : bytes → result string }.
Class BalanceRepository := { CustomerBalances : string → M (list AccountBalance) }.
Class TransactionRepository := {
  ListCustomerTransactions : string → Z → string → M TransactionPage
}.
Class DepositReader := { ListCustomerDeposits : string → M (list Deposit) }.

(** ** Idempotency *)

Record StoredResponse := mkStoredResponse {
  sr_Status : Z; sr_Body : bytes; sr_ContentType : string;
}.
Record StoredEntry := mkStoredEntry { se_RequestHash : bytes; se_Response : StoredResponse }.
Class IdempotencyStore := {
  Lookup : string → M (option StoredEntry);
  Insert : string → bytes → StoredResponse → M unit;
}.

(** ** The postgres instance for withdrawals *)

#[export] Instance postgres_WithdrawalRepository : WithdrawalRepository := {
  CreateWithdrawal := WithdrawalRepository_CreateWithdrawal;
  ApproveWithdrawal := WithdrawalRepository_ApproveWithdrawal;
  ClaimApprovedWithdrawal := WithdrawalRepository_ClaimApprovedWithdrawal;
  RecordSignedTx := WithdrawalRepository_RecordSignedTx;
  MarkBroadcast := WithdrawalRepository_MarkBroadcast;
  ListSignedWithdrawals := WithdrawalRepository_ListSignedWithdrawals;
  ListBroadcastWithdrawals := WithdrawalRepository_ListBroadcastWithdrawals;
  SettleConfirmedWithdrawal := WithdrawalRepository_SettleConfirmedWithdrawal;
  SettleFailedWithdrawal := WithdrawalRepository_SettleFailedWithdrawal;
  ListStuckCandidates := WithdrawalRepository_ListStuckCandidates;
  MarkStuckAlerted := WithdrawalRepository_MarkStuckAlerted;
}.

Lemma mapM_ret {A B} (f : A → B) (g : A → M B) l c s :
  (∀ x, g x = ret (f x)) → mapM g l c s = (Ok (map f l), s).
Proof.
  intros Hg. induction l as [|x l IH]; [done|]. simpl. rewrite Hg. unfold bind at 1. simpl.
  unfold bind. by rewrite IH.
Qed.

Lemma ListSigned_refines chain :
  tx_refines (WithdrawalRepository_ListSignedWithdrawals chain)
    (λ db ws db', db' = db ∧ ws = omap (decode_signed chain) (signed_rows chain db)).
Proof.
  intros c s ws s' _ H. unfold WithdrawalRepository_ListSignedWithdrawals in H. m_inv1. m_straight.
  match goal with Hm : mapM _ _ _ _ = _ |- _ =>
    rewrite (mapM_ret (λ r, wr_amount (fst r))) in Hm by (intros; apply scan_big_eq) end.
  by simplify_eq.
Qed.

Lemma mapM_reads {A B} (f : A → M B) l c s r s' :
  (∀ x c s b s', f x c s = (Ok b, s') → st_db s' = st_db s ∧ st_trace s' = st_trace s) →
  mapM f l c s = (Ok r, s') → st_db s' = st_db s ∧ st_trace s' = st_trace s.
Proof.
  intros Hf. revert s r. induction l as [|x l IH]; intros s r H; simpl in H; m_straight; [done|].
  match goal with H1 : f x _ _ = _, H2 : mapM f l _ _ = _ |- _ =>
    apply Hf in H1 as [-> ->] || (apply Hf in H1 as [E1 E2]; apply IH in H2 as [E3 E4]) end.
  split; congruence.
Qed.

Lemma ListBroadcast_refines chain :
  tx_refines (WithdrawalRepository_ListBroadcastWithdrawals chain) (λ db _ db', db' = db).
Proof.
  intros c s ws s' _ H. unfold WithdrawalRepository_ListBroadcastWithdrawals in H. m_straight.
  match goal with Hm : mapM _ _ _ _ = _ |- _ => apply mapM_reads in Hm; [done|] end.
  clear. intros x c s b s' H. by m_straight.
Qed.

Lemma ListStuck_refines chain t :
  tx_refines (WithdrawalRepository_ListStuckCandidates chain t) (λ db _ db', db' = db).
Proof.
  intros c s ws s' _ H. unfold WithdrawalRepository_ListStuckCandidates in H. m_straight.
  match goal with Hm : mapM _ _ _ _ = _ |- _ => apply mapM_reads in Hm; [done|] end.
  clear. intros [w a] c s b s' H. by m_straight.
Qed.

Ltac repository_silent :=
  unfold WithdrawalRepository_ClaimApprovedWithdrawal, WithdrawalRepository_RecordSignedTx,
    WithdrawalRepository_MarkBroadcast, WithdrawalRepository_ListSignedWithdrawals, lock_withdrawal,
    scan_big, advance_nonce, update_withdrawals, update_attempts, tx_update_rows, tx_query, tx_insert;
  silent_tac.

#[export] Instance postgres_WithdrawalRepositoryLaws :
  WithdrawalRepositoryLaws postgres_WithdrawalRepository.
Proof.
  constructor; simpl.
  - apply CreateWithdrawal_refines.
  - apply ApproveWithdrawal_refines.
  - apply ClaimApprovedWithdrawal_refines.
  - apply RecordSignedTx_refines.
  - apply MarkBroadcast_refines.
  - intros id. by apply settleWithdrawal_refines.
  - intros id. by apply settleWithdrawal_refines.
  - apply MarkStuckAlerted_refines.
  - apply ListSigned_refines.
  - apply ListBroadcast_refines.
  - apply ListStuck_refines.
  - intros chain. repository_silent.
  - intros id h tx. repository_silent.
  - intros id. repository_silent.
  - intros chain. repository_silent.
Qed.
