(* ===== verification/Broadcast.v ===== *)
(** * Signing, broadcasting and settling withdrawals

    src/internal/core/sign_and_broadcast_withdrawal.go,
    poll_withdrawal_receipts.go and detect_stuck_withdrawals.go: the broadcaster's
    three use cases, over the ports of Ports.v. Where the Go functions return a
    value together with an error, the model returns the pair. *)

From Stdlib Require Import ZArith Lia.
From stdpp Require Import prelude strings gmap.
From S2P Require Import Prelude GoStd Domain Store Effects Ledger Withdrawals WithdrawalSpecs Ports.

Definition err_of {A} (r : result A) : option error :=
  match r with Ok _ => None | Err e => Some e end.

(** "List, then roll back: nothing to commit". *)
Definition in_tx_read {A} (ctx_begin : string) (body : M A) : M A :=
  in_tx_out (wrap ctx_begin) (λ e, e) (let! a := body in ret (TxRollback a)).

(** ** SignAndBroadcastWithdrawal *)

Definition isAlreadyKnownError (err : option error) : bool :=
  match err with
  | None => false
  | Some err =>
      let msg := ToLower (error_text err) in
      Contains msg "already known" || Contains msg "nonce too low"
  end.

Section use_cases.
Context `{R : WithdrawalRepository} `{G : Signer} `{B : TransactionBroadcaster}.

(** The mark-broadcast transaction. *)
Definition finalize (withdrawal : Withdrawal) : M unit :=
  in_tx ("begin mark-broadcast transaction for withdrawal " +:+ w_ID withdrawal)
    ("commit mark-broadcast transaction for withdrawal " +:+ w_ID withdrawal)
    (wrapping ("mark withdrawal " +:+ w_ID withdrawal +:+ " broadcast")
       (MarkBroadcast (w_ID withdrawal))).

Definition sendAndFinalize (chain : Chain) (withdrawal : Withdrawal) : M unit :=
  let! db := committed_db in
  do! emit (EvSend (w_ID withdrawal) chain (w_SignedTx withdrawal) db) in
  let! sendErr := try (SendRawTransaction chain (w_SignedTx withdrawal)) in
  match err_of sendErr with
  | Some e =>
      if negb (isAlreadyKnownError (Some e))
      then throw (wrap ("broadcast withdrawal " +:+ w_ID withdrawal +:+ " transaction") e)
      else finalize withdrawal
  | None => finalize withdrawal
  end.

Definition with_signed (w : Withdrawal) (signedTx : bytes) (txHash : string) : Withdrawal :=
  mkWithdrawal (w_ID w) (w_CustomerID w) (w_Chain w) (w_Asset w) (w_Amount w)
    (w_DestinationAddress w) (w_Status w) (w_CreatedAt w) (w_ApprovedAt w) (w_ApprovedBy w)
    (w_ApprovalReason w) txHash (w_Nonce w) signedTx (w_StuckAlertedAt w).

Definition signAndSend (chain : Chain) (withdrawal : Withdrawal) (nonce : Z) : M unit :=
  let id := w_ID withdrawal in
  let! (digest, unsignedTx) :=
    wrapping ("build unsigned withdrawal " +:+ id +:+ " transaction")
      (BuildUnsignedWithdrawal chain (w_Asset withdrawal) nonce
         (w_DestinationAddress withdrawal) (w_Amount withdrawal)) in
  do! emit (EvSign id digest) in
  let! signature := wrapping ("sign withdrawal " +:+ id) (Sign chain digest) in
  let! (signedTx, txHash) :=
    wrapping ("assemble signed withdrawal " +:+ id +:+ " transaction")
      (lift_result (AssembleSignedTx unsignedTx signature)) in
  do! in_tx ("begin record-signed-tx transaction for withdrawal " +:+ id)
        ("commit record-signed-tx transaction for withdrawal " +:+ id)
        (wrapping ("record signed tx for withdrawal " +:+ id)
           (RecordSignedTx id txHash (hex_EncodeToString signedTx))) in
  sendAndFinalize chain (with_signed withdrawal signedTx txHash).

(** The claim transaction: it commits only when something was claimed. *)
Definition claim (chain : Chain) : M (option (Withdrawal * Z)) :=
  in_tx_out (wrap "begin claim transaction") (wrap "commit claim transaction")
    (let! o := wrapping "claim approved withdrawal" (ClaimApprovedWithdrawal chain) in
     match o with
     | None => ret (TxRollback None)
     | Some withdrawal =>
         let! nonce := lift_option (w_Nonce withdrawal)
           (ErrText ("claimed withdrawal " +:+ w_ID withdrawal +:+ " with no nonce allocated")) in
         ret (TxCommit (Some (withdrawal, nonce)))
     end).

Definition resume (chain : Chain) (withdrawal : Withdrawal) (nonce : Z) : M unit :=
  if String.eqb (w_SignedTx withdrawal) EmptyString
  then signAndSend chain withdrawal nonce
  else sendAndFinalize chain withdrawal.

Definition SignAndBroadcastWithdrawal_Execute (chain : Chain) (allowClaim : bool)
    : M (bool * option error) :=
  let! listed := try (in_tx_read "begin list-signed transaction"
    (wrapping "list signed withdrawals" (ListSignedWithdrawals chain))) in
  match listed with
  | Err e => ret (false, Some e)
  | Ok (withdrawal :: _) =>
      match w_Nonce withdrawal with
      | None => ret (false, Some (ErrText ("listed signed withdrawal " +:+ w_ID withdrawal
                                             +:+ " with no nonce allocated")))
      | Some nonce =>
          let! r := try (resume chain withdrawal nonce) in
          ret (true, err_of r)
      end
  | Ok [] =>
      if negb allowClaim then ret (false, None) else
      let! claimed := try (claim chain) in
      match claimed with
      | Err e => ret (false, Some e)
      | Ok None => ret (false, None)
      | Ok (Some (withdrawal, nonce)) =>
          let! r := try (signAndSend chain withdrawal nonce) in
          ret (true, err_of r)
      end
  end.

(** ** PollWithdrawalReceipts *)

Record PollWithdrawalReceiptsResult := mkPollResult {
  pr_Checked : nat; pr_Confirmed : nat; pr_Failed : nat;
}.

Definition settle (withdrawalID : string) (settleFn : string → M unit) : M unit :=
  in_tx "begin settlement transaction" "commit settlement transaction" (settleFn withdrawalID).

(** One iteration of the loop: the counters and the errors it adds. *)
Definition poll_one (chain : Chain) (w : Withdrawal)
    : M (PollWithdrawalReceiptsResult * list error) :=
  let! receipt := try (GetFinalizedReceipt chain (w_TxHash w)) in
  match receipt with
  | Err e =>
      ret (mkPollResult 1 0 0,
           [wrap ("get finalized receipt for withdrawal " +:+ w_ID w +:+ " (tx " +:+ w_TxHash w +:+ ")") e])
  | Ok (false, _) => ret (mkPollResult 1 0 0, [])
  | Ok (true, true) =>
      let! r := try (settle (w_ID w) SettleConfirmedWithdrawal) in
      match r with
      | Err e => ret (mkPollResult 1 0 0, [wrap ("settle confirmed withdrawal " +:+ w_ID w) e])
      | Ok _ => ret (mkPollResult 1 1 0, [])
      end
  | Ok (true, false) =>
      let! r := try (settle (w_ID w) SettleFailedWithdrawal) in
      match r with
      | Err e => ret (mkPollResult 1 0 0, [wrap ("settle failed withdrawal " +:+ w_ID w) e])
      | Ok _ => ret (mkPollResult 1 0 1, [])
      end
  end.

Definition poll_add (a b : PollWithdrawalReceiptsResult) : PollWithdrawalReceiptsResult :=
  mkPollResult (pr_Checked a + pr_Checked b) (pr_Confirmed a + pr_Confirmed b)
    (pr_Failed a + pr_Failed b).

Fixpoint poll_all (chain : Chain) (ws : list Withdrawal)
    : M (PollWithdrawalReceiptsResult * list error) :=
  match ws with
  | [] => ret (mkPollResult 0 0 0, [])
  | w :: ws =>
      let! (r, errs) := poll_one chain w in
      let! (r', errs') := poll_all chain ws in
      ret (poll_add r r', errs ++ errs')
  end.

Definition PollWithdrawalReceipts_Execute (chain : Chain)
    : M (PollWithdrawalReceiptsResult * option error) :=
  let! listed := try (in_tx_read "begin list transaction"
    (wrapping "list broadcast withdrawals" (ListBroadcastWithdrawals chain))) in
  match listed with
  | Err e => ret (mkPollResult 0 0 0, Some e)
  | Ok withdrawals =>
      let! (result, errs) := poll_all chain withdrawals in
      ret (result, errors_Join errs)
  end.

(** ** DetectStuckWithdrawals *)

Record DetectStuckWithdrawalsResult := mkStuckResult { ds_Checked : nat; ds_Alerted : nat }.

Definition markAlerted (withdrawalID : string) : M unit :=
  in_tx "begin mark-alerted transaction" "commit mark-alerted transaction"
    (MarkStuckAlerted withdrawalID).

Fixpoint alert_all (ws : list Withdrawal) : M (DetectStuckWithdrawalsResult * list error) :=
  match ws with
  | [] => ret (mkStuckResult 0 0, [])
  | w :: ws =>
      let! r := try (markAlerted (w_ID w)) in
      let '(alerted, errs) :=
        match r with
        | Err e => (0%nat, [wrap ("mark withdrawal " +:+ w_ID w +:+ " stuck-alerted") e])
        | Ok _ => (1%nat, [])
        end in
      let! (r', errs') := alert_all ws in
      ret (mkStuckResult (1 + ds_Checked r') (alerted + ds_Alerted r'), errs ++ errs')
  end.

Definition DetectStuckWithdrawals_Execute (chain : Chain) (olderThan : Z)
    : M (DetectStuckWithdrawalsResult * option error) :=
  let! listed := try (in_tx_read "begin list transaction"
    (wrapping "list stuck candidates" (ListStuckCandidates chain olderThan))) in
  match listed with
  | Err e => ret (mkStuckResult 0 0, Some e)
  | Ok candidates =>
      let! (result, errs) := alert_all candidates in
      ret (result, errors_Join errs)
  end.
End use_cases.
