(* ===== verification/Deposits.v ===== *)
(** * The deposit, unsupported-token and token-registry repositories

    src/internal/adapter/postgres/deposit_repo.go, unsupported_token_repo.go,
    token_registry.go and deposit_address_lister.go: what the watcher writes, and
    what each write does to the database. *)

From Stdlib Require Import ZArith Lia.
From stdpp Require Import prelude strings sorting gmap.
From S2P Require Import Prelude GoStd Domain Store Effects Ledger Withdrawals WithdrawalSpecs Ports.

(** ** Causes and events *)

Definition depositPendingEventType : string := "deposit.pending".
Definition depositCreditCauseType : string := "deposit_credit".
Definition depositCreditedEventType : string := "deposit.credited".
Definition depositOrphanedEventType : string := "deposit.orphaned".

(** SET state, updated_at. *)
Definition dr_transition (state : DepositState) (now : Z) (r : DepositRow) : DepositRow :=
  mkDepositRow (dr_id r) (dr_chain r) (dr_asset r) (dr_address r) (dr_tx_hash r) (dr_log_index r)
    (dr_amount r) (dr_block_number r) (dr_block_hash r) state (dr_observed_at r) now.

Definition update_deposits (P : DepositRow → Prop) `{∀ r, Decision (P r)} f : M nat :=
  tx_update_rows t_deposits set_deposits P f.

(** A [uint64] argument bound to a [bigint] column: pgx refuses values above 2^63 - 1. *)
Definition bind_bigint (z : Z) : M unit :=
  tx_exec (λ db, pg_require (is_bigint z) numeric_out_of_range (PgOk (tt, db))).

(** ** RecordObserved *)

Definition deposit_row (d : Deposit) : DepositRow :=
  mkDepositRow (dep_ID d) (dep_Chain d) (dep_Asset d) (dep_Address d) (dep_TxHash d)
    (dep_LogIndex d) (dep_Amount d) (dep_BlockNumber d) (Some (dep_BlockHash d)) (dep_State d)
    (dep_ObservedAt d) (dep_UpdatedAt d).

Definition DepositRepository_RecordObserved (deposit : Deposit) : M bool :=
  let! n := wrapping "insert deposit"
    (tx_exec (insert_deposit_on_conflict_do_nothing (deposit_row deposit))) in
  if decide (n = 0%nat) then ret false else
  do! write_outbox depositPendingEventType
    (depositPendingPayload (dep_ID deposit) (dep_Chain deposit) (dep_Asset deposit)
       (dep_Address deposit) (dep_TxHash deposit) (dep_LogIndex deposit)
       (big_String (dep_Amount deposit))) (dep_ObservedAt deposit) in
  ret true.

(** ** Promotions *)

Definition promotable (from : DepositState) (chain : Chain) (block : Z) (r : DepositRow) : Prop :=
  dr_state r = from ∧ dr_chain r = chain ∧ dr_block_number r <= block.
#[export] Instance promotable_dec from chain block r : Decision (promotable from chain block r).
Proof. unfold promotable. apply _. Defined.

Definition DepositRepository_PromoteToSafe (chain : Chain) (safeBlock : Z) : M nat :=
  let! now := now in
  wrapping "promote deposits to safe"
    (do! bind_bigint safeBlock in
     update_deposits (promotable DepositObserved chain safeBlock) (dr_transition DepositSafe now)).

Definition DepositRepository_PromoteToFinalized (chain : Chain) (finalizedBlock : Z) : M nat :=
  let! now := now in
  wrapping "promote deposits to finalized"
    (do! bind_bigint finalizedBlock in
     update_deposits (promotable DepositSafe chain finalizedBlock)
       (dr_transition DepositFinalized now)).

(** ** ListPendingDeposits and OrphanDeposit *)

Definition maxPendingDepositsPerReorgCheck : nat := 500.

Definition block_le (a b : DepositRow) : Prop := dr_block_number a <= dr_block_number b.
#[export] Instance block_le_dec a b : Decision (block_le a b).
Proof. unfold block_le. apply _. Defined.

Definition pending_rows (chain : Chain) (db : DB) : list DepositRow :=
  take maxPendingDepositsPerReorgCheck
    (merge_sort block_le
       (filter (λ r, dr_chain r = chain ∧ dr_state r ∈ [DepositObserved; DepositSafe])
          (t_deposits db))).

Definition deposit_of_row (r : DepositRow) : Deposit :=
  mkDeposit (dr_id r) (dr_chain r) (dr_asset r) (dr_address r) (dr_tx_hash r) (dr_log_index r)
    (dr_amount r) (dr_block_number r) (default EmptyString (dr_block_hash r)) (dr_state r)
    (dr_observed_at r) (dr_updated_at r).

Definition DepositRepository_ListPendingDeposits (chain : Chain) : M (list Deposit) :=
  let! rows := wrapping "query pending deposits" (tx_query (pending_rows chain)) in
  do! mapM (λ r, scan_big "deposit amount" (dr_amount r)) rows in
  ret (map deposit_of_row rows).

Definition DepositRepository_OrphanDeposit (depositID : string) : M unit :=
  let! now := now in
  let! n := wrapping ("orphan deposit " +:+ depositID)
    (update_deposits (λ r, dr_id r = depositID) (dr_transition DepositOrphaned now)) in
  if decide (n = 0%nat) then throw (ErrText ("orphan deposit " +:+ depositID +:+ ": no such deposit"))
  else write_outbox depositOrphanedEventType (depositOrphanedPayload depositID) now.

(** ** CreditFinalizedDeposits *)

Definition maxCreditsPerPoll : nat := 500.

Record eligibleCreditDeposit := mkEligible {
  el_depositID : string; el_chain : Chain; el_asset : Asset; el_amount : Z;
  el_customerID : string; el_customerAccount : string; el_floatAccount : string;
}.

(** The policy join, oldest block first. *)
Definition credit_join (db : DB) (d : DepositRow) : list eligibleCreditDeposit :=
  filter (λ da, da_address da = dr_address d) (t_deposit_addresses db) ≫= λ da,
  filter (λ cp, cp_chain cp = dr_chain d ∧ cp_asset cp = dr_asset d ∧
                cp_credit_tier cp = "finalized"%string) (t_crediting_policy db) ≫= λ _,
  filter (is_account (Some (da_customer da)) (dr_chain d) (dr_asset d) AccountTypeAvailable)
    (t_accounts db) ≫= λ cust,
  map (λ fl, mkEligible (dr_id d) (dr_chain d) (dr_asset d) (dr_amount d) (da_customer da)
               (ac_id cust) (ac_id fl))
    (filter (is_account None (dr_chain d) (dr_asset d) AccountTypeAvailable) (t_accounts db)).

Definition eligible_credits (chain : Chain) (db : DB) : list eligibleCreditDeposit :=
  take maxCreditsPerPoll
    (merge_sort block_le
       (filter (λ r, dr_chain r = chain ∧ dr_state r = DepositFinalized) (t_deposits db))
     ≫= credit_join db).

(** One iteration of the loop. *)
Definition credit_one (now : Z) (d : eligibleCreditDeposit) : M unit :=
  let! amount := scan_big "deposit amount" (el_amount d) in
  if amount <=? 0
  then throw (ErrText ("deposit " +:+ el_depositID d +:+ " has a non-positive amount"))
  else
  let! journalEntryID := newUUID "generate journal entry id" in
  do! wrapping ("insert deposit_credit journal entry for deposit " +:+ el_depositID d)
    (tx_insert (insert_journal_entry
       (mkJournalEntry journalEntryID depositCreditCauseType (el_depositID d) now))) in
  do! write_postings journalEntryID (el_floatAccount d) (el_customerAccount d) amount now in
  let! _ := wrapping ("transition deposit " +:+ el_depositID d +:+ " to credited")
    (update_deposits (λ r, dr_id r = el_depositID d) (dr_transition DepositCredited now)) in
  write_outbox depositCreditedEventType
    (depositCreditedPayload (el_depositID d) journalEntryID (el_chain d) (el_asset d)
       (big_String amount) (el_customerID d)) now.

Definition DepositRepository_CreditFinalizedDeposits (chain : Chain) : M nat :=
  let! eligible := wrapping "query finalized deposits eligible for crediting"
    (tx_query (eligible_credits chain)) in
  let! now := now in
  do! forM_ eligible (credit_one now) in
  ret (length eligible).

(** ** Cursors *)

Definition find_cursor (db : DB) (chain : Chain) (tier : string) : option CursorRow :=
  List.find (λ r, bool_decide (cr_chain r = chain ∧ cr_tier r = tier)) (t_watcher_cursors db).

(** 0 when no cursor has been set. *)
Definition cursor_of (db : DB) (chain : Chain) (tier : string) : Z :=
  default 0 (option_map cr_last_block (find_cursor db chain tier)).

Definition DepositRepository_Cursor (chain : Chain) (tier : string) : M Z :=
  wrapping "read cursor" (tx_query (λ db, cursor_of db chain tier)).

(** INSERT ... ON CONFLICT (chain, tier) DO UPDATE. *)
Definition upsert_cursor (r : CursorRow) (db : DB) : DB :=
  set_watcher_cursors
    (if decide (Exists (λ x, cr_chain x = cr_chain r ∧ cr_tier x = cr_tier r) (t_watcher_cursors db))
     then update_where (λ x, cr_chain x = cr_chain r ∧ cr_tier x = cr_tier r) (λ _, r)
            (t_watcher_cursors db)
     else t_watcher_cursors db ++ [r]) db.

Definition DepositRepository_SetCursor (chain : Chain) (tier : string) (block : Z) : M unit :=
  let! now := now in
  wrapping "set cursor"
    (do! bind_bigint block in
     tx_update (upsert_cursor (mkCursorRow chain tier block now))).

#[export] Instance postgres_DepositRepository : DepositRepository := {
  RecordObserved := DepositRepository_RecordObserved;
  PromoteToSafe := DepositRepository_PromoteToSafe;
  PromoteToFinalized := DepositRepository_PromoteToFinalized;
  CreditFinalizedDeposits := DepositRepository_CreditFinalizedDeposits;
  ListPendingDeposits := DepositRepository_ListPendingDeposits;
  OrphanDeposit := DepositRepository_OrphanDeposit;
  Cursor := DepositRepository_Cursor;
  SetCursor := DepositRepository_SetCursor;
}.

(** ** Unsupported tokens *)

Definition UnsupportedTokenRepository_RecordObservation (o : UnsupportedTokenObservation) : M bool :=
  let! n := wrapping "insert unsupported token observation"
    (tx_exec (insert_unsupported_on_conflict_do_nothing o)) in
  ret (negb (n =? 0)%nat).

Definition maxUnsupportedObservationsPerList : nat := 500.

Definition newest_le (a b : UnsupportedTokenObservation) : Prop := un_ObservedAt b <= un_ObservedAt a.
#[export] Instance newest_le_dec a b : Decision (newest_le a b).
Proof. unfold newest_le. apply _. Defined.

Definition UnsupportedTokenRepository_ListObservations : M (list UnsupportedTokenObservation) :=
  let! rows := wrapping "query unsupported token observations"
    (pool_query (λ db, take maxUnsupportedObservationsPerList (merge_sort newest_le (t_unsupported db)))) in
  do! mapM (λ r, scan_big "unsupported token observation amount" (un_Amount r)) rows in
  ret rows.

#[export] Instance postgres_UnsupportedTokenRepository : UnsupportedTokenRepository := {
  RecordObservation := UnsupportedTokenRepository_RecordObservation;
  ListObservations := UnsupportedTokenRepository_ListObservations;
}.

(** ** The token registry and the known addresses *)

(** An asset the code does not know is refused, not cast. *)
Fixpoint registry_of (rows : list TokenRow) (registry : gmap string Asset)
    : result (gmap string Asset) :=
  match rows with
  | [] => Ok registry
  | r :: rows =>
      if String.eqb (tk_asset r) AssetUSDC
      then registry_of rows (<[ToLower (tk_contract r) := tk_asset r]> registry)
      else Err (ErrText ("token_registry row for " +:+ tk_contract r +:+ " has unrecognized asset"))
  end.

Definition TokenRegistry_ListTokenRegistry (chain : Chain) : M (gmap string Asset) :=
  let! rows := wrapping "query token registry"
    (pool_query (λ db, filter (λ r, tk_chain r = chain) (t_token_registry db))) in
  lift_result (registry_of rows ∅).

#[export] Instance postgres_TokenRegistry : TokenRegistryLister :=
  { ListTokenRegistry := TokenRegistry_ListTokenRegistry }.

(** One statement on the pool: its own transaction, after what others committed. *)
Definition pool_exec {A} (f : DB → pgres (A * DB)) : M A := step (λ c s,
  let db := env_other (cx_env c) (st_tick s) (st_db s) in
  match f db with
  | PgOk (a, db') => (Ok a, set_db db' s)
  | PgFail code => (Err (ErrPg code "constraint violation"), set_db db s)
  end).

Definition same_token (r x : TokenRow) : Prop := tk_chain x = tk_chain r ∧ tk_contract x = tk_contract r.
#[export] Instance same_token_dec r x : Decision (same_token r x).
Proof. unfold same_token. apply _. Defined.

Definition upsert_token (r : TokenRow) (db : DB) : pgres (unit * DB) :=
  pg_require (known_chain (tk_chain r)) check_violation $
  pg_require (hex_text 40 (tk_contract r) ∧ tk_contract r = ToLower (tk_contract r)) check_violation $
  pg_require (tk_asset r = AssetUSDC) check_violation $
  PgOk (tt, set_token_registry
    (if decide (Exists (same_token r) (t_token_registry db))
     then update_where (same_token r) (λ _, r) (t_token_registry db)
     else t_token_registry db ++ [r]) db).

Definition TokenRegistry_UpsertToken (chain contractAddress asset : string) : M unit :=
  wrapping "upsert token registry row"
    (pool_exec (upsert_token (mkTokenRow chain (ToLower contractAddress) asset))).

Definition DepositAddressLister_ListDepositAddresses : M (list string) :=
  wrapping "query deposit addresses" (pool_query (λ db, map da_address (t_deposit_addresses db))).

#[export] Instance postgres_DepositAddressLister : DepositAddressLister :=
  { ListDepositAddresses := DepositAddressLister_ListDepositAddresses }.
