(* ===== verification/DepositSpecs.v ===== *)
(** * What each deposit operation does to the database

    The relation each mutating operation of Deposits.v refines. *)

From Stdlib Require Import ZArith Lia.
From stdpp Require Import prelude strings sorting gmap.
From S2P Require Import Prelude GoStd Domain Store Effects Ledger Withdrawals WithdrawalSpecs.
From S2P Require Import Ports Deposits.

Lemma bind_bigint_Ok z c s u s' : bind_bigint z c s = (Ok u, s') → is_bigint z ∧ s' = bump s.
Proof.
  unfold bind_bigint. intros (db' & Hp & -> & _)%tx_exec_Ok.
  apply pg_require_ok in Hp as [Hz Hp]. split; [done|]. simplify_eq. by destruct s.
Qed.

Ltac m_ext ::=
  match goal with
  | H : scan_big _ _ _ _ = (Ok _, _) |- _ => apply scan_big_Ok in H; destruct H; subst
  | H : lock_withdrawal _ _ _ = (Ok _, _) |- _ =>
      apply lock_withdrawal_Ok in H; destruct H as (? & ? & ?); subst
  | H : advance_nonce _ _ _ _ = (Ok _, _) |- _ => apply advance_nonce_Ok in H; subst
  | H : bind_bigint _ _ _ = (Ok _, _) |- _ => apply bind_bigint_Ok in H; destruct H as [? ?]; subst
  | H : update_deposits _ _ _ _ = (Ok _, _) |- _ => unfold update_deposits in H
  end.

(** ** RecordObserved: a new row only when no live row has the key *)

Definition observed (d : Deposit) (db : DB) (inserted : bool) (db' : DB) : Prop :=
  if inserted then
    ∃ oid, insert_deposit_on_conflict_do_nothing (deposit_row d) db =
             PgOk (1%nat, set_deposits (t_deposits db ++ [deposit_row d]) db) ∧
      db' = set_outbox_events
              (t_outbox_events db ++
               [mkOutboxRow oid depositPendingEventType
                  (depositPendingPayload (dep_ID d) (dep_Chain d) (dep_Asset d) (dep_Address d)
                     (dep_TxHash d) (dep_LogIndex d) (big_String (dep_Amount d))) (dep_ObservedAt d)])
              (set_deposits (t_deposits db ++ [deposit_row d]) db)
  else db' = db ∧
    dr_key (deposit_row d) ∈ map dr_key (filter (λ r, dr_state r ≠ DepositOrphaned) (t_deposits db)).

Lemma insert_deposit_cases r db n db' :
  insert_deposit_on_conflict_do_nothing r db = PgOk (n, db') →
  (n = 0%nat ∧ db' = db ∧
     dr_key r ∈ map dr_key (filter (λ d, dr_state d ≠ DepositOrphaned) (t_deposits db))) ∨
  (n = 1%nat ∧ db' = set_deposits (t_deposits db ++ [r]) db ∧
     dr_key r ∉ map dr_key (filter (λ d, dr_state d ≠ DepositOrphaned) (t_deposits db)) ∧
     dr_id r ∉ map dr_id (t_deposits db) ∧ 0 < dr_amount r ∧ known_chain (dr_chain r) ∧
     known_asset (dr_asset r)).
Proof.
  unfold insert_deposit_on_conflict_do_nothing. intros H.
  repeat (apply pg_require_ok in H; let C := fresh "C" in destruct H as [C H]).
  destruct (decide _) as [Hin|Hin] in H; [injection H as <- <-; by left|].
  apply pg_require_ok in H as [Hid H]. injection H as <- <-. right. split_and!; done.
Qed.

Lemma RecordObserved_refines d :
  tx_refines (DepositRepository_RecordObserved d) (observed d).
Proof.
  intros c s b s' _ H. unfold DepositRepository_RecordObserved in H. m_inv.
  - match goal with Hi : insert_deposit_on_conflict_do_nothing _ _ = _ |- _ =>
      apply insert_deposit_cases in Hi as [(_ & -> & Hk)|(? & _)]; [|done] end. done.
  - m_outbox. split; [|done].
    match goal with Hi : insert_deposit_on_conflict_do_nothing _ _ = _ |- _ =>
      pose proof Hi as Hi'; apply insert_deposit_cases in Hi' as [(? & _)|(-> & -> & _)]; [done|] end.
    eexists. split; [done|]. done.
Qed.

(** ** Promotions *)

Definition promoted (from to : DepositState) (chain : Chain) (block : Z)
    (db : DB) (n : nat) (db' : DB) : Prop :=
  ∃ now, is_bigint block ∧ n = rows_affected (promotable from chain block) (t_deposits db) ∧
    db' = set_deposits
            (update_where (promotable from chain block) (dr_transition to now) (t_deposits db)) db.

Lemma PromoteToSafe_refines chain block :
  tx_refines (DepositRepository_PromoteToSafe chain block)
    (promoted DepositObserved DepositSafe chain block).
Proof.
  intros c s n s' _ H. unfold DepositRepository_PromoteToSafe in H. m_inv.
  split; [|done]. by eexists.
Qed.

Lemma PromoteToFinalized_refines chain block :
  tx_refines (DepositRepository_PromoteToFinalized chain block)
    (promoted DepositSafe DepositFinalized chain block).
Proof.
  intros c s n s' _ H. unfold DepositRepository_PromoteToFinalized in H. m_inv.
  split; [|done]. by eexists.
Qed.

(** ** OrphanDeposit *)

Definition orphaned (id : string) (db : DB) (_ : unit) (db' : DB) : Prop :=
  ∃ now oid, id ∈ map dr_id (t_deposits db) ∧
    db' = set_outbox_events
            (t_outbox_events db ++ [mkOutboxRow oid depositOrphanedEventType (depositOrphanedPayload id) now])
            (set_deposits
               (update_where (λ r, dr_id r = id) (dr_transition DepositOrphaned now) (t_deposits db)) db).

Lemma OrphanDeposit_refines id : tx_refines (DepositRepository_OrphanDeposit id) (orphaned id).
Proof.
  intros c s u s' _ H. unfold DepositRepository_OrphanDeposit in H. m_inv. m_outbox.
  split; [|done]. rename select (_ ≠ 0%nat) into Hn. apply rows_affected_pos in Hn as (r & Hr & <-).
  eexists _, _. split; [by apply list_elem_of_fmap_2|]. done.
Qed.

(** ** One credit *)

Definition credited (e : eligibleCreditDeposit) (db : DB) (_ : unit) (db' : DB) : Prop :=
  ∃ je db1 now oid, 0 < el_amount e ∧
    je_cause je = (depositCreditCauseType, el_depositID e) ∧
    posts db je (el_floatAccount e) (el_customerAccount e) (el_amount e) db1 ∧
    only_journal_differs db db1 ∧
    db' = set_outbox_events
            (t_outbox_events db ++
             [mkOutboxRow oid depositCreditedEventType
                (depositCreditedPayload (el_depositID e) (je_id je) (el_chain e) (el_asset e)
                   (big_String (el_amount e)) (el_customerID e)) now])
            (set_deposits
               (update_where (λ r, dr_id r = el_depositID e) (dr_transition DepositCredited now)
                  (t_deposits db)) db1).

Lemma credit_one_refines now e : tx_refines (credit_one now e) (credited e).
Proof.
  intros c s u s' _ H. unfold credit_one in H. m_inv. bool_to_prop. movement. m_outbox.
  split; [|done]. pose proof (only_journal_other _ _ Honly) as Hsame. destruct_and! Hsame.
  eexists _, _, _, _. split_and!; try done; cbn; [done|].
  match goal with E : t_deposits _ = _, E' : t_outbox_events _ = _ |- _ =>
    rewrite <-E, <-E' end. reflexivity.
Qed.

(** Sequences of transaction steps. *)
Fixpoint steps_over {X} (R : X → DB → unit → DB → Prop) (xs : list X) (db db' : DB) : Prop :=
  match xs with
  | [] => db' = db
  | x :: xs => ∃ db1, R x db tt db1 ∧ steps_over R xs db1 db'
  end.

Lemma forM_refines {X} (f : X → M unit) R l :
  (∀ x, tx_refines (f x) (R x)) → tx_refines (forM_ l f) (λ db _ db', steps_over R l db db').
Proof.
  intros Hf. induction l as [|x l IH]; intros c s u s' Hc H; simpl in H; m_inv; [done|].
  match goal with H1 : f x _ _ = _, H2 : forM_ l f _ _ = _ |- _ =>
    apply Hf in H1 as [HR1 HT1]; [|done]; apply IH in H2 as [HR2 HT2]; [|done] end.
  split; [|congruence]. destruct x0. simpl. eauto.
Qed.

Lemma CreditFinalizedDeposits_refines chain :
  tx_refines (DepositRepository_CreditFinalizedDeposits chain)
    (λ db n db', n = length (eligible_credits chain db) ∧
                 steps_over credited (eligible_credits chain db) db db').
Proof.
  intros c s n s' Hc H. unfold DepositRepository_CreditFinalizedDeposits in H. m_straight.
  match goal with Hf : forM_ _ _ _ _ = _ |- _ =>
    apply (forM_refines _ credited) in Hf as [HR HT]; [|intros; apply credit_one_refines|done] end.
  done.
Qed.

(** ** Cursors and observations *)

Lemma SetCursor_refines chain tier block :
  tx_refines (DepositRepository_SetCursor chain tier block)
    (λ db _ db', ∃ now, is_bigint block ∧ db' = upsert_cursor (mkCursorRow chain tier block now) db).
Proof.
  intros c s u s' _ H. unfold DepositRepository_SetCursor in H. m_inv. split; [|done]. eauto.
Qed.

Lemma Cursor_refines chain tier :
  tx_refines (DepositRepository_Cursor chain tier)
    (λ db n db', n = cursor_of db chain tier ∧ db' = db).
Proof. intros c s n s' _ H. unfold DepositRepository_Cursor in H. by m_inv. Qed.

Definition observation_recorded (o : UnsupportedTokenObservation) (db : DB) (b : bool) (db' : DB)
    : Prop :=
  if b then db' = set_unsupported (t_unsupported db ++ [o]) db ∧ un_key o ∉ map un_key (t_unsupported db)
  else db' = db ∧ un_key o ∈ map un_key (t_unsupported db).

Lemma RecordObservation_refines o :
  tx_refines (UnsupportedTokenRepository_RecordObservation o) (observation_recorded o).
Proof.
  intros c s b s' _ H. unfold UnsupportedTokenRepository_RecordObservation in H. m_straight.
  split; [|done].
  match goal with Hi : insert_unsupported_on_conflict_do_nothing _ _ = _ |- _ =>
    unfold insert_unsupported_on_conflict_do_nothing in Hi;
    repeat (apply pg_require_ok in Hi; destruct Hi as [_ Hi]);
    destruct (decide _) in Hi; [|apply pg_require_ok in Hi as [_ Hi]]; injection Hi as <- <- end;
    done.
Qed.
