(* ===== verification/Customers.v ===== *)
(** * Customers: provisioning, deposit addresses, balances

    src/internal/core/create_customer.go, deposit_address.go,
    src/internal/adapter/postgres/customer_repo.go, customer_reader.go,
    balance_repo.go and src/internal/adapter/evm/address.go. The UUID parser and
    go-ethereum's CREATE2 helper are parameters. *)

From Stdlib Require Import ZArith Lia.
From stdpp Require Import prelude strings sorting gmap.
From S2P Require Import Prelude GoStd Domain Store Effects Ledger Ports.

(** ** deposit_address.go *)

Fixpoint zero_bytes (n : nat) : bytes :=
  match n with O => EmptyString | S n => String Ascii.zero (zero_bytes n) end.

Section addresses.
(** [uuid.Parse]: the 16 bytes of a textual UUID. *)
Context (uuid_Parse : string → option bytes).

Definition customerSalt (customerID : string) : result bytes :=
  match uuid_Parse customerID with
  | Some id => Ok (zero_bytes 16 +:+ id)
  | None => Err (ErrText "parse customer id as uuid")
  end.

(** ** address.go: [crypto.CreateAddress2] and [Address.Hex] *)
Context (CreateAddress2 : bytes → bytes → bytes → bytes) (address_Hex : bytes → string).

Definition create2Address (deployer salt initCodeHash : bytes) : bytes :=
  CreateAddress2 deployer salt initCodeHash.

Definition mustHexToHash32 (s : string) : option bytes :=
  match hex_DecodeString s with
  | Some b => if (String.length b =? 32)%nat then Some b else None
  | None => None
  end.

Definition canonicalDeployerAddress : bytes :=
  default EmptyString (hex_DecodeString "4e59b44847B379578588920cA78FbF26c0B4956C").
Definition factorySalt : bytes := zero_bytes 32.
Definition forwarderInitCodeHash : bytes := default EmptyString
  (mustHexToHash32 "8105f1890b2e4462d702e4b7983b3e7b50b71b24318eb817cd5e6dc52cfd455c").
Definition factoryInitCodeHash : bytes := default EmptyString
  (mustHexToHash32 "9f6b39d1bf0f757756561f234c073c8814754cc663f94ea4492dc77cc9af5996").

Definition platformFactoryAddress : bytes :=
  create2Address canonicalDeployerAddress factorySalt factoryInitCodeHash.

Definition evm_DeriveAddress (salt : bytes) : result string :=
  Ok (address_Hex (create2Address platformFactoryAddress salt forwarderInitCodeHash)).

Definition evm_DepositAddressDeriver : DepositAddressDeriver :=
  {| DeriveAddress := evm_DeriveAddress |}.

(** ** create_customer.go *)

Definition account_types : list AccountType := [AccountTypeAvailable; AccountTypeHold].

Definition new_account (customerID : string) (now : Z) (key : Chain * Asset * AccountType) : M Account :=
  let '(ch, a, t) := key in
  let! accountID := newUUID "generate account id" in
  ret (mkAccount accountID customerID ch a t now).

Definition CreateCustomer_Execute `{CustomerRepository} `{DepositAddressDeriver} : M Customer :=
  let! now := now in
  let! customerID := newUUID "generate customer id" in
  let! salt := wrapping "compute salt for generated customer id"
    (lift_result (customerSalt customerID)) in
  let! depositAddress := wrapping "derive deposit address" (lift_result (DeriveAddress salt)) in
  let customer := mkCustomer customerID now depositAddress in
  let! accounts := mapM (new_account customerID now)
    (SupportedChainAssetPairs ≫= λ '(ch, a), map (λ t, (ch, a, t)) account_types) in
  do! CreateCustomer customer accounts depositAddress in
  ret customer.
End addresses.

(** ** customer_repo.go *)

Definition account_row (a : Account) : AccountRow :=
  mkAccountRow (acct_ID a) (Some (acct_CustomerID a)) (acct_Chain a) (acct_Asset a) (acct_Type a)
    (acct_CreatedAt a).

Definition CustomerRepository_CreateCustomer (customer : Customer) (accounts : list Account)
    (depositAddress : string) : M unit :=
  do! wrapping "insert customer"
    (tx_insert (insert_customer (mkCustomerRow (cust_ID customer) (cust_CreatedAt customer)))) in
  do! forM_ accounts (λ acc, wrapping "insert account or deposit address"
    (tx_insert (insert_account (account_row acc)))) in
  wrapping "insert account or deposit address" (tx_insert (insert_deposit_address
    (mkDepositAddressRow (cust_ID customer) depositAddress (cust_CreatedAt customer)))).

#[export] Instance postgres_CustomerRepository : CustomerRepository :=
  { CreateCustomer := CustomerRepository_CreateCustomer }.

(** ** customer_reader.go *)

Definition customer_join (db : DB) (customerID : string) : option Customer :=
  head (filter (λ c, cu_id c = customerID) (t_customers db) ≫= λ c,
        map (λ d, mkCustomer (cu_id c) (cu_created_at c) (da_address d))
          (filter (λ d, da_customer d = cu_id c) (t_deposit_addresses db))).

Definition CustomerReader_GetCustomer (customerID : string) : M Customer :=
  let! o := wrapping "query customer" (pool_query (λ db, customer_join db customerID)) in
  lift_option o (ErrIs ErrCustomerNotFound).

#[export] Instance postgres_CustomerReader : CustomerReader :=
  { GetCustomer := CustomerReader_GetCustomer }.

(** ** balance_repo.go *)

Definition customer_exists (db : DB) (customerID : string) : bool :=
  bool_decide (customerID ∈ map cu_id (t_customers db)).

Definition balance_le (a b : AccountRow) : Prop :=
  (ac_chain a ≠ ac_chain b ∧ str_le (ac_chain a) (ac_chain b)) ∨
  (ac_chain a = ac_chain b ∧ str_le (ac_asset a) (ac_asset b)).
#[export] Instance balance_le_dec a b : Decision (balance_le a b).
Proof. unfold balance_le. apply _. Defined.

(** The GROUP BY (chain, asset) of a customer's available accounts: one group per
    account, since (customer, chain, asset, type) is unique. *)
Definition balance_rows (db : DB) (customerID : string) : list (Chain * Asset * Z) :=
  map (λ a, (ac_chain a, ac_asset a, sum_postings db (ac_id a)))
    (merge_sort balance_le
       (filter (λ a, ac_customer a = Some customerID ∧ ac_type a = AccountTypeAvailable)
          (t_accounts db))).

Definition BalanceRepository_CustomerBalances (customerID : string) : M (list AccountBalance) :=
  let! exists_ := wrapping "check customer exists"
    (pool_query (λ db, customer_exists db customerID)) in
  if negb exists_ then throw (ErrIs ErrCustomerNotFound) else
  let! rows := wrapping "query balances" (pool_query (λ db, balance_rows db customerID)) in
  mapM (λ '(ch, a, sum), let! amount := scan_big "balance amount" sum in
                         ret (mkAccountBalance ch a amount)) rows.

#[export] Instance postgres_BalanceRepository : BalanceRepository :=
  { CustomerBalances := BalanceRepository_CustomerBalances }.

(** ** What provisioning does *)

Definition fresh_accounts (rows : list AccountRow) (old : list AccountRow) : Prop :=
  (NoDup (map ac_id old) → NoDup (map ac_id (old ++ rows))) ∧
  (∀ a b, a ∈ rows → b ∈ old → ¬ same_account b a) ∧
  (∀ a b, a ∈ rows → b ∈ rows → same_account a b → a = b).

Lemma insert_accounts_Ok accounts c s u s' :
  forM_ accounts (λ acc, wrapping "insert account or deposit address"
    (tx_insert (insert_account (account_row acc)))) c s = (Ok u, s') →
  st_db s' = set_accounts (t_accounts (st_db s) ++ map account_row accounts) (st_db s) ∧
  st_trace s' = st_trace s ∧
  fresh_accounts (map account_row accounts) (t_accounts (st_db s)).
Proof.
  revert s. induction accounts as [|a l IH]; intros s H; simpl in H; m_inv.
  - simpl. rewrite app_nil_r. split_and!; [by destruct (st_db s)|done|].
    unfold fresh_accounts. rewrite app_nil_r. set_solver.
  - match goal with Hi : insert_account _ _ = _ |- _ =>
      pose proof (insert_account_eq _ _ _ Hi) as E; unfold insert_account in Hi;
      repeat (apply pg_require_ok in Hi; let C := fresh "C" in destruct Hi as [C Hi]); clear Hi end.
    subst. match goal with Hr : forM_ _ _ _ _ = _ |- _ => apply IH in Hr as (E1 & E2 & F1 & F2 & F3) end.
    simpl in *. split_and!; [by rewrite E1, <-app_assoc|done|].
    rewrite Forall_forall in C0. unfold fresh_accounts.
    split_and!.
    + intros Hnd. rewrite (cons_middle (account_row a)), app_assoc. apply F1.
      rewrite map_app. by apply NoDup_snoc.
    + intros p q [->|Hp]%elem_of_cons Hq; [by apply C0|]. apply F2; [done|set_solver].
    + intros p q [->|Hp]%elem_of_cons [->|Hq]%elem_of_cons Hs; [done|..|by apply F3].
      * exfalso. eapply (F2 q (account_row a)); [done|set_solver|done].
      * exfalso. eapply (F2 p (account_row a)); [done|set_solver|].
        unfold same_account in *. naive_solver.
Qed.

Definition provisioned (customer : Customer) (accounts : list Account) (address : string)
    (db : DB) (_ : unit) (db' : DB) : Prop :=
  let address_row := mkDepositAddressRow (cust_ID customer) address (cust_CreatedAt customer) in
  cust_ID customer ∉ map cu_id (t_customers db) ∧
  fresh_accounts (map account_row accounts) (t_accounts db) ∧
  cust_ID customer ∉ map da_customer (t_deposit_addresses db) ∧
  address ∉ map da_address (t_deposit_addresses db) ∧
  hex_text 40 address ∧
  db' = set_deposit_addresses (t_deposit_addresses db ++ [address_row])
          (set_accounts (t_accounts db ++ map account_row accounts)
             (set_customers (t_customers db ++ [mkCustomerRow (cust_ID customer) (cust_CreatedAt customer)]) db)).

Lemma CreateCustomer_refines customer accounts address :
  tx_refines (CustomerRepository_CreateCustomer customer accounts address)
    (provisioned customer accounts address).
Proof.
  intros c s u s' _ H. unfold CustomerRepository_CreateCustomer in H. m_straight.
  match goal with Hf : forM_ _ _ _ _ = _ |- _ => apply insert_accounts_Ok in Hf as (E1 & E2 & HF) end.
  insert_eqs. cbn in *.
  match goal with Hi : insert_customer _ _ = _ |- _ =>
    unfold insert_customer in Hi; apply pg_require_ok in Hi as [Hc _] end.
  match goal with Hi : insert_deposit_address _ _ = _ |- _ =>
    unfold insert_deposit_address in Hi;
    repeat (apply pg_require_ok in Hi; let C := fresh "D" in destruct Hi as [C Hi]); clear Hi end.
  rewrite E1 in *. cbn in *. split; [|done]. split_and!; try done; apply HF.
Qed.

(** ** A new customer *)

Lemma new_accounts_keys customerID t keys c s accounts s' :
  mapM (new_account customerID t) keys c s = (Ok accounts, s') →
  st_db s' = st_db s ∧ map (λ a, (acct_Chain a, acct_Asset a, acct_Type a)) accounts = keys ∧
  Forall (λ a, acct_CustomerID a = customerID) accounts.
Proof.
  revert s accounts. induction keys as [|[[ch a] ty] keys IH]; intros s accounts H; simpl in H; m_straight;
    [by split_and!|].
  match goal with H1 : mapM _ _ _ _ = _ |- _ => apply IH in H1 as (E & Ek & Hall) end. cbn in E.
  split_and!; [done|simpl; by rewrite Ek|by constructor].
Qed.

(** Provisioning. A created customer gets exactly one available and one hold account
    for each supported chain and asset, and the one deposit address derived from its
    id (the id's 16 bytes, left-padded to 32), which no other customer has. *)
Theorem customer_provisioned `{DD : DepositAddressDeriver} (uuid_Parse : string → option bytes)
    c s cust s' :
  runs_in_tx c → CreateCustomer_Execute uuid_Parse c s = (Ok cust, s') →
  (∃ id, uuid_Parse (cust_ID cust) = Some id ∧
     DeriveAddress (zero_bytes 16 +:+ id) = Ok (cust_DepositAddress cust)) ∧
  (∃ rows, t_accounts (st_db s') = t_accounts (st_db s) ++ rows ∧
     map (λ r, (ac_chain r, ac_asset r, ac_type r)) rows =
       (SupportedChainAssetPairs ≫= λ '(ch, a), [(ch, a, AccountTypeAvailable); (ch, a, AccountTypeHold)]) ∧
     Forall (λ r, ac_customer r = Some (cust_ID cust)) rows) ∧
  t_customers (st_db s') = t_customers (st_db s) ++ [mkCustomerRow (cust_ID cust) (cust_CreatedAt cust)] ∧
  t_deposit_addresses (st_db s') = t_deposit_addresses (st_db s) ++
    [mkDepositAddressRow (cust_ID cust) (cust_DepositAddress cust) (cust_CreatedAt cust)] ∧
  cust_ID cust ∉ map cu_id (t_customers (st_db s)) ∧
  cust_DepositAddress cust ∉ map da_address (t_deposit_addresses (st_db s)).
Proof.
  intros Hc H. unfold CreateCustomer_Execute in H.
  apply bind_Ok in H as (t & s1 & Ht & H). apply now_Ok in Ht as ->.
  apply bind_Ok in H as (customerID & s2 & Hu & H). apply newUUID_Ok in Hu as ->.
  apply bind_Ok in H as (salt & s3 & Hs & H). apply wrapping_Ok, lift_result_Ok in Hs as [Hs ->].
  apply bind_Ok in H as (address & s4 & Ha & H). apply wrapping_Ok, lift_result_Ok in Ha as [Ha ->].
  apply bind_Ok in H as (accounts & s5 & Hacc & H). apply new_accounts_keys in Hacc as (E & Ek & Hall).
  apply bind_Ok in H as (u & s6 & Hcr & H). apply ret_Ok in H as [-> ->].
  apply CreateCustomer_refines in Hcr as [(Hnew & _ & _ & Haddr & _ & ->) _]; [|done].
  rewrite E in *. cbn in *.
  unfold customerSalt in Hs. destruct (uuid_Parse _) as [id|] eqn:Eid; [|done]. injection Hs as <-.
  split_and!; try done; [by exists id|]. exists (map account_row accounts). split_and!.
  - done.
  - rewrite map_map. exact Ek.
  - apply Forall_forall. intros r (a & -> & Hin)%list_elem_of_fmap. rewrite Forall_forall in Hall.
    cbn. f_equal. by apply Hall.
Qed.
