(* ===== verification/Solvency.v ===== *)
(** * Solvency: what every account balance means

    [bal_ok] gives the meaning of each account's balance in terms of the business
    rows: a customer's hold is exactly the sum of its open withdrawals, a chain's
    treasury account the sum of the confirmed ones, the forwarder float the
    negation of the credited deposits, and no customer's available balance is
    negative. [Inv] joins it with the ledger's, the deposits' and the withdrawals'
    invariants; every repository operation preserves it. *)

From Stdlib Require Import ZArith Lia.
From stdpp Require Import prelude strings sorting list_numbers.
From S2P Require Import Prelude GoStd Domain Store Effects Ledger Transfers.
From S2P Require Import Withdrawals WithdrawalSpecs WithdrawalInvariant Ports Deposits DepositSpecs Customers.

(** ** Business totals *)

Definition is_open (s : WithdrawalStatus) : bool :=
  match s with WithdrawalStatusConfirmed | WithdrawalStatusFailed => false | _ => true end.

Definition open_amount (c : string) (ch : Chain) (a : Asset) (w : WithdrawalRow) : Z :=
  if decide (wr_customer w = c ∧ wr_chain w = ch ∧ wr_asset w = a ∧ is_open (wr_status w) = true)
  then wr_amount w else 0.
Definition confirmed_amount (ch : Chain) (a : Asset) (w : WithdrawalRow) : Z :=
  if decide (wr_chain w = ch ∧ wr_asset w = a ∧ wr_status w = WithdrawalStatusConfirmed)
  then wr_amount w else 0.
Definition credited_amount (ch : Chain) (a : Asset) (d : DepositRow) : Z :=
  if decide (dr_chain d = ch ∧ dr_asset d = a ∧ dr_state d = DepositCredited)
  then dr_amount d else 0.

Definition held (db : DB) c ch a : Z := sumZ (open_amount c ch a) (t_withdrawals db).
Definition paid_out (db : DB) ch a : Z := sumZ (confirmed_amount ch a) (t_withdrawals db).
Definition deposited (db : DB) ch a : Z := sumZ (credited_amount ch a) (t_deposits db).

(** ** The invariants *)

Definition balance_ok (db : DB) (r : AccountRow) : Prop :=
  let balance := sum_postings db (ac_id r) in
  match ac_customer r, ac_type r with
  | Some c, AccountTypeAvailable => 0 <= balance
  | Some c, AccountTypeHold => balance = held db c (ac_chain r) (ac_asset r)
  | None, AccountTypeTreasury => balance = paid_out db (ac_chain r) (ac_asset r)
  | None, AccountTypeAvailable => balance = - deposited db (ac_chain r) (ac_asset r)
  | _, _ => False
  end.

Definition bal_ok (db : DB) : Prop := ∀ r, r ∈ t_accounts db → balance_ok db r.

Record dep_ok (db : DB) : Prop := {
  dk_ids : NoDup (map dr_id (t_deposits db));
  dk_live_keys : NoDup (map dr_key (filter (λ d, dr_state d ≠ DepositOrphaned) (t_deposits db)));
  dk_credited : ∀ id, has_cause db depositCreditCauseType id ↔
    ∃ d, d ∈ t_deposits db ∧ dr_id d = id ∧ dr_state d = DepositCredited;
  dk_amounts : ∀ d, d ∈ t_deposits db → 0 < dr_amount d;
}.

Record Inv (db : DB) : Prop := {
  inv_ledger : ledger_ok db;
  inv_withdrawals : wd_ok db;
  inv_deposits : dep_ok db;
  inv_balances : bal_ok db;
}.

(** ** Frame lemmas *)

Lemma dep_ok_ext db db' :
  t_deposits db' = t_deposits db →
  (∀ id, has_cause db' depositCreditCauseType id ↔ has_cause db depositCreditCauseType id) →
  dep_ok db → dep_ok db'.
Proof.
  intros Ed Hc []. constructor; rewrite ?Ed; try done. intros id. by rewrite Hc.
Qed.

Lemma dep_ok_posts db je src dst amount db' :
  posts db je src dst amount db' → t_deposits db' = t_deposits db →
  je_cause_type je ≠ depositCreditCauseType → dep_ok db → dep_ok db'.
Proof.
  intros HP Ed Hty. apply dep_ok_ext; [done|]. intros id.
  rewrite (has_cause_posts _ _ _ _ _ _ _ _ HP). split; [|by left]. intros [?|[= E _]]; done.
Qed.

(** Nothing that matters changed. *)
Lemma Inv_frame db db' :
  same_ledger db db' → t_withdrawals db' = t_withdrawals db →
  t_broadcast_attempts db' = t_broadcast_attempts db →
  t_chain_nonce_state db' = t_chain_nonce_state db → t_deposits db' = t_deposits db →
  t_customers db' = t_customers db → Inv db → Inv db'.
Proof.
  intros Hl Ew Ea En Ed Ec []. pose proof Hl as (Ej & Ep & Eac).
  assert (∀ ty id, has_cause db' ty id ↔ has_cause db ty id) as Hcause.
  { intros. unfold has_cause. by rewrite Ej. }
  constructor.
  - by eapply same_ledger_ok.
  - eapply wd_ok_ext; eauto. intros c Hc. by rewrite Ec.
  - by eapply dep_ok_ext.
  - intros r Hr. rewrite Eac in Hr. specialize (inv_balances0 r Hr).
    unfold balance_ok, held, paid_out, deposited in *.
    by rewrite Ew, Ed, (same_ledger_balance _ _ _ Hl).
Qed.

(** ** Accounts by id *)

Section accounts.
Context (db : DB) (Hok : ledger_ok db).

Lemma account_id_eq r r' :
  r ∈ t_accounts db → r' ∈ t_accounts db → ac_id r = ac_id r' → r = r'.
Proof.
  intros Hr Hr' E. by apply (key_unique ac_id _ r' (lo_account_ids _ Hok) Hr' r Hr).
Qed.

(** A movement between two known accounts, in terms of rows: with the business
    totals of the new database given for each account. *)
Lemma bal_ok_movement je src dst amount db1 db' :
  bal_ok db → posts db je (ac_id src) (ac_id dst) amount db1 → same_ledger db1 db' →
  src ∈ t_accounts db → dst ∈ t_accounts db →
  (∀ r, r ∈ t_accounts db → balance_ok db r →
    let balance := sum_postings db (ac_id r) + (if decide (r = dst) then amount else 0)
                   - (if decide (r = src) then amount else 0) in
    match ac_customer r, ac_type r with
    | Some c, AccountTypeAvailable => 0 <= balance
    | Some c, AccountTypeHold => balance = held db' c (ac_chain r) (ac_asset r)
    | None, AccountTypeTreasury => balance = paid_out db' (ac_chain r) (ac_asset r)
    | None, AccountTypeAvailable => balance = - deposited db' (ac_chain r) (ac_asset r)
    | _, _ => False
    end) →
  bal_ok db'.
Proof.
  intros Hbal HP Hl Hsrc Hdst Hmeaning r Hr.
  assert (t_accounts db' = t_accounts db) as Eac.
  { destruct Hl as (_ & _ & ->). apply HP. }
  rewrite Eac in Hr. specialize (Hmeaning r Hr (Hbal r Hr)).
  unfold balance_ok. rewrite (same_ledger_balance _ _ _ Hl), (posts_balance _ _ _ _ _ _ _ HP).
  assert (∀ x, x ∈ t_accounts db → (ac_id x = ac_id r ↔ r = x)) as Hiff.
  { intros x Hx. split; [|by intros ->]. intros E. symmetry. by apply account_id_eq. }
  assert ((if decide (ac_id dst = ac_id r) then amount else 0) =
          (if decide (r = dst) then amount else 0)) as ->.
  { repeat case_decide; try done; exfalso; naive_solver. }
  assert ((if decide (ac_id src = ac_id r) then amount else 0) =
          (if decide (r = src) then amount else 0)) as ->.
  { repeat case_decide; try done; exfalso; naive_solver. }
  done.
Qed.
End accounts.

(** The case analysis on an account row against the two accounts of a movement. *)
Ltac account_cases r Hb :=
  unfold balance_ok, held, paid_out, deposited in Hb; cbv zeta in *;
  destruct (ac_customer r) eqn:?, (ac_type r) eqn:?; try done;
  repeat case_decide; subst; unfold is_account in *; destruct_and?; try congruence.

(** Reads a table of a database given by replacements. *)
Ltac tables :=
  cbn [t_customers t_accounts t_deposit_addresses t_idempotency_keys t_journal_entries t_postings
       t_deposits t_watcher_cursors t_outbox_events t_crediting_policy t_token_registry
       t_unsupported t_withdrawals t_thresholds t_chain_nonce_state t_broadcast_attempts
       set_customers set_accounts set_deposit_addresses set_idempotency_keys set_journal_entries
       set_postings set_deposits set_watcher_cursors set_outbox_events set_crediting_policy
       set_token_registry set_unsupported set_withdrawals set_thresholds set_chain_nonce_state
       set_broadcast_attempts].

(** Abstracts the old business totals and computes the new row's contribution. *)
Ltac business Hb :=
  revert Hb;
  repeat match goal with |- context [sumZ ?g ?l] => generalize (sumZ g l); intros ? end;
  intros Hb; unfold open_amount, confirmed_amount, credited_amount in *;
  cbn [wr_customer wr_chain wr_asset wr_amount wr_status dr_chain dr_asset dr_amount dr_state] in *;
  repeat case_decide; destruct_and?.

(** ** Transfers *)

Lemma available_account_row db c ch a i :
  available_account db c ch a = Some i →
  ∃ r, r ∈ t_accounts db ∧ ac_id r = i ∧ is_account (Some c) ch a AccountTypeAvailable r.
Proof.
  unfold available_account. destruct (find_account _ _ _ _ _) as [r|] eqn:F; [|done].
  intros [= <-]. apply find_account_Some in F as []. eauto.
Qed.

Lemma Inv_transferred req db t db' :
  Inv db → 0 < tf_Amount t → transferred req db t db' → Inv db'.
Proof.
  intros [Hl Hw Hd Hb] Hpos HT.
  destruct (HT Hl) as (src & dst & Es & Ed & Hcov & HP & HO & _). clear HT.
  apply available_account_row in Es as (s & Hs & <- & Es).
  apply available_account_row in Ed as (d & Hd' & <- & Ed).
  pose proof (only_journal_other _ _ HO) as Hsame. destruct_and! Hsame.
  constructor.
  - by eapply posts_ledger_ok.
  - by eapply wd_ok_posts.
  - by eapply dep_ok_posts.
  - eapply (bal_ok_movement db Hl _ s d _ db' db' Hb HP); try done.
    intros r Hr Hbr. unfold held, paid_out, deposited in *.
    rename select (t_withdrawals db' = _) into Ew. rename select (t_deposits db' = _) into Ede.
    rewrite Ew, Ede. account_cases r Hbr; lia.
Qed.

(** ** Withdrawals *)

Lemma Inv_created req fee target db w db' :
  Inv db → target = WithdrawalStatusAwaitingApproval ∨ target = WithdrawalStatusApproved →
  created req fee target db w db' → Inv db'.
Proof.
  intros [Hl Hw Hd Hb] Ht HC. pose proof (wd_ok_created db Hw req fee target w db' Ht HC) as Hw'.
  destruct HC as [(av & ho & je & db1 & oid & Hav & Eav & Hho & Eho & _ & Hcov & Hje & HP & HO &
                   Hins & ty & _ & ->) _].
  pose proof (only_journal_other _ _ HO) as Hsame. destruct_and! Hsame.
  set (row := mkWithdrawalRow _ _ _ _ _ _ _ _ _ _ _ _ _ _ _ _) in *.
  assert (0 < w_Amount w) as Hpos.
  { eapply (wk_amounts _ Hw' row). cbn. set_solver. }
  constructor.
  - eapply same_ledger_ok; [|by eapply posts_ledger_ok]. done.
  - done.
  - eapply (dep_ok_ext db1); [done|done|]. eapply dep_ok_posts; eauto.
    intros E. unfold je_cause in Hje. rewrite E in Hje. discriminate.
  - eapply (bal_ok_movement db Hl _ av ho _ db1 _ Hb HP); try done.
    intros r Hr Hbr. unfold held, paid_out, deposited in *; tables.
    rename select (t_deposits db1 = _) into Ede. rewrite Ede.
    assert (is_open target = true ∧ target ≠ WithdrawalStatusConfirmed) as [Hop Hnc]
      by (by destruct Ht as [->| ->]).
    subst row. account_cases r Hbr; try lia; rewrite ?sumZ_snoc; business Hbr; try lia; try tauto; exfalso.
    + rename select (¬ (_ ∧ _)) into Hcond. apply Hcond. split_and!; congruence.
    + rename select (r ≠ ho) into Hne. apply Hne.
      apply (is_account_unique db (Some (wq_CustomerID req)) (wq_Chain req) (wq_Asset req)
               AccountTypeHold); try done; unfold is_account; split_and!; congruence.
Qed.

Lemma sumZ_update_same {R} (P : R → Prop) `{∀ r, Decision (P r)} f g (l : list R) :
  (∀ r, P r → g (f r) = g r) → sumZ g (update_where P f l) = sumZ g l.
Proof.
  intros Hg. induction l as [|r l IH]; [done|].
  change (update_where P f (r :: l)) with ((if decide (P r) then f r else r) :: update_where P f l).
  rewrite !sumZ_cons, IH. case_decide; [by rewrite Hg|done].
Qed.

(** A transition between two open statuses moves no money. *)
Lemma Inv_open_transition db db' P `{∀ r, Decision (P r)} f :
  Inv db → wd_ok db' → same_ledger db db' →
  t_withdrawals db' = update_where P f (t_withdrawals db) → t_deposits db' = t_deposits db →
  (∀ r, P r → wr_customer (f r) = wr_customer r ∧ wr_chain (f r) = wr_chain r ∧
              wr_asset (f r) = wr_asset r ∧ wr_amount (f r) = wr_amount r ∧
              (wr_status (f r) = wr_status r ∨
               (is_open (wr_status (f r)) = true ∧ is_open (wr_status r) = true))) →
  Inv db'.
Proof.
  intros [Hl Hw Hd Hb] Hw' Hsl Ew Ed Hf. constructor.
  - by eapply same_ledger_ok.
  - done.
  - eapply dep_ok_ext; [done| |done]. intros id. unfold has_cause.
    by destruct Hsl as (-> & _).
  - intros r Hr. assert (r ∈ t_accounts db) as Hr' by (destruct Hsl as (_ & _ & <-); done).
    specialize (Hb r Hr'). unfold balance_ok, held, paid_out, deposited in *.
    rewrite (same_ledger_balance _ _ _ Hsl), Ed, Ew.
    destruct (ac_customer r), (ac_type r); try done; rewrite sumZ_update_same; try done.
    all: intros w Pw; destruct (Hf w Pw) as (E1 & E2 & E3 & E4 & Hst);
      unfold open_amount, confirmed_amount; rewrite ?E1, E2, E3, E4;
      destruct Hst as [->|[Hs1 Hs2]]; try done.
    + by rewrite Hs1, Hs2.
    + repeat case_decide; destruct_and?; try done.
      * rename select (wr_status (f w) = _) into E. by rewrite E in Hs1.
      * rename select (wr_status w = _) into E. by rewrite E in Hs2.
Qed.

Lemma Inv_approved id actor reason db w db' :
  Inv db → approved id actor reason db w db' → Inv db'.
Proof.
  intros HI HA. pose proof (wd_ok_approved db (inv_withdrawals _ HI) _ _ _ _ _ HA) as Hw.
  destruct HA as (row & now & oid & _ & _ & _ & _ & ->).
  eapply Inv_open_transition; try done. intros r [_ ->]. cbn. split_and!; auto.
Qed.

Lemma Inv_claimed chain db o db' : Inv db → claimed chain db o db' → Inv db'.
Proof.
  intros HI HC. pose proof (wd_ok_claimed db (inv_withdrawals _ HI) _ _ _ HC) as Hw.
  destruct o as [w|]; [|by destruct HC as [_ ->]].
  destruct HC as (row & nn & now & aid & _ & _ & _ & _ & ->).
  eapply Inv_open_transition; try done. intros r [_ ->]. cbn. split_and!; auto.
Qed.

Lemma Inv_recorded id h tx db u db' : Inv db → recorded id h tx db u db' → Inv db'.
Proof.
  intros HI HR. pose proof (wd_ok_recorded db (inv_withdrawals _ HI) _ _ _ _ _ HR) as Hw.
  destruct HR as (row & a & _ & _ & _ & _ & _ & ->).
  eapply (Inv_open_transition db _ (λ _, False) (λ r, r)); try done. symmetry. apply map_id.
Qed.

Lemma Inv_marked id db u db' : Inv db → marked_broadcast id db u db' → Inv db'.
Proof.
  intros HI HM. pose proof (wd_ok_marked db (inv_withdrawals _ HI) _ _ _ HM) as Hw.
  destruct HM as (row & a & h & now & _ & _ & _ & _ & _ & _ & _ & ->).
  eapply Inv_open_transition; try done. intros r [_ ->]. cbn. split_and!; auto.
Qed.

Lemma Inv_alerted id db u db' : Inv db → alerted id db u db' → Inv db'.
Proof.
  intros HI HA. pose proof (wd_ok_alerted db (inv_withdrawals _ HI) _ _ _ HA) as Hw.
  destruct HA as (row & now & oid & _ & _ & _ & ->).
  eapply Inv_open_transition; try done. intros r _. cbn. split_and!; auto.
Qed.

(** ** Settlement *)

Section settlement.
Context (db : DB) (HI : Inv db) (id : string) (u : unit) (db' : DB).

Lemma settled_sum row target now g :
  row ∈ t_withdrawals db → wr_status row = WithdrawalStatusBroadcast →
  sumZ g (update_where (λ r, wr_id r = wr_id row ∧ wr_status r = WithdrawalStatusBroadcast)
            (wr_settle target now) (t_withdrawals db)) =
  sumZ g (t_withdrawals db) - g row + g (wr_settle target now row).
Proof.
  intros Hrow Hs. eapply (update_one_sum wr_id); try done; [apply (inv_withdrawals _ HI)|].
  by intros r [? _].
Qed.

Lemma Inv_settled_confirmed ev :
  settled id WithdrawalStatusConfirmed withdrawalSettlementCauseType ev
    AccountTypeTreasury true db u db' → Inv db'.
Proof.
  intros HS. pose proof HI as [Hl Hw Hd Hb].
  pose proof (λ Hty, wd_ok_settled db Hw _ _ _ _ _ _ _ _ Hty HS) as Hw'.
  destruct HS as (row & ho & cp & je & db1 & now & oid & Hrow & <- & Hs & Hho & Eho & Hcp & Ecp &
                  Hje & HP & HO & ->).
  pose proof (only_journal_other _ _ HO) as Hsame. destruct_and! Hsame.
  constructor; [..|].
  - eapply same_ledger_ok; [|by eapply posts_ledger_ok]. done.
  - apply Hw'. by left.
  - eapply (dep_ok_ext db1); [done|done|]. eapply dep_ok_posts; eauto.
    intros E. unfold je_cause in Hje. rewrite E in Hje. discriminate.
  - eapply (bal_ok_movement db Hl _ ho cp _ db1 _ Hb HP); try done.
    intros r Hr Hbr. unfold held, paid_out, deposited in *; tables.
    rename select (t_deposits db1 = _) into Ede. rewrite Ede.
    assert (is_open (wr_status row) = true ∧ wr_status row ≠ WithdrawalStatusConfirmed) as [Hop Hnc]
      by (by rewrite Hs).
    account_cases r Hbr; try lia; rewrite ?(settled_sum row) by done; business Hbr; simpl in *;
      try lia; try tauto; try congruence; exfalso.
    all: try (match goal with Hn : ¬ (_ ∧ _) |- _ => apply Hn; split_and!; congruence end).
    + rename select (r ≠ ho) into Hne. apply Hne.
      apply (is_account_unique db (Some (wr_customer row)) (wr_chain row) (wr_asset row)
               AccountTypeHold); try done; unfold is_account; split_and!; congruence.
    + rename select (r ≠ cp) into Hne. apply Hne.
      apply (is_account_unique db None (wr_chain row) (wr_asset row)
               AccountTypeTreasury); try done; unfold is_account; split_and!; congruence.
Qed.

Lemma Inv_settled_failed ev :
  settled id WithdrawalStatusFailed withdrawalFailureCauseType ev
    AccountTypeAvailable false db u db' → Inv db'.
Proof.
  intros HS. pose proof HI as [Hl Hw Hd Hb].
  pose proof (λ Hty, wd_ok_settled db Hw _ _ _ _ _ _ _ _ Hty HS) as Hw'.
  destruct HS as (row & ho & cp & je & db1 & now & oid & Hrow & <- & Hs & Hho & Eho & Hcp & Ecp &
                  Hje & HP & HO & ->).
  pose proof (only_journal_other _ _ HO) as Hsame. destruct_and! Hsame.
  pose proof (wk_amounts _ Hw row Hrow) as Hpos.
  constructor; [..|].
  - eapply same_ledger_ok; [|by eapply posts_ledger_ok]. done.
  - apply Hw'. by right.
  - eapply (dep_ok_ext db1); [done|done|]. eapply dep_ok_posts; eauto.
    intros E. unfold je_cause in Hje. rewrite E in Hje. discriminate.
  - eapply (bal_ok_movement db Hl _ ho cp _ db1 _ Hb HP); try done.
    intros r Hr Hbr. unfold held, paid_out, deposited in *; tables.
    rename select (t_deposits db1 = _) into Ede. rewrite Ede.
    assert (is_open (wr_status row) = true ∧ wr_status row ≠ WithdrawalStatusConfirmed) as [Hop Hnc]
      by (by rewrite Hs).
    account_cases r Hbr; try lia; rewrite ?(settled_sum row) by done; business Hbr; simpl in *;
      try lia; try tauto; try congruence; exfalso.
    all: try (match goal with Hn : ¬ (_ ∧ _) |- _ => apply Hn; split_and!; congruence end).
    rename select (r ≠ ho) into Hne. apply Hne.
    apply (is_account_unique db (Some (wr_customer row)) (wr_chain row) (wr_asset row)
             AccountTypeHold); try done; unfold is_account; split_and!; congruence.
Qed.
End settlement.

(** ** Deposits *)

(** A change of the deposit table that moves no money. *)
Lemma Inv_deposits db db' :
  Inv db → dep_ok db' → same_ledger db db' → t_withdrawals db' = t_withdrawals db →
  t_broadcast_attempts db' = t_broadcast_attempts db →
  t_chain_nonce_state db' = t_chain_nonce_state db → t_customers db' = t_customers db →
  (∀ ch a, deposited db' ch a = deposited db ch a) → Inv db'.
Proof.
  intros [Hl Hw Hd Hb] Hd' Hsl Ew Ea En Ec Hdep. constructor.
  - by eapply same_ledger_ok.
  - eapply wd_ok_ext; eauto; [by rewrite Ec|]. intros ty id _. unfold has_cause.
    by destruct Hsl as (-> & _).
  - done.
  - intros r Hr. assert (r ∈ t_accounts db) as Hr' by (destruct Hsl as (_ & _ & <-); done).
    specialize (Hb r Hr'). unfold balance_ok, held, paid_out in *.
    by rewrite (same_ledger_balance _ _ _ Hsl), Hdep, Ew.
Qed.

Lemma Inv_observed d db b db' :
  Inv db → dep_State d = DepositObserved → observed d db b db' → Inv db'.
Proof.
  intros HI Hs HO. destruct b; [|by destruct HO as [-> _]].
  destruct HO as (oid & Hins & ->).
  apply insert_deposit_cases in Hins as [(? & _)|(_ & _ & Hkey & Hid & Hpos & _)]; [done|].
  pose proof (inv_deposits _ HI) as [].
  apply (Inv_deposits db); try done.
  - constructor; cbn.
    + rewrite map_app. by apply NoDup_snoc.
    + rewrite filter_app, map_app, filter_cons_True by (cbn; by rewrite Hs). by apply NoDup_snoc.
    + intros id. change (has_cause _ _ id) with (has_cause db depositCreditCauseType id).
      rewrite dk_credited0. split; [set_solver|].
      intros (x & [Hx| ->%list_elem_of_singleton]%elem_of_app & E & Hxs); [eauto|].
      cbn in Hxs. congruence.
    + intros x [Hx| ->%list_elem_of_singleton]%elem_of_app; [by apply dk_amounts0|done].
  - intros ch a. unfold deposited. tables. rewrite sumZ_snoc. unfold credited_amount at 2. cbn.
    rewrite decide_False; [lia|]. rewrite Hs. naive_solver.
Qed.

(** Transitions among the live states other than credited. *)
Lemma Inv_transition db P `{∀ r, Decision (P r)} state now :
  Inv db → (∀ r, r ∈ t_deposits db → P r → dr_state r ≠ DepositCredited ∧ dr_state r ≠ DepositOrphaned) →
  state ≠ DepositCredited →
  Inv (set_deposits (update_where P (dr_transition state now) (t_deposits db)) db).
Proof.
  intros HI HP Hst. pose proof (inv_deposits _ HI) as [].
  apply (Inv_deposits db); try done.
  - constructor; cbn.
    + by rewrite (update_where_map _ _ dr_id).
    + destruct (decide (state = DepositOrphaned)) as [->|Hno].
      * assert (filter (λ d, dr_state d ≠ DepositOrphaned)
                  (update_where P (dr_transition DepositOrphaned now) (t_deposits db))
                `sublist_of` filter (λ d, dr_state d ≠ DepositOrphaned) (t_deposits db)) as Hsub.
        { clear. induction (t_deposits db) as [|r l IH]; [done|].
          change (update_where P (dr_transition DepositOrphaned now) (r :: l)) with
            ((if decide (P r) then dr_transition DepositOrphaned now r else r) ::
              update_where P (dr_transition DepositOrphaned now) l).
          case_decide.
          - rewrite filter_cons_False by (cbn; tauto). rewrite filter_cons.
            case_decide; [by constructor|done].
          - rewrite !filter_cons. by case_decide; [constructor|]. }
        apply (fmap_sublist dr_key) in Hsub. by eapply sublist_NoDup.
      * rewrite (filter_update_where P (λ d, dr_state d ≠ DepositOrphaned)); [by rewrite (update_where_map _ _ dr_key)|].
        intros r Hr HPr. cbn. destruct (HP r Hr HPr). tauto.
    + intros id. change (has_cause _ _ id) with (has_cause db depositCreditCauseType id).
      rewrite dk_credited0. split.
      * intros (d & Hd & E & Hs). exists d. split; [|done]. apply list_elem_of_fmap. exists d.
        split; [|done]. rewrite decide_False; [done|]. intros HPd. by destruct (HP d Hd HPd).
      * intros (x & (d & -> & Hd)%list_elem_of_fmap & E & Hs). case_decide; [done|eauto].
    + intros x (d & -> & Hd)%list_elem_of_fmap. specialize (dk_amounts0 d Hd). by case_decide.
  - intros ch a. unfold deposited. tables.
    assert (∀ l, (∀ r, r ∈ l → r ∈ t_deposits db) →
      sumZ (credited_amount ch a) (update_where P (dr_transition state now) l) =
      sumZ (credited_amount ch a) l) as Hsum; [|by apply Hsum].
    induction l as [|r l IH]; intros Hin; [done|].
    change (update_where P (dr_transition state now) (r :: l)) with
      ((if decide (P r) then dr_transition state now r else r) ::
        update_where P (dr_transition state now) l).
    rewrite !sumZ_cons, IH by set_solver. f_equal. case_decide as HPr; [|done].
    destruct (HP r ltac:(set_solver) HPr). unfold credited_amount. cbn.
    rewrite !decide_False; naive_solver.
Qed.

Lemma Inv_promoted from to chain block db n db' :
  Inv db → (from, to) = (DepositObserved, DepositSafe) ∨ (from, to) = (DepositSafe, DepositFinalized) →
  promoted from to chain block db n db' → Inv db'.
Proof.
  intros HI Hft (now & _ & _ & ->). apply Inv_transition; [done|..].
  - intros r _ (E & _). by destruct Hft as [[= -> ->]|[= -> ->]]; rewrite E.
  - by destruct Hft as [[= -> ->]|[= -> ->]].
Qed.

Lemma Inv_orphaned id db u db' :
  Inv db → (∀ r, r ∈ t_deposits db → dr_id r = id →
              dr_state r ≠ DepositCredited ∧ dr_state r ≠ DepositOrphaned) →
  orphaned id db u db' → Inv db'.
Proof.
  intros HI Hst (now & oid & _ & ->). pose proof (Inv_transition db (λ r, dr_id r = id) DepositOrphaned now HI Hst ltac:(done)) as HI'.
  revert HI'. by apply Inv_frame.
Qed.

(** What the policy join guarantees of a row it selects. *)
Definition eligible_ok (db : DB) (e : eligibleCreditDeposit) : Prop :=
  ∃ d cust fl, d ∈ t_deposits db ∧ dr_id d = el_depositID e ∧ dr_chain d = el_chain e ∧
    dr_asset d = el_asset e ∧ dr_amount d = el_amount e ∧ dr_state d ≠ DepositOrphaned ∧
    cust ∈ t_accounts db ∧ ac_id cust = el_customerAccount e ∧
    is_account (Some (el_customerID e)) (el_chain e) (el_asset e) AccountTypeAvailable cust ∧
    fl ∈ t_accounts db ∧ ac_id fl = el_floatAccount e ∧
    is_account None (el_chain e) (el_asset e) AccountTypeAvailable fl.

Lemma eligible_credits_elem chain db e :
  e ∈ eligible_credits chain db →
  ∃ d da, d ∈ t_deposits db ∧ dr_chain d = chain ∧ dr_state d = DepositFinalized ∧
    dr_id d = el_depositID e ∧ dr_amount d = el_amount e ∧
    da ∈ t_deposit_addresses db ∧ da_address da = dr_address d ∧ da_customer da = el_customerID e ∧
    eligible_ok db e.
Proof.
  unfold eligible_credits. intros H.
  assert (e ∈ merge_sort block_le (filter (λ r, dr_chain r = chain ∧ dr_state r = DepositFinalized)
            (t_deposits db)) ≫= credit_join db) as Hin.
  { rewrite <-(take_drop maxCreditsPerPoll (_ ≫= _)). apply elem_of_app. by left. }
  clear H. apply list_elem_of_bind in Hin as (d & Hj & Hd). rewrite merge_sort_Permutation in Hd.
  apply list_elem_of_filter in Hd as [[Hc Hs] Hd]. unfold credit_join in Hj.
  apply list_elem_of_bind in Hj as (da & Hj & [Ha Hda]%list_elem_of_filter).
  apply list_elem_of_bind in Hj as (cp & Hj & _).
  apply list_elem_of_bind in Hj as (cust & Hj & [Hcu Hcust]%list_elem_of_filter).
  apply list_elem_of_fmap in Hj as (fl & -> & [Hfl Hflo]%list_elem_of_filter).
  exists d, da. cbn. split_and!; try done. exists d, cust, fl. cbn. rewrite Hs.
  split_and!; try done.
Qed.

Lemma Inv_credited e db u db' :
  Inv db → eligible_ok db e → credited e db u db' → Inv db'.
Proof.
  intros [Hl Hw Hd Hb] (d & cust & fl & Hdin & Hid & Hch & Has & Ham & Hlive & Hcust & Hci & Ecu &
                        Hfl & Hfi & Efl)
    (je & db1 & now & oid & Hpos & Hje & HP & HO & ->).
  pose proof (only_journal_other _ _ HO) as Hsame. destruct_and! Hsame.
  pose proof Hd as [].
  rewrite <-Hci, <-Hfi in HP.
  assert (dr_state d ≠ DepositCredited) as Hnc.
  { intros Hs. apply (posts_fresh_cause _ _ _ _ _ _ HP). rewrite Hje. apply dk_credited0. eauto. }
  assert (je_cause_type je = depositCreditCauseType ∧ je_cause_id je = el_depositID e) as [Et Ei].
  { unfold je_cause in Hje. by simplify_eq. }
  rename select (t_deposits db1 = _) into Ede.
  set (P := λ r : DepositRow, dr_id r = el_depositID e).
  assert (∀ r, P r → dr_id r = dr_id d) as Pid by (unfold P; intros; congruence).
  assert (∀ r, r ∈ t_deposits db → P r → r = d) as Puniq.
  { intros r Hr HPr. apply (key_unique dr_id _ d dk_ids0 Hdin r Hr). by apply Pid. }
  constructor.
  - eapply same_ledger_ok; [|by eapply posts_ledger_ok]. done.
  - eapply (wd_ok_ext db1); try done. eapply wd_ok_posts; eauto; by rewrite Et.
  - constructor; cbn.
    + by rewrite (update_where_map _ _ dr_id).
    + rewrite (filter_update_where P (λ x, dr_state x ≠ DepositOrphaned)).
      * by rewrite (update_where_map _ _ dr_key).
      * intros r Hr HPr. rewrite (Puniq r Hr HPr). cbn. naive_solver.
    + intros id. change (has_cause _ _ id) with (has_cause db1 depositCreditCauseType id).
      rewrite (has_cause_posts _ _ _ _ _ _ _ _ HP), Hje, dk_credited0.
      assert (∀ x, x ∈ update_where P (dr_transition DepositCredited now) (t_deposits db) ↔
                x = dr_transition DepositCredited now d ∨ (x ∈ t_deposits db ∧ dr_id x ≠ dr_id d)) as Hel.
      { intros x. by apply (update_one_elem dr_id P). }
      setoid_rewrite Hel. split.
      * intros [(x & Hx & E & Hs)|[= <-]].
        -- exists x. split; [|done]. right. split; [done|]. intros E'.
           apply (key_unique dr_id _ d dk_ids0 Hdin x Hx) in E'. congruence.
        -- eexists. split; [by left|]. cbn. done.
      * intros (x & [->|[Hx Hne]] & E & Hs); [right; cbn in E; congruence|left; eauto].
    + intros x (y & -> & Hy)%list_elem_of_fmap. specialize (dk_amounts0 y Hy). by case_decide.
  - eapply (bal_ok_movement db Hl _ fl cust _ db1 _ Hb HP); try done.
    intros r Hr Hbr. unfold held, paid_out, deposited in *; tables.
    rename select (t_withdrawals db1 = _) into Ewd. rewrite Ewd.
    assert (∀ g, sumZ g (update_where (λ r, dr_id r = el_depositID e)
                          (dr_transition DepositCredited now) (t_deposits db)) =
              sumZ g (t_deposits db) - g d + g (dr_transition DepositCredited now d)) as Hsum.
    { intros g. by apply (update_one_sum dr_id P). }
    account_cases r Hbr; try lia; rewrite ?Hsum; business Hbr; simpl in *; try lia; try tauto; try congruence; exfalso.
    all: try (match goal with Hn : ¬ (_ ∧ _) |- _ => apply Hn; split_and!; congruence end).
    rename select (r ≠ fl) into Hne. apply Hne.
    apply (is_account_unique db None (dr_chain d) (dr_asset d) AccountTypeAvailable);
      try done; unfold is_account; split_and!; congruence.
Qed.

Lemma eligible_ok_credited db e u db' e' :
  credited e db u db' → eligible_ok db e' → eligible_ok db' e'.
Proof.
  intros (je & db1 & now & oid & _ & _ & HP & HO & ->)
    (d & cust & fl & Hd & E1 & E2 & E3 & E4 & Hs & Hcust & ? & ? & Hfl & ? & ?).
  pose proof (only_journal_other _ _ HO) as Hsame. destruct_and! Hsame.
  rename select (t_accounts db1 = _) into Ea.
  exists (if decide (dr_id d = el_depositID e) then dr_transition DepositCredited now d else d), cust, fl.
  unfold eligible_ok. tables. rewrite Ea. split_and!; try done; try (by case_decide).
  apply list_elem_of_fmap. by exists d.
Qed.

Lemma Inv_credits es db db' :
  Inv db → Forall (eligible_ok db) es → steps_over credited es db db' → Inv db'.
Proof.
  revert db. induction es as [|e es IH]; intros db HI Hel H; [by rewrite H|].
  destruct H as (db1 & H1 & H2). apply Forall_cons in Hel as [He Hes].
  eapply IH; [by eapply Inv_credited| |done].
  eapply Forall_impl; [exact Hes|]. intros e' He'. by eapply eligible_ok_credited.
Qed.

Lemma Inv_credit_phase chain db db' :
  Inv db → steps_over credited (eligible_credits chain db) db db' → Inv db'.
Proof.
  intros HI. apply Inv_credits; [done|]. apply Forall_forall. intros e He.
  by apply eligible_credits_elem in He as (d & da & _ & _ & _ & _ & _ & _ & _ & _ & ?).
Qed.

(** ** Customers *)

Lemma no_postings_balance db r :
  ledger_ok db → ac_id r ∉ map ac_id (t_accounts db) → sum_postings db (ac_id r) = 0.
Proof.
  intros Hok Hr. unfold sum_postings. rewrite filter_none; [done|].
  intros p Hp E. apply Hr. rewrite <-E. by apply (lo_posting_account _ Hok).
Qed.

Lemma Inv_provisioned customer accounts address db u db' :
  Inv db →
  (∀ a, a ∈ accounts → acct_CustomerID a = cust_ID customer ∧
                       acct_Type a ∈ [AccountTypeAvailable; AccountTypeHold]) →
  provisioned customer accounts address db u db' → Inv db'.
Proof.
  intros [Hl Hw Hd Hb] Hacc (Hfresh & (Hids & Hold & Hnew) & _ & _ & _ & ->).
  assert (∀ a, a ∈ accounts → acct_ID a ∉ map ac_id (t_accounts db)) as Hfa.
  { intros a Ha Hin. specialize (Hids (lo_account_ids _ Hl)).
    rewrite map_app, map_map in Hids. apply NoDup_app in Hids as (_ & Hdis & _).
    apply (Hdis _ Hin). by apply (list_elem_of_fmap_2 (λ x, ac_id (account_row x))). }
  constructor.
  - constructor; cbn; try apply Hl.
    + intros p Hp. rewrite map_app. apply elem_of_app. left. by apply (lo_posting_account _ Hl).
    + by apply Hids, Hl.
    + intros a b [Ha|Ha]%elem_of_app [Hb'|Hb']%elem_of_app Hs; [by apply (lo_account_keys _ Hl)|..|by apply Hnew].
      * by destruct (Hold b a Hb' Ha).
      * destruct (Hold a b Ha Hb'). unfold same_account in *. naive_solver.
  - eapply wd_ok_ext; [..|exact Hw]; try done. cbn. intros c Hc. rewrite map_app. set_solver.
  - by eapply dep_ok_ext; [..|exact Hd].
  - intros r. tables. intros [Hr|(a & -> & Ha)%list_elem_of_fmap]%elem_of_app; [by apply Hb|].
    destruct (Hacc a Ha) as [Ec Ety].
    assert (sum_postings db (ac_id (account_row a)) = 0) as E0.
    { apply no_postings_balance; [done|]. by apply Hfa. }
    assert (held db (cust_ID customer) (acct_Chain a) (acct_Asset a) = 0) as Eh.
    { apply sumZ_zero. intros w Hin. unfold open_amount. rewrite decide_False; [done|].
      intros (E & _). apply Hfresh. rewrite <-E. by apply (wk_customers _ Hw). }
    unfold balance_ok. change (sum_postings _ _) with (sum_postings db (ac_id (account_row a))).
    rewrite E0. change (held _ ?c ?ch ?x) with (held db c ch x). cbn [account_row ac_customer ac_type
      ac_chain ac_asset]. rewrite Ec, Eh. destruct (acct_Type a); [done|done|set_solver].
Qed.
