(* ===== verification/Conservation.v ===== *)
(** * Conservation per chain and asset

    Every money movement is between two accounts of one (chain, asset) pair, so the
    balances of a pair's accounts, platform accounts included, always sum to zero:
    what customers hold is exactly what was credited less what was paid out. *)

From Stdlib Require Import ZArith Lia.
From stdpp Require Import prelude strings sorting gmap.
From S2P Require Import Prelude GoStd Domain Store Effects Ledger Transfers Withdrawals.
From S2P Require Import WithdrawalSpecs WithdrawalInvariant Ports Deposits DepositSpecs Customers Solvency.

Definition of_pair (ch : Chain) (a : Asset) (r : AccountRow) : Prop := ac_chain r = ch ∧ ac_asset r = a.
#[export] Instance of_pair_dec ch a r : Decision (of_pair ch a r).
Proof. unfold of_pair. apply _. Defined.

Definition pair_total (db : DB) (ch : Chain) (a : Asset) : Z :=
  sumZ (λ r, sum_postings db (ac_id r)) (filter (of_pair ch a) (t_accounts db)).

Definition conserved (db : DB) : Prop := ∀ ch a, pair_total db ch a = 0.

Lemma sumZ_indicator (k : AccountRow) v (l : list AccountRow) :
  NoDup (map ac_id l) →
  sumZ (λ r, if decide (ac_id k = ac_id r) then v else 0) l =
  if decide (ac_id k ∈ map ac_id l) then v else 0.
Proof.
  induction l as [|r l IH]; intros Hnd; [done|]. apply NoDup_cons in Hnd as [Hr Hnd].
  cbn [sumZ foldr map]. change (foldr _ 0 l) with (sumZ (λ r, if decide (ac_id k = ac_id r) then v else 0) l).
  rewrite IH by done. destruct (decide (ac_id k = ac_id r)) as [E|E].
  - rewrite E, decide_False, decide_True by (done || by left). lia.
  - destruct (decide (ac_id k ∈ map ac_id l)) as [Hk|Hk].
    + rewrite decide_True by (by right). lia.
    + rewrite decide_False; [lia|]. by intros [?|?]%elem_of_cons.
Qed.

Lemma in_pair_id (l : list AccountRow) ch a k :
  NoDup (map ac_id l) → k ∈ l → ac_id k ∈ map ac_id (filter (of_pair ch a) l) ↔ of_pair ch a k.
Proof.
  intros Hnd Hk. split.
  - intros (r & E & [Hp Hr]%list_elem_of_filter)%list_elem_of_fmap.
    by rewrite (key_unique ac_id l r Hnd Hr k Hk E).
  - intros Hp. apply list_elem_of_fmap. exists k. split; [done|]. by apply list_elem_of_filter.
Qed.

Lemma NoDup_pair_ids (l : list AccountRow) ch a :
  NoDup (map ac_id l) → NoDup (map ac_id (filter (of_pair ch a) l)).
Proof.
  induction l as [|r l IH]; [done|]. intros [Hr Hnd]%NoDup_cons. rewrite filter_cons.
  case_decide; [|by apply IH]. apply NoDup_cons. split; [|by apply IH].
  intros (x & E & [_ Hx]%list_elem_of_filter)%list_elem_of_fmap. apply Hr.
  rewrite E. by apply list_elem_of_fmap_2.
Qed.

(** A movement within a pair. *)
Lemma conserved_movement db je src dst amount db1 db' :
  ledger_ok db → conserved db → posts db je (ac_id src) (ac_id dst) amount db1 → same_ledger db1 db' →
  src ∈ t_accounts db → dst ∈ t_accounts db →
  ac_chain src = ac_chain dst → ac_asset src = ac_asset dst → conserved db'.
Proof.
  intros Hok Hc HP Hl Hs Hd Ech Eas ch a. unfold pair_total.
  assert (t_accounts db' = t_accounts db) as -> by (destruct Hl as (_ & _ & ->); apply HP).
  rewrite (sumZ_ext _ (λ r, sum_postings db (ac_id r) +
    ((if decide (ac_id dst = ac_id r) then amount else 0) +
     (if decide (ac_id src = ac_id r) then - amount else 0)))).
  2:{ intros r _. rewrite (same_ledger_balance _ _ _ Hl), (posts_balance _ _ _ _ _ _ _ HP).
      repeat case_decide; lia. }
  rewrite !sumZ_add. change (sumZ _ _) with (pair_total db ch a) at 1. rewrite Hc.
  pose proof (lo_account_ids _ Hok) as Hnd.
  rewrite !sumZ_indicator by by apply NoDup_pair_ids.
  assert (of_pair ch a src ↔ of_pair ch a dst) by (unfold of_pair; rewrite Ech, Eas; done).
  repeat case_decide; rewrite in_pair_id in * by done; try lia; tauto.
Qed.

Lemma conserved_same db db' : same_ledger db db' → conserved db → conserved db'.
Proof.
  intros Hl Hc ch a. unfold pair_total. destruct Hl as (Ej & Ep & Ea). rewrite Ea.
  rewrite <-(Hc ch a). apply sumZ_ext. intros r _. unfold sum_postings. by rewrite Ep.
Qed.

Lemma same_ledger_refl db : same_ledger db db.
Proof. done. Qed.

Lemma conserved_transferred req db t db' :
  ledger_ok db → conserved db → transferred req db t db' → conserved db'.
Proof.
  intros Hl Hc HT. destruct (HT Hl) as (src & dst & Es & Ed & _ & HP & _ & _).
  apply available_account_row in Es as (s & Hs & <- & (_ & E1 & E2 & _)).
  apply available_account_row in Ed as (d & Hd & <- & (_ & F1 & F2 & _)).
  eapply conserved_movement; try done; congruence.
Qed.

Lemma conserved_created req fee target db w db' :
  ledger_ok db → conserved db → created req fee target db w db' → conserved db'.
Proof.
  intros Hl Hc [(av & ho & je & db1 & oid & Hav & (_ & E1 & E2 & _) & Hho & (_ & F1 & F2 & _) &
    _ & _ & _ & HP & _ & _ & ty & _ & ->) _].
  eapply conserved_movement; try done; congruence.
Qed.

Lemma conserved_settled id target ty ev ct plat db u db' :
  ledger_ok db → conserved db → settled id target ty ev ct plat db u db' → conserved db'.
Proof.
  intros Hl Hc (row & ho & cp & je & db1 & now & oid & _ & _ & _ & Hho & (_ & E1 & E2 & _) & Hcp &
    (_ & F1 & F2 & _) & _ & HP & _ & ->).
  eapply conserved_movement; try done; congruence.
Qed.

Lemma conserved_credits es db db' :
  Inv db → conserved db → Forall (eligible_ok db) es → steps_over credited es db db' → conserved db'.
Proof.
  revert db. induction es as [|e es IH]; intros db HI Hc Hel H; [by rewrite H|].
  destruct H as (db1 & H1 & H2). apply Forall_cons in Hel as [He Hes].
  eapply IH; [by eapply Inv_credited| | |done].
  - destruct H1 as (je & db2 & now & oid & _ & _ & HP & _ & ->).
    destruct He as (d & cu & fl & _ & _ & _ & _ & _ & _ & Hcu & Ecu & (_ & E1 & E2 & _) & Hfl & Efl &
      (_ & F1 & F2 & _)).
    rewrite <-Ecu, <-Efl in HP.
    eapply conserved_movement; [apply HI|done|exact HP|..]; try done; congruence.
  - eapply Forall_impl; [exact Hes|]. intros e' He'. by eapply eligible_ok_credited.
Qed.

Lemma conserved_provisioned customer accounts address db u db' :
  ledger_ok db → conserved db → provisioned customer accounts address db u db' → conserved db'.
Proof.
  intros Hl Hc (_ & (Hids & _) & _ & _ & _ & ->) ch a. unfold pair_total. tables.
  rewrite filter_app, sumZ_app. change (sumZ _ (filter _ (t_accounts db))) with (pair_total db ch a).
  rewrite Hc. rewrite sumZ_zero; [done|].
  intros r [_ Hr]%list_elem_of_filter. apply (no_postings_balance db r Hl). intros Hin.
  specialize (Hids (lo_account_ids _ Hl)). rewrite map_app in Hids.
  apply NoDup_app in Hids as (_ & Hdis & _). apply (Hdis _ Hin). by apply list_elem_of_fmap_2.
Qed.
