(* ===== verification/History.v ===== *)
(** * Transaction history and deposit listing

    src/internal/adapter/postgres/transaction_repo.go (keyset pagination over the
    journal with signed cursors) and deposit_reader.go. The process's time zone, the
    UUID parser and the HMAC under the repository's key are parameters. *)

From Stdlib Require Import ZArith Lia Ascii.
From stdpp Require Import prelude strings sorting gmap.
From S2P Require Import Prelude GoStd Base64 Rfc3339 Domain Store Effects Ledger Withdrawals WithdrawalSpecs.
From S2P Require Import Ports Deposits Customers.

(** ** The sort key: (created_at, journal entry id, posting id) *)

Definition HistoryKey : Type := Z * string * string.

Definition key_le (a b : HistoryKey) : Prop :=
  let '(t, j, p) := a in let '(t', j', p') := b in
  t < t' ∨ (t = t' ∧ ((j ≠ j' ∧ str_le j j') ∨ (j = j' ∧ str_le p p'))).
#[export] Instance key_le_dec a b : Decision (key_le a b).
Proof. destruct a as [[? ?] ?], b as [[? ?] ?]. unfold key_le. apply _. Defined.

Definition key_lt (a b : HistoryKey) : Prop := key_le a b ∧ a ≠ b.
#[export] Instance key_lt_dec a b : Decision (key_lt a b).
Proof. unfold key_lt. apply _. Defined.

Lemma str_le_iff a b : str_le a b ↔ (a ≤ b)%string.
Proof. unfold str_le, String.le. by rewrite Is_true_true. Qed.

#[export] Instance str_le_trans : Transitive str_le.
Proof. intros a b c. rewrite !str_le_iff. apply transitivity. Qed.
#[export] Instance str_le_total : Total str_le.
Proof. intros a b. rewrite !str_le_iff. apply total, _. Qed.
#[export] Instance str_le_antisymm : AntiSymm (=) str_le.
Proof. intros a b. rewrite !str_le_iff. apply (anti_symm _). Qed.

#[export] Instance key_le_trans : Transitive key_le.
Proof.
  intros [[t1 j1] p1] [[t2 j2] p2] [[t3 j3] p3]. unfold key_le.
  intros [H|[-> H]] [G|[-> G]]; try (left; lia). right. split; [done|].
  destruct H as [[Hn H]|[-> H]], G as [[Gn G]|[-> G]].
  - destruct (decide (j1 = j3)) as [->|]; [|left; split; [done|by etrans]].
    exfalso. apply Hn. by apply (anti_symm str_le).
  - by left.
  - by left.
  - right. split; [done|by etrans].
Qed.
#[export] Instance key_le_total : Total key_le.
Proof.
  intros [[t1 j1] p1] [[t2 j2] p2]. unfold key_le.
  destruct (Z.lt_trichotomy t1 t2) as [H|[->|H]]; [by left; left| |by right; left].
  destruct (decide (j1 = j2)) as [->|Hn].
  - destruct (total str_le p1 p2); [left|right]; auto.
  - destruct (total str_le j1 j2); [left|right]; right; split; auto.
Qed.
#[export] Instance key_le_antisymm : AntiSymm (=) key_le.
Proof.
  intros [[t1 j1] p1] [[t2 j2] p2]. unfold key_le.
  intros [H|[-> H]] [G|[E G]]; try lia.
  destruct H as [[Hn H]|[-> H]], G as [[Gn G]|[E' G]]; try done.
  - exfalso. by apply Hn, (anti_symm str_le).
  - by rewrite (anti_symm str_le _ _ H G).
Qed.

(** ** Rows *)

Record HistoryRow := mkHistoryRow {
  h_entry : JournalEntry; h_posting : Posting; h_account : AccountRow;
}.
Definition h_key (r : HistoryRow) : HistoryKey :=
  (je_created_at (h_entry r), je_id (h_entry r), po_id (h_posting r)).

(** journal_entries JOIN postings JOIN accounts, of the customer's available accounts. *)
Definition history_join (db : DB) (customerID : string) : list HistoryRow :=
  t_journal_entries db ≫= λ je,
  filter (λ p, po_entry p = je_id je) (t_postings db) ≫= λ p,
  map (λ a, mkHistoryRow je p a)
    (filter (λ a, ac_id a = po_account p ∧ ac_customer a = Some customerID ∧
                  ac_type a = AccountTypeAvailable) (t_accounts db)).

Definition newest_first (a b : HistoryRow) : Prop := key_le (h_key b) (h_key a).
#[export] Instance newest_first_dec a b : Decision (newest_first a b).
Proof. unfold newest_first. apply _. Defined.

(** The whole history, newest first. *)
Definition history (db : DB) (customerID : string) : list HistoryRow :=
  merge_sort newest_first (history_join db customerID).

Definition before_cursor (origin : option HistoryKey) (r : HistoryRow) : Prop :=
  match origin with None => True | Some k => key_lt (h_key r) k end.
#[export] Instance before_cursor_dec origin r : Decision (before_cursor origin r).
Proof. destruct origin; simpl; apply _. Defined.

(** The query: WHERE the key is strictly below the cursor, ORDER BY key DESC, LIMIT. *)
Definition history_query (customerID : string) (origin : option HistoryKey) (limit : nat) (db : DB)
    : list HistoryRow :=
  take limit (merge_sort newest_first (filter (before_cursor origin) (history_join db customerID))).

Definition transactionStatus (causeType : string) : string :=
  if String.eqb causeType depositCreditCauseType then "credited" else "completed".

Definition transaction_of (r : HistoryRow) : Transaction :=
  mkTransaction (je_id (h_entry r)) (je_cause_type (h_entry r)) (po_amount (h_posting r))
    (ac_chain (h_account r)) (ac_asset (h_account r)) (transactionStatus (je_cause_type (h_entry r)))
    (je_created_at (h_entry r)).

(** ** Cursors and pages *)

Definition cursorFieldSeparator : Ascii.ascii := "|"%char.
Definition cursorPartSeparator : Ascii.ascii := "."%char.

Definition invalid_cursor (reason : string) : error :=
  ErrWrap "" (ErrIs ErrInvalidCursor) (": " +:+ reason).

Section cursors.
Context (zone : Z → Z).
Context (uuid_Parse : string → option bytes) (hmac : bytes → bytes).

Definition cursorMAC (payload : bytes) : bytes := hmac payload.

Definition cursor_payload (customerID : string) (k : HistoryKey) : string :=
  let '(createdAt, journalEntryID, postingID) := k in
  Join [customerID; format_time zone createdAt; journalEntryID; postingID] cursorFieldSeparator.

Definition encodeCursor (customerID : string) (k : HistoryKey) : string :=
  let payload := cursor_payload customerID k in
  base64_EncodeToString payload +:+ String cursorPartSeparator
    (base64_EncodeToString (cursorMAC payload)).

Definition decodeCursor (customerID cursor : string) : result HistoryKey :=
  let fail reason := Err (invalid_cursor reason) in
  match Cut cursor cursorPartSeparator with
  | None => fail "wrong shape"
  | Some (encodedPayload, encodedMAC) =>
      match base64_DecodeString encodedPayload with
      | None => fail "payload is not valid base64"
      | Some payload =>
          match base64_DecodeString encodedMAC with
          | None => fail "signature is not valid base64"
          | Some gotMAC =>
              if negb (String.eqb gotMAC (cursorMAC payload)) then fail "signature mismatch" else
              match Split payload cursorFieldSeparator with
              | [customer; createdAt; journalEntryID; postingID] =>
                  if negb (String.eqb customer customerID)
                  then fail "cursor belongs to a different customer" else
                  match parse_time createdAt with
                  | None => fail "unparseable timestamp"
                  | Some t =>
                      match uuid_Parse journalEntryID with
                      | None => fail "journal entry id is not a valid uuid"
                      | Some _ =>
                          match uuid_Parse postingID with
                          | None => fail "posting id is not a valid uuid"
                          | Some _ => Ok (t, journalEntryID, postingID)
                          end
                      end
                  end
              | _ => fail "wrong field count"
              end
          end
      end
  end.

(** Over-fetching one row tells whether there is a next page. *)
Definition page_of (customerID : string) (pageSize : nat) (rows : list HistoryRow)
    : list HistoryRow * string :=
  if (pageSize <? length rows)%nat
  then (take pageSize rows,
        match rows !! (pageSize - 1)%nat with
        | Some last => encodeCursor customerID (h_key last)
        | None => EmptyString
        end)
  else (rows, EmptyString).

Definition TransactionRepository_ListCustomerTransactions (customerID : string) (pageSize : Z)
    (cursor : string) : M TransactionPage :=
  let! exists_ := wrapping "check customer exists"
    (pool_query (λ db, customer_exists db customerID)) in
  if negb exists_ then throw (ErrIs ErrCustomerNotFound) else
  let! origin :=
    if String.eqb cursor EmptyString then ret None
    else let! k := lift_result (decodeCursor customerID cursor) in ret (Some k) in
  let! rows := wrapping "query transactions"
    (pool_query (history_query customerID origin (Z.to_nat (pageSize + 1)))) in
  do! mapM (λ r, scan_big "transaction amount" (po_amount (h_posting r))) rows in
  let '(paged, nextCursor) := page_of customerID (Z.to_nat pageSize) rows in
  ret (mkTransactionPage (map transaction_of paged) nextCursor).

Definition postgres_TransactionRepository : TransactionRepository :=
  {| ListCustomerTransactions := TransactionRepository_ListCustomerTransactions |}.
End cursors.

(** ** deposit_reader.go *)

Definition observed_desc (a b : DepositRow) : Prop := dr_observed_at b <= dr_observed_at a.
#[export] Instance observed_desc_dec a b : Decision (observed_desc a b).
Proof. unfold observed_desc. apply _. Defined.

Definition customer_deposits (db : DB) (customerID : string) : list DepositRow :=
  merge_sort observed_desc
    (filter (λ d, dr_state d ∈ [DepositObserved; DepositSafe; DepositOrphaned]) (t_deposits db) ≫= λ d,
     map (λ _, d) (filter (λ da, da_address da = dr_address d ∧ da_customer da = customerID)
                     (t_deposit_addresses db))).

(** The listing does not read block_hash. *)
Definition listed_deposit (r : DepositRow) : Deposit :=
  mkDeposit (dr_id r) (dr_chain r) (dr_asset r) (dr_address r) (dr_tx_hash r) (dr_log_index r)
    (dr_amount r) (dr_block_number r) EmptyString (dr_state r) (dr_observed_at r) (dr_updated_at r).

Definition DepositReader_ListCustomerDeposits (customerID : string) : M (list Deposit) :=
  let! exists_ := wrapping "check customer exists"
    (pool_query (λ db, customer_exists db customerID)) in
  if negb exists_ then throw (ErrIs ErrCustomerNotFound) else
  let! rows := wrapping "query deposits" (pool_query (λ db, customer_deposits db customerID)) in
  do! mapM (λ r, scan_big "deposit amount" (dr_amount r)) rows in
  ret (map listed_deposit rows).

#[export] Instance postgres_DepositReader : DepositReader :=
  { ListCustomerDeposits := DepositReader_ListCustomerDeposits }.

(** ** Cursors round trip, and are bound to their customer *)

Section cursor_lemmas.
Context (zone : Z → Z).
Context (uuid_Parse : string → option bytes) (hmac : bytes → bytes).
Hypothesis (zone_bounded : ∀ t, -1440 < zone t < 1440).
Hypothesis (uuid_no_bar : ∀ s, is_Some (uuid_Parse s) → contains_byte "|"%char s = false).

Lemma format_time_no_bar t : contains_byte "|"%char (format_time zone t) = false.
Proof. apply Format_no_bar. Qed.
Lemma parse_format_time t : representable (zone t) t → parse_time (format_time zone t) = Some t.
Proof. intros Ht. by apply parse_Format. Qed.
Hint Resolve format_time_no_bar : core.

Lemma decode_encode customer k :
  representable (zone (k.1.1)) (k.1.1) →
  is_Some (uuid_Parse customer) → is_Some (uuid_Parse (k.1.2)) → is_Some (uuid_Parse (k.2)) →
  decodeCursor uuid_Parse hmac customer (encodeCursor zone hmac customer k) = Ok k.
Proof.
  destruct k as [[t j] p]. cbn [fst snd]. intros Ht Hc Hj Hp. unfold decodeCursor, encodeCursor, cursor_payload.
  rewrite Cut_append by apply base64_no_dot. rewrite !base64_roundtrip, String.eqb_refl. cbn [negb Join].
  unfold cursorFieldSeparator. rewrite !Split_append by auto. rewrite Split_single by auto.
  rewrite String.eqb_refl, parse_format_time by done. destruct Hj as [? ->], Hp as [? ->]. done.
Qed.

(** An accepted cursor carries the tag of its payload, and its payload names the
    customer: a cursor minted for another one is refused. *)
Lemma decodeCursor_Ok customer cursor k :
  decodeCursor uuid_Parse hmac customer cursor = Ok k →
  ∃ encodedPayload encodedMAC payload created,
    Cut cursor "."%char = Some (encodedPayload, encodedMAC) ∧
    base64_DecodeString encodedPayload = Some payload ∧
    base64_DecodeString encodedMAC = Some (hmac payload) ∧
    Split payload "|"%char = [customer; created; k.1.2; k.2] ∧ parse_time created = Some k.1.1.
Proof.
  unfold decodeCursor, cursorPartSeparator, cursorFieldSeparator, cursorMAC. intros H.
  destruct (Cut cursor "."%char) as [[ep em]|] eqn:EC; [|done].
  destruct (base64_DecodeString ep) as [payload|] eqn:EP; [|done].
  destruct (base64_DecodeString em) as [got|] eqn:EM; [|done].
  destruct (String.eqb_spec got (hmac payload)) as [->|]; [|done]. cbn [negb] in H.
  destruct (Split payload "|"%char) as [|f0 [|f1 [|f2 [|f3 [|]]]]] eqn:ES; try done.
  destruct (String.eqb_spec f0 customer) as [->|]; [|done]. cbn [negb] in H.
  destruct (parse_time f1) as [t|] eqn:ET; [|done].
  destruct (uuid_Parse f2); [|done]. destruct (uuid_Parse f3); [|done]. injection H as <-.
  by exists ep, em, payload, f1.
Qed.

Lemma other_customer customer customer' k :
  is_Some (uuid_Parse customer') → is_Some (uuid_Parse (k.1.2)) → is_Some (uuid_Parse (k.2)) →
  customer ≠ customer' →
  ∃ e, decodeCursor uuid_Parse hmac customer (encodeCursor zone hmac customer' k) = Err e ∧
       errors_Is e ErrInvalidCursor = true.
Proof.
  destruct k as [[t j] p]. cbn [fst snd]. intros Hc Hj Hp Hne. unfold decodeCursor, encodeCursor, cursor_payload.
  rewrite Cut_append by apply base64_no_dot. rewrite !base64_roundtrip, String.eqb_refl. cbn [negb Join].
  unfold cursorFieldSeparator. rewrite !Split_append by auto. rewrite Split_single by auto.
  destruct (String.eqb_spec customer' customer); [congruence|]. by eexists.
Qed.
End cursor_lemmas.

(** ** Pagination enumerates the history exactly once *)

Lemma po_id_in_join db customer r :
  r ∈ history_join db customer →
  h_entry r ∈ t_journal_entries db ∧ h_posting r ∈ t_postings db ∧ h_account r ∈ t_accounts db ∧
  po_entry (h_posting r) = je_id (h_entry r) ∧ ac_id (h_account r) = po_account (h_posting r).
Proof.
  unfold history_join. intros (je & Hr & Hje)%list_elem_of_bind.
  apply list_elem_of_bind in Hr as (p & Hr & [Ep Hp]%list_elem_of_filter).
  apply list_elem_of_fmap in Hr as (a & -> & [(Ea & _) Ha]%list_elem_of_filter). done.
Qed.

(** A row is determined by its key. *)
Lemma h_key_inj db customer r r' :
  ledger_ok db → r ∈ history_join db customer → r' ∈ history_join db customer →
  h_key r = h_key r' → r = r'.
Proof.
  intros Hok (H1 & H2 & H3 & H4 & H5)%po_id_in_join (G1 & G2 & G3 & G4 & G5)%po_id_in_join [= _ Ej Ep].
  destruct r as [je p a], r' as [je' p' a']. cbn in *.
  assert (je = je') as -> by by apply (key_unique je_id _ je' (lo_entry_ids _ Hok)).
  assert (p = p') as -> by by apply (key_unique po_id _ p' (lo_posting_ids _ Hok)).
  f_equal. apply (key_unique ac_id _ a' (lo_account_ids _ Hok)); [done..|congruence].
Qed.

#[export] Instance newest_first_trans : Transitive newest_first.
Proof. intros a b c. unfold newest_first. intros H1 H2. by etrans. Qed.
#[export] Instance newest_first_total : Total newest_first.
Proof. intros a b. unfold newest_first. apply (total key_le). Qed.

Lemma StronglySorted_filter {X} (R : X → X → Prop) (P : X → Prop) `{∀ x, Decision (P x)} l :
  StronglySorted R l → StronglySorted R (filter P l).
Proof.
  induction 1 as [|x l Hl IH Hx]; [constructor|]. rewrite filter_cons. case_decide; [|done].
  constructor; [done|]. rewrite Forall_forall in *. intros y [_ Hy]%list_elem_of_filter. auto.
Qed.

(** The query is a filter of the whole sorted history. *)
Lemma history_query_eq db customer origin limit :
  ledger_ok db →
  history_query customer origin limit db = take limit (filter (before_cursor origin) (history db customer)).
Proof.
  intros Hok. unfold history_query, history. f_equal.
  apply (StronglySorted_unique_strong newest_first).
  - intros x y Hx Hy H1 H2. apply (h_key_inj db customer); [done|..|by apply (anti_symm key_le)].
    + rewrite merge_sort_Permutation in Hx. by apply list_elem_of_filter in Hx as [_ ?].
    + apply list_elem_of_filter in Hy as [_ Hy]. by rewrite merge_sort_Permutation in Hy.
  - apply (StronglySorted_merge_sort newest_first).
  - apply StronglySorted_filter, (StronglySorted_merge_sort newest_first).
  - by rewrite !merge_sort_Permutation.
Qed.

Lemma history_sorted db customer : StronglySorted newest_first (history db customer).
Proof. apply (StronglySorted_merge_sort newest_first). Qed.

Lemma history_elem db customer r : r ∈ history db customer ↔ r ∈ history_join db customer.
Proof. unfold history. by rewrite merge_sort_Permutation. Qed.

Lemma NoDup_bind {X Y} (f : X → list Y) l :
  NoDup l → (∀ x, x ∈ l → NoDup (f x)) →
  (∀ x y z, x ∈ l → y ∈ l → z ∈ f x → z ∈ f y → x = y) → NoDup (l ≫= f).
Proof.
  induction l as [|x l IH]; intros Hnd Hf Hdis; [constructor|]. apply NoDup_cons in Hnd as [Hx Hnd].
  change ((x :: l) ≫= f) with (f x ++ (l ≫= f)). apply NoDup_app. split_and!.
  - apply Hf. by left.
  - intros z Hz (y & Hzy & Hy)%list_elem_of_bind.
    assert (x = y) as -> by (eapply Hdis; [by left|by right|done|done]). done.
  - apply IH; [done|intros; apply Hf; by right|intros; eapply Hdis; by (right || eauto)].
Qed.

Lemma NoDup_of_map {X Y} (f : X → Y) l : NoDup (map f l) → NoDup l.
Proof.
  induction l as [|x l IH]; [constructor|]. intros [Hx Hnd]%NoDup_cons. constructor; [|by apply IH].
  intros Hin. apply Hx. by apply list_elem_of_fmap_2.
Qed.

Lemma NoDup_history db customer : ledger_ok db → NoDup (history db customer).
Proof.
  intros Hok. unfold history. rewrite merge_sort_Permutation. unfold history_join.
  apply NoDup_bind; [by eapply NoDup_of_map, lo_entry_ids| |].
  - intros je _. apply NoDup_bind; [by apply NoDup_filter; eapply NoDup_of_map, lo_posting_ids| |].
    + intros p _. apply (NoDup_fmap_2_strong _); [intros a b _ _ E; by injection E|].
      apply NoDup_filter. by eapply NoDup_of_map, lo_account_ids.
    + intros p q z _ _ (a & -> & _)%list_elem_of_fmap (b & E & _)%list_elem_of_fmap.
      by injection E.
  - intros j k z _ _ (p & (a & -> & _)%list_elem_of_fmap & _)%list_elem_of_bind
      (q & (b & E & _)%list_elem_of_fmap & _)%list_elem_of_bind. by injection E.
Qed.

Lemma filter_all {X} (P : X → Prop) `{∀ x, Decision (P x)} (l : list X) :
  (∀ x, x ∈ l → P x) → filter P l = l.
Proof.
  induction l as [|x l IH]; intros Hp; [done|]. rewrite filter_cons_True by (apply Hp; by left).
  f_equal. apply IH. intros y Hy. apply Hp. by right.
Qed.

(** The rows strictly after the i-th are those below its key. *)
Lemma filter_after db customer i x :
  ledger_ok db → history db customer !! i = Some x →
  filter (before_cursor (Some (h_key x))) (history db customer) = drop (S i) (history db customer).
Proof.
  intros Hok Hi. pose proof (history_sorted db customer) as HS. pose proof (NoDup_history db customer Hok) as Hnd.
  assert (∀ y, y ∈ history db customer → h_key y = h_key x → y = x) as Hinj.
  { intros y Hy%history_elem E. eapply h_key_inj; try done.
    apply history_elem. by eapply list_elem_of_lookup_2. }
  pose proof (eq_sym (take_drop_middle _ _ _ Hi)) as E.
  rewrite E in HS, Hnd. rewrite E at 1. rewrite filter_app.
  apply StronglySorted_app in HS as (HS1 & HS2 & HS3).
  rewrite filter_none, app_nil_l.
  2:{ intros y Hy [Hle Hne]. apply Hne, (anti_symm key_le); [done|]. apply HS1; [done|by left]. }
  rewrite filter_cons_False by (intros [_ ?]; done). apply filter_all.
  intros y Hy. split.
  - inversion HS3 as [|? ? _ Hall]. rewrite Forall_forall in Hall. by apply Hall.
  - intros Ek. apply NoDup_app in Hnd as (_ & _ & [Hx _]%NoDup_cons). apply Hx.
    rewrite <-(Hinj y); [done|rewrite E; set_solver|done].
Qed.

Section paging.
Context (zone : Z → Z).
Context (uuid_Parse : string → option bytes) (hmac : bytes → bytes).
Hypothesis (zone_bounded : ∀ t, -1440 < zone t < 1440).
Hypothesis (uuid_no_bar : ∀ s, is_Some (uuid_Parse s) → contains_byte "|"%char s = false).

Let list_page := TransactionRepository_ListCustomerTransactions zone uuid_Parse hmac.

(** Following [next_cursor] from page to page. *)
Fixpoint follow_cursors (fuel : nat) (customer : string) (pageSize : Z) (cursor : string) (c : Ctx) (s : St)
    : list Transaction :=
  match fuel with
  | O => []
  | S fuel =>
      match list_page customer pageSize cursor c s with
      | (Ok page, s') =>
          tp_Transactions page ++
          (if String.eqb (tp_NextCursor page) EmptyString then []
           else follow_cursors fuel customer pageSize (tp_NextCursor page) c s')
      | (Err _, _) => []
      end
  end.

(** The journal's timestamps have four-digit years where the process runs. *)
Definition showable_journal (db : DB) : Prop :=
  ∀ je, je ∈ t_journal_entries db → representable (zone (je_created_at je)) (je_created_at je).

(** The ids of the [uuid] columns. *)
Definition uuid_columns (db : DB) : Prop :=
  (∀ je, je ∈ t_journal_entries db → is_Some (uuid_Parse (je_id je))) ∧
  (∀ p, p ∈ t_postings db → is_Some (uuid_Parse (po_id p))) ∧
  (∀ cu, cu ∈ t_customers db → is_Some (uuid_Parse (cu_id cu))).

Lemma mapM_scan_big ctx rows c s :
  mapM (λ r, scan_big ctx (po_amount (h_posting r))) rows c s
    = (Ok (map (λ r, po_amount (h_posting r)) rows), s).
Proof. apply mapM_ret. intros x. apply scan_big_eq. Qed.

Lemma list_page_run customer n cursor origin c s :
  fault_free c → cx_tx c = None → (∀ k d, env_other (cx_env c) k d = d) →
  ledger_ok (st_db s) → customer_exists (st_db s) customer = true → 0 < n →
  (cursor = EmptyString ∧ origin = None ∨
   cursor ≠ EmptyString ∧ ∃ k, origin = Some k ∧ decodeCursor uuid_Parse hmac customer cursor = Ok k) →
  let rows := take (S (Z.to_nat n)) (filter (before_cursor origin) (history (st_db s) customer)) in
  ∃ s', list_page customer n cursor c s =
      (Ok (mkTransactionPage (map transaction_of (fst (page_of zone hmac customer (Z.to_nat n) rows)))
             (snd (page_of zone hmac customer (Z.to_nat n) rows))), s') ∧ st_db s' = st_db s.
Proof.
  intros Hq Hc Ho Hok He Hn Hcur rows. unfold list_page, TransactionRepository_ListCustomerTransactions.
  assert (∀ A (f : DB → A) s, pool_query f c s = (Ok (f (st_db s)), bump s)) as Hpool.
  { intros A f s0. unfold pool_query, step. rewrite Hq, Hc, Ho. by destruct s0. }
  erewrite bind_run by (apply wrapping_run, Hpool). rewrite He. cbn [negb].
  assert (∀ s0, (if String.eqb cursor EmptyString then ret None
     else let! k := lift_result (decodeCursor uuid_Parse hmac customer cursor) in ret (Some k)) c s0
    = (Ok origin, s0)) as Horigin.
  { intros s0. destruct Hcur as [[-> ->]|(Hne & k & -> & Hk)]; [done|].
    destruct (String.eqb_spec cursor EmptyString); [done|]. by rewrite Hk. }
  erewrite bind_run by apply Horigin. erewrite bind_run by (apply wrapping_run, Hpool).
  cbn [bump st_db]. rewrite history_query_eq by done.
  replace (Z.to_nat (n + 1)) with (S (Z.to_nat n)) by lia. fold rows.
  erewrite bind_run by apply mapM_scan_big.
  destruct (page_of zone hmac customer (Z.to_nat n) rows) as [paged next]. eexists. split; [done|]. done.
Qed.

Lemma encodeCursor_nonempty customer k : encodeCursor zone hmac customer k ≠ EmptyString.
Proof. unfold encodeCursor. by destruct (base64_EncodeToString _). Qed.

Lemma follow_from customer n fuel i cursor origin c s :
  fault_free c → cx_tx c = None → (∀ k d, env_other (cx_env c) k d = d) →
  ledger_ok (st_db s) → uuid_columns (st_db s) → showable_journal (st_db s) → customer_exists (st_db s) customer = true → 0 < n →
  (cursor = EmptyString ∧ origin = None ∨
   cursor ≠ EmptyString ∧ ∃ k, origin = Some k ∧ decodeCursor uuid_Parse hmac customer cursor = Ok k) →
  filter (before_cursor origin) (history (st_db s) customer) = drop i (history (st_db s) customer) →
  (length (drop i (history (st_db s) customer)) < fuel)%nat →
  follow_cursors fuel customer n cursor c s = map transaction_of (drop i (history (st_db s) customer)).
Proof.
  intros Hq Hc Ho Hok Hu Hw He Hn. revert i cursor origin s Hok Hu Hw He.
  induction fuel as [|fuel IH]; intros i cursor origin s Hok Hu Hw He Hcur Hdrop Hfuel; [lia|].
  cbn [follow_cursors].
  destruct (list_page_run customer n cursor origin c s Hq Hc Ho Hok He Hn Hcur) as (s' & -> & Es).
  cbn [tp_Transactions tp_NextCursor]. rewrite Hdrop. set (L := history (st_db s) customer) in *.
  unfold page_of. destruct (Nat.ltb_spec (Z.to_nat n) (length (take (S (Z.to_nat n)) (drop i L)))) as [Hlt|Hge];
    cbn [fst snd].
  - rewrite length_take in Hlt.
    assert (∃ x, L !! (i + (Z.to_nat n - 1))%nat = Some x) as [x Hx].
    { apply lookup_lt_is_Some. rewrite length_drop in Hlt. lia. }
    rewrite lookup_take_lt, lookup_drop, Hx by lia.
    destruct (String.eqb_spec (encodeCursor zone hmac customer (h_key x)) EmptyString) as [E|_];
      [by apply encodeCursor_nonempty in E|].
    assert (x ∈ history_join (st_db s) customer) as Hin.
    { apply history_elem. by eapply list_elem_of_lookup_2. }
    apply po_id_in_join in Hin as (H1 & H2 & _). destruct Hu as (U1 & U2 & U3).
    rewrite (IH (i + Z.to_nat n)%nat _ (Some (h_key x)) s'); rewrite ?Es; try done.
    + rewrite take_take, Nat.min_l by lia. rewrite <-map_app, <-drop_drop. by rewrite take_drop.
    + right. split; [apply encodeCursor_nonempty|]. eexists. split; [done|].
      apply decode_encode; try done; [by apply Hw| |by apply U1|by apply U2].
      unfold customer_exists in He. apply bool_decide_eq_true, list_elem_of_fmap in He as (cu & -> & Hcu). auto.
    + rewrite (filter_after _ _ _ _ Hok Hx). f_equal. lia.
    + fold L. rewrite !length_drop in *. lia.
  - rewrite String.eqb_refl, app_nil_r. rewrite length_take in Hge.
    rewrite take_ge; [done|]. lia.
Qed.

(** C36: following the cursors from the first page returns the customer's whole
    available-account history, newest first, every journal posting exactly once,
    whatever the page size. *)
Theorem pagination_complete customer n c s :
  fault_free c → cx_tx c = None → (∀ k d, env_other (cx_env c) k d = d) →
  ledger_ok (st_db s) → uuid_columns (st_db s) → showable_journal (st_db s) → customer_exists (st_db s) customer = true → 0 < n →
  let rows := history (st_db s) customer in
  follow_cursors (S (length rows)) customer n EmptyString c s = map transaction_of rows ∧
  NoDup rows ∧ (∀ r, r ∈ rows ↔ r ∈ history_join (st_db s) customer).
Proof.
  intros Hq Hc Ho Hok Hu Hw He Hn rows. split; [|split; [by apply NoDup_history|intros; apply history_elem]].
  unfold rows. rewrite (follow_from _ _ _ 0%nat _ None); try done.
  - by left.
  - rewrite filter_all; [done|]. by intros.
  - rewrite drop_0. lia.
Qed.
End paging.

Section cursor_theorems.
Context (zone : Z → Z).
Context (uuid_Parse : string → option bytes) (hmac : bytes → bytes).

(** C37: a page cursor decodes to the row it was minted from for its own customer, and
    is refused as invalid for any other. *)
Theorem cursor_bound_to_customer customer customer' k :
  (∀ t, -1440 < zone t < 1440) → representable (zone (k.1.1)) (k.1.1) →
  (∀ s, is_Some (uuid_Parse s) → contains_byte "|"%char s = false) →
  is_Some (uuid_Parse customer) → is_Some (uuid_Parse (k.1.2)) → is_Some (uuid_Parse (k.2)) →
  let decoded := decodeCursor uuid_Parse hmac customer'
                   (encodeCursor zone hmac customer k) in
  if decide (customer' = customer) then decoded = Ok k
  else ∃ e, decoded = Err e ∧ errors_Is e ErrInvalidCursor = true.
Proof.
  intros H1 H2 H3 Hc Hj Hp decoded. unfold decoded. case_decide as E.
  - subst. by apply decode_encode.
  - by apply other_customer.
Qed.
End cursor_theorems.
