(* ===== verification/BroadcastProofs.v ===== *)
(** * Persist before send, resend the same bytes

    What the broadcaster's runs do over time (Broadcast.v), whatever faults, lost
    acknowledgements and other sessions' transactions happen in between: no bytes
    are sent before they are durably recorded for their withdrawal, a withdrawal
    whose bytes have been sent is never signed again, and every send of a
    withdrawal carries the same bytes. *)

From Stdlib Require Import ZArith Lia.
From stdpp Require Import prelude strings sorting gmap list_numbers.
From S2P Require Import Prelude GoStd Domain Store Effects Ledger Withdrawals WithdrawalSpecs.
From S2P Require Import WithdrawalInvariant Ports Broadcast Deposits DepositSpecs Customers Solvency.

(** ** Recorded bytes *)

(** The bytes an attempt row holds, as ListSignedWithdrawals reads them. *)
Definition signed_bytes (a : AttemptRow) : option bytes :=
  match ba_signed_tx a with
  | Some h => if String.eqb h EmptyString then None else hex_DecodeString (TrimPrefix h "0x")
  | None => None
  end.

Definition recorded_bytes (db : DB) (id : string) (tx : bytes) : Prop :=
  ∃ a, a ∈ t_broadcast_attempts db ∧ ba_withdrawal a = id ∧ signed_bytes a = Some tx.

Definition sent (id : string) (tr : list Event) : Prop := ∃ ch tx d, EvSend id ch tx d ∈ tr.

Record sends_ok (db : DB) (tr : list Event) : Prop := {
  so_recorded : ∀ id ch tx d, EvSend id ch tx d ∈ tr →
    tx ≠ EmptyString ∧ recorded_bytes db id tx ∧ recorded_bytes d id tx ∧
    with_status d id WithdrawalStatusSigned;
  so_no_resign : ∀ tr1 tr2 id dg, tr = tr1 ++ EvSign id dg :: tr2 → ¬ sent id tr1;
}.

Lemma recorded_bytes_unique db id t1 t2 :
  Inv db → recorded_bytes db id t1 → recorded_bytes db id t2 → t1 = t2.
Proof.
  intros HI (a1 & H1 & <- & E1) (a2 & H2 & E & E2).
  assert (a2 = a1) as ->; [|congruence].
  by apply (key_unique ba_withdrawal (t_broadcast_attempts db) a1
              (wk_attempt_ids _ (inv_withdrawals _ HI)) H1 a2 H2).
Qed.

Lemma signed_bytes_encode a tx :
  tx ≠ EmptyString → ba_signed_tx a = Some (hex_EncodeToString tx) → signed_bytes a = Some tx.
Proof.
  intros Hne E. unfold signed_bytes. rewrite E. destruct (String.eqb_spec (hex_EncodeToString tx) "") as [E'|_].
  - by destruct Hne; apply hex_encode_empty.
  - unfold TrimPrefix. by rewrite hex_encode_no_0x, hex_decode_encode.
Qed.

Lemma sends_ok_db db db' tr :
  sends_ok db tr →
  (∀ id tx, sent id tr → recorded_bytes db id tx → recorded_bytes db' id tx) → sends_ok db' tr.
Proof.
  intros [H1 H2] Hk. constructor; [|done]. intros id ch tx d Hin.
  destruct (H1 _ _ _ _ Hin) as (? & ? & ? & ?). split_and!; try done.
  apply Hk; [by eexists _, _, _|done].
Qed.

Lemma snoc_split {X} (l l1 l2 : list X) x y :
  l ++ [x] = l1 ++ y :: l2 → (l2 = [] ∧ l = l1 ∧ x = y) ∨ ∃ l2', l2 = l2' ++ [x] ∧ l = l1 ++ y :: l2'.
Proof.
  destruct l2 as [|z l2'] using rev_ind; intros E.
  - apply app_inj_tail in E as [-> ->]. auto.
  - right. exists l2'. rewrite app_comm_cons, app_assoc in E. by apply app_inj_tail in E as [-> ->].
Qed.

Lemma sends_ok_sign db tr id dg : sends_ok db tr → ¬ sent id tr → sends_ok db (tr ++ [EvSign id dg]).
Proof.
  intros [H1 H2] Hs. constructor.
  - intros i ch tx d [Hin|E%list_elem_of_singleton]%elem_of_app; [by eapply H1|done].
  - intros tr1 tr2 i g [(-> & -> & [= <- <-])|(l & -> & ->)]%snoc_split; [done|]. by eapply H2.
Qed.

Lemma sends_ok_send db tr id ch tx :
  sends_ok db tr → tx ≠ EmptyString → recorded_bytes db id tx →
  with_status db id WithdrawalStatusSigned → sends_ok db (tr ++ [EvSend id ch tx db]).
Proof.
  intros [H1 H2] Hne Hr Hs. constructor.
  - intros i c t d [Hin|[= -> -> -> ->]%list_elem_of_singleton]%elem_of_app; [by eapply H1|done].
  - intros tr1 tr2 i g [(_ & _ & ?)|(l & -> & ->)]%snoc_split; [done|]. by eapply H2.
Qed.

(** ** What the repository's steps keep of the recorded bytes *)

Lemma marked_recorded id db u db' i tx :
  marked_broadcast id db u db' → recorded_bytes db i tx → recorded_bytes db' i tx.
Proof. by intros (row & a & h & now & _ & _ & _ & _ & _ & _ & _ & ->). Qed.

Lemma claimed_recorded chain db o db' i tx :
  claimed chain db o db' → recorded_bytes db i tx → recorded_bytes db' i tx.
Proof.
  destruct o as [w|]; [|by intros [_ ->]]. intros (row & nn & now & aid & _ & _ & _ & _ & ->).
  intros (a & Ha & ?). exists a. split; [|done]. cbn. set_solver.
Qed.

Lemma recorded_other id h x db u db' i tx :
  recorded id h x db u db' → i ≠ id → recorded_bytes db i tx → recorded_bytes db' i tx.
Proof.
  intros (row & a0 & _ & _ & _ & _ & _ & ->) Hne (a & Ha & <- & E). exists a. split; [|done].
  cbn. apply list_elem_of_fmap. exists a. by rewrite decide_False.
Qed.

Lemma recorded_here id h tx db u db' :
  tx ≠ EmptyString → recorded id h (hex_EncodeToString tx) db u db' →
  recorded_bytes db' id tx ∧ with_status db' id WithdrawalStatusSigned.
Proof.
  intros Hne (row & a & Hrow & <- & Hs & Ha & E & ->). split; [|by exists row].
  exists (ba_record h (hex_EncodeToString tx) a). split_and!; [|done|by apply signed_bytes_encode].
  cbn. apply list_elem_of_fmap. exists a. by rewrite decide_True.
Qed.

Lemma claimed_fresh chain db w db' tr :
  Inv db → sends_ok db tr → claimed chain db (Some w) db' → ¬ sent (w_ID w) tr.
Proof.
  intros HI HS (row & nn & now & aid & Ho & _ & _ & -> & _) (ch & tx & d & Hin). cbn in Hin.
  apply oldest_approved_Some in Ho as (Hrow & _ & Hs).
  pose proof (wk_rows _ (inv_withdrawals _ HI) row Hrow) as Hr. unfold row_ok in Hr. rewrite Hs in Hr.
  destruct Hr as (_ & _ & Hr). apply (so_recorded _ _ HS) in Hin as (_ & (a & Ha & E & _) & _).
  apply Hr. apply list_elem_of_fmap. eauto.
Qed.

(** A listed withdrawal carries the bytes its attempt holds. *)
Lemma listed_signed chain db w :
  w ∈ omap (decode_signed chain) (signed_rows chain db) →
  ∃ a, a ∈ t_broadcast_attempts db ∧ ba_withdrawal a = w_ID w ∧
    with_status db (w_ID w) WithdrawalStatusSigned ∧ w_Nonce w = Some (ba_nonce a) ∧
    w_SignedTx w = default EmptyString (signed_bytes a).
Proof.
  intros ((r & a) & Hin & Hd)%list_elem_of_omap. unfold signed_rows in Hin.
  apply elem_of_take in Hin as (i & Hi & _). apply list_elem_of_lookup_2 in Hi.
  unfold join_attempts in Hi. apply list_elem_of_bind in Hi as (w0 & Hm & Hw0).
  apply list_elem_of_fmap in Hm as (a0 & [= -> ->] & [E Ha]%list_elem_of_filter).
  rewrite merge_sort_Permutation in Hw0. apply list_elem_of_filter in Hw0 as [[_ Hs] Hw0].
  exists a0. unfold decode_signed in Hd. unfold signed_bytes.
  destruct (ba_signed_tx a0) as [h|]; simpl in Hd.
  - destruct (String.eqb h EmptyString); [injection Hd as <-; cbn; split_and!; try done; by exists w0|].
    destruct (hex_DecodeString (TrimPrefix h "0x")); [|done]. injection Hd as <-.
    cbn. split_and!; try done. by exists w0.
  - injection Hd as <-. cbn. split_and!; try done. by exists w0.
Qed.

(** ** The invariant of the broadcaster's state *)

Definition sends_inv (s : St) : Prop := Inv (st_db s) ∧ sends_ok (st_db s) (st_trace s).

(** What the rest of the system does: it keeps the invariant and the recorded
    bytes (no other process signs for this chain: the broadcaster's lock). *)
Definition others_keep_bytes (c : Ctx) : Prop :=
  ∀ n db, Inv db → Inv (env_other (cx_env c) n db) ∧
    ∀ id tx, recorded_bytes db id tx → recorded_bytes (env_other (cx_env c) n db) id tx.

(** A computation keeps [K], whatever it returns, and establishes [Q] of a success. *)
Definition run_keeps {A} (c : Ctx) (K : St → Prop) (m : M A) (Q : A → St → Prop) : Prop :=
  ∀ s r s', K s → m c s = (r, s') → sends_inv s' ∧ ∀ a, r = Ok a → Q a s'.

Section runs.
Context (c : Ctx) (Hc : cx_tx c = None) (Hothers : others_keep_bytes c).

Lemma run_bind {A B} K (m : M A) (k : A → M B) Q Q' :
  run_keeps c K m Q → (∀ a, run_keeps c (λ s, sends_inv s ∧ Q a s) (k a) Q') →
  run_keeps c K (bind m k) Q'.
Proof.
  intros Hm Hk s r s' HK H. unfold bind in H. destruct (m c s) as [[a|e] s1] eqn:E.
  - destruct (Hm _ _ _ HK E) as [H1 H2]. by eapply Hk; [split; [|apply H2]|].
  - destruct (Hm _ _ _ HK E) as [H1 H2]. by simplify_eq.
Qed.

Lemma run_wrapping {A} K ctx (m : M A) Q : run_keeps c K m Q → run_keeps c K (wrapping ctx m) Q.
Proof.
  intros Hm s r s' HK H. unfold wrapping, map_err in H. destruct (m c s) as [[a|e] s1] eqn:E;
    simplify_eq; by destruct (Hm _ _ _ HK E).
Qed.

Lemma run_try {A} K (m : M A) Q :
  run_keeps c K m Q → run_keeps c K (try m) (λ r s, ∀ a, r = Ok a → Q a s).
Proof.
  intros Hm s r s' HK H. unfold try in H. destruct (m c s) as [r1 s1] eqn:E. simplify_eq.
  destruct (Hm _ _ _ HK E) as [H1 H2]. split; [done|]. naive_solver.
Qed.

Lemma run_try_any {A} K (m : M A) Q : run_keeps c K m Q → run_keeps c K (try m) (λ _ _, True).
Proof.
  intros Hm s r s' HK H. apply (run_try _ _ _ Hm) in H as [H _]; done.
Qed.

Lemma run_ret {A} (K : St → Prop) (a : A) (Q : A → St → Prop) :
  (∀ s, K s → sends_inv s) → (∀ s, K s → Q a s) → run_keeps c K (ret a) Q.
Proof. intros H1 H2 s r s' HK [= <- <-]. naive_solver. Qed.

Lemma run_throw {A} (K : St → Prop) e (Q : A → St → Prop) :
  (∀ s, K s → sends_inv s) → run_keeps c K (throw e) Q.
Proof. intros H1 s r s' HK [= <- <-]. naive_solver. Qed.

Lemma run_external {A} (K : St → Prop) (m : M A) :
  external m → (∀ s, K s → sends_inv s) → (∀ s s', K s → st_db s' = st_db s → st_trace s' = st_trace s → K s') →
  run_keeps c K m (λ _ s, K s).
Proof.
  intros Hm H1 H2 s r s' HK H. apply Hm in H as (E1 & E2 & _).
  assert (K s') by eauto. auto.
Qed.

Lemma run_quiet {A} (K : St → Prop) (m : M A) :
  quiet m → (∀ s, K s → sends_inv s) →
  (∀ s s', K s → others_only c (st_db s) (st_db s') → st_trace s' = st_trace s → K s') →
  run_keeps c K m (λ _ s, K s).
Proof.
  intros Hm H1 H2 s r s' HK H. apply Hm in H as (E1 & E2 & _).
  assert (K s') by eauto. auto.
Qed.

Lemma run_weaken {A} (K K' : St → Prop) (m : M A) Q :
  (∀ s, K' s → K s) → run_keeps c K m Q → run_keeps c K' m Q.
Proof. intros HK Hm s r s' HK' H. eauto. Qed.

(** The visible database at [Begin] keeps the invariant and the trace. *)
Lemma sends_inv_visible s : sends_inv s → Inv (visible c s) ∧ sends_ok (visible c s) (st_trace s).
Proof.
  intros [HI HS]. destruct (Hothers (st_tick s) _ HI) as [HI' Hk]. split; [done|].
  eapply sends_ok_db; [done|]. eauto.
Qed.

(** A transaction whose body refines [R]. *)
Lemma run_in_tx {A} K cb cc (body : M A) R (Q : A → St → Prop) :
  tx_refines body R → silent body →
  (∀ s, K s → sends_inv s) →
  (∀ s a db', K s → Inv (visible c s) → sends_ok (visible c s) (st_trace s) → R (visible c s) a db' →
     Inv db' ∧ sends_ok db' (st_trace s) ∧
     ∀ s', st_db s' = db' → st_trace s' = st_trace s → Q a s') →
  run_keeps c K (in_tx cb cc body) Q.
Proof.
  intros HR Hsil HK0 HK s r s' Hs H. pose proof (HK0 _ Hs) as Hinv.
  pose proof (sends_inv_visible _ Hinv) as [HV HVS].
  assert (st_trace s' = st_trace s) as Ht by (by eapply silent_in_tx in H).
  pose proof (in_tx_refines _ _ _ _ _ _ _ _ HR H) as Hcase. unfold sends_inv. rewrite Ht.
  destruct r as [a|e].
  - destruct Hcase as [Hr _]. destruct (HK _ _ _ Hs HV HVS Hr) as (? & ? & HQ). split; [done|].
    intros a' [= <-]. by apply HQ.
  - split; [|done]. destruct Hcase as [->|[->|(a & Hr)]]; [done|done|].
    by destruct (HK _ _ _ Hs HV HVS Hr) as (? & ? & _).
Qed.

Context `{R : WithdrawalRepository} `{!WithdrawalRepositoryLaws R}.
Context `{G : Signer} `{!SignerLaws G} `{B : TransactionBroadcaster} `{!TransactionBroadcasterLaws B}.

Lemma finalize_keeps w : run_keeps c sends_inv (finalize w) (λ _ _, True).
Proof.
  unfold finalize, wrapping. eapply (run_in_tx _ _ _ _ (marked_broadcast (w_ID w))); [|auto|done|].
  - intros c' s a s' Hc' H. m_inv1. by eapply MarkBroadcast_law.
  - apply silent_map_err, MarkBroadcast_silent.
  - intros s a db' _ HI HS HM. split_and!; [by eapply Inv_marked| |done].
    eapply sends_ok_db; [done|]. intros i tx _. by eapply marked_recorded.
Qed.

Lemma sendAndFinalize_keeps chain w :
  run_keeps c (λ s, sends_inv s ∧ w_SignedTx w ≠ EmptyString ∧
                    recorded_bytes (st_db s) (w_ID w) (w_SignedTx w) ∧
                    with_status (st_db s) (w_ID w) WithdrawalStatusSigned)
    (sendAndFinalize chain w) (λ _ _, True).
Proof.
  intros s r s' ([HI HS] & Hne & Hrec & Hst) H. unfold sendAndFinalize in H.
  change (bind (try (SendRawTransaction chain (w_SignedTx w)))
            (λ sendErr, match err_of sendErr with
               | Some e => if negb (isAlreadyKnownError (Some e))
                           then throw (wrap ("broadcast withdrawal " +:+ w_ID w +:+ " transaction") e)
                           else finalize w
               | None => finalize w end) c
            (log_event (EvSend (w_ID w) chain (w_SignedTx w) (st_db s)) s) = (r, s')) in H.
  refine (run_bind sends_inv _ _ (λ _ _, True) (λ _ _, True) _ _ _ _ _ _ H).
  - apply (run_weaken sends_inv); [done|]. intros s1 r1 s1' HK H1.
    assert (external (try (SendRawTransaction chain (w_SignedTx w)))) as Hx
      by (apply external_try, Send_external).
    apply Hx in H1 as (E1 & E2 & _). unfold sends_inv. rewrite E1, E2. done.
  - intros a. apply (run_weaken sends_inv); [by intros ? []|].
    destruct (err_of a) as [e|]; [|apply finalize_keeps].
    destruct (negb _); [by apply run_throw|apply finalize_keeps].
  - split; [done|]. cbn. by apply sends_ok_send.
Qed.

(** Nothing sent yet for [w], and its attempt is claimed. *)
Definition unsent (w : Withdrawal) (s : St) : Prop := sends_inv s ∧ ¬ sent (w_ID w) (st_trace s).

Lemma unsent_frame w s s' :
  unsent w s → st_db s' = st_db s → st_trace s' = st_trace s → unsent w s'.
Proof. intros [HI Hs] E1 E2. unfold unsent, sends_inv. by rewrite E1, E2. Qed.

Lemma unsent_others w s s' :
  unsent w s → others_only c (st_db s) (st_db s') → st_trace s' = st_trace s → unsent w s'.
Proof.
  intros [[HI HS] Hs] E1 E2. unfold unsent, sends_inv. rewrite E2. split; [|done].
  refine (others_only_keeps (λ db, Inv db ∧ sends_ok db (st_trace s)) c _ _ _ E1 (conj HI HS)).
  intros n d [HId HSd]. destruct (Hothers n d HId) as [HI' Hk]. split; [done|].
  eapply sends_ok_db; [done|]. eauto.
Qed.

Lemma emit_sign_keeps w dg : run_keeps c (unsent w) (emit (EvSign (w_ID w) dg)) (λ _ s, unsent w s).
Proof.
  intros s r s' [[HI HS] Hs] [= <- <-].
  assert (¬ sent (w_ID w) (st_trace s ++ [EvSign (w_ID w) dg])) as Hs'.
  { intros (ch & tx & d & [Hin|E%list_elem_of_singleton]%elem_of_app); [|done].
    apply Hs. by eexists _, _, _. }
  assert (sends_inv (log_event (EvSign (w_ID w) dg) s)) by (split; [done|by apply sends_ok_sign]).
  split; [done|]. done.
Qed.

Lemma record_keeps w h tx cb cc ctx :
  tx ≠ EmptyString →
  run_keeps c (unsent w)
    (in_tx cb cc (wrapping ctx (RecordSignedTx (w_ID w) h (hex_EncodeToString tx))))
    (λ _ s, recorded_bytes (st_db s) (w_ID w) tx ∧ with_status (st_db s) (w_ID w) WithdrawalStatusSigned).
Proof.
  intros Hne. eapply (run_in_tx _ _ _ _ (recorded (w_ID w) h (hex_EncodeToString tx))).
  - intros c' s a s' Hc' H. m_inv1. by eapply RecordSignedTx_law.
  - apply silent_wrapping, RecordSignedTx_silent.
  - by intros s [].
  - intros s a db' [_ Hs] HI HS HR. split_and!.
    + by eapply Inv_recorded.
    + eapply sends_ok_db; [done|]. intros i x Hi. eapply recorded_other; [done|].
      by intros ->.
    + intros s' -> _. by eapply recorded_here.
Qed.

Lemma signAndSend_keeps chain w nonce :
  run_keeps c (unsent w) (signAndSend chain w nonce) (λ _ _, True).
Proof.
  assert (∀ s, unsent w s → sends_inv s) as H0 by (by intros s []).
  unfold signAndSend. eapply run_bind; [apply run_wrapping, run_quiet; [apply Build_quiet|done|apply unsent_others]|].
  intros [dg unsignedTx]. apply (run_weaken (unsent w)); [by intros ? []|].
  eapply run_bind; [apply emit_sign_keeps|]. intros ?.
  apply (run_weaken (unsent w)); [by intros ? []|].
  eapply run_bind; [apply run_wrapping, run_external; [apply Sign_external|done|apply unsent_frame]|].
  intros sig. apply (run_weaken (unsent w)); [by intros ? []|].
  eapply (run_bind _ _ _ (λ '(tx, _) s, unsent w s ∧ tx ≠ EmptyString)).
  { apply run_wrapping. destruct (AssembleSignedTx unsignedTx sig) as [[tx h]|e] eqn:EA; simpl.
    - apply run_ret; [done|]. intros s Hs. split; [done|]. by eapply Assemble_nonempty.
    - by apply run_throw. }
  intros [tx h]. destruct (decide (tx = EmptyString)) as [->|Hne].
  { by intros s r s' (_ & _ & ?). }
  apply (run_weaken (unsent w)); [by intros ? (_ & ? & _)|].
  eapply run_bind; [by apply record_keeps|]. intros ?.
  eapply run_weaken; [|apply sendAndFinalize_keeps]. intros s (HI & Hr & Hs). done.
Qed.

(** A withdrawal as the listing found it. *)
Definition listed (w : Withdrawal) (s : St) : Prop :=
  sends_inv s ∧ ∃ a, a ∈ t_broadcast_attempts (st_db s) ∧ ba_withdrawal a = w_ID w ∧
    with_status (st_db s) (w_ID w) WithdrawalStatusSigned ∧
    w_SignedTx w = default EmptyString (signed_bytes a).

Lemma listed_unsent w s : listed w s → w_SignedTx w = EmptyString → unsent w s.
Proof.
  intros (HI & a & Ha & E & _ & Es) Hn. split; [done|]. intros (ch & tx & d & Hin).
  destruct HI as [HI HS]. apply (so_recorded _ _ HS) in Hin as (Hne & Hr & _).
  destruct Hr as (a' & Ha' & E' & Eb).
  assert (a' = a) as ->.
  { apply (key_unique ba_withdrawal (t_broadcast_attempts (st_db s)) a
             (wk_attempt_ids _ (inv_withdrawals _ HI)) Ha a' Ha'). congruence. }
  rewrite Eb in Es. simpl in Es. congruence.
Qed.

Lemma resume_keeps chain w nonce : run_keeps c (listed w) (resume chain w nonce) (λ _ _, True).
Proof.
  unfold resume. destruct (String.eqb_spec (w_SignedTx w) EmptyString) as [E|E].
  - eapply run_weaken; [|apply signAndSend_keeps]. intros s Hs. by apply listed_unsent.
  - eapply run_weaken; [|apply sendAndFinalize_keeps].
    intros s (HI & a & Ha & Ew & Hs & Es). split_and!; try done. exists a.
    split_and!; try done. by destruct (signed_bytes a); simpl in Es; [rewrite Es|].
Qed.

Lemma list_keeps chain cb ctx :
  run_keeps c sends_inv (in_tx_read cb (wrapping ctx (ListSignedWithdrawals chain)))
    (λ ws s, ∀ w, w ∈ ws → listed w s).
Proof.
  intros s r s' Hinv H. pose proof (sends_inv_visible _ Hinv) as [HV HVS].
  assert (st_trace s' = st_trace s) as Ht.
  { refine (silent_in_tx_out _ _ _ _ _ _ _ _ H).
    apply silent_bind; [apply silent_wrapping, ListSigned_silent|]. intros a. apply silent_ret. }
  apply in_tx_out_cases in H as [(e & -> & ->)|(o & s2 & Hb & _ & _ & Hcase)].
  { split; [done|]. done. }
  assert (st_db s' = visible c s ∧ (∀ a, r = Ok a → o = Ok (TxRollback a))) as [Ed Ho].
  { destruct Hcase as [[-> Ho]|(a & -> & _)].
    - split; [done|]. intros a ->. destruct o as [[x|x]|e]; [by destruct Ho|by injection Ho as ->|done].
    - apply bind_Ok in Hb as (x & s1 & _ & Hb). by apply ret_Ok in Hb as [? _]. }
  assert (sends_inv s') as HI by (unfold sends_inv; by rewrite Ed, Ht).
  split; [done|]. intros ws -> w Hw. rewrite (Ho ws eq_refl) in Hb.
  apply bind_Ok in Hb as (x & s1 & Hb & Hr). apply ret_Ok in Hr as [[= ->] _]. apply wrapping_Ok in Hb.
  apply ListSigned_law in Hb as [[_ ->] _]; [|by eexists].
  change (st_db (snd (begin_tx c s))) with (visible c s) in Hw. rewrite <-Ed in Hw.
  apply listed_signed in Hw as (a & ? & ? & ? & _ & ?). split; [done|]. by exists a.
Qed.

Lemma claim_keeps chain :
  run_keeps c sends_inv (claim chain) (λ o s, ∀ w n, o = Some (w, n) → unsent w s).
Proof.
  intros s r s' Hinv H. pose proof (sends_inv_visible _ Hinv) as [HV HVS].
  assert (st_trace s' = st_trace s) as Ht.
  { refine (silent_in_tx_out _ _ _ _ _ _ _ _ H).
    apply silent_bind; [apply silent_wrapping, ClaimApprovedWithdrawal_silent|].
    intros a. silent_tac. }
  apply in_tx_out_cases in H as [(e & -> & ->)|(o & s2 & Hb & _ & _ & Hcase)]; [split; done|].
  destruct Hcase as [[Ed Ho]|(a & -> & Ed & _ & Hr)].
  - assert (sends_inv s') as HI by (unfold sends_inv; by rewrite Ed, Ht). split; [done|].
    intros a -> w n ->. destruct o as [[x|x]|e]; [by destruct Ho|injection Ho as <-|done].
    apply bind_Ok in Hb as (y & s1 & _ & Hb). destruct y; m_inv; done.
  - apply bind_Ok in Hb as (y & s1 & Hb & Hk). apply wrapping_Ok in Hb.
    apply ClaimApprovedWithdrawal_law in Hb as [HC _]; [|by eexists].
    change (st_db (snd (begin_tx c s))) with (visible c s) in HC.
    assert (st_db s2 = st_db s1 ∧ ∀ w n, a = Some (w, n) → y = Some w) as [E Ey].
    { destruct y as [w|]; m_inv; naive_solver. }
    assert (sends_inv s') as HI.
    { unfold sends_inv. rewrite Ed, Ht, E. split; [by eapply Inv_claimed|].
      eapply sends_ok_db; [done|]. intros i tx _. by eapply claimed_recorded. }
    split; [done|]. intros a' Ea w n ->. destruct Hr as [->|(e & -> & _)]; [|done]. injection Ea as ->.
    split; [done|]. rewrite Ht. rewrite (Ey w n eq_refl) in HC. by eapply claimed_fresh.
Qed.

Lemma SignAndBroadcast_keeps chain allowClaim :
  run_keeps c sends_inv (SignAndBroadcastWithdrawal_Execute chain allowClaim) (λ _ _, True).
Proof.
  unfold SignAndBroadcastWithdrawal_Execute.
  eapply run_bind; [apply run_try, list_keeps|]. intros [[|w ws]|e].
  - destruct (negb allowClaim); [by apply run_ret; [intros ? []|]|].
    apply (run_weaken sends_inv); [by intros ? []|].
    eapply run_bind; [apply run_try, claim_keeps|].
    intros [[[w n]|]|e]; [|by apply run_ret; [intros ? []|]..].
    eapply (run_bind _ _ _ (λ _ _, True)); [|intros a; by apply run_ret; [intros ? []|]].
    eapply (run_weaken (unsent w)); [|eapply run_try_any, signAndSend_keeps].
    intros s [_ Hs]. by eapply Hs.
  - destruct (w_Nonce w) as [n|]; [|by apply run_ret; [intros ? []|]].
    eapply (run_bind _ _ _ (λ _ _, True)); [|intros a; by apply run_ret; [intros ? []|]].
    eapply (run_weaken (listed w)); [|eapply run_try_any, resume_keeps].
    intros s [_ Hs]. eapply Hs; [done|]. by left.
  - by apply run_ret; [intros ? []|].
Qed.
End runs.
