(* ===== verification/CreateWithdrawals.v ===== *)
(** * Requesting and approving withdrawals

    src/internal/core/create_withdrawal.go, approve_withdrawal.go and
    estimate_fee.go, with adapter/postgres/withdrawal_threshold_lister.go and
    watcher_liveness.go: the policy checks and the threshold routing made before a
    hold is placed, and the operator's approval. *)

From Stdlib Require Import ZArith Lia.
From stdpp Require Import prelude strings gmap.
From S2P Require Import Prelude GoStd Domain Store Effects Ledger Withdrawals WithdrawalSpecs.
From S2P Require Import WithdrawalInvariant Ports.

(** ** withdrawal_threshold_lister.go and watcher_liveness.go *)

Definition find_threshold (db : DB) (chain : Chain) (asset : Asset) : option ThresholdRow :=
  List.find (λ r, bool_decide (th_chain r = chain ∧ th_asset r = asset)) (t_thresholds db).

Definition WithdrawalThresholdLister_GetApprovalThreshold (chain : Chain) (asset : Asset)
    : M (option Z) :=
  let! row := wrapping "query withdrawal approval threshold"
    (pool_query (λ db, find_threshold db chain asset)) in
  let! r := lift_option row
    (ErrWrap "" (ErrIs ErrNoWithdrawalApprovalThreshold)
       (": chain " +:+ chain +:+ ", asset " +:+ asset)) in
  let! threshold := lift_option (big_SetString10 (big_String (th_amount r)))
    (ErrText "parse withdrawal approval threshold as integer") in
  ret (Some threshold).

#[export] Instance postgres_WithdrawalThresholdLister : WithdrawalThresholdLister :=
  { GetApprovalThreshold := WithdrawalThresholdLister_GetApprovalThreshold }.

(** MAX(updated_at) over the chain's observed cursor: NULL when there is none. *)
Definition observed_updated_at (db : DB) (chain : Chain) : option Z :=
  foldr (λ r acc, Some (match acc with Some m => Z.max (cr_updated_at r) m
                                     | None => cr_updated_at r end)) None
    (filter (λ r, cr_chain r = chain ∧ cr_tier r = CursorTierObserved) (t_watcher_cursors db)).

Definition WatcherLiveness_IsLive (chain : Chain) (staleAfter : Z) : M bool :=
  let! lastUpdated := wrapping "query watcher cursor liveness"
    (pool_query (λ db, observed_updated_at db chain)) in
  match lastUpdated with
  | None => ret false
  | Some t => let! n := now in ret (n - t <=? staleAfter)
  end.

#[export] Instance postgres_WatcherLiveness : WatcherLivenessChecker :=
  { IsLive := WatcherLiveness_IsLive }.

(** ** create_withdrawal.go *)

Definition zeroDestinationAddress : string := "0x0000000000000000000000000000000000000000".
Definition destinationAddressPattern (s : string) : bool := matches_0x_hex 40 s.

(** The four checks made before anything is read. *)
Definition withdrawal_refusal (req : WithdrawalRequest) : option sentinel :=
  match wq_Amount req with
  | None => Some ErrNonPositiveAmount
  | Some amount =>
      if amount <=? 0 then Some ErrNonPositiveAmount
      else if 256 <? big_BitLen amount then Some ErrAmountTooLarge
      else if negb (destinationAddressPattern (wq_DestinationAddress req))
      then Some ErrMalformedDestinationAddress
      else if EqualFold (wq_DestinationAddress req) zeroDestinationAddress
      then Some ErrInvalidDestinationAddress
      else None
  end.

(** The routing: at or below the threshold is approved at once. *)
Definition target_status (amount threshold : Z) : WithdrawalStatus :=
  if amount <=? threshold then WithdrawalStatusApproved else WithdrawalStatusAwaitingApproval.

Section use_cases.
Context `{R : WithdrawalRepository} `{E : FeeEstimator} `{T : WithdrawalThresholdLister}.

Definition CreateWithdrawal_Execute (req : WithdrawalRequest) : M Withdrawal :=
  match withdrawal_refusal req with
  | Some e => throw (ErrIs e)
  | None =>
      let amount := default 0 (wq_Amount req) in
      let! feeEstimate := wrapping "estimate withdrawal fee"
        (EstimateFee (wq_Chain req) (wq_Asset req) amount) in
      let! totalFee := lift_option (fe_TotalFee feeEstimate)
        (ErrText ("fee estimator for " +:+ wq_Chain req +:+ "/" +:+ wq_Asset req
                    +:+ " returned no TotalFee")) in
      let! o := wrapping "get withdrawal approval threshold"
        (GetApprovalThreshold (wq_Chain req) (wq_Asset req)) in
      let! threshold := lift_option o
        (ErrText ("withdrawal approval threshold lister for " +:+ wq_Chain req +:+ "/"
                    +:+ wq_Asset req +:+ " returned no threshold")) in
      CreateWithdrawal req totalFee (target_status amount threshold)
  end.

(** approve_withdrawal.go *)
Definition ApproveWithdrawal_Execute (id actor reason : string) : M Withdrawal :=
  let actor := TrimSpace actor in
  let reason := TrimSpace reason in
  if String.eqb actor EmptyString then throw (ErrIs ErrMissingApprovalActor) else
  if String.eqb reason EmptyString then throw (ErrIs ErrMissingApprovalReason) else
  ApproveWithdrawal id actor reason.

(** estimate_fee.go *)
Definition EstimateFee_Execute (chain : Chain) (asset : Asset) (amount : option Z) : M FeeEstimate :=
  match amount with
  | None => throw (ErrIs ErrNonPositiveAmount)
  | Some amount =>
      if amount <=? 0 then throw (ErrIs ErrNonPositiveAmount)
      else if 256 <? big_BitLen amount then throw (ErrIs ErrAmountTooLarge)
      else EstimateFee chain asset amount
  end.
End use_cases.

(** ** What the checks let through *)

Lemma withdrawal_refusal_None req :
  withdrawal_refusal req = None ↔
  ∃ amount, wq_Amount req = Some amount ∧ 0 < amount < 2 ^ 256 ∧
    matches_0x_hex 40 (wq_DestinationAddress req) = true ∧
    ToLower (wq_DestinationAddress req) ≠ zeroDestinationAddress.
Proof.
  unfold withdrawal_refusal, destinationAddressPattern, EqualFold.
  change (ToLower zeroDestinationAddress) with zeroDestinationAddress.
  destruct (wq_Amount req) as [amount|]; [|naive_solver].
  destruct (Z.leb_spec amount 0); [naive_solver lia|].
  pose proof (big_BitLen_le_256 amount ltac:(lia)).
  destruct (Z.ltb_spec 256 (big_BitLen amount)); [naive_solver lia|].
  destruct (matches_0x_hex 40 _); simpl; [|naive_solver].
  destruct (String.eqb_spec (ToLower (wq_DestinationAddress req)) zeroDestinationAddress);
    split; try done.
  - intros (? & _ & _ & _ & ?). done.
  - intros _. exists amount. split_and!; try done; lia.
Qed.

Lemma target_status_routed amount threshold :
  target_status amount threshold = WithdrawalStatusAwaitingApproval ∨
  target_status amount threshold = WithdrawalStatusApproved.
Proof. unfold target_status. case_match; auto. Qed.

Lemma GetApprovalThreshold_in_tx chain asset c s db0 o s' :
  cx_tx c = Some db0 → GetApprovalThreshold chain asset c s = (Ok o, s') →
  ∃ r, find_threshold db0 chain asset = Some r ∧ o = Some (th_amount r) ∧ st_db s' = st_db s ∧
       st_trace s' = st_trace s.
Proof.
  intros Hc H. simpl in H. unfold WithdrawalThresholdLister_GetApprovalThreshold in H. m_straight.
  match goal with H1 : pool_query _ _ _ = _ |- _ =>
    apply step_Ok in H1; rewrite Hc in H1; injection H1 as E1 <- end.
  eexists. split; [exact E1|]. rewrite big_SetString10_String in *. by simplify_eq.
Qed.

Lemma GetApprovalThreshold_run chain asset c s db0 th :
  fault_free c → cx_tx c = Some db0 → find_threshold db0 chain asset = Some th →
  ∃ s', GetApprovalThreshold chain asset c s = (Ok (Some (th_amount th)), s') ∧
    st_db s' = st_db s ∧ st_aborted s' = st_aborted s.
Proof.
  intros Hq Hc Hth. simpl. unfold WithdrawalThresholdLister_GetApprovalThreshold.
  erewrite bind_run by (apply wrapping_run; unfold pool_query, step; rewrite Hq, Hc, Hth; reflexivity).
  simpl. unfold bind. cbn [lift_option ret]. rewrite big_SetString10_String. by eexists.
Qed.

(** The whole use case, in a transaction: a success has passed every check, is
    routed by the threshold row of the committed database, and places the hold. *)
Section outcome.
Context `{E : FeeEstimator} (E_quiet : ∀ ch a z, quiet (EstimateFee ch a z)).

Definition requested (db0 : DB) (req : WithdrawalRequest) (db : DB) (w : Withdrawal) (db' : DB)
    : Prop :=
  ∃ fee th, withdrawal_refusal req = None ∧
    find_threshold db0 (wq_Chain req) (wq_Asset req) = Some th ∧
    created req fee (target_status (w_Amount w) (th_amount th)) db w db'.

Lemma CreateWithdrawal_Execute_fee req c s w s' db0 :
  cx_tx c = Some db0 → CreateWithdrawal_Execute req c s = (Ok w, s') →
  ∃ fe fee s1,
    EstimateFee (wq_Chain req) (wq_Asset req) (default 0 (wq_Amount req)) c s = (Ok fe, s1) ∧
    fe_TotalFee fe = Some fee ∧
    ∃ th, withdrawal_refusal req = None ∧ find_threshold db0 (wq_Chain req) (wq_Asset req) = Some th ∧
      created req fee (target_status (w_Amount w) (th_amount th)) (st_db s) w (st_db s') ∧
      st_trace s' = st_trace s.
Proof.
  intros Hc H. unfold CreateWithdrawal_Execute in H.
  destruct (withdrawal_refusal req) eqn:Hr; [m_inv1|]. m_inv1. m_straight.
  match goal with H1 : EstimateFee _ _ _ _ _ = _ |- _ => pose proof H1 as He;
    apply E_quiet in H1 as (Ed & Et & _); unfold others_only in Ed; rewrite Hc in Ed end.
  match goal with H1 : GetApprovalThreshold _ _ _ _ = _ |- _ =>
    apply (GetApprovalThreshold_in_tx _ _ _ _ db0) in H1 as (th & Ft & Eo & Ed' & Et'); [|done] end.
  simplify_eq.
  match goal with H1 : CreateWithdrawal _ _ _ _ _ = _ |- _ =>
    apply CreateWithdrawal_law in H1 as [HC HT]; [|by eexists] end.
  rewrite Ed', Ed in HC. eexists _, _, _. split; [exact He|]. split; [eassumption|]. exists th.
  split_and!; try done; [|congruence].
  assert (w_Amount w = default 0 (wq_Amount req)) as -> by (by rewrite (cr_result _ _ _ _ _ _ HC)).
  exact HC.
Qed.

Lemma CreateWithdrawal_Execute_requested req c s w s' db0 :
  cx_tx c = Some db0 → CreateWithdrawal_Execute req c s = (Ok w, s') →
  requested db0 req (st_db s) w (st_db s') ∧ st_trace s' = st_trace s.
Proof.
  intros Hc H. eapply CreateWithdrawal_Execute_fee in H as (fe & fee & s1 & _ & _ & th & Hr & Hth & HC & HT); [|done].
  split; [|done]. by exists fee, th.
Qed.

(** ** Without faults, a request's outcome is decided *)

(** The ids to come are distinct and no row has them. *)
Definition unused_uuids (c : Ctx) (db : DB) : Prop :=
  (∀ n m, env_uuid (cx_env c) n = env_uuid (cx_env c) m → n = m) ∧
  (∀ n, env_uuid (cx_env c) n ∉ map je_id (t_journal_entries db)) ∧
  (∀ n, env_uuid (cx_env c) n ∉ map po_id (t_postings db)) ∧
  (∀ n, env_uuid (cx_env c) n ∉ map wr_id (t_withdrawals db)) ∧
  (∀ n, env_uuid (cx_env c) n ∉ map ob_id (t_outbox_events db)).

(** A request that passed the checks, by a customer of the database for a supported pair. *)
Record placeable (req : WithdrawalRequest) (db : DB) : Prop := {
  pl_amount : 0 < default 0 (wq_Amount req) < 2 ^ 256;
  pl_destination : matches_0x_hex 40 (wq_DestinationAddress req) = true;
  pl_chain : known_chain (wq_Chain req);
  pl_asset : known_asset (wq_Asset req);
  pl_customer : wq_CustomerID req ∈ map cu_id (t_customers db);
}.

(** The decision: what the available balance cannot cover is refused, first the amount,
    then the amount with the fee; then a cause that is already journaled. *)
Definition hold_refusal (req : WithdrawalRequest) (fee : Z) (av : AccountRow) (db : DB) : option sentinel :=
  let amount := default 0 (wq_Amount req) in
  let balance := sum_postings db (ac_id av) in
  if decide (balance < amount) then Some ErrInsufficientBalance
  else if decide (balance < amount + fee) then Some ErrInsufficientBalanceForFee
  else if decide ((withdrawalHoldCauseType, wq_IdempotencyKey req) ∈ map je_cause (t_journal_entries db))
  then Some ErrDuplicateWithdrawalCause else None.

Definition decided {A} (refusal : option sentinel) (db : DB) (r : result A) (s' : St) : Prop :=
  match refusal with
  | Some why => ∃ e, r = Err e ∧ errors_Is e why = true ∧ st_db s' = db
  | None => ∃ a, r = Ok a
  end.

Lemma CreateWithdrawal_run req fee target av ho c s :
  fault_free c → runs_in_tx c → st_aborted s = false → ledger_ok (st_db s) → unused_uuids c (st_db s) →
  placeable req (st_db s) →
  target = WithdrawalStatusAwaitingApproval ∨ target = WithdrawalStatusApproved →
  find_account (st_db s) (Some (wq_CustomerID req)) (wq_Chain req) (wq_Asset req) AccountTypeAvailable = Some av →
  find_account (st_db s) (Some (wq_CustomerID req)) (wq_Chain req) (wq_Asset req) AccountTypeHold = Some ho →
  let '(r, s') := WithdrawalRepository_CreateWithdrawal req fee target c s in
  decided (hold_refusal req fee av (st_db s)) (st_db s) r s'.
Proof.
  intros Hq Htx Ha Hok (Hinj & Hje & Hpo & Hwr & Hob) [Hamt Hdest Hch Has Hcu] Hrt Hav Hho.
  destruct (WithdrawalRepository_CreateWithdrawal req fee target c s) as [r s'] eqn:Erun.
  unfold WithdrawalRepository_CreateWithdrawal in Erun. revert Erun. unfold decided, hold_refusal. cbv zeta.
  set (amount := default 0 (wq_Amount req)) in *. m_run1.
  rewrite by_type_size, decide_False by first [by apply hold_accounts_types|auto].
  rewrite (hold_accounts_found _ _ AccountTypeAvailable _ Hok ltac:(by left) Hav),
    (hold_accounts_found _ _ AccountTypeHold _ Hok ltac:(by right; left) Hho). simpl. m_run. rewrite scan_big_eq. m_run1.
  set (balance := sum_postings (st_db s) (ac_id av)).
  destruct (Z.ltb_spec balance amount).
  { rewrite decide_True by done. intros [= <- <-]. by eexists. }
  rewrite decide_False by lia. destruct (Z.ltb_spec (balance - amount) fee).
  { rewrite decide_True by lia. intros [= <- <-]. by eexists. }
  rewrite decide_False by lia. m_run1. m_run1. set (je := mkJournalEntry _ _ _ _).
  case_decide as Hdup.
  { pose proof (insert_journal_entry_duplicate je _ Hdup) as Hins.
    erewrite bind_run_Err.
    2:{ apply map_err_run_Err, tx_insert_run_fail; done. }
    intros [= <- <-]. by eexists. }
  assert (numeric78 amount) as Hnum by (unfold numeric78; lia).
  pose proof (insert_journal_entry_run je _ (Hje _) Hdup) as Hins. m_run1.
  apply find_account_Some in Hav as [Hav _], Hho as [Hho _].
  erewrite bind_run.
  2:{ unfold write_postings. m_run. m_insert insert_posting_run.
      - apply wrapping_run, tx_insert_run; [done..|]. apply insert_posting_run; cbn.
        + rewrite map_app, not_elem_of_app. split; [apply Hpo|].
          intros Eq%list_elem_of_singleton%Hinj. lia.
        + rewrite map_app. apply elem_of_app. right. by left.
        + by apply list_elem_of_fmap_2.
        + done.
      - apply Hpo.
      - cbn. rewrite map_app. apply elem_of_app. right. by left.
      - cbn. by apply list_elem_of_fmap_2.
      - by unfold numeric78 in *; simpl; rewrite Z.abs_opp. }
  m_run1. erewrite bind_run.
  2:{ apply wrapping_run, tx_insert_run; [done..|]. unfold insert_withdrawal.
      rewrite !pg_require_true; [reflexivity|cbn..]; try done; try lia; try apply Hwr.
      rewrite map_app. apply elem_of_app. right. by left. }
  assert (∃ ty, routed_event target = Some ty) as [ty ->] by (destruct Hrt as [->| ->]; by eexists).
  simpl. m_run1. unfold write_outbox.
  erewrite bind_run.
  2:{ m_run1. apply wrapping_run, tx_insert_run; [done..|]. apply pg_require_ok. split; [apply Hob|reflexivity]. }
  intros [= <- <-]. by eexists.
Qed.

(** C16: requesting a withdrawal. A request with no amount, a non-positive one, one above
    2^256-1, or a malformed or zero destination is refused before anything is read or
    written. A success asked the estimator for the fee of exactly this withdrawal, and
    holds the amount out of an available balance that covers the amount and that fee;
    it is approved at once exactly when the amount is at most the committed threshold,
    awaiting approval otherwise. Conversely, without faults, with the estimator's answer
    and a threshold, a request of a customer with accounts for the pair succeeds exactly
    when its balance covers the amount and the fee and its key was not used, and is
    otherwise refused with that reason's own error and no write. *)
Theorem withdrawal_request_spec req c s db0 :
  cx_tx c = Some db0 →
  (∀ why, withdrawal_refusal req = Some why → CreateWithdrawal_Execute req c s = (Err (ErrIs why), s)) ∧
  (∀ w s', CreateWithdrawal_Execute req c s = (Ok w, s') →
     ∃ amount fe fee s1 th av, wq_Amount req = Some amount ∧ 0 < amount < 2 ^ 256 ∧
       matches_0x_hex 40 (wq_DestinationAddress req) = true ∧
       ToLower (wq_DestinationAddress req) ≠ zeroDestinationAddress ∧
       EstimateFee (wq_Chain req) (wq_Asset req) amount c s = (Ok fe, s1) ∧ fe_TotalFee fe = Some fee ∧
       av ∈ t_accounts (st_db s) ∧
       is_account (Some (wq_CustomerID req)) (wq_Chain req) (wq_Asset req) AccountTypeAvailable av ∧
       amount + fee <= sum_postings (st_db s) (ac_id av) ∧
       find_threshold db0 (wq_Chain req) (wq_Asset req) = Some th ∧ w_Amount w = amount ∧
       w_Status w = (if amount <=? th_amount th then WithdrawalStatusApproved
                     else WithdrawalStatusAwaitingApproval) ∧
       created req fee (w_Status w) (st_db s) w (st_db s')) ∧
  (∀ fe fee s1 th av ho,
     fault_free c → st_aborted s = false → ledger_ok (st_db s) → unused_uuids c (st_db s) →
     withdrawal_refusal req = None → placeable req (st_db s) →
     EstimateFee (wq_Chain req) (wq_Asset req) (default 0 (wq_Amount req)) c s = (Ok fe, s1) →
     fe_TotalFee fe = Some fee → find_threshold db0 (wq_Chain req) (wq_Asset req) = Some th →
     find_account (st_db s) (Some (wq_CustomerID req)) (wq_Chain req) (wq_Asset req) AccountTypeAvailable = Some av →
     find_account (st_db s) (Some (wq_CustomerID req)) (wq_Chain req) (wq_Asset req) AccountTypeHold = Some ho →
     let '(r, s') := CreateWithdrawal_Execute req c s in
     decided (hold_refusal req fee av (st_db s)) (st_db s) r s').
Proof.
  intros Hc. split; [|split].
  - intros why Hr. unfold CreateWithdrawal_Execute. by rewrite Hr.
  - intros w s' H. pose proof H as Hfee.
    eapply CreateWithdrawal_Execute_fee in Hfee as (fe & fee & s1 & He & Hf & th & Hr & Hth & HC & _); [|done].
    apply withdrawal_refusal_None in Hr as (amount & Ea & Hpos & Hm & Hz). rewrite Ea in He. simpl in He.
    pose proof (cr_result _ _ _ _ _ _ HC) as Ew.
    pose proof (f_equal w_Amount Ew) as Eam. pose proof (f_equal w_Status Ew) as Est.
    cbn in Eam, Est. rewrite Ea in Eam. cbn in Eam. rewrite Eam in Est, HC. rewrite <-Est in HC.
    destruct (cr_accounts _ _ _ _ _ _ HC) as (av & ho & je & db1 & oid & Hav & Iav & _ & _ & Hbal & _).
    rewrite Eam in Hbal.
    exists amount, fe, fee, s1, th, av. split_and!; try done; apply Hpos.
  - intros fe fee s1 th av ho Hq Ha Hok Hu Hr Hpl He Hf Hth Hav Hho. unfold CreateWithdrawal_Execute. rewrite Hr.
    pose proof (E_quiet _ _ _ _ _ _ _ He) as (Ed & _ & Eab). unfold others_only in Ed. rewrite Hc in Ed.
    erewrite bind_run by (apply wrapping_run, He). rewrite Hf. simpl. m_run1.
    destruct (GetApprovalThreshold_run (wq_Chain req) (wq_Asset req) c s1 db0 th Hq Hc Hth) as (s2 & Et & Ed2 & Eab2).
    erewrite bind_run by (apply wrapping_run, Et). simpl. m_run1. rewrite <-Ed, <-Ed2 in *.
    eapply CreateWithdrawal_run; try done; [by eexists|congruence|apply target_status_routed].
Qed.
End outcome.

(** ** Approval *)

Lemma ApproveWithdrawal_Execute_refines id actor reason :
  tx_refines (ApproveWithdrawal_Execute id actor reason)
    (λ db w db', TrimSpace actor ≠ EmptyString ∧ TrimSpace reason ≠ EmptyString ∧
                 approved id (TrimSpace actor) (TrimSpace reason) db w db').
Proof.
  intros c s w s' Hc H. unfold ApproveWithdrawal_Execute in H.
  destruct (String.eqb_spec (TrimSpace actor) EmptyString); [m_inv1|].
  destruct (String.eqb_spec (TrimSpace reason) EmptyString); [m_inv1|].
  by apply ApproveWithdrawal_law in H as [HA HT].
Qed.

(** The reason an approval is refused, in the order the code checks. *)
Definition approval_refusal (db : DB) (id actor reason : string) : option sentinel :=
  if String.eqb (TrimSpace actor) EmptyString then Some ErrMissingApprovalActor
  else if String.eqb (TrimSpace reason) EmptyString then Some ErrMissingApprovalReason
  else match find_withdrawal db id with
       | None => Some ErrWithdrawalNotFound
       | Some r => if decide (wr_status r = WithdrawalStatusAwaitingApproval) then None
                   else Some ErrWithdrawalNotAwaitingApproval
       end.

Lemma bind_text_run l c s :
  fault_free c → runs_in_tx c → st_aborted s = false →
  bind_text l c s = if decide (Forall pg_text l) then (Ok tt, bump s)
                    else (Err (ErrPg character_not_in_repertoire "constraint violation"), set_aborted true (bump s)).
Proof.
  intros Hq Htx Ha. unfold bind_text, pg_require. rewrite tx_exec_run by done. by destruct (decide _); destruct s.
Qed.

(** C32: approving. Without faults, an approval with a blank actor or reason, of an
    unknown withdrawal, or of one not awaiting approval fails with its own error and
    writes nothing; so does one whose actor or reason has a NUL, which a text column
    cannot hold, with an error that is none of core's; every other one succeeds, moves
    the withdrawal to approved, and records who approved it and why. *)
Theorem approval_outcome id actor reason c s :
  fault_free c → runs_in_tx c → st_aborted s = false →
  (∀ n, env_uuid (cx_env c) n ∉ map ob_id (t_outbox_events (st_db s))) →
  let '(r, s') := ApproveWithdrawal_Execute id actor reason c s in
  match approval_refusal (st_db s) id actor reason with
  | Some why => ∃ e, r = Err e ∧ errors_Is e why = true ∧ st_db s' = st_db s
  | None =>
      if decide (Forall pg_text [TrimSpace actor; TrimSpace reason]) then
        ∃ w, r = Ok w ∧ w_Status w = WithdrawalStatusApproved ∧ w_ApprovedBy w = TrimSpace actor ∧
          w_ApprovalReason w = TrimSpace reason ∧
          approved id (TrimSpace actor) (TrimSpace reason) (st_db s) w (st_db s')
      else ∃ e, r = Err e ∧ (∀ why, errors_Is e why = false) ∧ st_db s' = st_db s
  end.
Proof.
  intros Hq Htx Ha Hob. pose proof (ApproveWithdrawal_Execute_refines id actor reason c s) as Href.
  unfold ApproveWithdrawal_Execute, approval_refusal in *. cbv zeta in *.
  destruct (String.eqb (TrimSpace actor) EmptyString); [by eexists|].
  destruct (String.eqb (TrimSpace reason) EmptyString); [by eexists|].
  simpl in *. destruct (WithdrawalRepository_ApproveWithdrawal _ _ _ c s) as [r s'] eqn:E.
  pose proof E as Erun. unfold WithdrawalRepository_ApproveWithdrawal, lock_withdrawal in Erun.
  revert Erun. destruct (find_withdrawal (st_db s) id) as [row|] eqn:Ef.
  2:{ erewrite bind_run_Err.
      2:{ erewrite bind_run by (apply wrapping_run, tx_query_run; done). rewrite Ef. reflexivity. }
      intros [= <- <-]. by eexists. }
  erewrite bind_run by (erewrite bind_run by (apply wrapping_run, tx_query_run; done); rewrite Ef; reflexivity).
  destruct (decide (wr_status row = WithdrawalStatusAwaitingApproval)) as [Es|Es].
  2:{ rewrite decide_True by done. intros [= <- <-]. by eexists. }
  rewrite decide_False by (intros Hn; by apply Hn). rewrite scan_big_eq. m_run1. m_run1.
  destruct (decide (Forall pg_text _)) as [Htext|Htext].
  2:{ erewrite bind_run_Err.
      2:{ apply map_err_run_Err, bind_run_Err. rewrite bind_text_run, decide_False by done. reflexivity. }
      intros [= <- <-]. by eexists. }
  erewrite bind_run by (apply wrapping_run; erewrite bind_run by (rewrite bind_text_run, decide_True by done; reflexivity);
    unfold update_withdrawals, tx_update_rows; rewrite tx_exec_run by done; reflexivity).
  rewrite decide_False; cbn [st_db bump].
  2:{ apply find_withdrawal_Some in Ef as [Hin Eid]. unfold rows_affected.
      intros Hz%nil_length_inv. apply (not_elem_of_nil row). rewrite <-Hz. by apply list_elem_of_filter. }
  unfold write_outbox. erewrite bind_run.
  2:{ m_run1. apply wrapping_run, tx_insert_run; [done..|].
      apply pg_require_ok. split; [apply Hob|reflexivity]. }
  intros [= <- <-]. eexists. split_and!; [reflexivity..|]. by apply Href.
Qed.
