(* ===== verification/Sql.v ===== *)
(** * Transactions as programs

    The transactions of adapter/postgres that move money, and an approval, as the sequences of SQL
    statements they send, so that Sessions.v can interleave them: an inductive type of
    programs whose nodes are the statements, with their interpretation in the monad
    [M]. Each program is shown to be the repository method it spells out. *)

From Stdlib Require Import ZArith Lia.
From stdpp Require Import prelude strings sorting gmap.
From S2P Require Import Prelude GoStd Domain Store Effects Ledger Transfers Withdrawals Deposits.

(** ** Writes *)

(** The rows the transactions insert, and the UPDATEs of a credit and an approval. *)
Inductive Write :=
  | WEntry (r : JournalEntry)
  | WPosting (r : Posting)
  | WWithdrawal (r : WithdrawalRow)
  | WOutbox (r : OutboxRow)
  | WKey (r : IdempotencyRow)
  | WCredited (depositID : string) (now : Z)
  | WApproved (id actor reason : string) (now : Z).

Definition mark_credited (depositID : string) (now : Z) (db : DB) : DB :=
  set_deposits (update_where (λ r, dr_id r = depositID) (dr_transition DepositCredited now) (t_deposits db)) db.

(** UPDATE withdrawals SET status = 'approved' ... WHERE id = $5 AND status = $6. *)
Definition approvable (id : string) (r : WithdrawalRow) : Prop :=
  wr_id r = id ∧ wr_status r = WithdrawalStatusAwaitingApproval.
#[export] Instance approvable_dec id r : Decision (approvable id r).
Proof. unfold approvable. apply _. Defined.
Definition mark_approved (id actor reason : string) (now : Z) (db : DB) : DB :=
  set_withdrawals (update_where (approvable id) (wr_approve now actor reason) (t_withdrawals db)) db.

(** What the server answers to a write on the database the transaction sees. *)
Definition exec (w : Write) (db : DB) : pgres DB :=
  match w with
  | WEntry r => insert_journal_entry r db
  | WPosting r => insert_posting r db
  | WWithdrawal r => insert_withdrawal r db
  | WOutbox r => insert_outbox_event r db
  | WKey r => insert_idempotency_key r db
  | WCredited id now => PgOk (mark_credited id now db)
  | WApproved id actor reason now =>
      pg_require (Forall pg_text [actor; reason]) character_not_in_repertoire (PgOk (mark_approved id actor reason now db))
  end.

(** The write itself. *)
Definition write (w : Write) (db : DB) : DB :=
  match w with
  | WEntry r => set_journal_entries (t_journal_entries db ++ [r]) db
  | WPosting r => set_postings (t_postings db ++ [r]) db
  | WWithdrawal r => set_withdrawals (t_withdrawals db ++ [r]) db
  | WOutbox r => set_outbox_events (t_outbox_events db ++ [r]) db
  | WKey r => set_idempotency_keys (t_idempotency_keys db ++ [r]) db
  | WCredited id now => mark_credited id now db
  | WApproved id actor reason now => mark_approved id actor reason now db
  end.

(** What a transaction with uncommitted writes [ws] sees of the committed [db]. *)
Definition view (db : DB) (ws : list Write) : DB := foldl (λ d w, write w d) db ws.

Lemma view_snoc db ws w : view db (ws ++ [w]) = write w (view db ws).
Proof. unfold view. by rewrite foldl_app. Qed.

Lemma exec_write w db db' : exec w db = PgOk db' → db' = write w db.
Proof.
  destruct w; simpl;
    unfold insert_journal_entry, insert_posting, insert_withdrawal, insert_outbox_event, insert_idempotency_key;
    intros H; repeat (apply pg_require_ok in H as [_ H]); by injection H.
Qed.

(** ** Programs *)

Definition AccountKey : Type := option string * Chain * Asset * AccountType.
Definition account_key (r : AccountRow) : AccountKey := (ac_customer r, ac_chain r, ac_asset r, ac_type r).

(** SELECT ... FROM accounts WHERE (customer, chain, asset, type) is one of [keys] ORDER BY id. *)
Definition select_accounts (keys : list AccountKey) (db : DB) : list AccountRow :=
  merge_sort (λ a b, str_le (ac_id a) (ac_id b)) (filter (λ r, account_key r ∈ keys) (t_accounts db)).

(** [on_err] is what the code makes of the statement's error; an approval's UPDATE tells
    how many rows it has affected. *)
Inductive Prog (A : Type) : Type :=
  | Return (a : A)
  | Raise (e : error)
  | LockAccounts (keys : list AccountKey) (on_err : error → error) (k : list AccountRow → Prog A)
  | LockWithdrawal (id : string) (on_err : error → error) (k : option WithdrawalRow → Prog A)
  | SumPostings (account : string) (on_err : error → error) (k : Z → Prog A)
  | Select {B : Type} (f : DB → B) (on_err : error → error) (k : B → Prog A)
  | Exec (w : Write) (on_err : error → error) (k : Prog A)
  | Approve (id actor reason : string) (now : Z) (on_err : error → error) (k : nat → Prog A)
  | NewID (ctx : string) (k : string → Prog A)
  | Now (k : Z → Prog A).
Arguments Return {_} _.
Arguments Raise {_} _.
Arguments LockAccounts {_} _ _ _.
Arguments LockWithdrawal {_} _ _ _.
Arguments SumPostings {_} _ _ _.
Arguments Select {_ _} _ _ _.
Arguments Exec {_} _ _ _.
Arguments Approve {_} _ _ _ _ _ _.
Arguments NewID {_} _ _.
Arguments Now {_} _.

Fixpoint bindP {A B} (p : Prog A) (f : A → Prog B) : Prog B :=
  match p with
  | Return a => f a
  | Raise e => Raise e
  | LockAccounts keys on_err k => LockAccounts keys on_err (λ rows, bindP (k rows) f)
  | LockWithdrawal id on_err k => LockWithdrawal id on_err (λ o, bindP (k o) f)
  | SumPostings account on_err k => SumPostings account on_err (λ z, bindP (k z) f)
  | Select g on_err k => Select g on_err (λ b, bindP (k b) f)
  | Exec w on_err k => Exec w on_err (bindP k f)
  | Approve id actor reason now on_err k => Approve id actor reason now on_err (λ n, bindP (k n) f)
  | NewID ctx k => NewID ctx (λ id, bindP (k id) f)
  | Now k => Now (λ t, bindP (k t) f)
  end.

Definition optionP {A B} (o : option A) (e : error) (k : A → Prog B) : Prog B :=
  match o with Some a => k a | None => Raise e end.

(** The program run by one process, alone. *)
Fixpoint run {A} (p : Prog A) : M A :=
  match p with
  | Return a => ret a
  | Raise e => throw e
  | LockAccounts keys on_err k => let! rows := map_err on_err (tx_query (select_accounts keys)) in run (k rows)
  | LockWithdrawal id on_err k => let! o := map_err on_err (tx_query (λ db, find_withdrawal db id)) in run (k o)
  | SumPostings account on_err k =>
      let! z := map_err on_err (tx_query (λ db, sum_postings db account)) in run (k z)
  | Select f on_err k => let! b := map_err on_err (tx_query f) in run (k b)
  | Exec w on_err k => do! map_err on_err (tx_insert (exec w)) in run k
  | Approve id actor reason now on_err k =>
      let! n := map_err on_err (do! bind_text [actor; reason] in
                                update_withdrawals (approvable id) (wr_approve now actor reason)) in run (k n)
  | NewID ctx k => let! id := newUUID ctx in run (k id)
  | Now k => let! t := now in run (k t)
  end.

(** ** The programs of the repositories *)

(** The two posting INSERTs, after their ids. *)
Definition postings_prog {A} (entry debit credit : string) (amount now : Z) (k : Prog A) : Prog A :=
  NewID "generate posting id" (λ debitID,
  NewID "generate posting id" (λ creditID,
  Exec (WPosting (mkPosting debitID entry debit (- amount) now)) (wrap "insert posting") (
  Exec (WPosting (mkPosting creditID entry credit amount now)) (wrap "insert posting") k))).

Definition outbox_prog {A} (eventType : string) (payload : OutboxPayload) (now : Z) (k : Prog A) : Prog A :=
  NewID "generate outbox event id" (λ eventID,
  Exec (WOutbox (mkOutboxRow eventID eventType payload now)) (wrap ("insert " +:+ eventType +:+ " outbox event")) k).

(** [SetString(text, 10)] of an amount the server rendered. *)
Definition scanP {A} (ctx : string) (z : Z) (k : Z → Prog A) : Prog A :=
  optionP (big_SetString10 (big_String z)) (ErrText ("parse " +:+ ctx +:+ " " +:+ big_String z +:+ " as integer")) k.

(** TransferRepository.CreateTransfer. *)
Definition transfer_keys (req : TransferRequest) : list AccountKey :=
  [(Some (tr_Source req), tr_Chain req, tr_Asset req, AccountTypeAvailable);
   (Some (tr_Destination req), tr_Chain req, tr_Asset req, AccountTypeAvailable)].

Definition transfer_prog (req : TransferRequest) : Prog Transfer :=
  LockAccounts (transfer_keys req) (wrap "lock accounts") (λ rows,
  let accountByCustomer : gmap string string :=
    foldl (λ m '(accountID, customerID), <[customerID := accountID]> m) ∅
      (map (λ r, (ac_id r, default EmptyString (ac_customer r))) rows) in
  optionP (accountByCustomer !! tr_Source req) (no_transfer_account "source" (tr_Source req) req) (λ sourceAccountID,
  optionP (accountByCustomer !! tr_Destination req)
    (no_transfer_account "destination" (tr_Destination req) req) (λ destAccountID,
  SumPostings sourceAccountID (wrap "sum source balance") (λ sum,
  scanP "source balance" sum (λ balance,
  let amount := default 0 (tr_Amount req) in
  if balance <? amount then Raise (ErrIs ErrInsufficientBalance) else
  NewID "generate journal entry id" (λ journalEntryID,
  Now (λ now,
  Exec (WEntry (mkJournalEntry journalEntryID "internal_transfer" (tr_IdempotencyKey req) now)) (transfer_entry_error req) (
  postings_prog journalEntryID sourceAccountID destAccountID amount now (
  Return (mkTransfer journalEntryID (tr_Source req) (tr_Destination req) (tr_Chain req) (tr_Asset req) amount now)))))))))).

(** WithdrawalRepository.CreateWithdrawal. *)
Definition hold_keys (req : WithdrawalRequest) : list AccountKey :=
  [(Some (wq_CustomerID req), wq_Chain req, wq_Asset req, AccountTypeAvailable);
   (Some (wq_CustomerID req), wq_Chain req, wq_Asset req, AccountTypeHold)].

Definition withdrawal_prog (req : WithdrawalRequest) (feeEstimate : Z) (targetStatus : WithdrawalStatus) : Prog Withdrawal :=
  let amount := default 0 (wq_Amount req) in
  LockAccounts (hold_keys req) (wrap "lock available/hold accounts") (λ rows,
  let rows := map (λ r, (ac_id r, ac_type r)) rows in
  let accountByType := by_type rows in
  if decide (length rows ≠ size accountByType)
  then Raise (ErrText "expected at most one account per account_type") else
  optionP (accountByType !! AccountType_text AccountTypeAvailable) (no_withdrawal_account req "available") (λ availableAccountID,
  optionP (accountByType !! AccountType_text AccountTypeHold) (no_withdrawal_account req "hold") (λ holdAccountID,
  SumPostings availableAccountID (wrap "sum available balance") (λ sum,
  scanP "available balance" sum (λ balance,
  if balance <? amount then Raise (ErrIs ErrInsufficientBalance) else
  let postHoldAvailable := balance - amount in
  if postHoldAvailable <? feeEstimate then Raise (ErrIs ErrInsufficientBalanceForFee) else
  NewID "generate journal entry id" (λ journalEntryID,
  Now (λ now,
  Exec (WEntry (mkJournalEntry journalEntryID withdrawalHoldCauseType (wq_IdempotencyKey req) now)) (hold_entry_error req) (
  postings_prog journalEntryID availableAccountID holdAccountID amount now (
  NewID "generate withdrawal id" (λ withdrawalID,
  Exec (WWithdrawal (mkWithdrawalRow withdrawalID (wq_CustomerID req) (wq_Chain req) (wq_Asset req) amount
          (wq_DestinationAddress req) targetStatus journalEntryID now now None None None None None None))
       (wrap "insert withdrawal") (
  optionP (routed_event targetStatus) (ErrText "unrecognized withdrawal target status") (λ eventType,
  outbox_prog eventType
    (withdrawalRoutedPayload withdrawalID (wq_CustomerID req) (wq_Chain req) (wq_Asset req)
       (big_String amount) (wq_DestinationAddress req) EmptyString EmptyString) now (
  Return (mkWithdrawal withdrawalID (wq_CustomerID req) (wq_Chain req) (wq_Asset req) amount
            (wq_DestinationAddress req) targetStatus now None EmptyString EmptyString EmptyString
            None EmptyString None)))))))))))))).

(** WithdrawalRepository.ApproveWithdrawal. *)
Definition approve_prog (id actor reason : string) : Prog Withdrawal :=
  LockWithdrawal id (wrap "lock withdrawal row") (λ o,
  optionP o (withdrawal_not_found id) (λ row,
  if decide (wr_status row ≠ WithdrawalStatusAwaitingApproval)
  then Raise (wrong_status ErrWithdrawalNotAwaitingApproval id (wr_status row)) else
  scanP "withdrawal amount" (wr_amount row) (λ amount,
  Now (λ now,
  Approve id actor reason now (wrap "update withdrawal to approved") (λ n,
  if decide (n = 0%nat) then Raise (changed_concurrently ErrWithdrawalNotAwaitingApproval id) else
  outbox_prog withdrawalApprovedEventType
    (withdrawalRoutedPayload id (wr_customer row) (wr_chain row) (wr_asset row)
       (big_String (wr_amount row)) (wr_destination row) actor reason) now (
  Return (mkWithdrawal id (wr_customer row) (wr_chain row) (wr_asset row) amount
            (wr_destination row) WithdrawalStatusApproved (wr_created_at row) (Some now)
            actor reason EmptyString None EmptyString None))))))).

(** DepositRepository.CreditFinalizedDeposits. *)
Definition credit_one_prog {A} (now : Z) (d : eligibleCreditDeposit) (k : Prog A) : Prog A :=
  scanP "deposit amount" (el_amount d) (λ amount,
  if amount <=? 0
  then Raise (ErrText ("deposit " +:+ el_depositID d +:+ " has a non-positive amount")) else
  NewID "generate journal entry id" (λ journalEntryID,
  Exec (WEntry (mkJournalEntry journalEntryID depositCreditCauseType (el_depositID d) now))
    (wrap ("insert deposit_credit journal entry for deposit " +:+ el_depositID d)) (
  postings_prog journalEntryID (el_floatAccount d) (el_customerAccount d) amount now (
  Exec (WCredited (el_depositID d) now) (wrap ("transition deposit " +:+ el_depositID d +:+ " to credited")) (
  outbox_prog depositCreditedEventType
    (depositCreditedPayload (el_depositID d) journalEntryID (el_chain d) (el_asset d)
       (big_String amount) (el_customerID d)) now k))))).

Definition credit_prog (chain : Chain) : Prog nat :=
  Select (eligible_credits chain) (wrap "query finalized deposits eligible for crediting") (λ eligible,
  Now (λ now,
  foldr (credit_one_prog now) (Return (length eligible)) eligible)).

(** ** They are the repositories' methods *)

(** Computations that run alike. *)
Record runs_alike {A} (m m' : M A) : Prop := alike { alike_run : ∀ c s, m c s = m' c s }.
Infix "≈" := runs_alike (at level 70) : wallet_scope.

#[export] Instance runs_alike_equivalence A : Equivalence (@runs_alike A).
Proof.
  split; [done|intros m m' [H]; by split|intros m m' m'' [H] [H']; split; intros c s; by rewrite H].
Qed.
#[export] Instance bind_runs_alike A B :
  Proper (runs_alike ==> pointwise_relation A runs_alike ==> runs_alike) (@bind A B).
Proof.
  intros m m' [Hm] k k' Hk. split. intros c s. unfold bind. rewrite Hm.
  destruct (m' c s) as [[a|e] s']; [apply Hk|done].
Qed.

Lemma bind_alike {A B} (m : M A) (k k' : A → M B) : (∀ a, k a ≈ k' a) → bind m k ≈ bind m k'.
Proof. intros Hk. by apply bind_runs_alike. Qed.

Lemma bind_ret_l {A B} (a : A) (k : A → M B) : bind (ret a) k ≈ k a.
Proof. done. Qed.
Lemma bind_assoc {A B C} (m : M A) (f : A → M B) (g : B → M C) :
  bind (bind m f) g ≈ bind m (λ a, bind (f a) g).
Proof. split. intros c s. unfold bind. by destruct (m c s) as [[a|e] s']. Qed.
Lemma bind_throw {A B} e (k : A → M B) : bind (throw e) k ≈ throw e.
Proof. done. Qed.

(** A query whose rows are scanned on the way. *)
Lemma tx_query_map {A B C} (f : DB → A) (g : A → B) h (k : B → M C) :
  bind (map_err h (tx_query (λ db, g (f db)))) k ≈ bind (map_err h (tx_query f)) (λ a, k (g a)).
Proof.
  split. intros c s. unfold bind, map_err, tx_query, tx_exec, txFromContext.
  destruct (cx_tx c); [|done]. destruct (st_aborted s); [done|]. by destruct (env_fault _ _).
Qed.
Lemma tx_query_ext {A} (f g : DB → A) : (∀ db, f db = g db) → tx_query f ≈ tx_query g.
Proof.
  intros H. split. intros c s. unfold tx_query, tx_exec, txFromContext.
  destruct (cx_tx c); [|done]. destruct (st_aborted s); [done|]. destruct (env_fault _ _); [done|]. by rewrite H.
Qed.
Lemma map_err_alike {A} f (m m' : M A) : m ≈ m' → map_err f m ≈ map_err f m'.
Proof. intros [H]. split. intros c s. unfold map_err. by rewrite H. Qed.

(** An UPDATE whose RowsAffected is not looked at. *)
Lemma update_as_insert {R} get set (P : R → Prop) `{∀ r, Decision (P r)} f {B} h (k : M B) :
  bind (map_err h (tx_update_rows get set P f)) (λ _, k) ≈
  bind (map_err h (tx_insert (λ db, PgOk (set (update_where P f (get db)) db)))) (λ _, k).
Proof.
  split. intros c s. unfold bind, map_err, tx_update_rows, tx_insert, tx_exec, txFromContext.
  destruct (cx_tx c); [|done]. destruct (st_aborted s); [done|]. by destruct (env_fault _ _).
Qed.

Lemma run_optionP {A B} (o : option A) e (k : A → Prog B) :
  run (optionP o e k) ≈ bind (lift_option o e) (λ a, run (k a)).
Proof. by destruct o. Qed.
Lemma run_scanP {A} ctx z (k : Z → Prog A) : run (scanP ctx z k) ≈ bind (scan_big ctx z) (λ b, run (k b)).
Proof. apply run_optionP. Qed.
Lemma run_postings {A} entry debit credit amount now (k : Prog A) :
  run (postings_prog entry debit credit amount now k) ≈
  bind (write_postings entry debit credit amount now) (λ _, run k).
Proof.
  unfold postings_prog, write_postings. cbn [run]. rewrite bind_assoc. apply bind_alike. intros debitID.
  rewrite bind_assoc. apply bind_alike. intros creditID. by rewrite bind_assoc.
Qed.
Lemma run_outbox {A} et payload now (k : Prog A) :
  run (outbox_prog et payload now k) ≈ bind (write_outbox et payload now) (λ _, run k).
Proof. unfold outbox_prog, write_outbox. cbn [run]. by rewrite bind_assoc. Qed.

Lemma select_transfer req db :
  transfer_accounts req db = map (λ r, (ac_id r, default EmptyString (ac_customer r))) (select_accounts (transfer_keys req) db).
Proof.
  unfold transfer_accounts, select_accounts, transfer_keys, account_key. f_equal. f_equal.
  apply list_filter_iff. intros r. rewrite !list_elem_of_In. simpl. naive_solver congruence.
Qed.
Lemma select_hold req db :
  hold_accounts req db = map (λ r, (ac_id r, ac_type r)) (select_accounts (hold_keys req) db).
Proof.
  unfold hold_accounts, select_accounts, hold_keys, account_key. f_equal. f_equal.
  apply list_filter_iff. intros r. rewrite !list_elem_of_In. simpl. naive_solver congruence.
Qed.

Lemma transfer_prog_is_code req : run (transfer_prog req) ≈ TransferRepository_CreateTransfer req.
Proof.
  unfold transfer_prog, TransferRepository_CreateTransfer, wrapping. cbn [run].
  rewrite (map_err_alike _ _ _ (tx_query_ext _ _ (select_transfer req))),
    (tx_query_map (select_accounts (transfer_keys req)) (map (λ r, (ac_id r, default EmptyString (ac_customer r))))).
  apply bind_alike. intros rows. rewrite run_optionP. apply bind_alike. intros src.
  rewrite run_optionP. apply bind_alike. intros dst. apply bind_alike. intros sum.
  rewrite run_scanP. apply bind_alike. intros balance. destruct (balance <? _); [done|].
  apply bind_alike. intros je. apply bind_alike. intros t. apply bind_alike. intros [].
  rewrite run_postings. unfold write_postings, wrapping. rewrite bind_assoc. apply bind_alike. intros p.
  rewrite bind_assoc. apply bind_alike. intros q. by rewrite bind_assoc.
Qed.

Lemma withdrawal_prog_is_code req fee status :
  run (withdrawal_prog req fee status) ≈ WithdrawalRepository_CreateWithdrawal req fee status.
Proof.
  unfold withdrawal_prog, WithdrawalRepository_CreateWithdrawal, wrapping. cbn [run].
  rewrite (map_err_alike _ _ _ (tx_query_ext _ _ (select_hold req))),
    (tx_query_map (select_accounts (hold_keys req)) (map (λ r, (ac_id r, ac_type r)))).
  apply bind_alike. intros rows. case_decide; [done|]. rewrite run_optionP. apply bind_alike. intros av.
  rewrite run_optionP. apply bind_alike. intros hold. apply bind_alike. intros sum.
  rewrite run_scanP. apply bind_alike. intros balance. destruct (balance <? _); [done|].
  destruct (_ <? fee); [done|]. apply bind_alike. intros je. apply bind_alike. intros t. apply bind_alike. intros [].
  rewrite run_postings. apply bind_alike. intros []. apply bind_alike. intros w. apply bind_alike. intros [].
  rewrite run_optionP. apply bind_alike. intros et. by rewrite run_outbox.
Qed.

Lemma approve_prog_is_code id actor reason :
  run (approve_prog id actor reason) ≈ WithdrawalRepository_ApproveWithdrawal id actor reason.
Proof.
  unfold approve_prog, WithdrawalRepository_ApproveWithdrawal, lock_withdrawal, wrapping. cbn [run].
  rewrite bind_assoc. apply bind_alike. intros o. rewrite run_optionP. apply bind_alike. intros row.
  case_decide; [done|]. rewrite run_scanP. apply bind_alike. intros amount. apply bind_alike. intros t.
  apply bind_alike. intros n. case_decide; [done|]. by rewrite run_outbox.
Qed.

Lemma credit_one_prog_is_code {A} now d (k : Prog A) :
  run (credit_one_prog now d k) ≈ bind (credit_one now d) (λ _, run k).
Proof.
  unfold credit_one_prog, credit_one. rewrite run_scanP, bind_assoc. apply bind_alike. intros amount.
  destruct (amount <=? 0); [done|]. cbn [run]. rewrite bind_assoc. apply bind_alike. intros je.
  rewrite bind_assoc. apply bind_alike. intros []. rewrite run_postings, bind_assoc. apply bind_alike. intros [].
  cbn [run]. rewrite bind_assoc. setoid_rewrite run_outbox. symmetry. apply (update_as_insert t_deposits set_deposits).
Qed.

Lemma credit_prog_is_code chain : run (credit_prog chain) ≈ DepositRepository_CreditFinalizedDeposits chain.
Proof.
  unfold credit_prog, DepositRepository_CreditFinalizedDeposits, wrapping. cbn [run]. apply bind_alike. intros eligible.
  apply bind_alike. intros t. generalize (length eligible) as n. intros n.
  induction eligible as [|d ds IH]; cbn [foldr forM_]; [by rewrite bind_ret_l|].
  rewrite credit_one_prog_is_code, bind_assoc. apply bind_alike. intros []. exact IH.
Qed.

(** ** Statement by statement *)

(** One statement of a transaction on the committed [db]: the program left, and the
    writes so far. *)
Inductive sql_step {A} (db : DB) : Prog A * list Write → Prog A * list Write → Prop :=
  | sql_lock keys on_err k ws :
      sql_step db (LockAccounts keys on_err k, ws) (k (select_accounts keys (view db ws)), ws)
  | sql_lock_withdrawal id on_err k ws :
      sql_step db (LockWithdrawal id on_err k, ws) (k (find_withdrawal (view db ws) id), ws)
  | sql_sum account on_err k ws :
      sql_step db (SumPostings account on_err k, ws) (k (sum_postings (view db ws) account), ws)
  | sql_select B (f : DB → B) on_err k ws : sql_step db (Select f on_err k, ws) (k (f (view db ws)), ws)
  | sql_exec w on_err k ws :
      exec w (view db ws) = PgOk (view db (ws ++ [w])) → sql_step db (Exec w on_err k, ws) (k, ws ++ [w])
  | sql_approve id actor reason now on_err k ws (w := WApproved id actor reason now) :
      exec w (view db ws) = PgOk (view db (ws ++ [w])) →
      sql_step db (Approve id actor reason now on_err k, ws)
        (k (rows_affected (approvable id) (t_withdrawals (view db ws))), ws ++ [w])
  | sql_id ctx k id ws : sql_step db (NewID ctx k, ws) (k id, ws)
  | sql_now k t ws : sql_step db (Now k, ws) (k t, ws).

(** An environment without faults whose ids and clock, from tick [t] on, are [u] and [n]. *)
Definition draws (c : Ctx) (t : nat) (u : nat → string) (n : nat → Z) : Prop :=
  fault_free c ∧ runs_in_tx c ∧ (∀ k, (t < k)%nat → env_uuid (cx_env c) k = u k) ∧
  (∀ k, (t <= k)%nat → env_now (cx_env c) k = n k).

Lemma draws_later c t u n u' n' :
  (∀ k, (S t < k)%nat → u k = u' k) → (∀ k, (S t <= k)%nat → n k = n' k) → draws c t u n → draws c (S t) u' n'.
Proof.
  intros Hu Hn (Hq & Htx & Eu & En). split_and!; [done..| |].
  - intros k Hk. rewrite <-Hu by done. apply Eu. lia.
  - intros k Hk. rewrite <-Hn by done. apply En. lia.
Qed.

(** Statements that succeed one after the other on [db] are a run of the computation. *)
Definition replays {A} (db : DB) (m : M A) (ws : list Write) (a : A) (ws' : list Write) : Prop :=
  ∀ t, ∃ u n, ∀ c s, draws c t u n → st_tick s = t → st_db s = view db ws → st_aborted s = false →
    ∃ s', m c s = (Ok a, s') ∧ st_db s' = view db ws'.

Lemma replays_alike {A} db (m m' : M A) ws a ws' : m ≈ m' → replays db m' ws a ws' → replays db m ws a ws'.
Proof. intros [E] H t. destruct (H t) as (u & n & Hr). exists u, n. intros c s. rewrite E. apply Hr. Qed.

Lemma replays_stmt {A B} db (m : M B) (k : B → M A) (b : B) ws ws1 a ws' :
  (∀ c s, fault_free c → runs_in_tx c → st_db s = view db ws → st_aborted s = false →
     m c s = (Ok b, set_db (view db ws1) (bump s))) →
  replays db (k b) ws1 a ws' → replays db (bind m k) ws a ws'.
Proof.
  intros Hm Hk t. destruct (Hk (S t)) as (u & n & H). exists u, n. intros c s Hd Ht Hs Ha.
  unfold bind. destruct Hd as (Hq & Htx & Hd). rewrite Hm by done. apply H; cbn.
  - by apply (draws_later _ _ u n).
  - by rewrite Ht.
  - done.
  - done.
Qed.

Lemma query_stmt {B} db (f : DB → B) h ws c s :
  fault_free c → runs_in_tx c → st_db s = view db ws → st_aborted s = false →
  map_err h (tx_query f) c s = (Ok (f (view db ws)), set_db (view db ws) (bump s)).
Proof.
  intros Hq Htx Hs Ha. unfold map_err. rewrite tx_query_run by done. rewrite Hs, <-Hs. by destruct s.
Qed.

Lemma exec_stmt db w h ws c s :
  exec w (view db ws) = PgOk (view db (ws ++ [w])) →
  fault_free c → runs_in_tx c → st_db s = view db ws → st_aborted s = false →
  map_err h (tx_insert (exec w)) c s = (Ok tt, set_db (view db (ws ++ [w])) (bump s)).
Proof.
  intros Hw Hq Htx Hs Ha. apply map_err_run, tx_insert_run; [done..|]. by rewrite Hs.
Qed.

(** The UPDATE of an approval: its parameters, then its rows. *)
Lemma map_err_bind {A B} h (m : M A) (k : A → M B) : map_err h (bind m k) ≈ bind (map_err h m) (λ a, map_err h (k a)).
Proof. split. intros c s. unfold map_err, bind. by destruct (m c s) as [[a|e] s']. Qed.

Lemma bind_text_stmt db l h ws c s :
  Forall pg_text l → fault_free c → runs_in_tx c → st_db s = view db ws → st_aborted s = false →
  map_err h (bind_text l) c s = (Ok tt, set_db (view db ws) (bump s)).
Proof.
  intros Hl Hq Htx Hs Ha. unfold map_err, bind_text. rewrite tx_exec_run by done. unfold pg_require.
  rewrite decide_True by done. by rewrite Hs.
Qed.

Lemma update_stmt db id actor reason now h ws c s (w := WApproved id actor reason now) :
  fault_free c → runs_in_tx c → st_db s = view db ws → st_aborted s = false →
  map_err h (update_withdrawals (approvable id) (wr_approve now actor reason)) c s =
    (Ok (rows_affected (approvable id) (t_withdrawals (view db ws))), set_db (view db (ws ++ [w])) (bump s)).
Proof.
  intros Hq Htx Hs Ha. unfold map_err, update_withdrawals, tx_update_rows. rewrite tx_exec_run by done.
  rewrite Hs, view_snoc. done.
Qed.

Lemma replays_id {A} db ctx (k : string → M A) id ws a ws' :
  replays db (k id) ws a ws' → replays db (bind (newUUID ctx) k) ws a ws'.
Proof.
  intros H t. destruct (H (S t)) as (u & n & Hr). exists (λ j, if decide (j = S t) then id else u j), n.
  intros c s Hd Ht Hs Ha. unfold bind. destruct Hd as (Hq & Htx & Hu & Hn). rewrite newUUID_run by done.
  rewrite Ht, Hu, decide_True by lia. apply Hr; [|cbn; by rewrite Ht|done..].
  split_and!; [done..| |]; intros j Hj; [rewrite Hu, decide_False by lia|rewrite Hn by lia]; done.
Qed.

Lemma replays_now {A} db (k : Z → M A) z ws a ws' :
  replays db (k z) ws a ws' → replays db (bind now k) ws a ws'.
Proof.
  intros H t. destruct (H (S t)) as (u & n & Hr). exists u, (λ j, if decide (j = t) then z else n j).
  intros c s Hd Ht Hs Ha. unfold bind, now. destruct Hd as (Hq & Htx & Hu & Hn).
  rewrite Ht, Hn, decide_True by lia. apply Hr; [|cbn; by rewrite Ht|done..].
  split_and!; [done..| |]; intros j Hj; [rewrite Hu by lia|rewrite Hn, decide_False by lia]; done.
Qed.

Lemma replays_run {A} db (p : Prog A) ws a ws' :
  rtc (sql_step db) (p, ws) (Return a, ws') → replays db (run p) ws a ws'.
Proof.
  remember (p, ws) as x eqn:Ex. remember (Return a, ws') as y eqn:Ey. intros H. revert p ws Ex.
  induction H as [x|x [p1 ws1] y Hs _ IH]; intros p ws Ex; subst.
  - injection Ex as <- <-. intros t. exists (λ _, EmptyString), (λ _, 0). intros c s _ _ Hs _. by exists s.
  - specialize (IH eq_refl p1 ws1 eq_refl).
    inversion Hs as [keys oe k ws2|id oe k ws2|account oe k ws2|B f oe k ws2|w oe k ws2 Hw
      |id actor reason z oe k ws2 w Hw|ctx k i ws2|k z ws2]; simplify_eq; cbn [run].
    + eapply replays_stmt; [intros; by apply query_stmt|exact IH].
    + eapply replays_stmt; [intros; by apply query_stmt|exact IH].
    + eapply replays_stmt; [intros; by apply query_stmt|exact IH].
    + eapply replays_stmt; [intros; by apply query_stmt|exact IH].
    + eapply replays_stmt; [intros; by apply exec_stmt|exact IH].
    + eapply replays_alike; [rewrite map_err_bind; apply bind_assoc|]. apply pg_require_ok in Hw as [Hw _].
      eapply replays_stmt; [intros; by apply bind_text_stmt|]. eapply replays_stmt; [intros; by apply update_stmt|exact IH].
    + by apply (replays_id _ _ _ i).
    + by apply (replays_now _ _ z).
Qed.

(** What a program did statement by statement on [db], it does when run alone on [db]. *)
Lemma replay_alone {A} db (p : Prog A) a ws :
  rtc (sql_step db) (p, []) (Return a, ws) →
  ∃ c s s', runs_in_tx c ∧ st_db s = db ∧ run p c s = (Ok a, s') ∧ st_db s' = view db ws.
Proof.
  intros H. destruct (replays_run _ _ _ _ _ H 0%nat) as (u & n & Hr).
  set (c := mkCtx (mkEnv (λ _, None) (λ _, false) u n (λ _ db, db)) (Some db)).
  destruct (Hr c (mkSt db false 0 [] false)) as (s' & Hrun & Hs'); [by split_and!; try eexists|done..|].
  exists c, (mkSt db false 0 [] false), s'. split_and!; [by eexists|done..].
Qed.
