(* ===== verification/Idempotency.v ===== *)
(** * Authentication and idempotency of HTTP requests

    src/internal/adapter/api/middleware_auth.go, middleware_idempotency.go and
    problem.go, with adapter/postgres/idempotency_store.go: the two layers every
    request goes through, and the transaction the idempotency layer opens around
    a mutating handler. A handler is the list of calls it makes on its
    [http.ResponseWriter]. The JSON encoding of a problem and SHA-256 are
    parameters. *)

From Stdlib Require Import ZArith Lia Ascii.
From stdpp Require Import prelude strings gmap.
From S2P Require Import Prelude GoStd Domain Store Effects Ledger Withdrawals WithdrawalSpecs Ports.

(** ** Requests and responses *)

(** A parsed request: [r.URL.Path], [r.URL.EscapedPath()], [r.URL.Query()] in order, the
    Authorization header ("" when missing), every Idempotency-Key header, and the
    body, [None] when it cannot be read. *)
Record Request := mkRequest {
  rq_Method : string; rq_Path : string; rq_EscapedPath : string; rq_Query : list (string * string);
  rq_Authorization : string; rq_IdempotencyKeys : list string; rq_Body : option bytes;
}.

(** [r.Header.Get("Idempotency-Key")]. *)
Definition rq_IdempotencyKey (r : Request) : string := default EmptyString (head (rq_IdempotencyKeys r)).

Inductive WriterCall :=
  | SetContentType (ct : string) | WriteHeader (status : Z) | WriteBody (b : bytes).

Definition Handler : Type := Request → M (list WriterCall).

(** The [responseRecorder]. *)
Record responseRecorder := mkRecorder {
  rec_ctype : string; rec_status : Z; rec_body : bytes; rec_wroteHeader : bool;
}.
Definition newResponseRecorder : responseRecorder := mkRecorder "" 0 "" false.

Definition recorder_WriteHeader (status : Z) (r : responseRecorder) : responseRecorder :=
  if rec_wroteHeader r then r else mkRecorder (rec_ctype r) status (rec_body r) true.
Definition recorder_Write (b : bytes) (r : responseRecorder) : responseRecorder :=
  let r := if rec_wroteHeader r then r else recorder_WriteHeader 200 r in
  mkRecorder (rec_ctype r) (rec_status r) (rec_body r +:+ b) (rec_wroteHeader r).
Definition recorder_call (r : responseRecorder) (call : WriterCall) : responseRecorder :=
  match call with
  | SetContentType ct => mkRecorder ct (rec_status r) (rec_body r) (rec_wroteHeader r)
  | WriteHeader status => recorder_WriteHeader status r
  | WriteBody b => recorder_Write b r
  end.
Definition recorded_calls (calls : list WriterCall) : responseRecorder :=
  fold_left recorder_call calls newResponseRecorder.
Definition recorder_result (r : responseRecorder) : StoredResponse :=
  mkStoredResponse (if rec_wroteHeader r then rec_status r else 200) (rec_body r) (rec_ctype r).

Record ProblemDetails := mkProblem {
  pd_Type : string; pd_Title : string; pd_Status : Z; pd_Detail : string; pd_Instance : string;
}.
Definition problemTypeBase : string := "https://digital-asset-wallet-platform.dev/problems/".

(** ** idempotency_store.go *)

Definition find_key (db : DB) (key : string) : option IdempotencyRow :=
  List.find (λ r, bool_decide (ik_key r = key)) (t_idempotency_keys db).

Definition entry_of_row (r : IdempotencyRow) : StoredEntry :=
  mkStoredEntry (ik_hash r) (mkStoredResponse (ik_status r) (ik_body r) (ik_ctype r)).

Definition IdempotencyStore_Lookup (key : string) : M (option StoredEntry) :=
  wrapping "lookup idempotency key" (pool_query (λ db, option_map entry_of_row (find_key db key))).

Definition IdempotencyStore_Insert (key : string) (hash : bytes) (resp : StoredResponse) : M unit :=
  map_err (λ e, if is_unique_violation e then ErrIs ErrKeyConflict
                else wrap "insert idempotency key" e)
    (tx_insert (insert_idempotency_key
      (mkIdempotencyRow key hash (sr_Status resp) (sr_Body resp) (sr_ContentType resp)))).

#[export] Instance postgres_IdempotencyStore : IdempotencyStore :=
  { Lookup := IdempotencyStore_Lookup; Insert := IdempotencyStore_Insert }.

Section middleware.
Context `{S : IdempotencyStore}.
Context (encode_problem : ProblemDetails → bytes) (sha256 : bytes → bytes).

(** ** problem.go *)

Definition problem_calls (status : Z) (title detail instance : string) : list WriterCall :=
  [SetContentType "application/problem+json"; WriteHeader status;
   WriteBody (encode_problem (mkProblem (problemTypeBase +:+ title) title status detail instance))].

Definition WriteProblem (r : Request) (status : Z) (title detail : string) : StoredResponse :=
  recorder_result (recorded_calls (problem_calls status title detail (rq_Path r))).

(** ** middleware_auth.go *)

Definition bearerToken (header : string) : option string :=
  if negb (HasPrefix header "Bearer ") then None
  else let token := TrimPrefix header "Bearer " in
       if String.eqb token EmptyString then None else Some token.

(** [subtle.ConstantTimeCompare] is 1 on equal contents, and every token is compared. *)
Definition ConstantTimeCompare (x y : bytes) : Z := if String.eqb x y then 1 else 0.
Definition tokenIsValid (tokens : list string) (presented : string) : bool :=
  fold_left (λ m t, Z.lor m (ConstantTimeCompare t presented)) tokens 0 =? 1.

Definition AuthMiddleware (validTokens : list string) (next : Request → M StoredResponse)
    (r : Request) : M StoredResponse :=
  match bearerToken (rq_Authorization r) with
  | None => ret (WriteProblem r 401 "unauthorized" "a valid bearer token is required")
  | Some token =>
      if negb (tokenIsValid validTokens token)
      then ret (WriteProblem r 401 "unauthorized" "a valid bearer token is required")
      else next r
  end.

(** ** middleware_idempotency.go *)

Definition maxRequestBodyBytes : Z := 2 ^ 20.

Definition isMutatingMethod (method : string) : bool :=
  existsb (String.eqb method) ["POST"; "PUT"; "PATCH"; "DELETE"].

Definition requestHash (method path body : bytes) : bytes :=
  sha256 (method +:+ newline +:+ path +:+ newline +:+ body).

(** What the client receives from a stored response. *)
Definition replay (resp : StoredResponse) : StoredResponse := resp.

Definition replayOrConflict (r : Request) (entry : StoredEntry) (hash : bytes) : StoredResponse :=
  if negb (String.eqb (se_RequestHash entry) hash)
  then WriteProblem r 409 "idempotency-key-reused"
         "this Idempotency-Key was already used with a different request body"
  else replay (se_Response entry).

(** The handler runs in the transaction; what it wrote decides how the
    transaction ends. [Err] is a panic, which the deferred rollback lets through. *)
Definition run_handler (next : Handler) (r : Request) (key : string) (hash : bytes)
    : M (TxOutcome (result StoredResponse)) :=
  do! emit (EvHandled key) in
  let! outcome := try (next r) in
  match outcome with
  | Err panic => ret (TxRollback (Err panic))
  | Ok calls =>
      let recorder := recorded_calls calls in
      let captured := recorder_result recorder in
      if negb (rec_wroteHeader recorder)
      then ret (TxRollback (Ok (WriteProblem r 500 "empty-handler-response"
                                  "the handler produced no response")))
      else if (sr_Status captured <? 200) || (300 <=? sr_Status captured)
      then ret (TxRollback (Ok (replay captured)))
      else
        let! inserted := try (Insert key hash captured) in
        match inserted with
        | Ok _ => ret (TxCommit (Ok (replay captured)))
        | Err e =>
            if errors_Is e ErrKeyConflict
            then
              let! again := try (Lookup key) in
              match again with
              | Ok (Some entry) => ret (TxRollback (Ok (replayOrConflict r entry hash)))
              | _ => ret (TxRollback (Ok (WriteProblem r 500 "idempotency-conflict-unresolved"
                       "a concurrent request won the race but its result could not be read back")))
              end
            else ret (TxRollback (Ok (WriteProblem r 500 "idempotency-insert-failed" (error_text e))))
        end
  end.

(** Which of [Begin] and [Commit] failed. *)
Definition begin_failed (e : error) : error := ErrWrap "begin" e "".
Definition commit_failed (e : error) : error := ErrWrap "commit" e "".
Definition tx_problem (r : Request) (e : error) : StoredResponse :=
  match e with
  | ErrWrap tag e' _ =>
      WriteProblem r 500 (if String.eqb tag "begin" then "transaction-begin-failed"
                          else "transaction-commit-failed") (error_text e')
  | e => WriteProblem r 500 "transaction-commit-failed" (error_text e)
  end.

Definition IdempotencyMiddleware (next : Handler) (r : Request) : M StoredResponse :=
  if negb (isMutatingMethod (rq_Method r))
  then let! calls := next r in ret (recorder_result (recorded_calls calls))
  else if String.eqb (rq_IdempotencyKey r) EmptyString
  then ret (WriteProblem r 400 "missing-idempotency-key" "Idempotency-Key header is required")
  else
  match rq_Body r with
  | None => ret (WriteProblem r 400 "unreadable-body" "request body could not be read")
  | Some body =>
      if maxRequestBodyBytes <? Z.of_nat (String.length body)
      then ret (WriteProblem r 413 "request-body-too-large"
                  "request body exceeds the maximum allowed size")
      else
      let key := rq_IdempotencyKey r in
      let hash := requestHash (rq_Method r) (rq_Path r) body in
      let! found := try (Lookup key) in
      match found with
      | Err e => ret (WriteProblem r 500 "idempotency-lookup-failed" (error_text e))
      | Ok (Some entry) => ret (replayOrConflict r entry hash)
      | Ok None =>
          let! outcome := try (in_tx_out begin_failed commit_failed (run_handler next r key hash)) in
          match outcome with
          | Err e => ret (tx_problem r e)
          | Ok resp => lift_result resp
          end
      end
  end.
End middleware.

(** ** Authentication *)

Lemma tokenIsValid_spec tokens presented : tokenIsValid tokens presented = true ↔ presented ∈ tokens.
Proof.
  unfold tokenIsValid. rewrite Z.eqb_eq.
  assert (∀ m, m = 0 ∨ m = 1 →
    fold_left (λ m t, Z.lor m (ConstantTimeCompare t presented)) tokens m = 1 ↔
      m = 1 ∨ presented ∈ tokens) as Hgen.
  { induction tokens as [|t tokens IH]; intros m Hm; simpl; [set_solver|].
    unfold ConstantTimeCompare at 2. destruct (String.eqb_spec t presented) as [->|Hne].
    - rewrite IH by (destruct Hm as [->| ->]; auto). destruct Hm as [->| ->]; set_solver.
    - rewrite IH by (destruct Hm as [->| ->]; auto). destruct Hm as [->| ->]; set_solver. }
  rewrite Hgen by auto. naive_solver.
Qed.

Lemma bearerToken_spec header token :
  bearerToken header = Some token ↔ header = "Bearer " +:+ token ∧ token ≠ EmptyString.
Proof.
  unfold bearerToken. split.
  - destruct (HasPrefix header "Bearer ") eqn:E; [|done]. simpl.
    unfold TrimPrefix. rewrite E. change (String.length "Bearer ") with 7%nat.
    destruct (String.eqb_spec (drop_bytes 7 header) EmptyString); [done|].
    intros [= <-]. split; [|done]. by apply HasPrefix_drop in E.
  - intros [-> Hne]. rewrite HasPrefix_app. unfold TrimPrefix. rewrite HasPrefix_app, drop_bytes_app.
    cbn [negb]. by destruct (String.eqb_spec token EmptyString).
Qed.

(** ** What a request through the middleware can do *)

(** The database as the other sessions leave it, any number of their steps later. *)
Definition others_steps (c : Ctx) : DB → DB → Prop :=
  rtc (λ a b, ∃ n, b = env_other (cx_env c) n a).

(** Stored keys are never deleted. *)
Definition others_keep_keys (c : Ctx) : Prop :=
  ∀ n db key row, find_key db key = Some row → find_key (env_other (cx_env c) n db) key = Some row.

Lemma others_steps_key c db db' key row :
  others_keep_keys c → others_steps c db db' → find_key db key = Some row → find_key db' key = Some row.
Proof. intros Hk. induction 1 as [|a b d (n & ->) _ IH]; [done|]. eauto. Qed.

Lemma find_key_None db key : find_key db key = None ↔ key ∉ map ik_key (t_idempotency_keys db).
Proof.
  unfold find_key. split.
  - intros Hf (r & -> & Hr)%list_elem_of_fmap. apply list_elem_of_In in Hr.
    pose proof (List.find_none _ _ Hf r Hr) as E. by cbn beta in E; rewrite bool_decide_true in E.
  - intros Hk. destruct (List.find _ _) as [r|] eqn:F; [|done].
    apply List.find_some in F as [Hr Hb]. bool_to_prop. destruct Hk.
    apply list_elem_of_fmap. exists r. by apply list_elem_of_In in Hr.
Qed.

Lemma find_key_snoc db row :
  find_key db (ik_key row) = None →
  find_key (set_idempotency_keys (t_idempotency_keys db ++ [row]) db) (ik_key row) = Some row.
Proof.
  intros Hf. unfold find_key in *. cbn. revert Hf.
  induction (t_idempotency_keys db) as [|x l IH]; simpl.
  - by rewrite bool_decide_true.
  - destruct (bool_decide (ik_key x = ik_key row)); [done|]. done.
Qed.

Definition key_row (r : Request) (hash : bytes) (resp : StoredResponse) : IdempotencyRow :=
  mkIdempotencyRow (rq_IdempotencyKey r) hash (sr_Status resp) (sr_Body resp) (sr_ContentType resp).

Section effects.
Context (encode_problem : ProblemDetails → bytes) (sha256 : bytes → bytes) (next : Handler).

(** The request's one commit: the handler ran on [db1], where the key was absent,
    answered a 2xx, and its effects and the key row are committed together. *)
Definition committed_once (c : Ctx) (r : Request) (db db' : DB) (resp : StoredResponse) : Prop :=
  ∃ db1 c1 s1 calls s2 body,
    others_steps c db db1 ∧ cx_tx c1 = Some db1 ∧ cx_env c1 = cx_env c ∧ st_db s1 = db1 ∧
    rq_Body r = Some body ∧
    next r c1 s1 = (Ok calls, s2) ∧ resp = recorder_result (recorded_calls calls) ∧
    200 <= sr_Status resp < 300 ∧ find_key (st_db s2) (rq_IdempotencyKey r) = None ∧
    db' = set_idempotency_keys (t_idempotency_keys (st_db s2) ++
            [key_row r (requestHash sha256 (rq_Method r) (rq_Path r) body) resp]) (st_db s2).

(** The handler only adds to the key table what the middleware adds. *)
Lemma run_handler_commit r hash c s o s' :
  run_handler encode_problem next r (rq_IdempotencyKey r) hash c s = (Ok (TxCommit o), s') →
  ∃ s1 calls s2, st_db s1 = st_db s ∧
    next r c s1 = (Ok calls, s2) ∧ o = Ok (recorder_result (recorded_calls calls)) ∧
    200 <= sr_Status (recorder_result (recorded_calls calls)) < 300 ∧
    find_key (st_db s2) (rq_IdempotencyKey r) = None ∧
    st_db s' = set_idempotency_keys (t_idempotency_keys (st_db s2) ++
            [key_row r hash (recorder_result (recorded_calls calls))]) (st_db s2).
Proof.
  unfold run_handler. intros H. m_inv1. m_inv1. m_inv1. unfold emit in *. simplify_eq.
  match goal with H1 : next _ _ _ = (?o, _) |- _ => destruct o as [calls|e]; [|by m_inv] end.
  repeat (m_case1; [by m_inv|]). bool_to_prop. m_inv1. m_inv1.
  match goal with H1 : Insert _ _ _ _ _ = (?o, _) |- _ => destruct o as [u|e] end.
  2:{ m_case1; [|by m_inv]. m_inv1. m_case1; [m_case1|]; by m_inv. }
  m_inv1. simplify_eq.
  match goal with H1 : Insert _ _ _ _ _ = _ |- _ =>
    simpl in H1; unfold IdempotencyStore_Insert in H1; m_inv1; m_inv1 end.
  match goal with H1 : next r c ?s1 = (_, ?s2) |- _ => exists s1, calls, s2 end.
  split_and!; try done.
  - apply find_key_None. match goal with H1 : insert_idempotency_key _ _ = _ |- _ =>
      by apply pg_require_ok in H1 as [_ [? _]%pg_require_ok] end.
  - cbn. by apply insert_idempotency_key_eq.
Qed.
Lemma status_problem r st title detail : sr_Status (WriteProblem encode_problem r st title detail) = st.
Proof. reflexivity. Qed.

(** A 2xx answer to a request that commits nothing is the stored one. *)
Definition stored_answer (db : DB) (r : Request) (hash : bytes) (resp : StoredResponse) : Prop :=
  200 <= sr_Status resp < 300 →
  ∃ row, find_key db (rq_IdempotencyKey r) = Some row ∧ ik_hash row = hash ∧
         resp = se_Response (entry_of_row row).

Lemma replayOrConflict_stored db r hash row :
  find_key db (rq_IdempotencyKey r) = Some row →
  stored_answer db r hash (replayOrConflict encode_problem r (entry_of_row row) hash).
Proof.
  intros Hf. unfold replayOrConflict. destruct (String.eqb_spec (se_RequestHash (entry_of_row row)) hash) as [E|E].
  - intros _. by exists row.
  - cbn [negb]. cbv iota. intros Hs. rewrite status_problem in Hs. lia.
Qed.

Lemma problem_stored db r hash st title detail :
  300 <= st → stored_answer db r hash (WriteProblem encode_problem r st title detail).
Proof. intros Hst Hs. rewrite status_problem in Hs. lia. Qed.

Lemma status_tx_problem r e : sr_Status (tx_problem encode_problem r e) = 500.
Proof. by destruct e. Qed.
Lemma tx_problem_stored db r hash e : stored_answer db r hash (tx_problem encode_problem r e).
Proof. intros Hs. rewrite status_tx_problem in Hs. lia. Qed.

Lemma run_handler_rollback r hash c s o s' db0 :
  cx_tx c = Some db0 →
  run_handler encode_problem next r (rq_IdempotencyKey r) hash c s = (Ok (TxRollback o), s') →
  ∀ resp, o = Ok resp → stored_answer db0 r hash resp.
Proof.
  intros Hc H resp Ho. unfold run_handler in H. m_inv1. m_inv1. m_inv1.
  match goal with H1 : next _ _ _ = (?o, _) |- _ => destruct o as [calls|e]; [|by m_inv; simplify_eq] end.
  m_case1; [m_inv; simplify_eq; by apply problem_stored|].
  m_case1.
  { m_inv; simplify_eq. intros Hs. rename select (_ || _ = true) into Hb.
    apply orb_true_iff in Hb as [Hb|Hb]; [apply Z.ltb_lt in Hb|apply Z.leb_le in Hb]; unfold replay in *; lia. }
  m_inv1. m_inv1.
  match goal with H1 : Insert _ _ _ _ _ = (?o, _) |- _ => destruct o as [u|e]; [by m_inv|] end.
  m_case1; [|m_inv; simplify_eq; by apply problem_stored]. m_inv1. m_inv1.
  match goal with H1 : Lookup _ _ _ = (?o, _) |- _ => destruct o as [[entry|]|e'] end;
    [|m_inv; simplify_eq; by apply problem_stored..].
  match goal with H1 : Lookup _ _ _ = _ |- _ =>
    apply wrapping_Ok, step_Ok in H1; rewrite Hc in H1; injection H1 as E <- end.
  m_inv. simplify_eq. destruct (find_key db0 (rq_IdempotencyKey r)) as [row|] eqn:F; [|done].
  injection E as <-. by apply replayOrConflict_stored.
Qed.

Lemma Lookup_pool c s key o s' :
  cx_tx c = None → Lookup key c s = (o, s') →
  others_steps c (st_db s) (st_db s') ∧
  ∀ e, o = Ok e → e = option_map entry_of_row (find_key (st_db s') key).
Proof.
  intros Hc H. simpl in H. unfold IdempotencyStore_Lookup, wrapping, map_err, pool_query, step in H.
  destruct (env_fault _ _); [by simplify_eq|]. rewrite Hc in H. simplify_eq. cbn. split; [|naive_solver].
  eapply rtc_once. eauto.
Qed.

(** The client's response, and whether the request committed. *)
Lemma IdempotencyMiddleware_effects c r s res s' :
  cx_tx c = None → isMutatingMethod (rq_Method r) = true →
  IdempotencyMiddleware encode_problem sha256 next r c s = (res, s') →
  (others_steps c (st_db s) (st_db s') ∧
     ∀ resp body, res = Ok resp → rq_Body r = Some body →
       ∃ db1, others_steps c (st_db s) db1 ∧
         stored_answer db1 r (requestHash sha256 (rq_Method r) (rq_Path r) body) resp) ∨
  ∃ resp, committed_once c r (st_db s) (st_db s') resp ∧
    (res = Ok resp ∨ (∃ p, res = Ok p ∧ sr_Status p = 500) ∧ ∃ n, env_ack_lost (cx_env c) n = true).
Proof.
  intros Hc Hm H. unfold IdempotencyMiddleware in H. rewrite Hm in H. cbn [negb] in H. cbv iota in H.
  assert (∀ st title detail, 300 <= st →
    ret (WriteProblem encode_problem r st title detail) c s = (res, s') →
    others_steps c (st_db s) (st_db s') ∧ ∀ resp body, res = Ok resp → rq_Body r = Some body →
       ∃ db1, others_steps c (st_db s) db1 ∧
         stored_answer db1 r (requestHash sha256 (rq_Method r) (rq_Path r) body) resp) as Hproblem.
  { intros st title detail Hst [= <- <-]. split; [done|]. intros resp body [= <-] _.
    exists (st_db s). split; [done|]. by apply problem_stored. }
  destruct (String.eqb _ _); [left; by eapply Hproblem in H|].
  destruct (rq_Body r) as [body|] eqn:Hbody; [|left; by eapply Hproblem in H].
  destruct (_ <? _); [left; by eapply Hproblem in H|]. clear Hproblem.
  unfold bind at 1, try at 1 in H.
  destruct (Lookup (rq_IdempotencyKey r) c s) as [o s1] eqn:EL.
  apply Lookup_pool in EL as [Hs1 Ho]; [|done].
  destruct o as [[entry|]|e].
  - cbv beta iota delta [ret] in H. injection H as <- <-. left. split; [done|]. intros resp b [= <-] [= <-].
    exists (st_db s1). split; [done|]. specialize (Ho _ eq_refl).
    destruct (find_key (st_db s1) _) as [row|] eqn:F; [|done]. injection Ho as ->.
    by apply replayOrConflict_stored.
  - unfold bind at 1, try at 1 in H.
    destruct (in_tx_out _ _ _ c s1) as [o2 s2] eqn:ET.
    apply in_tx_out_cases in ET as [(e & -> & ->)|(o3 & s3 & Hb & _ & _ & Hcase)].
    { cbv beta iota delta [ret] in H. injection H as <- <-. left. split; [done|]. intros resp b [= <-] _. exists (st_db s1).
      split; [done|]. by apply tx_problem_stored. }
    assert (others_steps c (st_db s) (visible c s1)) as Hvis.
    { eapply rtc_r; [done|]. by eexists. }
    destruct Hcase as [[Ed Ho3]|(a & -> & Ed & _ & Hr)].
    + left. assert (st_db s' = visible c s1) as ->.
      { destruct o2 as [[x|x]|x]; cbv beta iota delta [ret throw lift_result] in H; by injection H as _ <-. }
      split; [done|]. intros resp b -> [= <-]. exists (visible c s1). split; [done|].
      destruct o3 as [[x|x]|x]; cbv beta iota delta [ret] in H.
      * destruct Ho3 as [e ->]. injection H as <- _. by apply tx_problem_stored.
      * subst o2. destruct x as [x|x]; cbv beta iota delta [ret throw lift_result] in H; [|done].
        injection H as <- _.
        eapply run_handler_rollback in Hb; [exact Hb|reflexivity|reflexivity].
      * subst o2. injection H as <- _. by apply tx_problem_stored.
    + right. apply run_handler_commit in Hb as (s4 & calls & s5 & E4 & Hn & -> & Hst & Hf & E3).
      exists (recorder_result (recorded_calls calls)). split.
      * exists (visible c s1), (fst (begin_tx c s1)), s4, calls, s5, body.
        split_and!; try done; [lia|lia|].
        destruct Hr as [->|(e & -> & _)]; cbv beta iota delta [ret lift_result] in H;
          injection H as _ <-; by rewrite Ed, E3.
      * destruct Hr as [->|(e & -> & Hack)]; cbv beta iota delta [ret lift_result] in H; injection H as <- _;
          [by left|right]. split; [by eexists|done].
  - cbv beta iota delta [ret] in H. injection H as <- <-. left. split; [done|].
    intros resp b [= <-] _. exists (st_db s1). split; [done|]. by apply problem_stored.
Qed.

(** The commit stores the key. *)
Lemma committed_key c r db db' resp :
  committed_once c r db db' resp →
  ∃ row, find_key db' (rq_IdempotencyKey r) = Some row ∧ resp = se_Response (entry_of_row row).
Proof.
  intros (db1 & c1 & s1 & calls & s2 & body & _ & _ & _ & _ & _ & _ & _ & _ & Hf & ->).
  eexists. split; [by apply (find_key_snoc (st_db s2) (key_row r _ resp))|]. by destruct resp.
Qed.

(** The handler leaves the key table alone. *)
Definition handler_keeps_keys : Prop :=
  ∀ r c s calls s', runs_in_tx c → next r c s = (Ok calls, s') →
    t_idempotency_keys (st_db s') = t_idempotency_keys (st_db s).

Lemma committed_fresh c r db db' resp :
  handler_keeps_keys → others_keep_keys c → committed_once c r db db' resp →
  find_key db (rq_IdempotencyKey r) = None.
Proof.
  intros Hh Hk (db1 & c1 & s1 & calls & s2 & body & Ho & Hc1 & _ & E & _ & Hn & _ & _ & Hf & _).
  destruct (find_key db (rq_IdempotencyKey r)) as [row|] eqn:F; [|done].
  pose proof (others_steps_key _ _ _ _ _ Hk Ho F) as F'. apply Hh in Hn; [|by eexists].
  unfold find_key in *. rewrite Hn, E, F' in Hf. done.
Qed.
End effects.

(** ** Retries *)

Section retries.
Context (encode_problem : ProblemDetails → bytes) (sha256 : bytes → bytes).

(** The responses of requests sent one after the other, each run to its end, and
    the databases before and after each. *)
Fixpoint request_runs (next : Handler) (c : Ctx) (rs : list Request) (s : St)
    : list (DB * result StoredResponse * DB) :=
  match rs with
  | [] => []
  | r :: rs =>
      let '(res, s') := IdempotencyMiddleware encode_problem sha256 next r c s in
      (st_db s, res, st_db s') :: request_runs next c rs s'
  end.

(** A run with an effect of its own, rather than only the other sessions'. *)
Definition committed_run (next : Handler) (c : Ctx) (key : string)
    (run : DB * result StoredResponse * DB) : Prop :=
  let '(db, _, db') := run in
  ∃ r resp, rq_IdempotencyKey r = key ∧ committed_once sha256 next c r db db' resp.

Lemma request_runs_stored next c key rs s row :
  cx_tx c = None → handler_keeps_keys next → others_keep_keys c →
  Forall (λ r, isMutatingMethod (rq_Method r) = true) rs →
  find_key (st_db s) key = Some row →
  Forall (λ run, ¬ committed_run next c key run) (request_runs next c rs s) ∨
  ∃ r, r ∈ rs ∧ rq_IdempotencyKey r ≠ key.
Proof.
  intros Hc Hh Hk Hm. revert s row. induction Hm as [|r rs Hr Hm IH]; intros s row F; [by left|].
  simpl. destruct (IdempotencyMiddleware _ _ _ _ _ _) as [res s'] eqn:E.
  destruct (decide (rq_IdempotencyKey r = key)) as [Ek|Ek]; [|right; exists r; set_solver].
  apply IdempotencyMiddleware_effects in E; [|done..].
  assert (¬ committed_run next c key (st_db s, res, st_db s')) as Hnot.
  { intros (r' & resp & Ek' & HC). apply committed_fresh in HC; [|done..]. rewrite Ek' in HC. congruence. }
  assert (∃ row', find_key (st_db s') key = Some row') as [row' F'].
  { destruct E as [[Ho _]|(resp & HC & _)].
    - exists row. by eapply others_steps_key.
    - exfalso. apply Hnot. by exists r, resp. }
  destruct (IH _ _ F') as [HF|(r' & Hr' & Hne)].
  - left. by constructor.
  - right. exists r'. set_solver.
Qed.

(** C21: at most one of the requests sent with one key commits, whatever faults, lost
    acknowledgements and other sessions there are. *)
Theorem retries_commit_once next c key rs s pre run post :
  cx_tx c = None → handler_keeps_keys next → others_keep_keys c →
  Forall (λ r, isMutatingMethod (rq_Method r) = true ∧ rq_IdempotencyKey r = key) rs →
  request_runs next c rs s = pre ++ run :: post →
  committed_run next c key run → Forall (λ run', ¬ committed_run next c key run') post.
Proof.
  intros Hc Hh Hk Hrs. revert s pre. induction Hrs as [|r rs [Hm Er] Hrs IH]; intros s pre H HR;
    simpl in H; [by destruct pre|].
  destruct (IdempotencyMiddleware _ _ _ _ _ _) as [res s'] eqn:E.
  destruct pre as [|x pre]; simpl in H; injection H as E1 E2; [|by eapply IH].
  subst run post. destruct HR as (r' & resp & Ek & HC). apply committed_key in HC as (row & F & _).
  rewrite Ek in F.
  destruct (request_runs_stored next c key rs s' row) as [HF|(r1 & Hr1 & Hne)]; try done.
  - eapply Forall_impl; [exact Hrs|]. by intros ? [].
  - rewrite Forall_forall in Hrs. by destruct (Hrs _ Hr1).
Qed.

(** C22: once a request has committed its answer, a 2xx answer to any retry of it (the
    same method, path and body, or any other request with the key) is that answer,
    and the retry changes nothing. *)
Theorem retry_replays next c r1 r2 s1 res1 s1' s2 res2 s2' resp resp2 :
  cx_tx c = None → handler_keeps_keys next → others_keep_keys c →
  isMutatingMethod (rq_Method r2) = true → rq_IdempotencyKey r2 = rq_IdempotencyKey r1 →
  IdempotencyMiddleware encode_problem sha256 next r1 c s1 = (res1, s1') →
  committed_once sha256 next c r1 (st_db s1) (st_db s1') resp →
  others_steps c (st_db s1') (st_db s2) →
  IdempotencyMiddleware encode_problem sha256 next r2 c s2 = (res2, s2') →
  is_Some (rq_Body r2) → res2 = Ok resp2 → 200 <= sr_Status resp2 < 300 →
  resp2 = resp ∧ others_steps c (st_db s2) (st_db s2').
Proof.
  intros Hc Hh Hk Hm Ek _ HC Ho H2 [body Hb] -> Hst.
  apply committed_key in HC as (row & F & ->). rewrite <-Ek in F.
  pose proof (others_steps_key _ _ _ _ _ Hk Ho F) as F2.
  apply IdempotencyMiddleware_effects in H2 as [[Ho2 Hr]|(resp' & HC' & _)]; [|..|done|done].
  - split; [|done]. destruct (Hr _ _ eq_refl Hb) as (db1 & Ho1 & Hs).
    destruct (Hs Hst) as (row' & F' & _ & ->).
    rewrite (others_steps_key _ _ _ _ _ Hk Ho1 F2) in F'. by injection F' as ->.
  - apply committed_fresh in HC'; [|done..]. congruence.
Qed.

(** C23: error atomicity. A mutating request that is not answered with a 2xx, or whose
    handler panics, commits nothing, unless its commit was applied and the
    acknowledgement lost: then the answer is a 500 and a retry gets the stored one. *)
Theorem failed_request_commits_nothing next c r s res s' :
  cx_tx c = None → isMutatingMethod (rq_Method r) = true →
  IdempotencyMiddleware encode_problem sha256 next r c s = (res, s') →
  (∀ resp, res = Ok resp → ¬ 200 <= sr_Status resp < 300) →
  others_steps c (st_db s) (st_db s') ∨
  ∃ resp p n, env_ack_lost (cx_env c) n = true ∧ res = Ok p ∧ sr_Status p = 500 ∧
    committed_once sha256 next c r (st_db s) (st_db s') resp.
Proof.
  intros Hc Hm H Hres.
  apply IdempotencyMiddleware_effects in H as [[Ho _]|(resp & HC & [->|[(p & -> & Hp) [n Hn]]])]; [|..|done|done].
  - by left.
  - destruct (Hres resp eq_refl). by destruct HC as (? & ? & ? & ? & ? & ? & _ & _ & _ & _ & _ & _ & -> & Hst & _).
  - right. by exists resp, p, n.
Qed.
End retries.

(** ** What the middleware preserves *)

(** A handler whose 2xx answers, with the key's row, come with databases in [I]. *)
Definition handler_commits (I : DB → Prop) (next : Handler) : Prop :=
  ∀ r c s calls s' row, runs_in_tx c → I (st_db s) → next r c s = (Ok calls, s') →
    200 <= sr_Status (recorder_result (recorded_calls calls)) < 300 →
    I (set_idempotency_keys (t_idempotency_keys (st_db s') ++ [row]) (st_db s')).

Lemma middleware_preserves I encode_problem sha256 next r c s res s' :
  isMutatingMethod (rq_Method r) = true → handler_commits I next →
  cx_tx c = None → others_preserve I c → I (st_db s) →
  IdempotencyMiddleware encode_problem sha256 next r c s = (res, s') → I (st_db s').
Proof.
  intros Hm Hh Hc Ho HI H.
  assert (∀ db, others_steps c (st_db s) db → I db) as Hsteps.
  { intros db Hs. revert HI. induction Hs as [|a b d (n & ->) _ IH]; [done|]. eauto. }
  apply IdempotencyMiddleware_effects in H as [[Hs _]|(resp & HC & _)]; [|..|done|done]; [eauto|].
  destruct HC as (db1 & c1 & s1 & calls & s2 & body & Hs & Hc1 & _ & E & _ & Hn & -> & Hst & _ & ->).
  eapply Hh; [by eexists|rewrite E; by apply Hsteps|done|done].
Qed.
