(* ===== verification/Handlers.v ===== *)
(** * The HTTP handlers

    src/internal/adapter/api/customers.go, transfers.go, withdrawals.go,
    transactions.go, deposits.go, fee_estimate.go and
    unsupported_token_observations.go: decoding, validation, the use case, and the
    status each of its errors is answered with. The JSON codec, the UUID library
    and the generated router are parameters. *)

From Stdlib Require Import ZArith Lia.
From stdpp Require Import prelude strings gmap.
From S2P Require Import Prelude GoStd Rfc3339 Domain Store Effects Ledger Transfers Withdrawals.
From S2P Require Import WithdrawalSpecs WithdrawalInvariant Ports Deposits Customers CreateWithdrawals.
From S2P Require Import Idempotency.

(** ** Bodies, endpoints and payloads *)

Record TransferBody := mkTransferBody {
  tb_Source : bytes; tb_Destination : bytes; tb_Chain : string; tb_Asset : string; tb_Amount : string;
}.
Record WithdrawalBody := mkWithdrawalBody {
  wb_Customer : bytes; wb_Chain : string; wb_Asset : string; wb_Amount : string;
  wb_Destination : string;
}.
Record ApproveBody := mkApproveBody { ab_Actor : string; ab_Reason : string }.

(** What the router resolves a request to, with its bound path, query and header
    parameters. *)
Inductive Endpoint :=
  | EpCreateCustomer
  | EpGetCustomer (id : string)
  | EpGetCustomerBalances (id : string)
  | EpCreateTransfer (key : string)
  | EpListTransactions (id : string) (pageSize : option Z) (cursor : option string)
  | EpGetDeposits (id : string)
  | EpGetUnsupported
  | EpGetFeeEstimate (chain asset amount : string)
  | EpCreateWithdrawal (key : string)
  | EpApproveWithdrawal (id : string)
  | EpNone (calls : list WriterCall).

Record TransactionItem := mkTransactionItem {
  ti_Id : bytes; ti_Type : string; ti_Amount : string; ti_Chain : string; ti_Asset : string;
  ti_Status : string; ti_CreatedAt : Z;
}.
Record DepositItem := mkDepositItem {
  di_Id : bytes; di_Chain : string; di_Asset : string; di_Amount : string; di_TxHash : string;
  di_Status : string; di_Tier : DepositState; di_ObservedAt : Z;
}.
Record UnsupportedItem := mkUnsupportedItem {
  ui_Id : bytes; ui_Chain : string; ui_DepositAddress : string; ui_ContractAddress : string;
  ui_TxHash : string; ui_Amount : string; ui_BlockNumber : Z; ui_ObservedAt : Z;
}.

Inductive Payload :=
  | CustomerPayload (id : bytes) (createdAtLocation : Location) (createdAt : Z) (depositAddress : string)
  | BalancesPayload (balances : list (string * string * string))
  | TransferPayload (id source destination : bytes) (chain asset amount : string) (createdAt : Z)
  | TransactionsPayload (items : list TransactionItem) (nextCursor : option string)
  | DepositsPayload (items : list DepositItem)
  | UnsupportedPayload (items : list UnsupportedItem)
  | FeePayload (l2Fee l1Fee totalFee : string)
  | WithdrawalPayload (id customer : bytes) (chain asset amount destination status : string)
      (createdAt : Z) (approvedAt : option Z) (approvedBy approvalReason : option string).

(** [int64(o.BlockNumber)] of a [uint64]. *)
Definition int64_of_uint64 (z : Z) : Z := if z <? 2 ^ 63 then z else z - 2 ^ 64.

(** The generated enums' [Valid]. *)
Definition TransferRequestAsset_Valid (e : string) : bool := String.eqb e "eth" || String.eqb e "usdc".
Definition TransferRequestChain_Valid (e : string) : bool := String.eqb e "arbitrum" || String.eqb e "base".
Definition WithdrawalRequestAsset_Valid (e : string) : bool := String.eqb e "eth" || String.eqb e "usdc".
Definition WithdrawalRequestChain_Valid (e : string) : bool := String.eqb e "arbitrum" || String.eqb e "base".
Definition GetWithdrawalFeeEstimateParamsChain_Valid (e : string) : bool :=
  String.eqb e "arbitrum" || String.eqb e "base".
Definition GetWithdrawalFeeEstimateParamsAsset_Valid (e : string) : bool := String.eqb e "eth" || String.eqb e "usdc".

(** The generated enums list what the schema's CHECKs do. *)
Lemma chain_Valid_spec e : String.eqb e "arbitrum" || String.eqb e "base" = bool_decide (known_chain e).
Proof.
  destruct (String.eqb_spec e "arbitrum") as [->|H1]; [reflexivity|].
  destruct (String.eqb_spec e "base") as [->|H2]; [reflexivity|].
  symmetry. apply bool_decide_eq_false_2. unfold known_chain. set_solver.
Qed.
Lemma asset_Valid_spec e : String.eqb e "eth" || String.eqb e "usdc" = bool_decide (known_asset e).
Proof.
  destruct (String.eqb_spec e "eth") as [->|H1]; [reflexivity|].
  destruct (String.eqb_spec e "usdc") as [->|H2]; [reflexivity|].
  symmetry. apply bool_decide_eq_false_2. unfold known_asset. set_solver.
Qed.

(** ** The use cases that only read (list_customer_transactions.go and the like) *)

Definition defaultTransactionPageSize : Z := 20.
Definition maxTransactionPageSize : Z := 100.

Definition ListCustomerTransactions_Execute `{TransactionRepository} (customerID : string)
    (pageSize : option Z) (cursor : string) : M TransactionPage :=
  match pageSize with
  | None => ListCustomerTransactions customerID defaultTransactionPageSize cursor
  | Some n =>
      if n <=? 0 then throw (ErrIs ErrInvalidPageSize)
      else ListCustomerTransactions customerID
             (if maxTransactionPageSize <? n then maxTransactionPageSize else n) cursor
  end.
Definition GetCustomer_Execute `{CustomerReader} (id : string) : M Customer := GetCustomer id.
Definition GetCustomerBalances_Execute `{BalanceRepository} (id : string) := CustomerBalances id.
Definition GetCustomerDeposits_Execute `{DepositReader} (id : string) := ListCustomerDeposits id.
Definition ListUnsupportedTokenObservations_Execute `{UnsupportedTokenRepository} := ListObservations.

Section handlers.
Context `{CR : CustomerRepository} `{CRd : CustomerReader} `{DD : DepositAddressDeriver}.
Context `{BR : BalanceRepository} `{TR : TransferRepository} `{TxR : TransactionRepository}.
Context `{DR : DepositReader} `{UR : UnsupportedTokenRepository} `{FE : FeeEstimator}.
Context `{WR : WithdrawalRepository} `{TL : WithdrawalThresholdLister}.
Context (uuid_Parse : string → option bytes) (uuid_String : bytes → string).
Context (encode_problem : ProblemDetails → bytes) (encode_payload : Payload → bytes).
Context (decode_transfer : bytes → option TransferBody) (decode_withdrawal : bytes → option WithdrawalBody).
Context (decode_approve : bytes → option ApproveBody).

Definition problem (r : Request) (status : Z) (title detail : string) : M (list WriterCall) :=
  ret (problem_calls encode_problem status title detail (rq_Path r)).
Definition answer (status : Z) (p : Payload) : M (list WriterCall) :=
  ret [SetContentType "application/json"; WriteHeader status; WriteBody (encode_payload p)].

(** The first matching case of [switch { case errors.Is(err, s): ... }], whose
    detail is [err.Error()] unless fixed. *)
Fixpoint error_case (cases : list (sentinel * Z * string * option string)) (e : error)
    : option (Z * string * string) :=
  match cases with
  | [] => None
  | (s, status, title, detail) :: cases =>
      if errors_Is e s then Some (status, title, default (error_text e) detail)
      else error_case cases e
  end.
Definition answer_error (r : Request) (cases : list (sentinel * Z * string * option string))
    (title : string) (detail : option string) (e : error) : M (list WriterCall) :=
  match error_case cases e with
  | Some (status, title, detail) => problem r status title detail
  | None => problem r 500 title (default (error_text e) detail)
  end.

Definition uuid_Nil : bytes := zero_bytes 16.

(** ** customers.go *)

Definition customerServer_CreateCustomer (r : Request) : M (list WriterCall) :=
  let! res := try (CreateCustomer_Execute uuid_Parse) in
  match res with
  | Err e => answer_error r [] "customer-creation-failed" None e
  | Ok customer =>
      match uuid_Parse (cust_ID customer) with
      | None => problem r 500 "invalid-customer-id" "invalid UUID"
      | Some id => answer 201 (CustomerPayload id UTC (cust_CreatedAt customer) (cust_DepositAddress customer))
      end
  end.

Definition customerServer_GetCustomer (id : string) (r : Request) : M (list WriterCall) :=
  let! res := try (GetCustomer_Execute id) in
  match res with
  | Err e => answer_error r [(ErrCustomerNotFound, 404, "customer-not-found", None)]
               "get-customer-failed" None e
  | Ok customer =>
      match uuid_Parse (cust_ID customer) with
      | None => problem r 500 "invalid-customer-id" "invalid UUID"
      | Some id => answer 200 (CustomerPayload id Local (cust_CreatedAt customer) (cust_DepositAddress customer))
      end
  end.

Definition customerServer_GetCustomerBalances (id : string) (r : Request) : M (list WriterCall) :=
  let! res := try (GetCustomerBalances_Execute id) in
  match res with
  | Err e => answer_error r [(ErrCustomerNotFound, 404, "customer-not-found", None)]
               "get-balances-failed" None e
  | Ok balances =>
      answer 200 (BalancesPayload
        (map (λ b, (ab_Chain b, ab_Asset b, big_String (ab_Balance b))) balances))
  end.

(** ** transfers.go *)

Definition transfer_cases : list (sentinel * Z * string * option string) :=
  [(ErrSelfTransfer, 400, "self-transfer-not-allowed", None);
   (ErrNonPositiveAmount, 400, "invalid-amount", None);
   (ErrCustomerNotFound, 404, "customer-not-found", None);
   (ErrInsufficientBalance, 422, "insufficient-balance", None);
   (ErrDuplicateTransferCause, 409, "duplicate-transfer-cause", None)].

Definition transfer_answer (r : Request) (t : Transfer) : M (list WriterCall) :=
  match uuid_Parse (tf_Source t) with
  | None => problem r 500 "invalid-customer-id" "invalid UUID"
  | Some source =>
      match uuid_Parse (tf_Destination t) with
      | None => problem r 500 "invalid-customer-id" "invalid UUID"
      | Some destination =>
          match uuid_Parse (tf_ID t) with
          | None => problem r 500 "invalid-transfer-id" "invalid UUID"
          | Some id => answer 201 (TransferPayload id source destination (tf_Chain t) (tf_Asset t)
                                     (big_String (tf_Amount t)) (tf_CreatedAt t))
          end
      end
  end.

Definition customerServer_CreateTransfer (key : string) (r : Request) : M (list WriterCall) :=
  match decode_transfer (default EmptyString (rq_Body r)) with
  | None => problem r 400 "invalid-transfer-request" "request body could not be decoded as JSON"
  | Some body =>
      if String.eqb (tb_Source body) uuid_Nil || String.eqb (tb_Destination body) uuid_Nil
      then problem r 400 "invalid-transfer-request"
             "sourceCustomerId and destinationCustomerId are required"
      else if negb (TransferRequestChain_Valid (tb_Chain body)) || negb (TransferRequestAsset_Valid (tb_Asset body))
      then problem r 400 "invalid-chain-or-asset" "chain and asset must be supported enum values"
      else
      match big_SetString10 (tb_Amount body) with
      | None => problem r 400 "invalid-amount" "amount must be a base-10 integer string"
      | Some amount =>
          let! res := try (CreateTransfer_Execute
            (mkTransferRequest (uuid_String (tb_Source body)) (uuid_String (tb_Destination body))
               (tb_Chain body) (tb_Asset body) (Some amount) key)) in
          match res with
          | Err e => answer_error r transfer_cases "transfer-failed" None e
          | Ok t => transfer_answer r t
          end
      end
  end.

(** ** withdrawals.go *)

Definition withdrawal_cases : list (sentinel * Z * string * option string) :=
  [(ErrNonPositiveAmount, 400, "invalid-amount", Some "amount must be a positive integer");
   (ErrAmountTooLarge, 400, "invalid-amount",
      Some "amount exceeds the maximum representable on-chain value");
   (ErrMalformedDestinationAddress, 400, "invalid-destination-address", None);
   (ErrInvalidDestinationAddress, 400, "denylisted-destination-address", None);
   (ErrCustomerNotFound, 404, "customer-not-found", None);
   (ErrInsufficientBalance, 422, "insufficient-balance", None);
   (ErrInsufficientBalanceForFee, 422, "insufficient-balance-for-fee", None);
   (ErrDuplicateWithdrawalCause, 409, "duplicate-withdrawal-cause", None)].

Definition non_empty (s : string) : option string :=
  if String.eqb s EmptyString then None else Some s.

Definition toWithdrawalResponse (w : Withdrawal) : option Payload :=
  match uuid_Parse (w_ID w), uuid_Parse (w_CustomerID w) with
  | Some id, Some customer =>
      Some (WithdrawalPayload id customer (w_Chain w) (w_Asset w) (big_String (w_Amount w))
              (w_DestinationAddress w) (WithdrawalStatus_text (w_Status w)) (w_CreatedAt w)
              (w_ApprovedAt w) (non_empty (w_ApprovedBy w)) (non_empty (w_ApprovalReason w)))
  | _, _ => None
  end.

Definition withdrawal_answer (r : Request) (status : Z) (failed : string) (w : Withdrawal)
    : M (list WriterCall) :=
  match toWithdrawalResponse w with
  | None => problem r 500 "invalid-withdrawal-id" failed
  | Some p => answer status p
  end.

Definition customerServer_CreateWithdrawal (key : string) (r : Request) : M (list WriterCall) :=
  match decode_withdrawal (default EmptyString (rq_Body r)) with
  | None => problem r 400 "invalid-withdrawal-request" "request body could not be decoded as JSON"
  | Some body =>
      if String.eqb (wb_Customer body) uuid_Nil
      then problem r 400 "invalid-withdrawal-request" "customerId is required"
      else if negb (WithdrawalRequestChain_Valid (wb_Chain body)) || negb (WithdrawalRequestAsset_Valid (wb_Asset body))
      then problem r 400 "invalid-chain-or-asset" "chain and asset must be supported enum values"
      else
      match big_SetString10 (wb_Amount body) with
      | None => problem r 400 "invalid-amount" "amount must be a base-10 integer string"
      | Some amount =>
          let! res := try (CreateWithdrawal_Execute
            (mkWithdrawalRequest (uuid_String (wb_Customer body)) (wb_Chain body) (wb_Asset body)
               (Some amount) (wb_Destination body) key)) in
          match res with
          | Err e => answer_error r withdrawal_cases "withdrawal-failed"
                       (Some "failed to process withdrawal request") e
          | Ok w => withdrawal_answer r 201 "failed to process withdrawal request" w
          end
      end
  end.

Definition approve_cases : list (sentinel * Z * string * option string) :=
  [(ErrMissingApprovalActor, 400, "missing-approval-actor", None);
   (ErrMissingApprovalReason, 400, "missing-approval-reason", None);
   (ErrWithdrawalNotFound, 404, "withdrawal-not-found", None);
   (ErrWithdrawalNotAwaitingApproval, 409, "withdrawal-not-awaiting-approval", None)].

Definition customerServer_ApproveWithdrawal (id : string) (r : Request) : M (list WriterCall) :=
  match decode_approve (default EmptyString (rq_Body r)) with
  | None => problem r 400 "invalid-approve-withdrawal-request"
              "request body could not be decoded as JSON"
  | Some body =>
      let! res := try (ApproveWithdrawal_Execute id (ab_Actor body) (ab_Reason body)) in
      match res with
      | Err e => answer_error r approve_cases "approve-withdrawal-failed"
                   (Some "failed to process approve withdrawal request") e
      | Ok w => withdrawal_answer r 200 "failed to process approve withdrawal request" w
      end
  end.

(** ** transactions.go, deposits.go, unsupported_token_observations.go, fee_estimate.go *)

(** Every element's id must parse. *)
Fixpoint parse_ids {A B} (id : A → string) (item : bytes → A → B) (l : list A) : option (list B) :=
  match l with
  | [] => Some []
  | a :: l =>
      match uuid_Parse (id a), parse_ids id item l with
      | Some i, Some items => Some (item i a :: items)
      | _, _ => None
      end
  end.

Definition transaction_item (i : bytes) (t : Transaction) : TransactionItem :=
  mkTransactionItem i (txn_Type t) (big_String (txn_Amount t)) (txn_Chain t) (txn_Asset t)
    (txn_Status t) (txn_CreatedAt t).

Definition customerServer_ListCustomerTransactions (id : string) (pageSize : option Z)
    (cursor : option string) (r : Request) : M (list WriterCall) :=
  let! res := try (ListCustomerTransactions_Execute id pageSize (default EmptyString cursor)) in
  match res with
  | Err e => answer_error r
      [(ErrCustomerNotFound, 404, "customer-not-found", None);
       (ErrInvalidCursor, 400, "invalid-cursor", None);
       (ErrInvalidPageSize, 400, "invalid-page-size", None)] "list-transactions-failed" None e
  | Ok page =>
      match parse_ids txn_ID transaction_item (tp_Transactions page) with
      | None => problem r 500 "invalid-transaction-id" "invalid UUID"
      | Some items => answer 200 (TransactionsPayload items (non_empty (tp_NextCursor page)))
      end
  end.

Definition deposit_item (i : bytes) (d : Deposit) : DepositItem :=
  mkDepositItem i (dep_Chain d) (dep_Asset d) (big_String (dep_Amount d)) (dep_TxHash d)
    (if decide (dep_State d = DepositOrphaned) then "orphaned" else "pending")
    (dep_State d) (dep_ObservedAt d).

Definition customerServer_GetCustomerDeposits (id : string) (r : Request) : M (list WriterCall) :=
  let! res := try (GetCustomerDeposits_Execute id) in
  match res with
  | Err e => answer_error r [(ErrCustomerNotFound, 404, "customer-not-found", None)]
               "get-deposits-failed" None e
  | Ok deposits =>
      match parse_ids dep_ID deposit_item deposits with
      | None => problem r 500 "invalid-deposit-id" "invalid UUID"
      | Some items => answer 200 (DepositsPayload items)
      end
  end.

Definition unsupported_item (i : bytes) (o : UnsupportedTokenObservation) : UnsupportedItem :=
  mkUnsupportedItem i (un_Chain o) (un_Address o) (un_ContractAddress o) (un_TxHash o)
    (big_String (un_Amount o)) (int64_of_uint64 (un_BlockNumber o)) (un_ObservedAt o).

Definition customerServer_GetUnsupportedTokenObservations (r : Request) : M (list WriterCall) :=
  let! res := try ListUnsupportedTokenObservations_Execute in
  match res with
  | Err e => answer_error r [] "list-unsupported-token-observations-failed" None e
  | Ok os =>
      match parse_ids un_ID unsupported_item os with
      | None => problem r 500 "invalid-observation-id" "invalid UUID"
      | Some items => answer 200 (UnsupportedPayload items)
      end
  end.

Definition customerServer_GetWithdrawalFeeEstimate (chain asset amount : string) (r : Request)
    : M (list WriterCall) :=
  if negb (GetWithdrawalFeeEstimateParamsChain_Valid chain)
  then problem r 400 "invalid-chain" "chain must be a supported enum value"
  else if negb (GetWithdrawalFeeEstimateParamsAsset_Valid asset)
  then problem r 400 "invalid-asset" "asset must be a supported enum value"
  else
  match big_SetString10 amount with
  | None => problem r 400 "invalid-amount" "amount must be a base-10 integer string"
  | Some amount =>
      let! res := try (EstimateFee_Execute chain asset (Some amount)) in
      match res with
      | Err e => answer_error r
          [(ErrNonPositiveAmount, 400, "invalid-amount", Some "amount must be a positive integer");
           (ErrAmountTooLarge, 400, "invalid-amount",
              Some "amount exceeds the maximum representable on-chain value")]
          "fee-estimate-failed" (Some "failed to compute fee estimate") e
      | Ok f =>
          match fe_TotalFee f with
          | None => throw (ErrText "panic: nil TotalFee")
          | Some total =>
              answer 200 (FeePayload (big_String (fe_L2Fee f)) (big_String (fe_L1Fee f))
                            (big_String total))
          end
      end
  end.

(** The router, and the handler behind the middlewares. *)
Definition serve (ep : Endpoint) (r : Request) : M (list WriterCall) :=
  match ep with
  | EpCreateCustomer => customerServer_CreateCustomer r
  | EpGetCustomer id => customerServer_GetCustomer id r
  | EpGetCustomerBalances id => customerServer_GetCustomerBalances id r
  | EpCreateTransfer key => customerServer_CreateTransfer key r
  | EpListTransactions id n c => customerServer_ListCustomerTransactions id n c r
  | EpGetDeposits id => customerServer_GetCustomerDeposits id r
  | EpGetUnsupported => customerServer_GetUnsupportedTokenObservations r
  | EpGetFeeEstimate chain asset amount => customerServer_GetWithdrawalFeeEstimate chain asset amount r
  | EpCreateWithdrawal key => customerServer_CreateWithdrawal key r
  | EpApproveWithdrawal id => customerServer_ApproveWithdrawal id r
  | EpNone calls => ret calls
  end.

Definition server (route : Request → Endpoint) : Handler := λ r, serve (route r) r.
End handlers.
