(* ===== verification/ApiJson.v ===== *)
(** * The API's JSON

    The request and response types of src/internal/adapter/api/server.gen.go with
    their JSON tags: what the handlers' [json.NewDecoder(r.Body).Decode] reads from a
    body and what [json.NewEncoder(w).Encode] writes. The UUID library's text form is
    a parameter. What a client finds in an answer is in Answers.v. *)

From Stdlib Require Import ZArith Lia.
From stdpp Require Import prelude strings.
From S2P Require Import Prelude GoStd Utf8 Json JsonStruct Rfc3339 Domain Idempotency Handlers.

(** ** Request bodies *)

Definition string_field {S} (name : bytes) (set : bytes → S → S) : Field S :=
  mkField name (text_field (λ s, Some s) set).

Section requests.
Context (uuid_UnmarshalText : bytes → option bytes).

Definition uuid_field {S} (name : bytes) (set : bytes → S → S) : Field S :=
  mkField name (text_field uuid_UnmarshalText set).

Definition TransferRequest_fields : list (Field TransferBody) :=
  [string_field "amount" (λ x b, mkTransferBody (tb_Source b) (tb_Destination b) (tb_Chain b) (tb_Asset b) x);
   string_field "asset" (λ x b, mkTransferBody (tb_Source b) (tb_Destination b) (tb_Chain b) x (tb_Amount b));
   string_field "chain" (λ x b, mkTransferBody (tb_Source b) (tb_Destination b) x (tb_Asset b) (tb_Amount b));
   uuid_field "destinationCustomerId"
     (λ x b, mkTransferBody (tb_Source b) x (tb_Chain b) (tb_Asset b) (tb_Amount b));
   uuid_field "sourceCustomerId"
     (λ x b, mkTransferBody x (tb_Destination b) (tb_Chain b) (tb_Asset b) (tb_Amount b))].
Definition zeroTransferRequest : TransferBody := mkTransferBody uuid_Nil uuid_Nil "" "" "".
Definition decode_transfer (b : bytes) : option TransferBody :=
  v ← Decode b; UnmarshalStruct TransferRequest_fields zeroTransferRequest v.

Definition WithdrawalRequest_fields : list (Field WithdrawalBody) :=
  [string_field "amount" (λ x b, mkWithdrawalBody (wb_Customer b) (wb_Chain b) (wb_Asset b) x (wb_Destination b));
   string_field "asset" (λ x b, mkWithdrawalBody (wb_Customer b) (wb_Chain b) x (wb_Amount b) (wb_Destination b));
   string_field "chain" (λ x b, mkWithdrawalBody (wb_Customer b) x (wb_Asset b) (wb_Amount b) (wb_Destination b));
   uuid_field "customerId" (λ x b, mkWithdrawalBody x (wb_Chain b) (wb_Asset b) (wb_Amount b) (wb_Destination b));
   string_field "destinationAddress"
     (λ x b, mkWithdrawalBody (wb_Customer b) (wb_Chain b) (wb_Asset b) (wb_Amount b) x)].
Definition zeroWithdrawalRequest : WithdrawalBody := mkWithdrawalBody uuid_Nil "" "" "" "".
Definition decode_withdrawal (b : bytes) : option WithdrawalBody :=
  v ← Decode b; UnmarshalStruct WithdrawalRequest_fields zeroWithdrawalRequest v.
End requests.

Definition ApproveWithdrawalRequest_fields : list (Field ApproveBody) :=
  [string_field "actor" (λ x b, mkApproveBody x (ab_Reason b));
   string_field "reason" (λ x b, mkApproveBody (ab_Actor b) x)].
Definition decode_approve (b : bytes) : option ApproveBody :=
  v ← Decode b; UnmarshalStruct ApproveWithdrawalRequest_fields (mkApproveBody "" "") v.

(** ** Response bodies *)

(** A pointer field with [omitempty]. *)
Definition omitempty (name : bytes) (o : option Json) : list (bytes * Json) :=
  match o with Some v => [(name, v)] | None => [] end.

Definition ProblemDetails_json (p : ProblemDetails) : Json :=
  JObject [("detail", JString (pd_Detail p)); ("instance", JString (pd_Instance p));
           ("status", JNumber (big_String (pd_Status p))); ("title", JString (pd_Title p));
           ("type", JString (pd_Type p))].
Definition encode_problem (p : ProblemDetails) : bytes := Encode (ProblemDetails_json p).

Definition DepositState_text (d : DepositState) : bytes :=
  match d with
  | DepositObserved => "observed" | DepositSafe => "safe" | DepositFinalized => "finalized"
  | DepositOrphaned => "orphaned" | DepositCredited => "credited"
  end.

Section responses.
Context (uuid_String : bytes → string) (zone : Z → Z).

Definition time_value (loc : Location) (t : Z) : option Json := time_json (offset_at zone loc t) t.

Definition Balance_json (b : string * string * string) : Json :=
  let '(chain, asset, balance) := b in
  JObject [("asset", JString asset); ("balance", JString balance); ("chain", JString chain)].

Definition Customer_json (id : bytes) (loc : Location) (createdAt : Z) (depositAddress : string) : option Json :=
  createdAt ← time_value loc createdAt;
  Some (JObject [("createdAt", createdAt); ("depositAddress", JString depositAddress);
                 ("id", JString (uuid_String id))]).

Definition Deposit_json (d : DepositItem) : option Json :=
  observedAt ← time_value Local (di_ObservedAt d);
  Some (JObject [("amount", JString (di_Amount d)); ("asset", JString (di_Asset d)); ("chain", JString (di_Chain d));
                 ("id", JString (uuid_String (di_Id d))); ("observedAt", observedAt);
                 ("status", JString (di_Status d)); ("tier", JString (DepositState_text (di_Tier d)));
                 ("txHash", JString (di_TxHash d))]).

Definition FeeEstimate_json (l2Fee l1Fee totalFee : string) : Json :=
  JObject [("l1Fee", JString l1Fee); ("l2Fee", JString l2Fee); ("totalFee", JString totalFee)].

Definition Transaction_json (t : TransactionItem) : option Json :=
  createdAt ← time_value Local (ti_CreatedAt t);
  Some (JObject [("amount", JString (ti_Amount t)); ("asset", JString (ti_Asset t)); ("chain", JString (ti_Chain t));
                 ("createdAt", createdAt); ("id", JString (uuid_String (ti_Id t)));
                 ("status", JString (ti_Status t)); ("type", JString (ti_Type t))]).

(** A transfer is answered with the time its creation took. *)
Definition Transfer_json (id source destination : bytes) (chain asset amount : string) (createdAt : Z) : option Json :=
  createdAt ← time_value UTC createdAt;
  Some (JObject [("amount", JString amount); ("asset", JString asset); ("chain", JString chain);
                 ("createdAt", createdAt); ("destinationCustomerId", JString (uuid_String destination));
                 ("id", JString (uuid_String id)); ("sourceCustomerId", JString (uuid_String source))]).

Definition UnsupportedTokenObservation_json (o : UnsupportedItem) : option Json :=
  observedAt ← time_value Local (ui_ObservedAt o);
  Some (JObject [("amount", JString (ui_Amount o)); ("blockNumber", JNumber (big_String (ui_BlockNumber o)));
                 ("chain", JString (ui_Chain o)); ("contractAddress", JString (ui_ContractAddress o));
                 ("depositAddress", JString (ui_DepositAddress o)); ("id", JString (uuid_String (ui_Id o)));
                 ("observedAt", observedAt); ("txHash", JString (ui_TxHash o))]).

(** A created withdrawal has no [approvedAt] and was not read back; an approved one's
    [createdAt] was, and its [approvedAt] is the approval's own time. *)
Definition Withdrawal_json (id customer : bytes) (chain asset amount destination status : string) (createdAt : Z)
    (approvedAt : option Z) (approvedBy approvalReason : option string) : option Json :=
  createdAt ← time_value (match approvedAt with Some _ => Local | None => UTC end) createdAt;
  approvedAt ← (match approvedAt with Some t => option_map Some (time_value UTC t) | None => Some None end);
  Some (JObject ([("amount", JString amount)] ++
                 omitempty "approvalReason" (option_map JString approvalReason) ++
                 omitempty "approvedAt" approvedAt ++
                 omitempty "approvedBy" (option_map JString approvedBy) ++
                 [("asset", JString asset); ("chain", JString chain); ("createdAt", createdAt);
                  ("customerId", JString (uuid_String customer)); ("destinationAddress", JString destination);
                  ("id", JString (uuid_String id)); ("status", JString status)])).

Definition payload_json (p : Payload) : option Json :=
  match p with
  | CustomerPayload id loc createdAt depositAddress => Customer_json id loc createdAt depositAddress
  | BalancesPayload balances => Some (JObject [("balances", JArray (map Balance_json balances))])
  | TransferPayload id source destination chain asset amount createdAt =>
      Transfer_json id source destination chain asset amount createdAt
  | TransactionsPayload items nextCursor =>
      items ← mapM Transaction_json items;
      Some (JObject (omitempty "nextCursor" (option_map JString nextCursor) ++ [("transactions", JArray items)]))
  | DepositsPayload items => items ← mapM Deposit_json items; Some (JObject [("deposits", JArray items)])
  | UnsupportedPayload items =>
      items ← mapM UnsupportedTokenObservation_json items; Some (JObject [("observations", JArray items)])
  | FeePayload l2Fee l1Fee totalFee => Some (FeeEstimate_json l2Fee l1Fee totalFee)
  | WithdrawalPayload id customer chain asset amount destination status createdAt approvedAt approvedBy approvalReason =>
      Withdrawal_json id customer chain asset amount destination status createdAt approvedAt approvedBy approvalReason
  end.

(** A value that cannot be encoded writes nothing: the error of [Encode] is dropped. *)
Definition encode_payload (p : Payload) : bytes :=
  match payload_json p with Some v => Encode v | None => EmptyString end.
End responses.

(** ** What a request body says *)

(** The text fields of a struct, one case each. *)
Ltac each_field H := repeat (apply elem_of_cons in H as [->|H]; [|]); [..|by apply elem_of_nil in H].
Ltac reads_fields unfolded :=
  split_and!; intros f v s s' Hf Hs; unfold unfolded in Hf; each_field Hf; cbn in Hs |- *;
  first [by eapply text_field_reads; [|exact Hs] | by eapply text_field_other; [|exact Hs]].

Section request_specs.
Context (uuid_UnmarshalText : bytes → option bytes).
Let text (s : bytes) : option bytes := Some s.

Lemma TransferRequest_uniform : uniform (TransferRequest_fields uuid_UnmarshalText).
Proof. intros f v s s' Hf. unfold TransferRequest_fields in Hf. each_field Hf; apply text_field_uniform. Qed.
Lemma WithdrawalRequest_uniform : uniform (WithdrawalRequest_fields uuid_UnmarshalText).
Proof. intros f v s s' Hf. unfold WithdrawalRequest_fields in Hf. each_field Hf; apply text_field_uniform. Qed.
Lemma ApproveRequest_uniform : uniform ApproveWithdrawalRequest_fields.
Proof. intros f v s s' Hf. unfold ApproveWithdrawalRequest_fields in Hf. each_field Hf; apply text_field_uniform. Qed.

(** Each field holds what the last of its members that is not null says, or is zero. *)
Definition transfer_says (ms : list (bytes * Json)) (b : TransferBody) : Prop :=
  let says {A} U (zero : A) name a := content_after U zero (values_of (TransferRequest_fields uuid_UnmarshalText) name ms) = Some a in
  says text EmptyString "amount" (tb_Amount b) ∧ says text EmptyString "asset" (tb_Asset b) ∧
  says text EmptyString "chain" (tb_Chain b) ∧
  says uuid_UnmarshalText uuid_Nil "destinationCustomerId" (tb_Destination b) ∧
  says uuid_UnmarshalText uuid_Nil "sourceCustomerId" (tb_Source b).

Definition withdrawal_says (ms : list (bytes * Json)) (b : WithdrawalBody) : Prop :=
  let says {A} U (zero : A) name a := content_after U zero (values_of (WithdrawalRequest_fields uuid_UnmarshalText) name ms) = Some a in
  says text EmptyString "amount" (wb_Amount b) ∧ says text EmptyString "asset" (wb_Asset b) ∧
  says text EmptyString "chain" (wb_Chain b) ∧ says uuid_UnmarshalText uuid_Nil "customerId" (wb_Customer b) ∧
  says text EmptyString "destinationAddress" (wb_Destination b).

Definition approval_says (ms : list (bytes * Json)) (b : ApproveBody) : Prop :=
  let says name a := content_after text EmptyString (values_of ApproveWithdrawalRequest_fields name ms) = Some a in
  says "actor"%string (ab_Actor b) ∧ says "reason"%string (ab_Reason b).

Lemma TransferRequest_reads :
  let reads {A} U (get : _ → A) name := reads_field (TransferRequest_fields uuid_UnmarshalText) name U get in
  reads text tb_Amount "amount" ∧ reads text tb_Asset "asset" ∧ reads text tb_Chain "chain" ∧
  reads uuid_UnmarshalText tb_Destination "destinationCustomerId" ∧
  reads uuid_UnmarshalText tb_Source "sourceCustomerId".
Proof. reads_fields TransferRequest_fields. Qed.

Lemma WithdrawalRequest_reads :
  let reads {A} U (get : _ → A) name := reads_field (WithdrawalRequest_fields uuid_UnmarshalText) name U get in
  reads text wb_Amount "amount" ∧ reads text wb_Asset "asset" ∧ reads text wb_Chain "chain" ∧
  reads uuid_UnmarshalText wb_Customer "customerId" ∧ reads text wb_Destination "destinationAddress".
Proof. reads_fields WithdrawalRequest_fields. Qed.

Lemma ApproveRequest_reads :
  reads_field ApproveWithdrawalRequest_fields "actor" text ab_Actor ∧
  reads_field ApproveWithdrawalRequest_fields "reason" text ab_Reason.
Proof. reads_fields ApproveWithdrawalRequest_fields. Qed.

Lemma decoded_transfer_says ms b :
  UnmarshalStruct (TransferRequest_fields uuid_UnmarshalText) zeroTransferRequest (JObject ms) = Some b →
  transfer_says ms b.
Proof.
  intros H. destruct TransferRequest_reads as (R1 & R2 & R3 & R4 & R5).
  split_and!; [by apply (decoded_field _ _ _ _ _ _ _ R1 H)|by apply (decoded_field _ _ _ _ _ _ _ R2 H)
    |by apply (decoded_field _ _ _ _ _ _ _ R3 H)|by apply (decoded_field _ _ _ _ _ _ _ R4 H)
    |by apply (decoded_field _ _ _ _ _ _ _ R5 H)].
Qed.

Lemma decoded_withdrawal_says ms b :
  UnmarshalStruct (WithdrawalRequest_fields uuid_UnmarshalText) zeroWithdrawalRequest (JObject ms) = Some b →
  withdrawal_says ms b.
Proof.
  intros H. destruct WithdrawalRequest_reads as (R1 & R2 & R3 & R4 & R5).
  split_and!; [by apply (decoded_field _ _ _ _ _ _ _ R1 H)|by apply (decoded_field _ _ _ _ _ _ _ R2 H)
    |by apply (decoded_field _ _ _ _ _ _ _ R3 H)|by apply (decoded_field _ _ _ _ _ _ _ R4 H)
    |by apply (decoded_field _ _ _ _ _ _ _ R5 H)].
Qed.

Lemma decoded_approval_says ms b :
  UnmarshalStruct ApproveWithdrawalRequest_fields (mkApproveBody "" "") (JObject ms) = Some b →
  approval_says ms b.
Proof.
  intros H. destruct ApproveRequest_reads as (R1 & R2).
  split; [by apply (decoded_field _ _ _ _ _ _ _ R1 H)|by apply (decoded_field _ _ _ _ _ _ _ R2 H)].
Qed.

(** Values that say something are accepted: they decode, to what they say. *)
Ltac accepted_by fields Hb :=
  apply Forall_forall; intros m Hm f Hf; pose proof (find_field_elem _ _ _ Hf) as Hin; unfold fields in Hin;
  destruct_and?; each_field Hin; (eapply content_sets; [reflexivity|by eexists|done|exact Hf]).

Lemma transfer_says_decoded ms b :
  transfer_says ms b →
  UnmarshalStruct (TransferRequest_fields uuid_UnmarshalText) zeroTransferRequest (JObject ms) = Some b.
Proof.
  intros Hb. assert (is_Some (UnmarshalStruct (TransferRequest_fields uuid_UnmarshalText) zeroTransferRequest (JObject ms))) as [b' Hb'].
  { apply (members_accepted _ _ _ TransferRequest_uniform). red in Hb. accepted_by TransferRequest_fields Hb. }
  rewrite Hb'. apply decoded_transfer_says in Hb'. red in Hb, Hb'. destruct b, b'. simpl in *. intuition congruence.
Qed.

Lemma withdrawal_says_decoded ms b :
  withdrawal_says ms b →
  UnmarshalStruct (WithdrawalRequest_fields uuid_UnmarshalText) zeroWithdrawalRequest (JObject ms) = Some b.
Proof.
  intros Hb. assert (is_Some (UnmarshalStruct (WithdrawalRequest_fields uuid_UnmarshalText) zeroWithdrawalRequest (JObject ms))) as [b' Hb'].
  { apply (members_accepted _ _ _ WithdrawalRequest_uniform). red in Hb. accepted_by WithdrawalRequest_fields Hb. }
  rewrite Hb'. apply decoded_withdrawal_says in Hb'. red in Hb, Hb'. destruct b, b'. simpl in *. intuition congruence.
Qed.

Lemma approval_says_decoded ms b :
  approval_says ms b →
  UnmarshalStruct ApproveWithdrawalRequest_fields (mkApproveBody "" "") (JObject ms) = Some b.
Proof.
  intros Hb. assert (is_Some (UnmarshalStruct ApproveWithdrawalRequest_fields (mkApproveBody "" "") (JObject ms))) as [b' Hb'].
  { apply (members_accepted _ _ _ ApproveRequest_uniform). red in Hb. accepted_by ApproveWithdrawalRequest_fields Hb. }
  rewrite Hb'. apply decoded_approval_says in Hb'. red in Hb, Hb'. destruct b, b'. simpl in *. intuition congruence.
Qed.

(** A struct is read from null or from an object. *)
Lemma UnmarshalStruct_iff {S} (fields : list (Field S)) zero (says : list (bytes * Json) → S → Prop) v b :
  (∀ ms, UnmarshalStruct fields zero (JObject ms) = Some b ↔ says ms b) →
  UnmarshalStruct fields zero v = Some b ↔ (v = JNull ∧ b = zero) ∨ ∃ ms, v = JObject ms ∧ says ms b.
Proof.
  intros H. destruct v; try (split; [done|]; naive_solver).
  - simpl. split; [intros [= ->]; by left|]. intros [[_ ->]|(? & ? & _)]; done.
  - rewrite H. naive_solver.
Qed.

(** What the handlers read of a body: its first JSON value, as the struct says. *)
Lemma decode_transfer_says s b :
  decode_transfer uuid_UnmarshalText s = Some b ↔
  ∃ v, Decode s = Some v ∧ ((v = JNull ∧ b = zeroTransferRequest) ∨ ∃ ms, v = JObject ms ∧ transfer_says ms b).
Proof.
  unfold decode_transfer. rewrite bind_Some. apply exist_proper. intros v. apply and_iff_compat_l, UnmarshalStruct_iff.
  intros ms. split; [apply decoded_transfer_says|apply transfer_says_decoded].
Qed.
Lemma decode_withdrawal_says s b :
  decode_withdrawal uuid_UnmarshalText s = Some b ↔
  ∃ v, Decode s = Some v ∧ ((v = JNull ∧ b = zeroWithdrawalRequest) ∨ ∃ ms, v = JObject ms ∧ withdrawal_says ms b).
Proof.
  unfold decode_withdrawal. rewrite bind_Some. apply exist_proper. intros v. apply and_iff_compat_l, UnmarshalStruct_iff.
  intros ms. split; [apply decoded_withdrawal_says|apply withdrawal_says_decoded].
Qed.
Lemma decode_approve_says s b :
  decode_approve s = Some b ↔
  ∃ v, Decode s = Some v ∧ ((v = JNull ∧ b = mkApproveBody "" "") ∨ ∃ ms, v = JObject ms ∧ approval_says ms b).
Proof.
  unfold decode_approve. rewrite bind_Some. apply exist_proper. intros v. apply and_iff_compat_l, UnmarshalStruct_iff.
  intros ms. split; [apply decoded_approval_says|apply approval_says_decoded].
Qed.
End request_specs.

(** ** What a client writes, the server reads *)

(** [json.Marshal] of the request types. *)
Definition TransferRequest_json (uuid_String : bytes → string) (b : TransferBody) : Json :=
  JObject [("amount", JString (tb_Amount b)); ("asset", JString (tb_Asset b)); ("chain", JString (tb_Chain b));
           ("destinationCustomerId", JString (uuid_String (tb_Destination b)));
           ("sourceCustomerId", JString (uuid_String (tb_Source b)))].
Definition WithdrawalRequest_json (uuid_String : bytes → string) (b : WithdrawalBody) : Json :=
  JObject [("amount", JString (wb_Amount b)); ("asset", JString (wb_Asset b)); ("chain", JString (wb_Chain b));
           ("customerId", JString (uuid_String (wb_Customer b))); ("destinationAddress", JString (wb_Destination b))].
Definition ApproveWithdrawalRequest_json (b : ApproveBody) : Json :=
  JObject [("actor", JString (ab_Actor b)); ("reason", JString (ab_Reason b))].

Section roundtrips.
Context (uuid_UnmarshalText : bytes → option bytes) (uuid_String : bytes → string).
(** The library's text form of a 16-byte id is UTF-8, and reads back. *)
Hypothesis (uuid_text : ∀ id, String.length id = 16%nat →
  ValidString (uuid_String id) = true ∧ uuid_UnmarshalText (uuid_String id) = Some id).

(** A whole body: the value, and what may follow it (whitespace, or anything that is
    not part of a number). *)
Ltac decode_object := rewrite Decode_Marshal; [|by simpl|by simpl|done];
  cbn [mbind option_bind sanitize map]; rewrite ?sanitize_valid by naive_solver.

Lemma decode_transfer_Marshal b t :
  ValidString (tb_Amount b) = true → ValidString (tb_Asset b) = true → ValidString (tb_Chain b) = true →
  String.length (tb_Source b) = 16%nat → String.length (tb_Destination b) = 16%nat → delimiter (runes t) →
  decode_transfer uuid_UnmarshalText (Marshal (TransferRequest_json uuid_String b) +:+ t) = Some b.
Proof.
  intros H1 H2 H3 [V4 H4]%uuid_text [V5 H5]%uuid_text Ht. unfold decode_transfer, TransferRequest_json. decode_object.
  apply transfer_says_decoded. split_and!; cbn; by rewrite ?H4, ?H5.
Qed.

Lemma decode_withdrawal_Marshal b t :
  ValidString (wb_Amount b) = true → ValidString (wb_Asset b) = true → ValidString (wb_Chain b) = true →
  ValidString (wb_Destination b) = true → String.length (wb_Customer b) = 16%nat → delimiter (runes t) →
  decode_withdrawal uuid_UnmarshalText (Marshal (WithdrawalRequest_json uuid_String b) +:+ t) = Some b.
Proof.
  intros H1 H2 H3 H4 [V5 H5]%uuid_text Ht. unfold decode_withdrawal, WithdrawalRequest_json. decode_object.
  apply withdrawal_says_decoded. split_and!; cbn; by rewrite ?H5.
Qed.

Lemma decode_approve_Marshal b t :
  ValidString (ab_Actor b) = true → ValidString (ab_Reason b) = true → delimiter (runes t) →
  decode_approve (Marshal (ApproveWithdrawalRequest_json b) +:+ t) = Some b.
Proof.
  intros H1 H2 Ht. unfold decode_approve, ApproveWithdrawalRequest_json. decode_object.
  by apply approval_says_decoded.
Qed.
End roundtrips.

(** ** What the server writes, a client reads *)

Section response_specs.
Context (uuid_String : bytes → string) (zone : Z → Z).

(** Shallow, with no number but integers: what every answer is. *)
Definition plain_json (n : Z) (v : Json) : Prop := integers v ∧ depth v <= n.

Lemma plain_array n l : 0 <= n → Forall (plain_json n) l → plain_json (n + 1) (JArray l).
Proof.
  intros Hn Hl. unfold plain_json. cbn [integers depth].
  assert (foldr (λ v acc, integers v ∧ acc) True l ∧ foldr (λ v m, Z.max (depth v) m) 0 l <= n) as [? ?].
  { induction Hl as [|v l [Hi Hd] _ [IH1 IH2]]; [done|]. cbn [foldr]. split; [done|lia]. }
  split; [done|lia].
Qed.

Lemma plain_object n ms : 0 <= n → Forall (λ m, plain_json n (snd m)) ms → plain_json (n + 1) (JObject ms).
Proof.
  intros Hn Hl. unfold plain_json. cbn [integers depth].
  assert (foldr (λ m acc, integers (snd m) ∧ acc) True ms ∧ foldr (λ m d, Z.max (depth (snd m)) d) 0 ms <= n) as [? ?].
  { induction Hl as [|m ms [Hi Hd] _ [IH1 IH2]]; [done|]. cbn [foldr]. split; [done|lia]. }
  split; [done|lia].
Qed.

Lemma plain_string n s : 0 <= n → plain_json n (JString s).
Proof. done. Qed.
Lemma plain_integer n z : 0 <= n → plain_json n (JNumber (big_String z)).
Proof. intros Hn. split; [by exists z|done]. Qed.
Lemma plain_weaken n m v : n <= m → plain_json n v → plain_json m v.
Proof. intros H [Hi Hd]. split; [done|lia]. Qed.
Lemma plain_time loc t v : time_value zone loc t = Some v → plain_json 0 v.
Proof. unfold time_value, time_json. case_match; [|done]. by intros [= <-]. Qed.

Lemma omitempty_plain n name o : (∀ v, o = Some v → plain_json n v) → Forall (λ m, plain_json n (snd m)) (omitempty name o).
Proof. intros H. destruct o; repeat constructor; by apply H. Qed.

Ltac plain_members :=
  apply (plain_object 0); [done|];
  repeat (first [apply Forall_app_2 | apply Forall_cons_2 | apply Forall_nil_2]); cbn [snd];
  first [by apply plain_string | by apply plain_integer | by eapply plain_time | idtac].

Lemma Deposit_plain d v : Deposit_json uuid_String zone d = Some v → plain_json 1 v.
Proof. unfold Deposit_json. intros (o & Ho & [= <-])%bind_Some. plain_members. Qed.
Lemma Transaction_plain t v : Transaction_json uuid_String zone t = Some v → plain_json 1 v.
Proof. unfold Transaction_json. intros (o & Ho & [= <-])%bind_Some. plain_members. Qed.
Lemma Unsupported_plain o v : UnsupportedTokenObservation_json uuid_String zone o = Some v → plain_json 1 v.
Proof. unfold UnsupportedTokenObservation_json. intros (t & Ho & [= <-])%bind_Some. plain_members. Qed.

Lemma mapM_plain {A} (f : A → option Json) l vs :
  (∀ a v, f a = Some v → plain_json 1 v) → mapM f l = Some vs → plain_json 2 (JArray vs).
Proof.
  intros Hf Hl%mapM_Some. apply (plain_array 1); [done|].
  induction Hl; constructor; [by eapply Hf|done].
Qed.

Lemma payload_plain p v : payload_json uuid_String zone p = Some v → plain_json 3 v.
Proof.
  destruct p; cbn [payload_json].
  - unfold Customer_json. intros (o & Ho & [= <-])%bind_Some. apply (plain_weaken 1); [done|]. plain_members.
  - intros [= <-]. apply (plain_object 2); [done|]. apply Forall_singleton. cbn [snd].
    apply (plain_array 1); [done|]. apply Forall_map, Forall_true. intros [[c a] b]. cbn. plain_members.
  - unfold Transfer_json. intros (o & Ho & [= <-])%bind_Some. apply (plain_weaken 1); [done|]. plain_members.
  - intros (l & Hl & [= <-])%bind_Some. apply (plain_object 2); [done|]. apply Forall_app_2.
    + apply omitempty_plain. destruct nextCursor; [|done]. by intros ? [= <-].
    + apply Forall_singleton, (mapM_plain _ _ _ Transaction_plain Hl).
  - intros (l & Hl & [= <-])%bind_Some. apply (plain_object 2); [done|].
    apply Forall_singleton, (mapM_plain _ _ _ Deposit_plain Hl).
  - intros (l & Hl & [= <-])%bind_Some. apply (plain_object 2); [done|].
    apply Forall_singleton, (mapM_plain _ _ _ Unsupported_plain Hl).
  - intros [= <-]. apply (plain_weaken 1); [done|]. unfold FeeEstimate_json. plain_members.
  - unfold Withdrawal_json. intros (o & Ho & (a & Ha & [= <-])%bind_Some)%bind_Some. apply (plain_weaken 1); [done|].
    plain_members; apply omitempty_plain.
    + destruct approvalReason; [|done]. by intros ? [= <-].
    + intros v ->. destruct approvedAt as [t|]; [|done]. destruct (time_value zone UTC t) eqn:Et; [|done].
      injection Ha as ->. by eapply plain_time.
    + destruct approvedBy; [|done]. by intros ? [= <-].
Qed.

(** A body is the text of its value and a newline; a client reads that value. *)
Lemma encode_payload_readable p v :
  payload_json uuid_String zone p = Some v → Decode (encode_payload uuid_String zone p) = Some (sanitize v).
Proof.
  intros Hp. unfold encode_payload. rewrite Hp. apply payload_plain in Hp as [Hi Hd].
  apply Decode_Encode; [done|]. unfold maxNestingDepth. lia.
Qed.

Lemma encode_problem_readable pd : Decode (encode_problem pd) = Some (sanitize (ProblemDetails_json pd)).
Proof. apply Decode_Encode; [|done]. simpl. repeat split; try done. by eexists. Qed.

(** ** Timestamps an answer cannot show *)

(** The instants an answer shows, each with its location. *)
Definition payload_times (p : Payload) : list (Location * Z) :=
  match p with
  | CustomerPayload _ loc t _ => [(loc, t)]
  | BalancesPayload _ | FeePayload _ _ _ => []
  | TransferPayload _ _ _ _ _ _ t => [(UTC, t)]
  | TransactionsPayload items _ => map (λ i, (Local, ti_CreatedAt i)) items
  | DepositsPayload items => map (λ i, (Local, di_ObservedAt i)) items
  | UnsupportedPayload items => map (λ i, (Local, ui_ObservedAt i)) items
  | WithdrawalPayload _ _ _ _ _ _ _ t approvedAt _ _ =>
      match approvedAt with Some t' => [(Local, t); (UTC, t')] | None => [(UTC, t)] end
  end.

Lemma mapM_items {A} (f : A → option Json) (time : A → Z) l :
  (∀ a, is_Some (f a) ↔ is_Some (time_value zone Local (time a))) →
  is_Some (mapM f l) ↔ Forall (λ p, is_Some (time_value zone (fst p) (snd p))) (map (λ a, (Local, time a)) l).
Proof.
  intros Hf. rewrite mapM_is_Some, Forall_map. apply Forall_iff. intros a. apply Hf.
Qed.

Lemma bind_value {A} (o : option Json) (k : Json → A) : is_Some (v ← o; Some (k v)) ↔ is_Some o.
Proof. destruct o; simpl; split; intros H; (done || by destruct H). Qed.

Lemma bind_is_Some_iff (o : option Json) (k : Json → option Json) (P : Prop) :
  (∀ v, is_Some (k v) ↔ P) → is_Some (o ≫= k) ↔ is_Some o ∧ P.
Proof.
  intros Hk. destruct o as [v|]; cbn; [|split; [by intros []|by intros [[] _]]].
  rewrite Hk. split; [by split; [eexists|]|tauto].
Qed.

(** An answer has a body exactly when RFC 3339 can show each of its instants. *)
Lemma payload_json_defined p :
  is_Some (payload_json uuid_String zone p) ↔
  Forall (λ q, is_Some (time_value zone (fst q) (snd q))) (payload_times p).
Proof.
  destruct p; cbn [payload_json payload_times].
  - unfold Customer_json. by rewrite bind_value, Forall_singleton.
  - by split.
  - unfold Transfer_json. by rewrite bind_value, Forall_singleton.
  - rewrite <-(mapM_items (Transaction_json uuid_String zone)); [|intros a; apply bind_value].
    destruct (mapM _ _); simpl; split; intros H; (done || by destruct H).
  - rewrite <-(mapM_items (Deposit_json uuid_String zone)); [|intros a; apply bind_value].
    destruct (mapM _ _); simpl; split; intros H; (done || by destruct H).
  - rewrite <-(mapM_items (UnsupportedTokenObservation_json uuid_String zone)); [|intros a; apply bind_value].
    destruct (mapM _ _); simpl; split; intros H; (done || by destruct H).
  - by split.
  - unfold Withdrawal_json. destruct approvedAt as [t|].
    + rewrite Forall_cons, Forall_singleton. cbn [fst snd]. apply bind_is_Some_iff. intros v. by destruct (time_value zone UTC t); split; intros H; (done || by destruct H).
    + rewrite Forall_singleton. cbn [fst snd].
      by destruct (time_value zone UTC createdAt); split; intros H; (done || by destruct H).
Qed.

Lemma encode_payload_empty p :
  encode_payload uuid_String zone p = EmptyString ↔ payload_json uuid_String zone p = None.
Proof.
  unfold encode_payload. destruct (payload_json _ _ p) as [v|]; [|done]. split; [|done]. unfold Encode.
  by destruct (Marshal v).
Qed.

Lemma encode_payload_nonempty p :
  encode_payload uuid_String zone p ≠ EmptyString ↔ is_Some (payload_json uuid_String zone p).
Proof. rewrite <-not_eq_None_Some. apply not_iff_compat, encode_payload_empty. Qed.
End response_specs.

(** Unfolded before the time formatting it applies. *)
#[global] Strategy expand [time_value].

(** ** The decoders' contract *)

(** C25: request bodies. The handlers read the first JSON value of a body, and each field
    of it is what the last of the members with that name, matched without case, says
    (null says nothing, an absent field is zero); a body is refused exactly when it is
    not JSON or a member says something its field cannot hold. What [json.Marshal]
    writes for a request of UTF-8 strings and 16-byte ids reads back as that request,
    with anything after it that is not part of a number. *)
Theorem requests_decoded (uuid_UnmarshalText : bytes → option bytes) (uuid_String : bytes → string) :
  (∀ id, String.length id = 16%nat →
     ValidString (uuid_String id) = true ∧ uuid_UnmarshalText (uuid_String id) = Some id) →
  let valid s := ValidString s = true in
  let transfer := decode_transfer uuid_UnmarshalText in
  let withdrawal := decode_withdrawal uuid_UnmarshalText in
  (∀ s b, transfer s = Some b ↔ ∃ v, Decode s = Some v ∧
     ((v = JNull ∧ b = zeroTransferRequest) ∨ ∃ ms, v = JObject ms ∧ transfer_says uuid_UnmarshalText ms b)) ∧
  (∀ s b, withdrawal s = Some b ↔ ∃ v, Decode s = Some v ∧
     ((v = JNull ∧ b = zeroWithdrawalRequest) ∨ ∃ ms, v = JObject ms ∧ withdrawal_says uuid_UnmarshalText ms b)) ∧
  (∀ s b, decode_approve s = Some b ↔ ∃ v, Decode s = Some v ∧
     ((v = JNull ∧ b = mkApproveBody "" "") ∨ ∃ ms, v = JObject ms ∧ approval_says ms b)) ∧
  (∀ b t, Forall valid [tb_Amount b; tb_Asset b; tb_Chain b] → delimiter (runes t) →
     String.length (tb_Source b) = 16%nat → String.length (tb_Destination b) = 16%nat →
     transfer (Marshal (TransferRequest_json uuid_String b) +:+ t) = Some b) ∧
  (∀ b t, Forall valid [wb_Amount b; wb_Asset b; wb_Chain b; wb_Destination b] → delimiter (runes t) →
     String.length (wb_Customer b) = 16%nat →
     withdrawal (Marshal (WithdrawalRequest_json uuid_String b) +:+ t) = Some b) ∧
  (∀ b t, Forall valid [ab_Actor b; ab_Reason b] → delimiter (runes t) →
     decode_approve (Marshal (ApproveWithdrawalRequest_json b) +:+ t) = Some b).
Proof.
  intros Hu. split_and!.
  - intros s b. apply decode_transfer_says.
  - intros s b. apply decode_withdrawal_says.
  - intros s b. apply (decode_approve_says uuid_UnmarshalText).
  - intros b t H Ht H1 H2. rewrite !Forall_cons in H. destruct H as (? & ? & ? & _). by apply decode_transfer_Marshal.
  - intros b t H Ht H1. rewrite !Forall_cons in H. destruct H as (? & ? & ? & ? & _). by apply decode_withdrawal_Marshal.
  - intros b t H Ht. rewrite !Forall_cons in H. destruct H as (? & ? & _). by apply (decode_approve_Marshal uuid_UnmarshalText uuid_String).
Qed.
