(* ===== verification/Answers.v ===== *)
(** * What a client reads in an answer

    The schemas of src/api/openapi.yaml for the answers of the API, as predicates on
    the JSON value a client decodes, stated member by member and by name; and that
    every body the handlers write satisfies its schema with the values it was given. *)

From Stdlib Require Import ZArith Lia.
From stdpp Require Import prelude strings.
From S2P Require Import Prelude GoStd Utf8 Json JsonStruct Rfc3339 Domain Idempotency Handlers ApiJson.

(** ** Values *)

(** A string is read as it was, up to invalid UTF-8; an instant as the same instant; a
    number as the same number. *)
Definition text (s : bytes) (x : Json) : Prop := x = JString (sanitize_string s).
Definition instant (t : Z) (x : Json) : Prop := time_of_json x = Some t.
Definition number (z : Z) (x : Json) : Prop := ∃ s, x = JNumber s ∧ big_SetString10 s = Some z.
Definition listing {A} (shows : A → Json → Prop) (l : list A) (x : Json) : Prop :=
  ∃ xs, x = JArray xs ∧ Forall2 shows l xs.

(** An object with exactly the named members, each once, in any order. *)
Definition object (spec : list (bytes * (Json → Prop))) (x : Json) : Prop :=
  ∃ ms, x = JObject ms ∧ NoDup (map fst ms) ∧ (∀ n, n ∈ map fst ms ↔ n ∈ map fst spec) ∧
    Forall (λ p, ∃ y, (fst p, y) ∈ ms ∧ snd p y) spec.

(** A member that is there when there is a value for it. *)
Definition present {A} (name : bytes) (P : A → Json → Prop) (o : option A) : list (bytes * (Json → Prop)) :=
  match o with Some a => [(name, P a)] | None => [] end.

(** ** The schemas *)

Inductive tier_text : DepositState → bytes → Prop :=
  | tier_observed : tier_text DepositObserved "observed"
  | tier_safe : tier_text DepositSafe "safe"
  | tier_finalized : tier_text DepositFinalized "finalized"
  | tier_orphaned : tier_text DepositOrphaned "orphaned"
  | tier_credited : tier_text DepositCredited "credited".

Section schemas.
Context (uuid_String : bytes → string).

Definition shows_balance (b : string * string * string) : Json → Prop :=
  let '(chain, asset, balance) := b in
  object [("chain", text chain); ("asset", text asset); ("balance", text balance)].

Definition shows_transaction (t : TransactionItem) : Json → Prop :=
  object [("id", text (uuid_String (ti_Id t))); ("type", text (ti_Type t)); ("amount", text (ti_Amount t));
          ("chain", text (ti_Chain t)); ("asset", text (ti_Asset t)); ("status", text (ti_Status t));
          ("createdAt", instant (ti_CreatedAt t))].

Definition shows_deposit (d : DepositItem) : Json → Prop :=
  object [("id", text (uuid_String (di_Id d))); ("chain", text (di_Chain d)); ("asset", text (di_Asset d));
          ("amount", text (di_Amount d)); ("txHash", text (di_TxHash d)); ("status", text (di_Status d));
          ("tier", λ x, ∃ s, tier_text (di_Tier d) s ∧ text s x); ("observedAt", instant (di_ObservedAt d))].

Definition shows_unsupported (o : UnsupportedItem) : Json → Prop :=
  object [("id", text (uuid_String (ui_Id o))); ("chain", text (ui_Chain o));
          ("depositAddress", text (ui_DepositAddress o)); ("contractAddress", text (ui_ContractAddress o));
          ("txHash", text (ui_TxHash o)); ("amount", text (ui_Amount o)); ("blockNumber", number (ui_BlockNumber o));
          ("observedAt", instant (ui_ObservedAt o))].

Definition shows (p : Payload) : Json → Prop :=
  match p with
  | CustomerPayload id _ createdAt depositAddress =>
      object [("id", text (uuid_String id)); ("createdAt", instant createdAt); ("depositAddress", text depositAddress)]
  | BalancesPayload balances => object [("balances", listing shows_balance balances)]
  | TransferPayload id source destination chain asset amount createdAt =>
      object [("id", text (uuid_String id)); ("sourceCustomerId", text (uuid_String source));
              ("destinationCustomerId", text (uuid_String destination)); ("chain", text chain);
              ("asset", text asset); ("amount", text amount); ("createdAt", instant createdAt)]
  | TransactionsPayload items nextCursor =>
      object ([("transactions", listing shows_transaction items)] ++ present "nextCursor" text nextCursor)
  | DepositsPayload items => object [("deposits", listing shows_deposit items)]
  | UnsupportedPayload items => object [("observations", listing shows_unsupported items)]
  | FeePayload l2Fee l1Fee totalFee =>
      object [("l2Fee", text l2Fee); ("l1Fee", text l1Fee); ("totalFee", text totalFee)]
  | WithdrawalPayload id customer chain asset amount destination status createdAt approvedAt approvedBy approvalReason =>
      object ([("id", text (uuid_String id)); ("customerId", text (uuid_String customer)); ("chain", text chain);
               ("asset", text asset); ("amount", text amount); ("destinationAddress", text destination);
               ("status", text status); ("createdAt", instant createdAt)] ++
              present "approvedAt" instant approvedAt ++ present "approvedBy" text approvedBy ++
              present "approvalReason" text approvalReason)
  end.
End schemas.

Definition shows_problem (p : ProblemDetails) : Json → Prop :=
  object [("type", text (pd_Type p)); ("title", text (pd_Title p)); ("status", number (pd_Status p));
          ("detail", text (pd_Detail p)); ("instance", text (pd_Instance p))].

(** RFC 3339 can write an instant at a location: a year of four digits there, and an
    offset of less than a day. *)
Definition writable_instant (zone : Z → Z) (q : Location * Z) : Prop :=
  let offset := offset_at zone (fst q) (snd q) in
  representable offset (snd q) ∧ -1440 < offset < 1440.

(** ** The bodies satisfy them *)

Lemma sanitize_object ms :
  forallb (λ p, ascii_text (fst p)) ms = true →
  sanitize (JObject ms) = JObject (map (λ p, (fst p, sanitize (snd p))) ms).
Proof.
  intros H. cbn [sanitize]. f_equal. induction ms as [|[k v] ms IH]; [done|]. cbn in H |- *.
  apply andb_true_iff in H as [Hk H]. by rewrite (sanitize_ascii k Hk), IH.
Qed.

Lemma text_sanitize s : text s (sanitize (JString s)).
Proof. done. Qed.
Lemma number_sanitize z : number z (sanitize (JNumber (big_String z))).
Proof. exists (big_String z). split; [done|apply big_SetString10_String]. Qed.
Lemma time_value_writable zone loc t : is_Some (time_value zone loc t) ↔ writable_instant zone (loc, t).
Proof.
  unfold time_value, time_json, writable_instant, representable. cbn [fst snd].
  destruct (_ && _) eqn:E; split; intros H.
  - bool_to_prop. lia.
  - by eexists.
  - by destruct H.
  - apply not_true_iff_false in E. destruct E. rewrite !andb_true_iff, !Z.leb_le, !Z.ltb_lt. lia.
Qed.
Lemma instant_sanitize zone loc t v : time_value zone loc t = Some v → instant t (sanitize v).
Proof. intros H. unfold instant. rewrite (time_json_sanitize _ _ _ H). exact (time_json_roundtrip _ _ _ H). Qed.

#[local] Hint Resolve text_sanitize number_sanitize : shown.
#[local] Hint Extern 1 (instant _ (sanitize _)) => eapply instant_sanitize; eassumption : shown.

(** An object of the code against its schema: the names by computation, then each member
    where the code put it. *)
Ltac member := repeat (first [apply list_elem_of_here|apply list_elem_of_further]).
Ltac show_object :=
  rewrite sanitize_object by reflexivity; eexists; split; [reflexivity|]; cbn [map app fst snd present omitempty option_map];
  split; [apply (bool_decide_eq_true_1 _); vm_compute; reflexivity|];
  split; [intros n; rewrite !elem_of_cons; tauto|];
  repeat (apply Forall_cons; split); try apply Forall_nil; cbn [fst snd];
  eexists; (split; [solve [member]|eauto with shown]).

Lemma shows_problem_body p : shows_problem p (sanitize (ProblemDetails_json p)).
Proof. unfold ProblemDetails_json, shows_problem. show_object. Qed.

Section bodies.
Context (uuid_String : bytes → string) (zone : Z → Z).


Lemma listing_mapM {A} (f : A → option Json) (show : A → Json → Prop) l vs :
  (∀ a v, f a = Some v → show a (sanitize v)) → mapM f l = Some vs → listing show l (sanitize (JArray vs)).
Proof.
  intros Hf Hl%mapM_Some. exists (map sanitize vs). split; [done|].
  induction Hl; constructor; [by apply Hf|done].
Qed.

Lemma shows_transaction_body t v :
  Transaction_json uuid_String zone t = Some v → shows_transaction uuid_String t (sanitize v).
Proof. unfold Transaction_json. intros (o & Ho & [= <-])%bind_Some. unfold shows_transaction. show_object. Qed.

Lemma tier_body d : ∃ s, tier_text d s ∧ text s (sanitize (JString (DepositState_text d))).
Proof. exists (DepositState_text d). split; [by destruct d; constructor|done]. Qed.
#[local] Hint Resolve tier_body : shown.

Lemma shows_deposit_body d v : Deposit_json uuid_String zone d = Some v → shows_deposit uuid_String d (sanitize v).
Proof. unfold Deposit_json. intros (o & Ho & [= <-])%bind_Some. unfold shows_deposit. show_object. Qed.

Lemma shows_unsupported_body u v :
  UnsupportedTokenObservation_json uuid_String zone u = Some v → shows_unsupported uuid_String u (sanitize v).
Proof.
  unfold UnsupportedTokenObservation_json. intros (o & Ho & [= <-])%bind_Some. unfold shows_unsupported. show_object.
Qed.

Lemma shows_balance_body b : shows_balance b (sanitize (Balance_json b)).
Proof. destruct b as [[chain asset] balance]. unfold Balance_json, shows_balance. show_object. Qed.

Lemma listing_map {A} (f : A → Json) (show : A → Json → Prop) l :
  (∀ a, show a (sanitize (f a))) → listing show l (sanitize (JArray (map f l))).
Proof.
  intros Hf. exists (map sanitize (map f l)). split; [done|]. induction l; constructor; [apply Hf|done].
Qed.

Lemma shows_withdrawal_body id customer chain asset amount destination status createdAt approvedAt approvedBy approvalReason v :
  Withdrawal_json uuid_String zone id customer chain asset amount destination status createdAt approvedAt approvedBy
    approvalReason = Some v →
  shows uuid_String (WithdrawalPayload id customer chain asset amount destination status createdAt approvedAt
    approvedBy approvalReason) (sanitize v).
Proof.
  unfold Withdrawal_json. intros (o & Ho & (a & Ha & [= <-])%bind_Some)%bind_Some. cbn [shows].
  destruct approvedAt as [t|].
  - destruct (time_value zone UTC t) as [o'|] eqn:Et; [|done]. injection Ha as <-.
    destruct approvedBy, approvalReason; show_object.
  - injection Ha as <-. destruct approvedBy, approvalReason; show_object.
Qed.

Lemma shows_payload p v : payload_json uuid_String zone p = Some v → shows uuid_String p (sanitize v).
Proof.
  destruct p; cbn [payload_json shows].
  - unfold Customer_json. intros (o & Ho & [= <-])%bind_Some. show_object.
  - intros [= <-]. show_object. by apply listing_map, shows_balance_body.
  - unfold Transfer_json. intros (o & Ho & [= <-])%bind_Some. show_object.
  - intros (l & Hl & [= <-])%bind_Some. destruct nextCursor; show_object; (eapply listing_mapM; [|exact Hl]); apply shows_transaction_body.
  - intros (l & Hl & [= <-])%bind_Some. show_object. eapply listing_mapM; [|exact Hl]. apply shows_deposit_body.
  - intros (l & Hl & [= <-])%bind_Some. show_object. eapply listing_mapM; [|exact Hl]. apply shows_unsupported_body.
  - intros [= <-]. unfold FeeEstimate_json. show_object.
  - apply shows_withdrawal_body.
Qed.
End bodies.

(** C26: answers. Every answer is JSON in which a client finds exactly the members that
    api/openapi.yaml names, each with the value the handler gave: each instant as the same instant,
    each string as it was up to invalid UTF-8, each list item by item, and an optional
    member exactly when there is a value for it; so are problem documents. An answer
    that shows an instant RFC 3339 cannot write has an empty body, since the handlers
    drop the error of [Encode]; no other answer has. *)
Theorem answers_read_back (uuid_String : bytes → string) (zone : Z → Z) (p : Payload) (problem : ProblemDetails) :
  let body := encode_payload uuid_String zone p in
  (∃ v, Decode (encode_problem problem) = Some v ∧ shows_problem problem v) ∧
  (body ≠ EmptyString ↔ Forall (writable_instant zone) (payload_times p)) ∧
  (body ≠ EmptyString → ∃ v, Decode body = Some v ∧ shows uuid_String p v).
Proof.
  cbv zeta. split; [|split].
  - eexists. split; [apply encode_problem_readable|apply shows_problem_body].
  - etransitivity; [apply encode_payload_nonempty|]. etransitivity; [apply payload_json_defined|].
    apply Forall_iff. intros [loc t]. apply time_value_writable.
  - intros [v Ev]%encode_payload_nonempty. exists (sanitize v). split; [by apply encode_payload_readable|by eapply shows_payload].
Qed.
