(* ===== verification/ApiTransfers.v ===== *)
(** * A transfer over HTTP

    POST /v1/transfers from the bytes of its body to the bytes of its answer: the
    JSON codec, the handler and the transfer repository put together. *)

From Stdlib Require Import ZArith Lia.
From stdpp Require Import prelude strings gmap.
From S2P Require Import Prelude GoStd Utf8 Json JsonStruct Rfc3339 Domain Store Effects Ledger Transfers.
From S2P Require Import Idempotency Handlers ApiJson.

(** The handler's answer: status, content type, and what a client reads of the body. *)
Definition reads_as (res : result (list WriterCall)) (ctype : string) (status : Z) (v : Json) : Prop :=
  ∃ body, res = Ok [SetContentType ctype; WriteHeader status; WriteBody body] ∧ Decode body = Some v.

(** The status and the title of each refusal. *)
Definition refusal_answer (why : sentinel) : Z * string :=
  match why with
  | ErrSelfTransfer => (400, "self-transfer-not-allowed"%string)
  | ErrNonPositiveAmount => (400, "invalid-amount"%string)
  | ErrCustomerNotFound => (404, "customer-not-found"%string)
  | ErrInsufficientBalance => (422, "insufficient-balance"%string)
  | ErrDuplicateTransferCause => (409, "duplicate-transfer-cause"%string)
  | _ => (500, "transfer-failed"%string)
  end.

Section transfers.
Context (uuid_Parse : string → option bytes) (uuid_String : bytes → string) (zone : Z → Z).
(** The library's text form of a 16-byte id is UTF-8, and reads back. *)
Hypothesis (uuid_text : ∀ id, String.length id = 16%nat →
  ValidString (uuid_String id) = true ∧ uuid_Parse (uuid_String id) = Some id).

Let create_transfer := customerServer_CreateTransfer uuid_Parse uuid_String encode_problem
  (encode_payload uuid_String zone) (decode_transfer uuid_Parse).

(** A request the API documents: two ids, a supported pair, an integer amount. *)
Record well_formed (b : TransferBody) (z : Z) : Prop := {
  wf_Source : String.length (tb_Source b) = 16%nat ∧ tb_Source b ≠ uuid_Nil;
  wf_Destination : String.length (tb_Destination b) = 16%nat ∧ tb_Destination b ≠ uuid_Nil;
  wf_Chain : known_chain (tb_Chain b);
  wf_Asset : known_asset (tb_Asset b);
  wf_Amount : tb_Amount b = big_String z ∧ numeric78 z;
}.

Lemma known_chain_valid ch : known_chain ch → ValidString ch = true.
Proof. unfold known_chain. intros H. repeat (apply elem_of_cons in H as [->|H]; [done|]). by apply elem_of_nil in H. Qed.
Lemma known_asset_valid a : known_asset a → ValidString a = true.
Proof. unfold known_asset. intros H. repeat (apply elem_of_cons in H as [->|H]; [done|]). by apply elem_of_nil in H. Qed.
Lemma big_String_valid z : ValidString (big_String z) = true.
Proof. apply ascii_valid, big_String_ascii. Qed.

(** The request the use case gets from the body. *)
Definition transfer_request (b : TransferBody) (z : Z) (key : string) : TransferRequest :=
  mkTransferRequest (uuid_String (tb_Source b)) (uuid_String (tb_Destination b)) (tb_Chain b) (tb_Asset b) (Some z) key.

(** A well-formed body reaches the use case as the transfer it spells. *)
Lemma create_transfer_decodes key r b z t c s :
  rq_Body r = Some (Marshal (TransferRequest_json uuid_String b) +:+ t) → delimiter (runes t) → well_formed b z →
  create_transfer key r c s =
    (let! res := try (CreateTransfer_Execute (transfer_request b z key)) in
     match res with
     | Err e => answer_error encode_problem r transfer_cases "transfer-failed" None e
     | Ok tr => transfer_answer uuid_Parse encode_problem (encode_payload uuid_String zone) r tr
     end) c s.
Proof.
  intros Hr Ht [[Hs Ns] [Hd Nd] Hc Ha [Hz _]]. unfold create_transfer, customerServer_CreateTransfer.
  rewrite Hr. cbn [from_option id]. rewrite (decode_transfer_Marshal uuid_Parse uuid_String uuid_text);
    [|rewrite Hz; apply big_String_valid|by apply known_asset_valid|by apply known_chain_valid|done..].
  rewrite (proj2 (String.eqb_neq _ _) Ns), (proj2 (String.eqb_neq _ _) Nd). cbn [orb].
  unfold TransferRequestChain_Valid, TransferRequestAsset_Valid. rewrite chain_Valid_spec, asset_Valid_spec.
  rewrite !bool_decide_eq_true_2 by done. cbn [negb orb].
  by rewrite Hz, big_SetString10_String.
Qed.

Definition problem_of (r : Request) (status : Z) (title detail : string) : Json :=
  ProblemDetails_json (mkProblem (problemTypeBase +:+ title) title status detail (rq_Path r)).

Lemma problem_answers r status title detail c s :
  ∃ res, problem encode_problem r status title detail c s = (res, s) ∧
    reads_as res "application/problem+json" status (sanitize (problem_of r status title detail)).
Proof. eexists. split; [reflexivity|]. eexists. split; [reflexivity|]. apply encode_problem_readable. Qed.

Lemma refusals req db why :
  transfer_refusal req db = Some why →
  why = ErrSelfTransfer ∨ why = ErrNonPositiveAmount ∨ why = ErrCustomerNotFound ∨
  why = ErrInsufficientBalance ∨ why = ErrDuplicateTransferCause.
Proof.
  unfold transfer_refusal. intros Hw. repeat case_decide; repeat case_match; simplify_eq; auto 6.
Qed.

Lemma refusal_cases req db why e :
  transfer_refusal req db = Some why → wrapped e = Some why →
  error_case transfer_cases e = Some (fst (refusal_answer why), snd (refusal_answer why), error_text e).
Proof.
  intros H%refusals He.
  unfold transfer_cases. cbn [error_case]. rewrite !(errors_Is_wrapped _ _ _ He).
  by destruct H as [-> |[-> |[-> |[-> | ->]]]].
Qed.

(** A refusal is answered with its own status and title. *)
Lemma refusal_answers req db r why e c s :
  transfer_refusal req db = Some why → wrapped e = Some why →
  ∃ res, answer_error encode_problem r transfer_cases "transfer-failed" None e c s = (res, s) ∧
    reads_as res "application/problem+json" (fst (refusal_answer why))
      (sanitize (problem_of r (fst (refusal_answer why)) (snd (refusal_answer why)) (error_text e))).
Proof. intros Hw He. unfold answer_error. rewrite (refusal_cases _ _ _ _ Hw He). apply problem_answers. Qed.

(** The JSON of a transfer's answer. *)
Definition transfer_json (b : TransferBody) (id : bytes) (z createdAt : Z) : Json :=
  JObject [("amount", JString (big_String z)); ("asset", JString (tb_Asset b)); ("chain", JString (tb_Chain b));
           ("createdAt", JString (Format 0 createdAt));
           ("destinationCustomerId", JString (uuid_String (tb_Destination b))); ("id", JString (uuid_String id));
           ("sourceCustomerId", JString (uuid_String (tb_Source b)))].

Lemma transfer_answer_reads r b z tr id c s :
  well_formed b z → String.length id = 16%nat → tf_ID tr = uuid_String id → representable 0 (tf_CreatedAt tr) →
  tr = mkTransfer (tf_ID tr) (uuid_String (tb_Source b)) (uuid_String (tb_Destination b)) (tb_Chain b) (tb_Asset b) z
         (tf_CreatedAt tr) →
  ∃ res, transfer_answer uuid_Parse encode_problem (encode_payload uuid_String zone) r tr c s = (res, s) ∧
    reads_as res "application/json" 201 (transfer_json b id z (tf_CreatedAt tr)).
Proof.
  intros [[Hs _] [Hd _] Hc Ha _] Hid Eid Hrep Etr. unfold transfer_answer.
  assert (tf_Source tr = uuid_String (tb_Source b) ∧ tf_Destination tr = uuid_String (tb_Destination b) ∧
    tf_Chain tr = tb_Chain b ∧ tf_Asset tr = tb_Asset b ∧ tf_Amount tr = z) as (E1 & E2 & E3 & E4 & E5)
    by (by rewrite Etr). clear Etr.
  pose proof (uuid_text _ Hs) as [Vs Ps]. pose proof (uuid_text _ Hd) as [Vd Pd]. pose proof (uuid_text _ Hid) as [Vi Pi].
  rewrite E1, E2, E3, E4, E5, Ps, Pd, Eid, Pi. eexists. split; [reflexivity|]. eexists. split; [reflexivity|].
  assert (payload_json uuid_String zone (TransferPayload id (tb_Source b) (tb_Destination b) (tb_Chain b) (tb_Asset b)
    (big_String z) (tf_CreatedAt tr)) = Some (transfer_json b id z (tf_CreatedAt tr))) as Hj.
  { cbn [payload_json]. unfold Transfer_json, time_value, time_json. cbn [offset_at]. unfold representable in Hrep.
    rewrite (proj2 (Z.leb_le _ _)), (proj2 (Z.leb_le _ _)) by lia. done. }
  rewrite (encode_payload_readable _ _ _ _ Hj). f_equal. apply sanitize_utf8.
  pose proof (big_String_valid z). pose proof (known_asset_valid _ Ha). pose proof (known_chain_valid _ Hc).
  pose proof (ascii_valid _ (time_text_ascii _ (Format_time_text 0 (tf_CreatedAt tr)))).
  unfold transfer_json. cbn [utf8 foldr fst snd]. split_and!; first [assumption|reflexivity|exact I].
Qed.

(** The handler in its transaction: what it answers, and what it leaves. *)
Lemma create_transfer_run key r b z t c s :
  rq_Body r = Some (Marshal (TransferRequest_json uuid_String b) +:+ t) → delimiter (runes t) → well_formed b z →
  ledger_ok (st_db s) → fault_free c → runs_in_tx c → st_aborted s = false → fresh_uuids transfer_steps c s →
  (∀ n, ∃ id, String.length id = 16%nat ∧ env_uuid (cx_env c) n = uuid_String id) →
  (∀ n, representable 0 (env_now (cx_env c) n)) →
  let req := transfer_request b z key in
  let '(res, s') := create_transfer key r c s in
  match transfer_refusal req (st_db s) with
  | Some why => st_db s' = st_db s ∧ ∃ detail,
      reads_as res "application/problem+json" (fst (refusal_answer why))
        (sanitize (problem_of r (fst (refusal_answer why)) (snd (refusal_answer why)) detail))
  | None => ∃ tr id, tf_ID tr = uuid_String id ∧ tf_Amount tr = z ∧ transferred req (st_db s) tr (st_db s') ∧
      st_aborted s' = false ∧ reads_as res "application/json" 201 (transfer_json b id z (tf_CreatedAt tr))
  end.
Proof.
  intros Hr Ht Hb Hok Hq Htx Ha Hf Hu Hn req.
  pose proof (CreateTransfer_Execute_run req c s Hok Hq Htx Ha Hf (proj2 (wf_Amount _ _ Hb))) as H.
  rewrite (create_transfer_decodes key r b z t) by done. fold req. unfold bind at 1, try.
  destruct (CreateTransfer_Execute req c s) as [res s']. destruct (transfer_refusal req (st_db s)) as [why|] eqn:Hw.
  - destruct H as (e & -> & He & Es). destruct (refusal_answers _ _ r why e c s' Hw He) as (res' & -> & Hans). eauto.
  - destruct H as (tr & n & m & -> & Ei & Et & Ez & Htr & Hab). destruct (Hu n) as (id & Hid & Eid).
    destruct (Htr Hok) as (_ & _ & _ & _ & _ & _ & _ & Etr).
    destruct (transfer_answer_reads r b z tr id c s') as (res' & -> & Hans); try done.
    + by rewrite Ei.
    + rewrite Et. apply Hn.
    + exists tr, id. rewrite Ei, Eid. done.
Qed.
End transfers.
