(* ===== verification/Router.v ===== *)
(** * The generated router

    src/internal/adapter/api/server.gen.go: the patterns [HandlerWithOptions]
    registers on [http.ServeMux], and the wrappers that bind each operation's path,
    query and header parameters before calling the handler. [ServeMux] is the
    standard library's, so its cleaning and matching of paths is modelled; the
    binding functions of oapi-codegen's runtime are the class [OapiRuntime]. *)

From Stdlib Require Import ZArith Lia Ascii.
From stdpp Require Import prelude strings.
From S2P Require Import Prelude GoStd Domain Store Effects Ports Idempotency Handlers.

(** ** [net/http.ServeMux] *)

(** [url.PathUnescape]. *)
Fixpoint PathUnescape (s : string) : option string :=
  match s with
  | EmptyString => Some EmptyString
  | String c s' =>
      if Ascii.eqb c "%" then
        match s' with
        | String a (String b t) =>
            match hex_value a, hex_value b, PathUnescape t with
            | Some h, Some l, Some r => Some (String (ascii_of_N (16 * h + l)) r)
            | _, _, _ => None
            end
        | _ => None
        end
      else option_map (String c) (PathUnescape s')
  end.

(** [path.Clean] of a rooted path, as its elements. *)
Fixpoint clean_elements (out l : list string) : list string :=
  match l with
  | [] => out
  | x :: l =>
      if String.eqb x EmptyString || String.eqb x "." then clean_elements out l
      else if String.eqb x ".." then clean_elements (removelast out) l
      else clean_elements (out ++ [x]) l
  end.

Definition ends_in_slash (s : string) : bool := String.eqb (default "/" (last (Split s "/"))) EmptyString.

Definition cleanPath (p : string) : string :=
  if String.eqb p EmptyString then "/" else
  let p := if HasPrefix p "/" then p else "/" +:+ p in
  let np := "/" +:+ Join (clean_elements [] (Split p "/")) "/" in
  if ends_in_slash p && negb (String.eqb np "/") then np +:+ "/" else np.

(** The segments the routing tree consumes: unescaped, "/" for a trailing slash. *)
Definition mux_segment (x : string) : string :=
  if String.eqb x EmptyString then "/" else default x (PathUnescape x).
Definition mux_segments (path : string) : list string := map mux_segment (tail (Split path "/")).

Inductive Seg := Lit (s : string) | Wild (name : string).

(** A pattern's segment: [{name}] or a literal. *)
Definition parse_segment (s : string) : Seg :=
  match s with
  | String "{"%char name => Wild (String.substring 0 (String.length name - 1) name)
  | _ => Lit s
  end.
Definition parse_pattern (p : string) : list Seg := map parse_segment (tail (Split p "/")).

Fixpoint match_segments (ps : list Seg) (ss : list string) : option (list (string * string)) :=
  match ps, ss with
  | [], [] => Some []
  | Lit l :: ps, s :: ss => if String.eqb s l then match_segments ps ss else None
  | Wild n :: ps, s :: ss =>
      if String.eqb s "/" then None else option_map (cons (n, s)) (match_segments ps ss)
  | _, _ => None
  end.

(** [r.PathValue]. *)
Definition PathValue (vals : list (string * string)) (name : string) : string :=
  default EmptyString (option_map snd (List.find (λ p, String.eqb (fst p) name) vals)).

(** A GET pattern also serves HEAD. *)
Definition method_matches (pattern method : string) : bool :=
  String.eqb method pattern || (String.eqb method "HEAD" && String.eqb pattern "GET").

Record Route := mkRoute {
  rt_method : string; rt_pattern : list Seg;
  rt_wrapper : (string → string) → Request → result Endpoint;
}.

Definition HandleFunc (method pattern : string) (wrapper : (string → string) → Request → result Endpoint)
    : Route := mkRoute method (parse_pattern pattern) wrapper.

Fixpoint find_route (routes : list Route) (method : string) (ss : list string)
    : option (Route * list (string * string)) :=
  match routes with
  | [] => None
  | rt :: routes =>
      match (if method_matches (rt_method rt) method then match_segments (rt_pattern rt) ss else None) with
      | Some vals => Some (rt, vals)
      | None => find_route routes method ss
      end
  end.

(** What [ServeMux] does with a request. *)
Inductive MuxResult :=
  | MuxHandler (rt : Route) (vals : list (string * string))
  | MuxRedirect (path : string) | MuxMethodNotAllowed | MuxNotFound | MuxBadRequest.

Definition findHandler (routes : list Route) (r : Request) : MuxResult :=
  let escapedPath := rq_EscapedPath r in
  if String.eqb escapedPath "*" then MuxBadRequest else
  let path := if String.eqb (rq_Method r) "CONNECT" then escapedPath else cleanPath escapedPath in
  if negb (String.eqb path escapedPath) then MuxRedirect path else
  match find_route routes (rq_Method r) (mux_segments path) with
  | Some (rt, vals) => MuxHandler rt vals
  | None =>
      if existsb (λ rt, bool_decide (is_Some (match_segments (rt_pattern rt) (mux_segments path)))) routes
      then MuxMethodNotAllowed else MuxNotFound
  end.

(** [http.Error]. *)
Definition http_Error (text : string) (code : Z) : list WriterCall :=
  [SetContentType "text/plain; charset=utf-8"; WriteHeader code; WriteBody (text +:+ newline)].

(** ** Plain paths *)

(** A segment that needs no escaping and no cleaning. *)
Definition plain (s : string) : bool :=
  negb (String.eqb s EmptyString) && negb (String.eqb s ".") && negb (String.eqb s "..") &&
  negb (contains_byte "/" s) && negb (contains_byte "%" s).
Definition plain_path (segments : list string) : string := "/" +:+ Join segments "/".

Lemma Split_Join l sep :
  l ≠ [] → Forall (λ s, contains_byte sep s = false) l → Split (Join l sep) sep = l.
Proof.
  intros Hne Hl. induction Hl as [|x l Hx Hl IH]; [done|].
  destruct l as [|y l]; [by apply Split_single|].
  change (Join (x :: y :: l) sep) with (x +:+ String sep (Join (y :: l) sep)).
  rewrite Split_append by done. by rewrite IH.
Qed.
Lemma PathUnescape_plain s : contains_byte "%" s = false → PathUnescape s = Some s.
Proof.
  induction s as [|c s IH]; simpl; [done|]. intros [Hc Hs]%orb_false_iff. by rewrite Hc, IH.
Qed.

Lemma plain_spec s :
  plain s = true → s ≠ EmptyString ∧ s ≠ "." ∧ s ≠ ".." ∧
    contains_byte "/" s = false ∧ contains_byte "%" s = false.
Proof.
  unfold plain. rewrite !andb_true_iff, !negb_true_iff, !String.eqb_neq. naive_solver.
Qed.

Lemma clean_elements_plain out l : Forall (λ s, plain s = true) l → clean_elements out l = out ++ l.
Proof.
  intros Hl. revert out. induction Hl as [|x l Hx Hl IH]; intros out; simpl; [by rewrite app_nil_r|].
  apply plain_spec in Hx as (H1 & H2 & H3 & _).
  rewrite (proj2 (String.eqb_neq _ _) H1), (proj2 (String.eqb_neq _ _) H2), (proj2 (String.eqb_neq _ _) H3).
  simpl. rewrite IH. by rewrite <-app_assoc.
Qed.

Lemma plain_path_Split l :
  l ≠ [] → Forall (λ s, plain s = true) l → Split (plain_path l) "/" = EmptyString :: l.
Proof.
  intros Hne Hl. change (Split (plain_path l) "/") with (EmptyString :: Split (Join l "/") "/").
  rewrite Split_Join; [done|done|]. eapply Forall_impl; [exact Hl|]. intros s Hs. by apply plain_spec in Hs as (_ & _ & _ & ? & _).
Qed.

(** The path written for plain segments is clean, and is split back into them. *)
Lemma plain_path_roundtrip l :
  l ≠ [] → Forall (λ s, plain s = true) l →
  cleanPath (plain_path l) = plain_path l ∧ mux_segments (plain_path l) = l.
Proof.
  intros Hne Hl. pose proof (plain_path_Split l Hne Hl) as HS. split.
  - unfold cleanPath. change (String.eqb (plain_path l) EmptyString) with false.
    assert (HasPrefix (plain_path l) "/" = true) as -> by apply HasPrefix_app. cbv iota.
    unfold ends_in_slash. rewrite HS. change (clean_elements [] (EmptyString :: l)) with (clean_elements [] l).
    rewrite clean_elements_plain by done.
    assert (last (EmptyString :: l) = last l) as -> by (by destruct l).
    destruct (last l) as [x|] eqn:E; [|by apply last_None in E].
    assert (x ∈ l) as Hx by (apply last_Some in E as [l' ->]; set_solver).
    rewrite Forall_forall in Hl. apply Hl, plain_spec in Hx as (Hx & _). simpl.
    by rewrite (proj2 (String.eqb_neq _ _) Hx).
  - unfold mux_segments. rewrite HS. simpl. rewrite <-(map_id l) at 2. apply map_ext_Forall.
    eapply Forall_impl; [exact Hl|]. intros s (H1 & _ & _ & _ & H5)%plain_spec. unfold mux_segment.
    rewrite (proj2 (String.eqb_neq _ _) H1). by rewrite PathUnescape_plain.
Qed.

(** ** Parameter binding (oapi-codegen's runtime) *)

(** [BindQueryParameterWithOptions]: the value, if any; a missing required parameter
    ([*RequiredParameterError]); or another error. *)
Inductive QueryBinding (A : Type) :=
  | QueryBound (v : option A) | QueryRequired | QueryInvalid (e : error).
Arguments QueryBound {_} _.
Arguments QueryRequired {_}.
Arguments QueryInvalid {_} _.

Class OapiRuntime := {
  BindPathUUID : string → result bytes;
  BindHeaderString : string → result string;
  BindQueryString : bool → string → list (string * string) → QueryBinding string;
  BindQueryInteger : bool → string → list (string * string) → QueryBinding Z;
}.

(** The errors the wrappers hand to [ErrorHandlerFunc], by their [Error()]. *)
Definition RequiredParamError (name : string) : error :=
  ErrText ("Query argument " +:+ name +:+ " is required, but not found").
Definition RequiredHeaderError (name : string) : error :=
  ErrText ("Header parameter " +:+ name +:+ " is required, but not found").
Definition InvalidParamFormatError (name : string) (e : error) : error :=
  ErrWrap ("Invalid format for parameter " +:+ name +:+ ": ") e EmptyString.
Definition TooManyValuesForParamError (name : string) (count : nat) : error :=
  ErrText ("Expected one value for " +:+ name +:+ ", got " +:+ big_String (Z.of_nat count)).

Section router.
Context `{RT : OapiRuntime} (uuid_String : bytes → string) (encode_problem : ProblemDetails → bytes).
(** How net/http answers a path that is not clean: with a 3xx to the clean one. *)
Context (redirect_to : Request → string → list WriterCall).

Definition bind_id (pathValue : string → string) : result string :=
  match BindPathUUID (pathValue "id") with
  | Ok id => Ok (uuid_String id)
  | Err e => Err (InvalidParamFormatError "id" e)
  end.

Definition bind_IdempotencyKey (r : Request) : result string :=
  match rq_IdempotencyKeys r with
  | [] => Err (RequiredHeaderError "Idempotency-Key")
  | [v] => match BindHeaderString v with
           | Ok key => Ok key
           | Err e => Err (InvalidParamFormatError "Idempotency-Key" e)
           end
  | vs => Err (TooManyValuesForParamError "Idempotency-Key" (length vs))
  end.

Definition bind_query {A} (name : string) (b : QueryBinding A) : result (option A) :=
  match b with
  | QueryBound v => Ok v
  | QueryRequired => Err (RequiredParamError name)
  | QueryInvalid e => Err (InvalidParamFormatError name e)
  end.

Definition wrapper_CreateCustomer (pathValue : string → string) (r : Request) : result Endpoint :=
  bindE (bind_IdempotencyKey r) (λ _, Ok EpCreateCustomer).

Definition wrapper_GetCustomer (pathValue : string → string) (r : Request) : result Endpoint :=
  bindE (bind_id pathValue) (λ id, Ok (EpGetCustomer id)).

Definition wrapper_GetCustomerBalances (pathValue : string → string) (r : Request) : result Endpoint :=
  bindE (bind_id pathValue) (λ id, Ok (EpGetCustomerBalances id)).

Definition wrapper_GetCustomerDeposits (pathValue : string → string) (r : Request) : result Endpoint :=
  bindE (bind_id pathValue) (λ id, Ok (EpGetDeposits id)).

Definition wrapper_ListCustomerTransactions (pathValue : string → string) (r : Request) : result Endpoint :=
  bindE (bind_id pathValue) (λ id,
  bindE (bind_query "cursor" (BindQueryString false "cursor" (rq_Query r))) (λ cursor,
  bindE (bind_query "pageSize" (BindQueryInteger false "pageSize" (rq_Query r))) (λ pageSize,
  Ok (EpListTransactions id pageSize cursor)))).

Definition wrapper_CreateTransfer (pathValue : string → string) (r : Request) : result Endpoint :=
  bindE (bind_IdempotencyKey r) (λ key, Ok (EpCreateTransfer key)).

Definition wrapper_GetUnsupportedTokenObservations (pathValue : string → string) (r : Request)
    : result Endpoint := Ok EpGetUnsupported.

Definition wrapper_CreateWithdrawal (pathValue : string → string) (r : Request) : result Endpoint :=
  bindE (bind_IdempotencyKey r) (λ key, Ok (EpCreateWithdrawal key)).

(** A required parameter is a plain string, "" when nothing was bound. *)
Definition wrapper_GetWithdrawalFeeEstimate (pathValue : string → string) (r : Request) : result Endpoint :=
  bindE (bind_query "chain" (BindQueryString true "chain" (rq_Query r))) (λ chain,
  bindE (bind_query "asset" (BindQueryString true "asset" (rq_Query r))) (λ asset,
  bindE (bind_query "amount" (BindQueryString true "amount" (rq_Query r))) (λ amount,
  Ok (EpGetFeeEstimate (default EmptyString chain) (default EmptyString asset)
        (default EmptyString amount))))).

Definition wrapper_ApproveWithdrawal (pathValue : string → string) (r : Request) : result Endpoint :=
  bindE (bind_id pathValue) (λ id,
  bindE (bind_IdempotencyKey r) (λ _, Ok (EpApproveWithdrawal id))).

(** ** [HandlerWithOptions] *)

Definition HandlerWithOptions (BaseURL : string) : list Route :=
  [HandleFunc "POST" (BaseURL +:+ "/customers") wrapper_CreateCustomer;
   HandleFunc "GET" (BaseURL +:+ "/customers/{id}") wrapper_GetCustomer;
   HandleFunc "GET" (BaseURL +:+ "/customers/{id}/balances") wrapper_GetCustomerBalances;
   HandleFunc "GET" (BaseURL +:+ "/customers/{id}/deposits") wrapper_GetCustomerDeposits;
   HandleFunc "GET" (BaseURL +:+ "/customers/{id}/transactions") wrapper_ListCustomerTransactions;
   HandleFunc "POST" (BaseURL +:+ "/transfers") wrapper_CreateTransfer;
   HandleFunc "GET" (BaseURL +:+ "/unsupported-token-observations") wrapper_GetUnsupportedTokenObservations;
   HandleFunc "POST" (BaseURL +:+ "/withdrawals") wrapper_CreateWithdrawal;
   HandleFunc "GET" (BaseURL +:+ "/withdrawals/fee-estimate") wrapper_GetWithdrawalFeeEstimate;
   HandleFunc "POST" (BaseURL +:+ "/withdrawals/{id}/approve") wrapper_ApproveWithdrawal].

(** [ErrorHandlerFunc] of main.go. *)
Definition ErrorHandlerFunc (r : Request) (e : error) : list WriterCall :=
  problem_calls encode_problem 400 "invalid-request" (error_text e) (rq_Path r).

Definition mux_route (r : Request) : Endpoint :=
  match findHandler (HandlerWithOptions "/v1") r with
  | MuxHandler rt vals =>
      match rt_wrapper rt (PathValue vals) r with
      | Ok ep => ep
      | Err e => EpNone (ErrorHandlerFunc r e)
      end
  | MuxRedirect path => EpNone (redirect_to r path)
  | MuxMethodNotAllowed => EpNone (http_Error "Method Not Allowed" 405)
  | MuxNotFound => EpNone (http_Error "404 page not found" 404)
  | MuxBadRequest => EpNone [WriteHeader 400]
  end.

(** ** The API's description *)

(** The segments of a request's clean path. *)
Definition at_path (r : Request) (segments : list string) : Prop :=
  cleanPath (rq_EscapedPath r) = rq_EscapedPath r ∧ mux_segments (rq_EscapedPath r) = segments.
Definition is_read (r : Request) : Prop := rq_Method r = "GET" ∨ rq_Method r = "HEAD".
Definition posts_to (r : Request) (segments : list string) : Prop :=
  rq_Method r = "POST" ∧ at_path r segments.
Definition reads_from (r : Request) (segments : list string) : Prop := is_read r ∧ at_path r segments.
Definition names_id (segment id : string) : Prop :=
  segment ≠ "/" ∧ ∃ b, BindPathUUID segment = Ok b ∧ id = uuid_String b.
(** Exactly one Idempotency-Key header. *)
Definition keyed (r : Request) (key : string) : Prop :=
  ∃ v, rq_IdempotencyKeys r = [v] ∧ BindHeaderString v = Ok key.
Definition query_string (r : Request) (required : bool) (name : string) (v : option string) : Prop :=
  BindQueryString required name (rq_Query r) = QueryBound v.

(** The operations of the OpenAPI document, and the requests that are one. *)
Inductive operation (r : Request) : Endpoint → Prop :=
  | op_CreateCustomer key : posts_to r ["v1"; "customers"] → keyed r key → operation r EpCreateCustomer
  | op_GetCustomer s id : reads_from r ["v1"; "customers"; s] → names_id s id → operation r (EpGetCustomer id)
  | op_GetCustomerBalances s id :
      reads_from r ["v1"; "customers"; s; "balances"] → names_id s id → operation r (EpGetCustomerBalances id)
  | op_GetCustomerDeposits s id :
      reads_from r ["v1"; "customers"; s; "deposits"] → names_id s id → operation r (EpGetDeposits id)
  | op_ListCustomerTransactions s id cursor pageSize :
      reads_from r ["v1"; "customers"; s; "transactions"] → names_id s id →
      query_string r false "cursor" cursor →
      BindQueryInteger false "pageSize" (rq_Query r) = QueryBound pageSize →
      operation r (EpListTransactions id pageSize cursor)
  | op_CreateTransfer key : posts_to r ["v1"; "transfers"] → keyed r key → operation r (EpCreateTransfer key)
  | op_GetUnsupportedTokenObservations :
      reads_from r ["v1"; "unsupported-token-observations"] → operation r EpGetUnsupported
  | op_CreateWithdrawal key :
      posts_to r ["v1"; "withdrawals"] → keyed r key → operation r (EpCreateWithdrawal key)
  | op_GetWithdrawalFeeEstimate chain asset amount :
      reads_from r ["v1"; "withdrawals"; "fee-estimate"] →
      query_string r true "chain" chain → query_string r true "asset" asset →
      query_string r true "amount" amount →
      operation r (EpGetFeeEstimate (default EmptyString chain) (default EmptyString asset)
                     (default EmptyString amount))
  | op_ApproveWithdrawal s id key :
      posts_to r ["v1"; "withdrawals"; s; "approve"] → names_id s id → keyed r key →
      operation r (EpApproveWithdrawal id).

(** ** The router implements it *)

Definition is_operation (ep : Endpoint) : Prop := match ep with EpNone _ => False | _ => True end.
#[export] Instance is_operation_dec ep : Decision (is_operation ep).
Proof. destruct ep; simpl; apply _. Defined.

Lemma find_route_Some routes m ss rt vals :
  find_route routes m ss = Some (rt, vals) →
  rt ∈ routes ∧ method_matches (rt_method rt) m = true ∧ match_segments (rt_pattern rt) ss = Some vals.
Proof.
  induction routes as [|rt' routes IH]; simpl; [done|]. intros H.
  destruct (method_matches (rt_method rt') m) eqn:Hm.
  - destruct (match_segments (rt_pattern rt') ss) as [v|] eqn:Hs.
    + simplify_eq. split_and!; [by left|done..].
    + apply IH in H as (? & ? & ?). split_and!; [by right|done..].
  - apply IH in H as (? & ? & ?). split_and!; [by right|done..].
Qed.

Lemma match_segments_spec ps ss vals :
  match_segments ps ss = Some vals →
  Forall2 (λ p s, match p with Lit l => s = l | Wild _ => s ≠ "/" end) ps ss ∧
  vals = omap (λ ps, match fst ps with Wild n => Some (n, snd ps) | Lit _ => None end) (zip ps ss).
Proof.
  revert ss vals. induction ps as [|[l|n] ps IH]; intros [|s ss] vals H; simplify_eq/=; try done.
  - destruct (String.eqb_spec s l); [|done]. apply IH in H as [? ->]. by split; [constructor|].
  - destruct (String.eqb_spec s "/"); [done|]. destruct (match_segments ps ss) as [v|] eqn:E; [|done].
    simplify_eq/=. apply IH in E as [? ->]. by split; [constructor|].
Qed.

Lemma method_matches_GET m : method_matches "GET" m = true ↔ m = "GET" ∨ m = "HEAD".
Proof.
  unfold method_matches. rewrite orb_true_iff, andb_true_iff, !String.eqb_eq. naive_solver.
Qed.
Lemma method_matches_POST m : method_matches "POST" m = true ↔ m = "POST".
Proof.
  unfold method_matches. rewrite orb_true_iff, andb_true_iff, !String.eqb_eq. naive_solver.
Qed.

Lemma no_CONNECT routes m ss p :
  Forall (λ rt, rt_method rt ∈ ["GET"; "POST"]) routes → m = "CONNECT" → find_route routes m ss ≠ Some p.
Proof.
  destruct p as [rt vals]. intros Hr -> (Hin & Hm & _)%find_route_Some. rewrite Forall_forall in Hr.
  apply Hr in Hin. revert Hm. apply elem_of_cons in Hin as [->| ->%list_elem_of_singleton]; done.
Qed.

(** A handler is reached at a clean path only. *)
Lemma findHandler_handler routes r rt vals :
  Forall (λ rt, rt_method rt ∈ ["GET"; "POST"]) routes →
  findHandler routes r = MuxHandler rt vals ↔
  cleanPath (rq_EscapedPath r) = rq_EscapedPath r ∧
  find_route routes (rq_Method r) (mux_segments (rq_EscapedPath r)) = Some (rt, vals).
Proof.
  intros Hr. unfold findHandler. destruct (String.eqb_spec (rq_EscapedPath r) "*") as [->|Hstar].
  { split; [done|]. intros [H _]. by vm_compute in H. }
  destruct (String.eqb_spec (rq_Method r) "CONNECT") as [Hc|_].
  - rewrite String.eqb_refl. simpl. pose proof (no_CONNECT routes (rq_Method r)
      (mux_segments (rq_EscapedPath r)) (rt, vals) Hr Hc) as Hn.
    split; [|naive_solver]. destruct (find_route _ _ _) as [[rt' v]|] eqn:E; [|by case_match].
    by destruct (no_CONNECT _ _ _ _ Hr Hc E).
  - destruct (String.eqb_spec (cleanPath (rq_EscapedPath r)) (rq_EscapedPath r)) as [->|Hne]; simpl.
    + destruct (find_route _ _ _) as [[rt' v]|]; [naive_solver|]. split; [by case_match|naive_solver].
    + split; [done|naive_solver].
Qed.

Lemma routes_methods base : Forall (λ rt, rt_method rt ∈ ["GET"; "POST"]) (HandlerWithOptions base).
Proof. repeat constructor; set_solver. Qed.

Lemma mux_route_handler r ep :
  is_operation ep →
  mux_route r = ep ↔
  ∃ rt vals, cleanPath (rq_EscapedPath r) = rq_EscapedPath r ∧
    find_route (HandlerWithOptions "/v1") (rq_Method r) (mux_segments (rq_EscapedPath r)) = Some (rt, vals) ∧
    rt_wrapper rt (PathValue vals) r = Ok ep.
Proof.
  intros Hep. unfold mux_route. split.
  - intros H. destruct (findHandler _ _) as [rt vals| | | |] eqn:E; [|by subst..].
    apply findHandler_handler in E as [Hc Hf]; [|apply routes_methods]. exists rt, vals.
    split_and!; [done..|]. destruct (rt_wrapper _ _ _); by subst.
  - intros (rt & vals & Hc & Hf & Hw).
    assert (findHandler (HandlerWithOptions "/v1") r = MuxHandler rt vals) as ->
      by (apply findHandler_handler; [apply routes_methods|done]). by rewrite Hw.
Qed.

(** ** Bindings *)

Lemma bind_id_Ok vals s id :
  PathValue vals "id" = s → s ≠ "/" → bind_id (PathValue vals) = Ok id ↔ names_id s id.
Proof.
  intros E Hs. unfold bind_id, names_id. rewrite E. destruct (BindPathUUID s) as [b|e].
  - split; [intros [= <-]; eauto|by intros (_ & b' & [= ->] & ->)].
  - split; [done|by intros (_ & b' & ? & _)].
Qed.
Lemma bind_IdempotencyKey_Ok r key : bind_IdempotencyKey r = Ok key ↔ keyed r key.
Proof.
  unfold bind_IdempotencyKey, keyed. split.
  - destruct (rq_IdempotencyKeys r) as [|v [|v' vs]]; [done| |done].
    destruct (BindHeaderString v) eqn:E; [|done]. intros [= ->]. eauto.
  - by intros (v & -> & ->).
Qed.
Lemma bind_query_Ok {A} name (b : QueryBinding A) v : bind_query name b = Ok v ↔ b = QueryBound v.
Proof. destruct b; simpl; split; congruence. Qed.
(** Opens one route: its method, its segments and its bound parameters. *)
Ltac open_route Hm Hs Hw :=
  cbn [rt_method rt_pattern rt_wrapper HandleFunc] in Hm, Hs, Hw;
  match type of Hs with Forall2 _ (parse_pattern ?p) _ =>
    let v := eval vm_compute in (parse_pattern p) in change (parse_pattern p) with v in Hs, Hw end;
  repeat (apply Forall2_cons_inv_l in Hs; destruct Hs as (? & ? & ? & Hs & ->));
  apply Forall2_nil_inv_l in Hs; subst; cbn [zip zip_with omap list_omap fst snd] in Hw;
  unfold wrapper_CreateCustomer, wrapper_GetCustomer, wrapper_GetCustomerBalances,
    wrapper_GetCustomerDeposits, wrapper_ListCustomerTransactions, wrapper_CreateTransfer,
    wrapper_GetUnsupportedTokenObservations, wrapper_CreateWithdrawal,
    wrapper_GetWithdrawalFeeEstimate, wrapper_ApproveWithdrawal in Hw;
  repeat (apply bindE_Ok in Hw; destruct Hw as (? & ? & Hw)); injection Hw as <-;
  repeat match goal with
  | H : bind_IdempotencyKey _ = Ok _ |- _ => apply bind_IdempotencyKey_Ok in H
  | H : bind_query _ _ = Ok _ |- _ => apply bind_query_Ok in H
  | H : bind_id _ = Ok _ |- _ => eapply bind_id_Ok in H; [|reflexivity|assumption]
  end;
  first [apply method_matches_GET in Hm|apply method_matches_POST in Hm].

Lemma mux_route_operation r ep : is_operation ep → mux_route r = ep → operation r ep.
Proof.
  intros Hep (rt & vals & Hc & Hf & Hw)%mux_route_handler; [|done].
  apply find_route_Some in Hf as (Hin & Hm & Hs).
  apply match_segments_spec in Hs as [Hs ->].
  assert (at_path r (mux_segments (rq_EscapedPath r))) as Hp by done.
  revert Hs Hp Hw. generalize (mux_segments (rq_EscapedPath r)). intros ss Hs Hp Hw.
  unfold HandlerWithOptions in Hin. cbn [String.app] in Hin.
  repeat (apply elem_of_cons in Hin as [->|Hin]); [..|by apply not_elem_of_nil in Hin];
    open_route Hm Hs Hw; econstructor; try done; by eapply (conj Hm).
Qed.

(** The patterns, parsed. *)
Definition v1_routes : list Route :=
  let customer l := [Lit "v1"; Lit "customers"; Wild "id"] ++ l in
  [mkRoute "POST" [Lit "v1"; Lit "customers"] wrapper_CreateCustomer;
   mkRoute "GET" (customer []) wrapper_GetCustomer;
   mkRoute "GET" (customer [Lit "balances"]) wrapper_GetCustomerBalances;
   mkRoute "GET" (customer [Lit "deposits"]) wrapper_GetCustomerDeposits;
   mkRoute "GET" (customer [Lit "transactions"]) wrapper_ListCustomerTransactions;
   mkRoute "POST" [Lit "v1"; Lit "transfers"] wrapper_CreateTransfer;
   mkRoute "GET" [Lit "v1"; Lit "unsupported-token-observations"] wrapper_GetUnsupportedTokenObservations;
   mkRoute "POST" [Lit "v1"; Lit "withdrawals"] wrapper_CreateWithdrawal;
   mkRoute "GET" [Lit "v1"; Lit "withdrawals"; Lit "fee-estimate"] wrapper_GetWithdrawalFeeEstimate;
   mkRoute "POST" [Lit "v1"; Lit "withdrawals"; Wild "id"; Lit "approve"] wrapper_ApproveWithdrawal].

Lemma v1_routes_eq : HandlerWithOptions "/v1" = v1_routes.
Proof. reflexivity. Qed.

Lemma operation_mux_route r ep : operation r ep → mux_route r = ep.
Proof.
  intros Hop. apply mux_route_handler; [by destruct Hop|]. rewrite v1_routes_eq.
  destruct Hop; match goal with H : posts_to _ _ |- _ => destruct H as [Hm [Hc Hs]]
                           | H : reads_from _ _ |- _ => destruct H as [[Hm|Hm] [Hc Hs]] end;
    try match goal with H : names_id ?s _ |- _ =>
      pose proof (proj1 H) as Hne; apply String.eqb_neq in Hne end;
    eexists _, _; (split_and!; [exact Hc|rewrite Hm, Hs; cbn; rewrite ?Hne; reflexivity|]); cbn;
    unfold wrapper_CreateCustomer, wrapper_GetCustomer, wrapper_GetCustomerBalances,
      wrapper_GetCustomerDeposits, wrapper_ListCustomerTransactions, wrapper_CreateTransfer,
      wrapper_GetUnsupportedTokenObservations, wrapper_CreateWithdrawal,
      wrapper_GetWithdrawalFeeEstimate, wrapper_ApproveWithdrawal;
    repeat match goal with
    | H : keyed _ _ |- _ => apply bind_IdempotencyKey_Ok in H; rewrite H; clear H
    | H : names_id ?s _ |- _ =>
        apply (bind_id_Ok [("id", s)] s) in H; [|done|by apply String.eqb_neq]; rewrite H; clear H
    | H : query_string _ _ _ _ |- _ => unfold query_string in H; rewrite H; clear H
    | H : _ = QueryBound _ |- _ => rewrite H; clear H
    end; reflexivity.
Qed.

Lemma wrapper_operation rt vals m ss r ep :
  find_route (HandlerWithOptions "/v1") m ss = Some (rt, vals) →
  rt_wrapper rt (PathValue vals) r = Ok ep → is_operation ep.
Proof.
  intros (Hin & _ & _)%find_route_Some Hw. rewrite v1_routes_eq in Hin. unfold v1_routes in Hin.
  repeat (apply elem_of_cons in Hin as [->|Hin]); [..|by apply not_elem_of_nil in Hin];
    cbn in Hw; repeat (apply bindE_Ok in Hw; destruct Hw as (? & _ & Hw)); by injection Hw as <-.
Qed.

Definition status_of (calls : list WriterCall) : Z := sr_Status (recorder_result (recorded_calls calls)).

(** What a request that is no operation is answered. *)
Lemma mux_route_refused r calls :
  (∀ p, 300 <= status_of (redirect_to r p) < 400) → mux_route r = EpNone calls →
  status_of calls ∈ [400; 404; 405] ∨ 300 <= status_of calls < 400.
Proof.
  intros Hred H. unfold mux_route in H. destruct (findHandler _ _) as [rt vals|p| | |] eqn:F.
  - destruct (rt_wrapper rt (PathValue vals) r) as [ep|e] eqn:E; [|injection H as <-; left; by left].
    subst ep. apply findHandler_handler in F as [_ F]; [|apply routes_methods].
    by apply (wrapper_operation _ _ _ _ _ _ F) in E.
  - injection H as <-. right. apply Hred.
  - injection H as <-. left. right. right. by left.
  - injection H as <-. left. right. by left.
  - injection H as <-. left. by left.
Qed.

(** C24: routing. A request reaches an operation of the API, with the parameters bound,
    exactly when its method, its clean path and its parameters are those the API
    describes for it; every other request is answered 400, 404 or 405, or redirected,
    without reaching any. *)
Theorem routes_exactly r :
  (∀ p, 300 <= status_of (redirect_to r p) < 400) →
  (∀ ep, is_operation ep → mux_route r = ep ↔ operation r ep) ∧
  (∀ ep ep', operation r ep → operation r ep' → ep = ep') ∧
  (∀ calls, mux_route r = EpNone calls →
     (∀ ep, ¬ operation r ep) ∧
     (status_of calls ∈ [400; 404; 405] ∨ 300 <= status_of calls < 400)).
Proof.
  intros Hred. assert (∀ ep, operation r ep → is_operation ep) as Hop by (by destruct 1).
  split_and!.
  - intros ep Hep. split; [by apply mux_route_operation|apply operation_mux_route].
  - intros ep ep' <-%operation_mux_route <-%operation_mux_route. done.
  - intros calls H. split.
    { intros ep Hep. pose proof (Hop _ Hep). apply operation_mux_route in Hep. rewrite H in Hep. by subst. }
    by apply mux_route_refused in H.
Qed.
End router.
