(* ===== verification/Watcher.v ===== *)
(** * The watcher's poll cycle

    src/internal/core/track_deposits.go: [Execute] and [checkForReorgs]. Block
    numbers are [uint64]; the additions the code does on them wrap at 2^64. The
    call to [checkForReorgs] is commented out in [Execute], so the model's
    [Execute] does not make it either; the function itself is modelled as written. *)

From Stdlib Require Import ZArith Lia.
From stdpp Require Import prelude strings sorting gmap.
From S2P Require Import Prelude GoStd Domain Store Effects Ledger Withdrawals WithdrawalSpecs.
From S2P Require Import WithdrawalInvariant Ports Deposits DepositSpecs Customers Solvency.

Definition maxBlocksPerScan : Z := 2000.

Record ExecuteResult := mkExecuteResult {
  er_Latest : Z; er_Safe : Z; er_Finalized : Z;
  er_ScannedFrom : Z; er_ScannedTo : Z;
  er_DepositsObserved : nat; er_UnsupportedObserved : nat;
  er_PromotedToSafe : nat; er_PromotedToFinalized : nat; er_Credited : nat;
}.

(** The inclusive range a poll scans, when there is anything new. *)
Definition scan_range (observedCursor latest : Z) : option (Z * Z) :=
  let scanFrom := u64 (observedCursor + 1) in
  if scanFrom <=? latest
  then Some (scanFrom, if maxBlocksPerScan <? u64 (latest - scanFrom + 1)
                       then u64 (scanFrom + maxBlocksPerScan - 1) else latest)
  else None.

Definition observed_deposit (id : string) (now : Z) (t : ObservedTransfer) : Deposit :=
  mkDeposit id (ot_Chain t) (ot_Asset t) (ot_Address t) (ot_TxHash t) (ot_LogIndex t)
    (ot_Amount t) (ot_BlockNumber t) (ot_BlockHash t) DepositObserved now now.

Definition stamped (id : string) (now : Z) (u : UnsupportedTokenObservation)
    : UnsupportedTokenObservation :=
  mkUnsupported id (un_Chain u) (un_Address u) (un_ContractAddress u) (un_TxHash u) (un_LogIndex u)
    (un_Amount u) (un_BlockNumber u) now.

Section watcher.
Context `{Scan : ChainScanner} `{DepositAddressLister} `{TokenRegistryLister}.
Context `{DepositRepository} `{UnsupportedTokenRepository}.

(** The two recording loops, counting the rows inserted. *)
Fixpoint record_transfers (now : Z) (ts : list ObservedTransfer) : M nat :=
  match ts with
  | [] => ret 0%nat
  | t :: ts =>
      let! id := newUUID "generate deposit id" in
      let! inserted := wrapping "record observed deposit"
        (RecordObserved (observed_deposit id now t)) in
      let! n := record_transfers now ts in
      ret (if inserted then S n else n)
  end.

Fixpoint record_unsupported (now : Z) (us : list UnsupportedTokenObservation) : M nat :=
  match us with
  | [] => ret 0%nat
  | u :: us =>
      let! id := newUUID "generate unsupported token observation id" in
      let! inserted := wrapping "record unsupported token observation"
        (RecordObservation (stamped id now u)) in
      let! n := record_unsupported now us in
      ret (if inserted then S n else n)
  end.

(** The scan phase, inside the transaction. *)
Definition scan_phase (chain : Chain) (addresses : list string) (registry : gmap string Asset)
    (observedCursor latest : Z) : M (Z * Z * nat * nat) :=
  match scan_range observedCursor latest with
  | None => ret (0, 0, 0%nat, 0%nat)
  | Some (scanFrom, scanTo) =>
      let! (transfers, unsupported) := wrapping "scan deposits"
        (ScanDeposits addresses registry scanFrom scanTo) in
      let! now := now in
      let! observed := record_transfers now transfers in
      let! unsupportedObserved := record_unsupported now unsupported in
      do! wrapping "advance observed cursor" (SetCursor chain CursorTierObserved scanTo) in
      ret (scanFrom, scanTo, observed, unsupportedObserved)
  end.

Definition TrackDeposits_tx (chain : Chain) (addresses : list string)
    (registry : gmap string Asset) (latest safe finalized : Z) : M ExecuteResult :=
  let! observedCursor := wrapping "read observed cursor" (Cursor chain CursorTierObserved) in
  if latest <? observedCursor
  then throw (ErrText ("observed cursor is ahead of chain " +:+ chain +:+ "'s reported head"))
  else
  let! (scanFrom, scanTo, observed, unsupportedObserved) :=
    scan_phase chain addresses registry observedCursor latest in
  let! promotedToSafe := wrapping "promote deposits to safe" (PromoteToSafe chain safe) in
  do! wrapping "advance safe cursor" (SetCursor chain CursorTierSafe safe) in
  let! promotedToFinalized := wrapping "promote deposits to finalized"
    (PromoteToFinalized chain finalized) in
  do! wrapping "advance finalized cursor" (SetCursor chain CursorTierFinalized finalized) in
  let! credited := wrapping "credit finalized deposits" (CreditFinalizedDeposits chain) in
  ret (mkExecuteResult latest safe finalized scanFrom scanTo observed unsupportedObserved
         promotedToSafe promotedToFinalized credited).

Definition TrackDeposits_Execute (chain : Chain) : M ExecuteResult :=
  let! addresses := wrapping "list known deposit addresses" ListDepositAddresses in
  let! tokenRegistry := wrapping "list token registry" (ListTokenRegistry chain) in
  let! (latest, safe, finalized) := wrapping "read chain head/safe tags" Head in
  if negb ((finalized <=? safe) && (safe <=? latest))
  then throw (ErrText ("chain " +:+ chain +:+ " reported inconsistent tags"))
  else
  in_tx "begin transaction" "commit transaction"
    (TrackDeposits_tx chain addresses tokenRegistry latest safe finalized).

(** The hash cache of one check: [None] for a height the chain no longer has. *)
Fixpoint check_pending (cache : gmap Z (option string)) (pending : list Deposit) : M unit :=
  match pending with
  | [] => ret tt
  | d :: pending =>
      if String.eqb (dep_BlockHash d) EmptyString then check_pending cache pending else
      let! cached := match cache !! dep_BlockNumber d with
                     | Some h => ret h
                     | None => wrapping "read block hash" (BlockHash (dep_BlockNumber d))
                     end in
      let cache := <[dep_BlockNumber d := cached]> cache in
      do! when (negb (bool_decide (cached = Some (dep_BlockHash d))))
            (wrapping ("orphan deposit " +:+ dep_ID d) (OrphanDeposit (dep_ID d))) in
      check_pending cache pending
  end.

Definition checkForReorgs (chain : Chain) : M unit :=
  let! pending := wrapping "list pending deposits" (ListPendingDeposits chain) in
  match pending with [] => ret tt | _ => check_pending ∅ pending end.
End watcher.

(** ** The scanned range *)

(** No wrap-around happens, at most [maxBlocksPerScan] blocks are scanned, they
    start right after the cursor and the cap never reaches past the head. *)
Lemma scan_range_spec cursor latest :
  0 <= cursor <= latest → latest < 2 ^ 64 → cursor < 2 ^ 63 →
  scan_range cursor latest =
    if decide (cursor = latest) then None
    else Some (cursor + 1, Z.min latest (cursor + maxBlocksPerScan)).
Proof.
  intros Hc Hl Hb. unfold scan_range, u64, maxBlocksPerScan.
  rewrite (Z.mod_small (cursor + 1)) by lia.
  case_decide as E.
  - destruct (Z.leb_spec (cursor + 1) latest); [lia|done].
  - destruct (Z.leb_spec (cursor + 1) latest); [|lia].
    rewrite (Z.mod_small (latest - (cursor + 1) + 1)) by lia.
    destruct (Z.ltb_spec 2000 (latest - (cursor + 1) + 1)).
    + rewrite Z.mod_small by lia. do 2 f_equal. lia.
    + do 2 f_equal. lia.
Qed.

(** The cursor a poll leaves. *)
Definition next_cursor (cursor latest : Z) : Z := Z.min latest (cursor + maxBlocksPerScan).

Lemma next_cursor_scan cursor latest :
  0 <= cursor <= latest → latest < 2 ^ 64 → cursor < 2 ^ 63 →
  next_cursor cursor latest =
    match scan_range cursor latest with Some (_, b) => b | None => cursor end.
Proof.
  intros. rewrite scan_range_spec by done. unfold next_cursor, maxBlocksPerScan.
  case_decide; lia.
Qed.

(** ** What one poll does to the database *)

(** Recording a list of rows: each step inserts it or finds its key present. *)
Fixpoint recorded_all {X} (R : X → DB → bool → DB → Prop) (xs : list X) (db : DB) (n : nat) (db' : DB)
    : Prop :=
  match xs with
  | [] => n = 0%nat ∧ db' = db
  | x :: xs => ∃ b db1 m, R x db b db1 ∧ recorded_all R xs db1 m db' ∧ n = (if b then S m else m)
  end.

Definition observed_transfer (now : Z) (t : ObservedTransfer) (db : DB) (b : bool) (db' : DB) : Prop :=
  ∃ id, observed (observed_deposit id now t) db b db'.
Definition observed_unsupported (now : Z) (u : UnsupportedTokenObservation) (db : DB) (b : bool)
    (db' : DB) : Prop := ∃ id, observation_recorded (stamped id now u) db b db'.

Definition scanned (chain : Chain) (latest : Z) (db : DB) (r : Z * Z * nat * nat) (db' : DB) : Prop :=
  match scan_range (cursor_of db chain CursorTierObserved) latest with
  | None => r = (0, 0, 0%nat, 0%nat) ∧ db' = db
  | Some (scanFrom, scanTo) =>
      ∃ transfers unsupported now n m db1 db2 t,
        recorded_all (observed_transfer now) transfers db n db1 ∧
        recorded_all (observed_unsupported now) unsupported db1 m db2 ∧
        is_bigint scanTo ∧ r = (scanFrom, scanTo, n, m) ∧
        db' = upsert_cursor (mkCursorRow chain CursorTierObserved scanTo t) db2
  end.

Definition polled (chain : Chain) (latest safe finalized : Z) (db : DB) (r : ExecuteResult) (db' : DB)
    : Prop :=
  cursor_of db chain CursorTierObserved <= latest ∧
  ∃ from to n m ns nf t t' db1 db2 db3,
    scanned chain latest db (from, to, n, m) db1 ∧
    promoted DepositObserved DepositSafe chain safe db1 ns db2 ∧
    promoted DepositSafe DepositFinalized chain finalized
      (upsert_cursor (mkCursorRow chain CursorTierSafe safe t) db2) nf db3 ∧
    let db4 := upsert_cursor (mkCursorRow chain CursorTierFinalized finalized t') db3 in
    steps_over credited (eligible_credits chain db4) db4 db' ∧
    r = mkExecuteResult latest safe finalized from to n m ns nf (length (eligible_credits chain db4)).

Ltac refine_in H L :=
  let HR := fresh "HR" in let HT := fresh "HT" in
  apply L in H; [destruct H as [HR HT]|assumption].

Section watcher_refines.
Context `{Scan : ChainScanner} `{!ChainScannerLaws Scan}.

Lemma record_transfers_refines now ts :
  tx_refines (record_transfers now ts) (recorded_all (observed_transfer now) ts).
Proof.
  induction ts as [|t ts IH]; intros c s n s' Hc H; simpl in H; m_straight; [done|].
  match goal with H1 : DepositRepository_RecordObserved _ _ _ = _ |- _ =>
    refine_in H1 RecordObserved_refines end.
  match goal with H2 : record_transfers _ _ _ _ = _ |- _ => refine_in H2 IH end.
  cbn in *. split; [|congruence]. eexists _, _, _. split_and!; try done. by eexists.
Qed.

Lemma record_unsupported_refines now us :
  tx_refines (record_unsupported now us) (recorded_all (observed_unsupported now) us).
Proof.
  induction us as [|u us IH]; intros c s n s' Hc H; simpl in H; m_straight; [done|].
  match goal with H1 : UnsupportedTokenRepository_RecordObservation _ _ _ = _ |- _ =>
    refine_in H1 RecordObservation_refines end.
  match goal with H2 : record_unsupported _ _ _ _ = _ |- _ => refine_in H2 IH end.
  cbn in *. split; [|congruence]. eexists _, _, _. split_and!; try done. by eexists.
Qed.

Lemma scan_phase_refines chain addresses registry latest c s r s' :
  runs_in_tx c →
  scan_phase chain addresses registry (cursor_of (st_db s) chain CursorTierObserved) latest c s
    = (Ok r, s') →
  scanned chain latest (st_db s) r (st_db s') ∧ st_trace s' = st_trace s.
Proof.
  intros Hc H. unfold scan_phase, scanned in *. destruct (scan_range _ _) as [[a b]|]; [|m_straight; done].
  m_inv1. destruct x as [transfers unsupported]. m_straight.
  match goal with Hs : ScanDeposits _ _ _ _ _ _ = _ |- _ =>
    apply ScanDeposits_external in Hs as (E1 & E2 & _) end.
  match goal with H1 : record_transfers _ _ _ _ = _ |- _ => refine_in H1 record_transfers_refines end.
  match goal with H1 : record_unsupported _ _ _ _ = _ |- _ => refine_in H1 record_unsupported_refines end.
  match goal with H1 : SetCursor _ _ _ _ _ = _ |- _ => refine_in H1 SetCursor_refines end.
  cbn in *. rewrite E1 in *. split; [|congruence].
  match goal with HC : ∃ now, _ ∧ _ |- _ => destruct HC as (t & Hb & Ht) end.
  eexists _, _, _, _, _, _, _, _. split_and!; try done.
Qed.

Lemma TrackDeposits_tx_refines chain addresses registry latest safe finalized :
  tx_refines (TrackDeposits_tx chain addresses registry latest safe finalized)
    (polled chain latest safe finalized).
Proof.
  intros c s r s' Hc H. unfold TrackDeposits_tx in H. m_inv1. m_straight.
  match goal with H1 : Cursor _ _ _ _ = _ |- _ => refine_in H1 Cursor_refines end.
  m_case1; [m_inv1|]. bool_to_prop. m_inv1.
  match goal with p : Z * Z * nat * nat |- _ => destruct p as [[[from to] n] m] end.
  m_straight. destruct HR as [-> Edb].
  match goal with H1 : scan_phase _ _ _ _ _ _ _ = _ |- _ =>
    rewrite <-Edb in H1; apply scan_phase_refines in H1 as [HS HTS]; [|done] end.
  match goal with H1 : PromoteToSafe _ _ _ _ = _ |- _ =>
    refine_in H1 PromoteToSafe_refines end.
  match goal with H1 : SetCursor _ CursorTierSafe _ _ _ = _ |- _ =>
    refine_in H1 SetCursor_refines end.
  match goal with H1 : PromoteToFinalized _ _ _ _ = _ |- _ =>
    refine_in H1 PromoteToFinalized_refines end.
  match goal with H1 : SetCursor _ CursorTierFinalized _ _ _ = _ |- _ =>
    refine_in H1 SetCursor_refines end.
  match goal with H1 : CreditFinalizedDeposits _ _ _ = _ |- _ =>
    refine_in H1 CreditFinalizedDeposits_refines end.
  rewrite Edb in *. split; [|congruence]. split; [lia|].
  repeat match goal with HC : ∃ now, is_bigint _ ∧ _ = upsert_cursor _ _ |- _ =>
    let t := fresh "t" in let Hb := fresh "Hb" in let E := fresh "E" in
    destruct HC as (t & Hb & E); rewrite E in * end.
  destruct_and?. subst.
  eexists from, to, n, m, _, _, _, _, _, _, _. split_and!; try done.
  cbv zeta. split; [eassumption|done].
Qed.

Lemma Execute_in_tx chain c s r s' :
  cx_tx c = None → TrackDeposits_Execute chain c s = (Ok r, s') →
  ∃ db latest safe finalized,
    polled chain latest safe finalized db r (st_db s') ∧ finalized <= safe <= latest.
Proof.
  intros Hc H. unfold TrackDeposits_Execute in H. m_inv1. m_inv1. m_inv1.
  match goal with p : Z * Z * Z |- _ => destruct p as [[latest safe] finalized] end.
  m_inv. bool_to_prop.
  match goal with H1 : in_tx _ _ _ _ _ = _ |- _ =>
    apply (in_tx_refines _ _ _ _ _ _ _ _ (TrackDeposits_tx_refines _ _ _ _ _ _)) in H1 as [HR _] end.
  eexists _, _, _, _. split; [exact HR|lia].
Qed.
End watcher_refines.

(** ** The invariant *)

Lemma Inv_recorded_transfers now ts db n db' :
  Inv db → recorded_all (observed_transfer now) ts db n db' → Inv db'.
Proof.
  revert db n. induction ts as [|t ts IH]; intros db n HI H; simpl in H.
  { destruct H as [_ ->]. done. }
  destruct H as (b & db1 & m & (id & Ho) & Hr & _). eapply IH; [|done].
  by apply (Inv_observed (observed_deposit id now t) db b db1).
Qed.

Lemma Inv_recorded_unsupported now us db n db' :
  Inv db → recorded_all (observed_unsupported now) us db n db' → Inv db'.
Proof.
  revert db n. induction us as [|u us IH]; intros db n HI H; simpl in H.
  { destruct H as [_ ->]. done. }
  destruct H as (b & db1 & m & (id & Ho) & Hr & _). eapply IH; [|done].
  destruct b; destruct Ho as [-> _]; [|done]. revert HI. by apply Inv_frame.
Qed.

Lemma Inv_cursor r db : Inv db → Inv (upsert_cursor r db).
Proof. by apply Inv_frame. Qed.

Lemma Inv_scanned chain latest db r db' : Inv db → scanned chain latest db r db' → Inv db'.
Proof.
  intros HI. unfold scanned. destruct (scan_range _ _) as [[a b]|]; [|by intros [_ ->]].
  intros (ts & us & now & n & m & db1 & db2 & t & H1 & H2 & _ & _ & ->).
  apply Inv_cursor. eapply Inv_recorded_unsupported; [|done]. by eapply Inv_recorded_transfers.
Qed.

Lemma Inv_polled chain latest safe finalized db r db' :
  Inv db → polled chain latest safe finalized db r db' → Inv db'.
Proof.
  intros HI (_ & from & to & n & m & ns & nf & t & t' & db1 & db2 & db3 & HS & HP & HF & HC & _).
  eapply Inv_credit_phase; [|done]. apply Inv_cursor.
  eapply Inv_promoted; [|right; reflexivity|done]. apply Inv_cursor.
  eapply Inv_promoted; [|left; reflexivity|done]. by eapply Inv_scanned.
Qed.
