(* ===== verification/WatcherProofs.v ===== *)
(** * Properties of the watcher's poll

    Cursor movement, the calls of [ScanDeposits] a poll makes and where its findings
    end up, no credit before finality, the orphaning that [Execute] never does, and
    what [checkForReorgs] would do. *)

From Stdlib Require Import ZArith Lia.
From stdpp Require Import prelude strings sorting gmap list_numbers.
From S2P Require Import Prelude GoStd Domain Store Effects Ledger Withdrawals WithdrawalSpecs.
From S2P Require Import WithdrawalInvariant Ports Deposits DepositSpecs Customers Solvency Watcher.

(** ** Cursors *)

Lemma find_update_where_const {R} (P : R → Prop) `{∀ r, Decision (P r)} r (l : list R) :
  P r → Exists P l →
  List.find (λ x, bool_decide (P x)) (update_where P (λ _, r) l) = Some r.
Proof.
  intros HPr. induction 1 as [x l HPx|x l Hl IH]; simpl.
  - rewrite decide_True by done. by rewrite bool_decide_true.
  - destruct (decide (P x)); [by rewrite bool_decide_true|]. by rewrite bool_decide_false.
Qed.

Lemma find_update_where_other {R} (P Q : R → Prop) `{∀ r, Decision (P r), ∀ r, Decision (Q r)} r
    (l : list R) :
  (∀ x, P x → ¬ Q x) → ¬ Q r →
  List.find (λ x, bool_decide (Q x)) (update_where P (λ _, r) l) =
  List.find (λ x, bool_decide (Q x)) l.
Proof.
  intros HPQ Hr. induction l as [|x l IH]; simpl; [done|]. rewrite IH.
  destruct (decide (P x)) as [HP|]; [|done].
  rewrite bool_decide_false by done. rewrite (bool_decide_false (Q x)) by auto. done.
Qed.

Lemma find_app_r {X} (f : X → bool) l x :
  (∀ y, y ∈ l → f y = false) → List.find f (l ++ [x]) = if f x then Some x else None.
Proof.
  induction l as [|y l IH]; intros Hf; simpl; [done|]. rewrite (Hf y) by set_solver.
  apply IH. set_solver.
Qed.

Lemma find_app_other {X} (f : X → bool) l x :
  f x = false → List.find f (l ++ [x]) = List.find f l.
Proof. intros Hf. induction l as [|y l IH]; simpl; [by rewrite Hf|]. by rewrite IH. Qed.

Lemma cursor_of_upsert r db chain tier :
  cursor_of (upsert_cursor r db) chain tier =
    if decide (cr_chain r = chain ∧ cr_tier r = tier) then cr_last_block r
    else cursor_of db chain tier.
Proof.
  unfold cursor_of, find_cursor, upsert_cursor. cbn [t_watcher_cursors set_watcher_cursors].
  set (P := λ x : CursorRow, cr_chain x = cr_chain r ∧ cr_tier x = cr_tier r).
  case_decide as Hex; case_decide as E.
  - destruct E as [<- <-]. rewrite (find_update_where_const P); [done|done|done].
  - rewrite (find_update_where_other P (λ x, cr_chain x = chain ∧ cr_tier x = tier)); [done| |done].
    unfold P. naive_solver.
  - destruct E as [<- <-]. rewrite find_app_r; [by rewrite bool_decide_true|].
    intros y Hy. apply bool_decide_false. intros HP. apply Hex. apply Exists_exists. by exists y.
  - rewrite find_app_other; [done|]. by apply bool_decide_false.
Qed.

Definition same_cursors (db db' : DB) : Prop := t_watcher_cursors db' = t_watcher_cursors db.

Lemma same_cursors_of db db' chain tier :
  same_cursors db db' → cursor_of db' chain tier = cursor_of db chain tier.
Proof. intros E. unfold cursor_of, find_cursor. by rewrite E. Qed.

Lemma recorded_all_cursors {X} (R : X → DB → bool → DB → Prop) xs db n db' :
  (∀ x d b d', R x d b d' → same_cursors d d') → recorded_all R xs db n db' → same_cursors db db'.
Proof.
  intros HR. revert db n. induction xs as [|x xs IH]; intros db n H; simpl in H.
  { destruct H as [_ ->]. done. }
  destruct H as (b & db1 & m & H1 & H2 & _). apply HR in H1. apply IH in H2.
  unfold same_cursors in *. congruence.
Qed.

Lemma steps_over_cursors es db db' : steps_over credited es db db' → same_cursors db db'.
Proof.
  revert db. induction es as [|e es IH]; intros db H; simpl in H; [by subst|].
  destruct H as (db1 & (je & db2 & now & oid & _ & _ & _ & HO & ->) & H2).
  apply IH in H2. pose proof (only_journal_other _ _ HO) as Hs. destruct_and! Hs.
  unfold same_cursors in *. cbn in *. congruence.
Qed.

Lemma observed_cursors now t db b db' : observed_transfer now t db b db' → same_cursors db db'.
Proof. intros (id & Ho). destruct b; [by destruct Ho as (oid & _ & ->)|by destruct Ho as [-> _]]. Qed.

Lemma unsupported_cursors now u db b db' : observed_unsupported now u db b db' → same_cursors db db'.
Proof. intros (id & Ho). destruct b; by destruct Ho as [-> _]. Qed.

Lemma promoted_cursors from to chain block db n db' :
  promoted from to chain block db n db' → same_cursors db db'.
Proof. by intros (now & _ & _ & ->). Qed.

Lemma scanned_cursor chain latest db r db' tier :
  0 <= cursor_of db chain CursorTierObserved <= latest →
  latest < 2 ^ 64 → cursor_of db chain CursorTierObserved < 2 ^ 63 →
  scanned chain latest db r db' →
  cursor_of db' chain tier =
    if decide (tier = CursorTierObserved)
    then next_cursor (cursor_of db chain CursorTierObserved) latest else cursor_of db chain tier.
Proof.
  intros Hc Hl Hb HS. rewrite next_cursor_scan by done. unfold scanned in HS.
  destruct (scan_range _ _) as [[a b]|].
  - destruct HS as (ts & us & now & n & m & db1 & db2 & t & H1 & H2 & _ & _ & ->).
    rewrite cursor_of_upsert. cbn.
    apply recorded_all_cursors in H1; [|apply observed_cursors].
    apply recorded_all_cursors in H2; [|apply unsupported_cursors].
    rewrite (same_cursors_of _ _ _ _ H2), (same_cursors_of _ _ _ _ H1).
    case_decide as E; case_decide as E'; try done; naive_solver.
  - destruct HS as [_ ->]. case_decide; by subst.
Qed.

(** The cursors after a poll: the observed one advances by at most
    [maxBlocksPerScan] and never past the head, the others are the chain's tags. *)
Lemma polled_cursors chain latest safe finalized db r db' :
  0 <= cursor_of db chain CursorTierObserved < 2 ^ 63 → latest < 2 ^ 64 →
  polled chain latest safe finalized db r db' →
  cursor_of db' chain CursorTierObserved =
    next_cursor (cursor_of db chain CursorTierObserved) latest ∧
  cursor_of db' chain CursorTierSafe = safe ∧
  cursor_of db' chain CursorTierFinalized = finalized.
Proof.
  intros Hc Hl (Hle & from & to & n & m & ns & nf & t & t' & db1 & db2 & db3 & HS & HP & HF & HC & _).
  apply steps_over_cursors in HC. apply promoted_cursors in HP, HF.
  split_and!; rewrite (same_cursors_of _ _ _ _ HC), cursor_of_upsert; cbn.
  - rewrite decide_False by naive_solver.
    rewrite (same_cursors_of _ _ _ _ HF), cursor_of_upsert, decide_False by naive_solver.
    rewrite (same_cursors_of _ _ _ _ HP).
    by rewrite (scanned_cursor chain latest db (from, to, n, m) db1) by (done || lia).
  - rewrite decide_False by naive_solver.
    by rewrite (same_cursors_of _ _ _ _ HF), cursor_of_upsert, decide_True.
  - by rewrite decide_True.
Qed.

(** The scan phase leaves the ledger alone. *)
Lemma recorded_all_same_ledger {X} (R : X → DB → bool → DB → Prop) xs db n db' :
  (∀ x d b d', R x d b d' → same_ledger d d') → recorded_all R xs db n db' → same_ledger db db'.
Proof.
  intros HR. revert db n. induction xs as [|x xs IH]; intros db n H; simpl in H.
  { destruct H as [_ ->]. done. }
  destruct H as (b & db1 & m & H1 & H2 & _). apply HR in H1. apply IH in H2.
  unfold same_ledger in *. destruct_and?. split_and!; congruence.
Qed.

Lemma scanned_same_ledger chain latest db r db' : scanned chain latest db r db' → same_ledger db db'.
Proof.
  unfold scanned. destruct (scan_range _ _) as [[a b]|]; [|by intros [_ ->]].
  intros (ts & us & now & n & m & db1 & db2 & t & H1 & H2 & _ & _ & ->).
  apply recorded_all_same_ledger in H1.
  2:{ intros x d b' d' (id & Ho). destruct b'; [by destruct Ho as (oid & _ & ->)|by destruct Ho as [-> _]]. }
  apply recorded_all_same_ledger in H2.
  2:{ intros x d b' d' (id & Ho). destruct b'; by destruct Ho as [-> _]. }
  unfold same_ledger in *. destruct_and?. cbn. split_and!; congruence.
Qed.

(** ** Coverage: consecutive polls scan every block exactly once *)

(** The blocks the next [n] polls scan, when the head stays at [latest]. *)
Fixpoint scanned_blocks (n : nat) (cursor latest : Z) : list Z :=
  match n with
  | O => []
  | S n =>
      match scan_range cursor latest with
      | Some (a, b) => seqZ a (b - a + 1) ++ scanned_blocks n b latest
      | None => scanned_blocks n cursor latest
      end
  end.

Lemma scanned_blocks_prefix n cursor latest :
  0 <= cursor <= latest → latest < 2 ^ 63 →
  scanned_blocks n cursor latest =
    seqZ (cursor + 1) (Z.min latest (cursor + Z.of_nat n * maxBlocksPerScan) - cursor).
Proof.
  revert cursor. induction n as [|n IH]; intros cursor Hc Hl; simpl scanned_blocks.
  - unfold maxBlocksPerScan. rewrite seqZ_nil by lia. done.
  - rewrite scan_range_spec by lia. unfold maxBlocksPerScan in *. case_decide as E.
    + subst. rewrite IH by lia. rewrite !seqZ_nil by lia. done.
    + rewrite IH by lia.
      replace (Z.min latest (cursor + 2000) - (cursor + 1) + 1)
        with (Z.min latest (cursor + 2000) - cursor) by lia.
      replace (Z.min latest (cursor + 2000) + 1)
        with (cursor + 1 + (Z.min latest (cursor + 2000) - cursor)) by lia.
      rewrite <-seqZ_app by lia. f_equal. lia.
Qed.

(** ** What a poll does to deposit states *)

(** Every deposit that is finalized or credited was so before, or lies at or below
    the finalized tag. *)
Definition final_or_known (known : list string) (finalized : Z) (db : DB) : Prop :=
  ∀ d, d ∈ t_deposits db → dr_state d = DepositFinalized ∨ dr_state d = DepositCredited →
       dr_block_number d <= finalized ∨ dr_id d ∈ known.

Definition final_ids (db : DB) : list string :=
  map dr_id (filter (λ d, dr_state d = DepositFinalized ∨ dr_state d = DepositCredited) (t_deposits db)).

Lemma final_or_known_self finalized db : final_or_known (final_ids db) finalized db.
Proof.
  intros d Hd Hs. right. apply list_elem_of_fmap. exists d. split; [done|].
  by apply list_elem_of_filter.
Qed.

Lemma final_observed known F now ts db n db' :
  final_or_known known F db → recorded_all (observed_transfer now) ts db n db' →
  final_or_known known F db'.
Proof.
  revert db n. induction ts as [|t ts IH]; intros db n HI H; simpl in H.
  { destruct H as [_ ->]. done. }
  destruct H as (b & db1 & m & (id & Ho) & Hr & _). eapply IH; [|done].
  destruct b; [|by destruct Ho as [-> _]]. destruct Ho as (oid & _ & ->).
  intros d [Hd| ->%list_elem_of_singleton]%elem_of_app Hs; [by apply HI|]. by destruct Hs.
Qed.

Lemma same_deposits_unsupported now us db n db' :
  recorded_all (observed_unsupported now) us db n db' → t_deposits db' = t_deposits db.
Proof.
  revert db n. induction us as [|u us IH]; intros db n H; simpl in H.
  { destruct H as [_ ->]. done. }
  destruct H as (b & db1 & m & (id & Ho) & Hr & _). apply IH in Hr. rewrite Hr.
  destruct b; by destruct Ho as [-> _].
Qed.

Lemma credited_deposits e db u db' :
  credited e db u db' → ∃ now,
    t_deposits db' = update_where (λ r, dr_id r = el_depositID e) (dr_transition DepositCredited now)
                       (t_deposits db).
Proof. intros (je & db1 & now & oid & _ & _ & _ & _ & ->). by exists now. Qed.

(** Ids the credit loop may transition. *)
Lemma final_credits known F es db db' :
  (∀ e, e ∈ es → ∀ d, d ∈ t_deposits db → dr_id d = el_depositID e →
     dr_state d = DepositFinalized ∨ dr_state d = DepositCredited) →
  final_or_known known F db → steps_over credited es db db' → final_or_known known F db'.
Proof.
  revert db. induction es as [|e es IH]; intros db He HI H; simpl in H; [by subst|].
  destruct H as (db1 & H1 & H2). apply credited_deposits in H1 as (now & E1).
  eapply IH; [..|done].
  - intros e' He' d Hd Hid. rewrite E1 in Hd. apply list_elem_of_fmap in Hd as (x & -> & Hx).
    case_decide; [by right|]. eapply He; [|done|done]. set_solver.
  - intros d Hd Hs. rewrite E1 in Hd. apply list_elem_of_fmap in Hd as (x & -> & Hx).
    case_decide as E; [|by apply HI]. cbn. apply HI; [done|]. by apply (He e ltac:(set_solver)).
Qed.

Lemma polled_final chain latest safe finalized db r db' :
  Inv db → polled chain latest safe finalized db r db' →
  final_or_known (final_ids db) finalized db'.
Proof.
  intros HI (_ & from & to & n & m & ns & nf & t & t' & db1 & db2 & db3 & HS & HP & HF & HC & _).
  pose proof (Inv_scanned _ _ _ _ _ HI HS) as HI1.
  pose proof (Inv_promoted DepositObserved DepositSafe _ _ _ _ _ HI1 ltac:(by left) HP) as HI2.
  pose proof (Inv_promoted DepositSafe DepositFinalized _ _ _ _ _ (Inv_cursor _ _ HI2) ltac:(by right) HF) as HI3.
  assert (final_or_known (final_ids db) finalized db1) as F1.
  { pose proof (final_or_known_self finalized db) as F0. unfold scanned in HS.
    destruct (scan_range _ _) as [[a b]|]; [|by destruct HS as [_ ->]].
    destruct HS as (ts & us & now & k & l & d1 & d2 & s & H1 & H2 & _ & _ & ->).
    pose proof (final_observed _ _ _ _ _ _ _ F0 H1) as F1.
    intros d. cbn. rewrite (same_deposits_unsupported _ _ _ _ _ H2). apply F1. }
  assert (final_or_known (final_ids db) finalized db2) as F2.
  { destruct HP as (now & _ & _ & ->). intros d (x & -> & Hx)%list_elem_of_fmap Hs.
    case_decide; [by destruct Hs|]. by apply F1. }
  assert (final_or_known (final_ids db) finalized db3) as F3.
  { destruct HF as (now & _ & _ & ->). intros d (x & -> & Hx)%list_elem_of_fmap Hs.
    case_decide as E; [|by apply F2]. left. by destruct E as (_ & _ & ?). }
  set (db4 := upsert_cursor (mkCursorRow chain CursorTierFinalized finalized t') db3) in *.
  change (final_or_known (final_ids db) finalized db4) in F3.
  refine (final_credits _ _ _ db4 _ _ F3 HC).
  intros e (d & da & Hd & _ & Hs & Hid & _)%eligible_credits_elem x Hx Ex. left.
  assert (x = d) as ->; [|done].
  apply (key_unique dr_id (t_deposits db3) d (dk_ids _ (inv_deposits _ HI3)) Hd x Hx). congruence.
Qed.

(** ** A poll orphans nothing *)

Definition orphans (db : DB) : list DepositRow :=
  filter (λ d, dr_state d = DepositOrphaned) (t_deposits db).

Lemma orphans_update P `{∀ r, Decision (P r)} state now l :
  state ≠ DepositOrphaned → (∀ r, r ∈ l → P r → dr_state r ≠ DepositOrphaned) →
  filter (λ d, dr_state d = DepositOrphaned) (update_where P (dr_transition state now) l) =
  filter (λ d, dr_state d = DepositOrphaned) l.
Proof.
  intros Hst HP. rewrite (filter_update_where P (λ d, dr_state d = DepositOrphaned)).
  - unfold update_where. rewrite <-(map_id (filter _ l)) at 2. apply map_ext_in.
    intros r [Hs Hr]%list_elem_of_In%list_elem_of_filter. rewrite decide_False; [done|].
    intros HPr. by apply (HP r).
  - intros r Hr HPr. cbn. split; [done|]. intros E. by destruct (HP r Hr HPr).
Qed.

Lemma polled_orphans chain latest safe finalized db r db' :
  Inv db → polled chain latest safe finalized db r db' → orphans db' = orphans db.
Proof.
  intros HI (_ & from & to & n & m & ns & nf & t & t' & db1 & db2 & db3 & HS & HP & HF & HC & _).
  pose proof (Inv_scanned _ _ _ _ _ HI HS) as HI1.
  pose proof (Inv_promoted DepositObserved DepositSafe _ _ _ _ _ HI1 ltac:(by left) HP) as HI2.
  pose proof (Inv_promoted DepositSafe DepositFinalized _ _ _ _ _ (Inv_cursor _ _ HI2) ltac:(by right) HF) as HI3.
  assert (orphans db1 = orphans db) as E1.
  { unfold scanned in HS. destruct (scan_range _ _) as [[a b]|]; [|by destruct HS as [_ ->]].
    destruct HS as (ts & us & now & k & l & d1 & d2 & s & H1 & H2 & _ & _ & ->).
    unfold orphans. cbn. rewrite (same_deposits_unsupported _ _ _ _ _ H2). clear -H1.
    revert db k H1. induction ts as [|x ts IH]; intros db k H1; simpl in H1.
    { destruct H1 as [_ ->]. done. }
    destruct H1 as (b' & db1 & m & (id & Ho) & Hr & _). rewrite (IH _ _ Hr).
    destruct b'; [|by destruct Ho as [-> _]]. destruct Ho as (oid & _ & ->). cbn.
    by rewrite filter_app, filter_cons_False, filter_nil, app_nil_r. }
  assert (orphans db2 = orphans db1) as E2.
  { destruct HP as (now & _ & _ & ->). unfold orphans. cbn. apply orphans_update; [done|].
    intros x _ (-> & _). done. }
  assert (orphans db3 = orphans db2) as E3.
  { destruct HF as (now & _ & _ & ->). unfold orphans. cbn. apply orphans_update; [done|].
    intros x _ (-> & _). done. }
  rewrite <-E1, <-E2, <-E3.
  set (db4 := upsert_cursor (mkCursorRow chain CursorTierFinalized finalized t') db3) in *.
  change (orphans db3) with (orphans db4).
  assert (∀ e, e ∈ eligible_credits chain db4 → ∀ x, x ∈ t_deposits db4 → dr_id x = el_depositID e →
            dr_state x ≠ DepositOrphaned) as Hel.
  { intros e (d & da & Hd & _ & Hs & Hid & _)%eligible_credits_elem x Hx Ex.
    assert (x = d) as ->; [|by rewrite Hs].
    apply (key_unique dr_id (t_deposits db3) d (dk_ids _ (inv_deposits _ HI3)) Hd x Hx). congruence. }
  clear -HC Hel. revert HC Hel. generalize db4 (eligible_credits chain db4). clear.
  intros db es. revert db. induction es as [|e es IH]; intros db H Hel; simpl in H; [by subst|].
  destruct H as (db1 & H1 & H2). apply credited_deposits in H1 as (now & E1).
  rewrite (IH db1 H2).
  - unfold orphans. rewrite E1. apply orphans_update; [done|]. intros x Hx Ex.
    apply (Hel e ltac:(set_solver) x Hx Ex).
  - intros e' He' x Hx Ex. rewrite E1 in Hx. apply list_elem_of_fmap in Hx as (y & -> & Hy).
    case_decide; [done|]. apply (Hel e' ltac:(set_solver) y Hy Ex).
Qed.

(** ** What a poll records *)

Definition transfer_key (t : ObservedTransfer) : Chain * string * Z := (ot_Chain t, ot_TxHash t, ot_LogIndex t).

(** The transaction and log of a deposit that is not orphaned. *)
Definition live_key (db : DB) (k : Chain * string * Z) : Prop :=
  ∃ d, d ∈ t_deposits db ∧ dr_key d = k ∧ dr_state d ≠ DepositOrphaned.

(** What a scan found is in the database: each transfer as a live deposit, each
    unsupported one as an observation. *)
Definition findings_recorded (ts : list ObservedTransfer) (us : list UnsupportedTokenObservation) (db : DB) : Prop :=
  (∀ t, t ∈ ts → live_key db (transfer_key t)) ∧ (∀ u, u ∈ us → un_key u ∈ map un_key (t_unsupported db)).

(** Nothing found is lost on the way from [db] to [db']. *)
Definition keeps_found (db db' : DB) : Prop :=
  (∀ k, live_key db k → live_key db' k) ∧
  (∀ k, k ∈ map un_key (t_unsupported db) → k ∈ map un_key (t_unsupported db')).

#[export] Instance keeps_found_preorder : PreOrder keeps_found.
Proof. split; [by split|]. intros a b c [H1 H2] [H3 H4]. split; auto. Qed.

Lemma findings_keep ts us db db' : keeps_found db db' → findings_recorded ts us db → findings_recorded ts us db'.
Proof. intros [H1 H2] [H3 H4]. split; auto. Qed.

Lemma keeps_found_same db db' :
  t_deposits db' = t_deposits db → t_unsupported db' = t_unsupported db → keeps_found db db'.
Proof. intros E1 E2. unfold keeps_found, live_key. by rewrite E1, E2. Qed.

Lemma keeps_found_transition P `{∀ r, Decision (P r)} state now db db' :
  state ≠ DepositOrphaned → t_unsupported db' = t_unsupported db →
  t_deposits db' = update_where P (dr_transition state now) (t_deposits db) → keeps_found db db'.
Proof.
  intros Hs Eu Ed. split; [|by rewrite Eu]. intros k (d & Hd & Ek & Hst).
  exists (if decide (P d) then dr_transition state now d else d). rewrite Ed. split.
  - apply list_elem_of_fmap. by exists d.
  - by case_decide.
Qed.

Lemma keeps_found_promoted from to chain block db n db' :
  to ≠ DepositOrphaned → promoted from to chain block db n db' → keeps_found db db'.
Proof. intros Ht (now & _ & _ & ->). by eapply keeps_found_transition. Qed.

Lemma keeps_found_credits es db db' : steps_over credited es db db' → keeps_found db db'.
Proof.
  revert db. induction es as [|e es IH]; intros db H; simpl in H; [by subst|].
  destruct H as (db1 & (je & db2 & now & oid & _ & _ & _ & HO & ->) & H2). etrans; [|by apply IH].
  apply only_journal_other in HO as (_ & _ & _ & _ & _ & _ & _ & _ & _ & Eu & _).
  apply (keeps_found_transition (λ r, dr_id r = el_depositID e) DepositCredited now); done.
Qed.

Lemma recorded_transfers_found now ts db n db' :
  recorded_all (observed_transfer now) ts db n db' →
  keeps_found db db' ∧ ∀ t, t ∈ ts → live_key db' (transfer_key t).
Proof.
  revert db n. induction ts as [|t ts IH]; intros db n H; simpl in H.
  { destruct H as [_ ->]. split; [done|by intros t ?%elem_of_nil]. }
  destruct H as (b & db1 & m & (id & Ho) & Hr & _). destruct (IH _ _ Hr) as [Hk Ht].
  assert (keeps_found db db1 ∧ live_key db1 (transfer_key t)) as [Hk1 Ht1].
  { destruct b; simpl in Ho.
    - destruct Ho as (oid & _ & ->). split.
      + split; [|done]. intros k (d & Hd & ?). exists d. split; [|done]. apply elem_of_app. by left.
      + eexists. split; [apply elem_of_app; right; by left|]. done.
    - destruct Ho as [-> (d & E & [Hs Hd]%list_elem_of_filter)%list_elem_of_fmap]. split; [done|].
      exists d. split_and!; [done|by rewrite <-E|done]. }
  split; [by etrans|]. intros t' [->|Ht']%elem_of_cons; [by apply Hk|by apply Ht].
Qed.

Lemma recorded_unsupported_found now us db n db' :
  recorded_all (observed_unsupported now) us db n db' →
  keeps_found db db' ∧ ∀ u, u ∈ us → un_key u ∈ map un_key (t_unsupported db').
Proof.
  revert db n. induction us as [|u us IH]; intros db n H; simpl in H.
  { destruct H as [_ ->]. split; [done|by intros u ?%elem_of_nil]. }
  destruct H as (b & db1 & m & (id & Ho) & Hr & _). destruct (IH _ _ Hr) as [Hk Ht].
  assert (keeps_found db db1 ∧ un_key u ∈ map un_key (t_unsupported db1)) as [Hk1 Ht1].
  { change (un_key u) with (un_key (stamped id now u)). destruct b; destruct Ho as [-> Ho]; [|done].
    split; [split; [done|]|]; cbn; [intros k Hk'; rewrite map_app; apply elem_of_app; by left|].
    rewrite map_app. apply elem_of_app. right. by left. }
  split; [by etrans|]. intros u' [->|Hu]%elem_of_cons; [by apply Hk|by apply Ht].
Qed.

Section records.
Context `{Scan : ChainScanner} `{!ChainScannerLaws Scan}.

(** The call of [ScanDeposits] in a poll's transaction, and its findings at the end. *)
Definition scan_made (c : Ctx) (addresses : list string) (registry : gmap string Asset) (range : option (Z * Z))
    (db' : DB) : Prop :=
  match range with
  | None => True
  | Some (a, b) => ∃ s3 ts us s4, ScanDeposits addresses registry a b c s3 = (Ok (ts, us), s4) ∧
                                  findings_recorded ts us db'
  end.

Lemma scan_made_keep c addresses registry range db db' :
  keeps_found db db' → scan_made c addresses registry range db → scan_made c addresses registry range db'.
Proof.
  intros Hk. destruct range as [[a b]|]; [|done]. intros (s3 & ts & us & s4 & E & H).
  exists s3, ts, us, s4. split; [done|]. by eapply findings_keep.
Qed.

Lemma scan_phase_made chain addresses registry cursor latest c s r s' :
  runs_in_tx c → scan_phase chain addresses registry cursor latest c s = (Ok r, s') →
  scan_made c addresses registry (scan_range cursor latest) (st_db s').
Proof.
  intros Hc H. unfold scan_phase, scan_made in *. destruct (scan_range _ _) as [[a b]|]; [|done].
  m_inv1. destruct x as [transfers unsupported]. m_straight.
  match goal with Hs : ScanDeposits _ _ _ _ _ _ = _ |- _ => pose proof Hs as Hscan end.
  match goal with H1 : record_transfers _ _ _ _ = _ |- _ => refine_in H1 record_transfers_refines end.
  match goal with H1 : record_unsupported _ _ _ _ = _ |- _ => refine_in H1 record_unsupported_refines end.
  match goal with H1 : SetCursor _ _ _ _ _ = _ |- _ => refine_in H1 SetCursor_refines end.
  cbn in *. eexists _, _, _, _. split; [exact Hscan|].
  match goal with HC : ∃ now, _ ∧ _ |- _ => destruct HC as (t & _ & ->) end.
  match goal with H1 : recorded_all (observed_transfer _) _ _ _ _ |- _ =>
    apply recorded_transfers_found in H1 as [_ Ht] end.
  match goal with H1 : recorded_all (observed_unsupported _) _ _ _ _ |- _ =>
    apply recorded_unsupported_found in H1 as [[Hk _] Hu] end.
  split; [|exact Hu]. intros t' Ht'. by apply Hk, Ht.
Qed.

Lemma TrackDeposits_tx_made chain addresses registry latest safe finalized c s r s' :
  runs_in_tx c → TrackDeposits_tx chain addresses registry latest safe finalized c s = (Ok r, s') →
  scan_made c addresses registry (scan_range (cursor_of (st_db s) chain CursorTierObserved) latest) (st_db s').
Proof.
  intros Hc H. unfold TrackDeposits_tx in H. m_inv1. m_straight.
  match goal with H1 : Cursor _ _ _ _ = _ |- _ => refine_in H1 Cursor_refines end.
  destruct HR as [-> Edb].
  m_case1; [m_inv1|]. m_inv1.
  match goal with p : Z * Z * nat * nat |- _ => destruct p as [[[from to] n] m] end.
  m_straight.
  match goal with H1 : scan_phase _ _ _ _ _ _ _ = _ |- _ => apply scan_phase_made in H1 as Hmade; [|done] end.
  match goal with H1 : PromoteToSafe _ _ _ _ = _, H2 : SetCursor _ CursorTierSafe _ _ _ = _,
    H3 : PromoteToFinalized _ _ _ _ = _, H4 : SetCursor _ CursorTierFinalized _ _ _ = _,
    H5 : CreditFinalizedDeposits _ _ _ = _ |- _ =>
    apply PromoteToSafe_refines in H1 as [H1 _]; [|done]; apply SetCursor_refines in H2 as [(? & _ & H2) _]; [|done];
    apply PromoteToFinalized_refines in H3 as [H3 _]; [|done]; apply SetCursor_refines in H4 as [(? & _ & H4) _]; [|done];
    apply CreditFinalizedDeposits_refines in H5 as [[_ H5] _]; [|done];
    apply keeps_found_promoted in H1; [|done]; apply keeps_found_promoted in H3; [|done];
    apply keeps_found_credits in H5; rewrite H2 in H3; rewrite H4 in H5;
    revert Hmade; apply scan_made_keep; etrans; [exact H1|]; etrans; [|exact H5];
    etrans; [|by apply keeps_found_same]; etrans; [|exact H3]; by apply keeps_found_same
  end.
Qed.
End records.
