(* ===== verification/System.v ===== *)
(** * The whole system

    Every entry point of the three binaries (the API's requests, the watcher's
    polls, the broadcaster's runs) keeps the invariant [Inv] of Solvency.v, and so
    does every interleaving of them: the ledger balances, holds equal open
    withdrawals, customers are never overdrawn, nonces are gapless, and settlements
    and credits happen at most once. *)

From Stdlib Require Import ZArith Lia.
From stdpp Require Import prelude strings sorting gmap list_numbers.
From S2P Require Import Prelude GoStd Domain Store Effects Ledger Transfers Withdrawals.
From S2P Require Import WithdrawalSpecs WithdrawalInvariant Ports Broadcast Deposits DepositSpecs.
From S2P Require Import Customers Solvency Conservation BroadcastProofs CreateWithdrawals Idempotency Handlers.
From S2P Require Import History.
From S2P Require Import Watcher WatcherProofs.

(** ** The abstract system: one step per committed transaction *)

(** What a mutating API request does, besides storing its key. *)
Inductive api_act : DB → DB → Prop :=
  | act_none db : api_act db db
  | act_provision customer accounts address db u db' :
      (∀ a, a ∈ accounts → acct_CustomerID a = cust_ID customer ∧
                           acct_Type a ∈ [AccountTypeAvailable; AccountTypeHold]) →
      provisioned customer accounts address db u db' → api_act db db'
  | act_transfer req t db db' :
      0 < default 0 (tr_Amount req) → transferred req db t db' → api_act db db'
  | act_create db0 req db w db' : requested db0 req db w db' → api_act db db'
  | act_approve id actor reason db w db' : approved id actor reason db w db' → api_act db db'.

Inductive commit : DB → DB → Prop :=
  | commit_api db db1 row :
      api_act db db1 → commit db (set_idempotency_keys (t_idempotency_keys db1 ++ [row]) db1)
  | commit_claim chain w db db' : claimed chain db (Some w) db' → commit db db'
  | commit_record id h tx db u db' : recorded id h tx db u db' → commit db db'
  | commit_broadcast id db u db' : marked_broadcast id db u db' → commit db db'
  | commit_confirm id db u db' :
      settled id WithdrawalStatusConfirmed withdrawalSettlementCauseType
        withdrawalConfirmedEventType AccountTypeTreasury true db u db' → commit db db'
  | commit_fail id db u db' :
      settled id WithdrawalStatusFailed withdrawalFailureCauseType
        withdrawalFailedEventType AccountTypeAvailable false db u db' → commit db db'
  | commit_alert id db u db' : alerted id db u db' → commit db db'
  | commit_poll chain latest safe finalized db r db' :
      polled chain latest safe finalized db r db' → commit db db'
  | commit_token r db db' : upsert_token r db = PgOk (tt, db') → commit db db'.

(** The database the migrations leave: the forwarder-float and treasury accounts,
    the crediting policy, the approval thresholds and the nonce counters. *)
Definition migrated_db (uuid : nat → string) (t : Z) : DB :=
  let pairs := SupportedChainAssetPairs in
  mkDB []
    (imap (λ i '(ch, a), mkAccountRow (uuid i) None ch a AccountTypeAvailable t) pairs ++
     imap (λ i '(ch, a), mkAccountRow (uuid (4 + i)%nat) None ch a AccountTypeTreasury t) pairs)
    [] [] [] [] [] [] []
    (map (λ '(ch, a), mkCreditingPolicyRow ch a "finalized") pairs)
    [] [] []
    (map (λ '(ch, a), mkThresholdRow ch a (if String.eqb a AssetETH then 10 ^ 18 else 10 ^ 9)) pairs)
    [mkNonceRow ChainBase 0 t; mkNonceRow ChainArbitrum 0 t]
    [].

Definition reachable (db : DB) : Prop :=
  ∃ uuid t, (∀ n m, uuid n = uuid m → n = m) ∧ rtc commit (migrated_db uuid t) db.

(** ** Every reachable database is in the invariant *)

Lemma api_act_ok db db' : api_act db db' → Inv db ∧ conserved db → Inv db' ∧ conserved db'.
Proof.
  intros HA [HI Hc]. pose proof (inv_ledger _ HI) as Hl. destruct HA.
  - done.
  - split; [by eapply Inv_provisioned|by eapply conserved_provisioned].
  - split; [|by eapply conserved_transferred]. eapply Inv_transferred; [done| |done].
    by destruct (H0 Hl) as (src & dst & _ & _ & _ & _ & _ & ->).
  - destruct H as (fee & th & _ & _ & HC). split; [|by eapply conserved_created].
    eapply Inv_created; [done|apply target_status_routed|done].
  - split; [by eapply Inv_approved|]. destruct H as (row & now & oid & _ & _ & _ & _ & ->).
    by apply (conserved_same db).
Qed.

Lemma upsert_token_frame r db db' :
  upsert_token r db = PgOk (tt, db') → ∃ l, db' = set_token_registry l db.
Proof. unfold upsert_token. intros H. pg_inv H. by eexists. Qed.

Lemma conserved_polled chain latest safe finalized db r db' :
  Inv db → conserved db → polled chain latest safe finalized db r db' → conserved db'.
Proof.
  intros HI Hc (_ & from & to & n & m & ns & nf & t & t' & db1 & db2 & db3 & HS & HP & HF & HC & _).
  pose proof (Inv_scanned _ _ _ _ _ HI HS) as HI1.
  pose proof (Inv_promoted DepositObserved DepositSafe _ _ _ _ _ HI1 ltac:(by left) HP) as HI2.
  pose proof (Inv_promoted DepositSafe DepositFinalized _ _ _ _ _ (Inv_cursor _ _ HI2) ltac:(by right) HF) as HI3.
  refine (conserved_credits _ _ _ (Inv_cursor _ _ HI3) _ _ HC).
  - assert (same_ledger db db1) as H1 by by eapply scanned_same_ledger.
    destruct HP as (now1 & _ & _ & ->). destruct HF as (now2 & _ & _ & ->).
    by apply (conserved_same db).
  - apply Forall_forall. intros e He.
    by apply eligible_credits_elem in He as (d & da & _ & _ & _ & _ & _ & _ & _ & _ & ?).
Qed.

Lemma commit_ok db db' : commit db db' → Inv db ∧ conserved db → Inv db' ∧ conserved db'.
Proof.
  intros HC HI. destruct HC as [db db1 row HA|? ? ? ? H|? ? ? ? ? ? H|? ? ? ? H|? ? ? ? H|? ? ? ? H
    |? ? ? ? H|? ? ? ? ? ? ? H|? ? ? H].
  - apply api_act_ok in HA as [HI' Hc']; [|done]. split; [|by apply (conserved_same db1)].
    revert HI'. by apply Inv_frame.
  - destruct HI as [HI Hc]. split; [by eapply Inv_claimed|].
    destruct H as (row & nn & now & aid & _ & _ & _ & _ & ->). by apply (conserved_same db).
  - destruct HI as [HI Hc]. split; [by eapply Inv_recorded|].
    destruct H as (row & a & _ & _ & _ & _ & _ & ->). by apply (conserved_same db).
  - destruct HI as [HI Hc]. split; [by eapply Inv_marked|].
    destruct H as (row & a & h & now & _ & _ & _ & _ & _ & _ & _ & ->). by apply (conserved_same db).
  - destruct HI as [HI Hc]. split; [by eapply Inv_settled_confirmed|].
    eapply conserved_settled; [apply HI|done|done].
  - destruct HI as [HI Hc]. split; [by eapply Inv_settled_failed|].
    eapply conserved_settled; [apply HI|done|done].
  - destruct HI as [HI Hc]. split; [by eapply Inv_alerted|].
    destruct H as (row & now & oid & _ & _ & _ & ->). by apply (conserved_same db).
  - destruct HI as [HI Hc]. split; [by eapply Inv_polled|by eapply conserved_polled].
  - destruct HI as [HI Hc]. apply upsert_token_frame in H as [l ->].
    split; [|by apply (conserved_same db)]. revert HI. by apply Inv_frame.
Qed.

(** ** Outside a transaction nothing is written *)

Section outside.
Context (I : DB → Prop).

Lemma preserves_tx_exec {A} (f : DB → pgres (A * DB)) : preserves I (tx_exec f).
Proof.
  intros c s r s' Hc _ HI H. unfold tx_exec, txFromContext in H. rewrite Hc in H. by simplify_eq.
Qed.

Lemma preserves_external {A} (m : M A) : external m → preserves I m.
Proof. intros Hm c s r s' _ _ HI H. apply Hm in H as (E & _). by rewrite E. Qed.

Lemma preserves_quiet {A} (m : M A) : quiet m → preserves I m.
Proof.
  intros Hm c s r s' _ Ho HI H. apply Hm in H as (E & _).
  by eapply (others_only_keeps I).
Qed.

Lemma preserves_if {A} (b : bool) (m1 m2 : M A) :
  preserves I m1 → preserves I m2 → preserves I (if b then m1 else m2).
Proof. by destruct b. Qed.
End outside.
#[export] Hint Resolve preserves_tx_exec preserves_external preserves_quiet preserves_if : preserves.

Ltac preserves_tac :=
  repeat first [ progress intros | apply preserves_bind | solve [auto with preserves]
               | apply preserves_try | apply preserves_map_err | apply preserves_when
               | apply preserves_mapM | apply preserves_forM | case_match | case_decide ].

(** A read-only transaction. *)
Lemma preserves_in_tx_read {A} I ctx (m : M A) : preserves I (in_tx_read ctx m).
Proof.
  apply preserves_in_tx_out. intros c s a s' _ _ H. by m_inv.
Qed.

(** ** Handlers inside their transaction *)

Definition tx_reads {A} (m : M A) : Prop :=
  ∀ c s r s', runs_in_tx c → m c s = (r, s') → st_db s' = st_db s.

Section tx_reads_lemmas.
Context {A B : Type}.
Lemma tx_reads_ret (a : A) : tx_reads (ret a).
Proof. by intros c s r s' _ [= _ <-]. Qed.
Lemma tx_reads_throw e : tx_reads (throw (A:=A) e).
Proof. by intros c s r s' _ [= _ <-]. Qed.
Lemma tx_reads_bind (m : M A) (k : A → M B) : tx_reads m → (∀ a, tx_reads (k a)) → tx_reads (bind m k).
Proof.
  intros Hm Hk c s r s' Hc H. unfold bind in H. destruct (m c s) as [[a|e] s1] eqn:E.
  - apply Hm in E; [|done]. apply Hk in H; [|done]. congruence.
  - simplify_eq. by eapply Hm.
Qed.
Lemma tx_reads_map_err f (m : M A) : tx_reads m → tx_reads (map_err f m).
Proof.
  intros Hm c s r s' Hc H. unfold map_err in H.
  destruct (m c s) as [[a|e] s1] eqn:E; simplify_eq; by eapply Hm.
Qed.
Lemma tx_reads_try (m : M A) : tx_reads m → tx_reads (try m).
Proof.
  intros Hm c s r s' Hc H. unfold try in H. destruct (m c s) as [r1 s1] eqn:E. simplify_eq.
  by eapply Hm.
Qed.
Lemma tx_reads_lift_option (o : option A) e : tx_reads (lift_option o e).
Proof. destruct o; [apply tx_reads_ret|apply tx_reads_throw]. Qed.
Lemma tx_reads_lift_result (r : result A) : tx_reads (lift_result r).
Proof. destruct r; [apply tx_reads_ret|apply tx_reads_throw]. Qed.
Lemma tx_reads_pool_query (f : DB → A) : tx_reads (pool_query f).
Proof.
  intros c s r s' [db Hc] H. unfold pool_query, step in H. rewrite Hc in H.
  destruct (env_fault _ _); by simplify_eq.
Qed.
Lemma tx_reads_external (m : M A) : external m → tx_reads m.
Proof. intros Hm c s r s' _ H. by apply Hm in H as (? & _). Qed.
Lemma tx_reads_quiet (m : M A) : quiet m → tx_reads m.
Proof.
  intros Hm c s r s' [db Hc] H. apply Hm in H as (E & _). unfold others_only in E. by rewrite Hc in E.
Qed.
End tx_reads_lemmas.

Lemma tx_reads_mapM {A B} (f : A → M B) l : (∀ x, tx_reads (f x)) → tx_reads (mapM f l).
Proof.
  intros Hf. induction l; simpl; [apply tx_reads_ret|].
  apply tx_reads_bind; [done|]. intros y. apply tx_reads_bind; [done|]. intros ys. apply tx_reads_ret.
Qed.

Create HintDb tx_reads.
#[export] Hint Resolve tx_reads_ret tx_reads_throw tx_reads_bind tx_reads_map_err tx_reads_try
  tx_reads_lift_option tx_reads_lift_result tx_reads_pool_query tx_reads_external tx_reads_quiet tx_reads_mapM : tx_reads.
Ltac tx_reads_tac :=
  repeat first [ progress intros | apply tx_reads_bind | solve [auto with tx_reads]
               | apply tx_reads_try | apply tx_reads_map_err | apply tx_reads_mapM | case_match | case_decide ].

Section api.
Context `{DD : DepositAddressDeriver} `{FE : FeeEstimator} `{TxR : TransactionRepository}.
Context `{DR : DepositReader}.
Context (uuid_Parse : string → option bytes) (uuid_String : bytes → string).
Context (encode_problem : ProblemDetails → bytes) (encode_payload : Payload → bytes).
Context (decode_transfer : bytes → option TransferBody) (decode_withdrawal : bytes → option WithdrawalBody).
Context (decode_approve : bytes → option ApproveBody) (sha256 : bytes → bytes).
Context (route : Request → Endpoint).
Context (Fee_quiet : ∀ ch a z, quiet (EstimateFee ch a z)).
Context (Tx_reads : ∀ id n c, tx_reads (ListCustomerTransactions id n c)).
Context (Dep_reads : ∀ id, tx_reads (ListCustomerDeposits id)).

Let serve := serve uuid_Parse uuid_String encode_problem encode_payload decode_transfer
               decode_withdrawal decode_approve.
Let server := server uuid_Parse uuid_String encode_problem encode_payload decode_transfer
               decode_withdrawal decode_approve route.

Definition is_2xx (calls : list WriterCall) : Prop :=
  200 <= sr_Status (recorder_result (recorded_calls calls)) < 300.

Lemma problem_calls_status r st title detail c s calls s' :
  300 <= st → problem encode_problem r st title detail c s = (Ok calls, s') → ¬ is_2xx calls.
Proof.
  intros Hst H. unfold problem in H. apply ret_Ok in H as [-> _]. unfold is_2xx.
  change (sr_Status _) with st. lia.
Qed.

Lemma answer_error_status r cases title detail e c s calls s' :
  Forall (λ '(_, st, _, _), 300 <= st) cases →
  answer_error encode_problem r cases title detail e c s = (Ok calls, s') → ¬ is_2xx calls.
Proof.
  intros Hc H. unfold answer_error in H. destruct (error_case cases e) as [[[st t] d]|] eqn:E.
  - eapply problem_calls_status; [|done]. induction Hc as [|[[[x st'] t'] d'] l Hst _ IH]; [done|].
    simpl in E. destruct (errors_Is e x); [by simplify_eq|by apply IH].
  - eapply problem_calls_status; [|exact H]. lia.
Qed.

(** Case analysis of a handler, discarding the branches that answer a problem. *)
Ltac not_2xx :=
  match goal with
  | H : problem _ _ _ _ _ _ _ = (Ok ?calls, _), H2 : is_2xx ?calls |- _ =>
      exfalso; revert H2; eapply problem_calls_status; [|exact H]; lia
  | H : answer_error _ _ _ _ _ _ _ _ = (Ok ?calls, _), H2 : is_2xx ?calls |- _ =>
      exfalso; revert H2; eapply answer_error_status; [|exact H]; repeat constructor; lia
  end.
Ltac handler_cases H :=
  repeat first [ not_2xx
               | match type of H with
                 | (if ?b then _ else _) _ _ = _ => destruct b eqn:?
                 | match ?x with _ => _ end _ _ = _ => destruct x eqn:?
                 | bind (try _) _ _ _ = _ =>
                     apply bind_Ok in H; destruct H as (? & ? & ?%try_Ok & H)
                 end ].

Lemma withdrawal_answer_db r st failed w c s calls s' :
  withdrawal_answer uuid_Parse encode_problem encode_payload r st failed w c s = (Ok calls, s') →
  st_db s' = st_db s.
Proof. unfold withdrawal_answer, problem, answer. destruct (toWithdrawalResponse _ _); intros H; by m_inv. Qed.

Lemma transfer_answer_db r t c s calls s' :
  transfer_answer uuid_Parse encode_problem encode_payload r t c s = (Ok calls, s') →
  st_db s' = st_db s.
Proof. unfold transfer_answer, problem, answer. intros H. repeat case_match; by m_inv. Qed.

Lemma CreateTransfer_Execute_act req c s t s' :
  runs_in_tx c → CreateTransfer_Execute req c s = (Ok t, s') → api_act (st_db s) (st_db s').
Proof.
  intros Hc H. unfold CreateTransfer_Execute in H.
  destruct (String.eqb _ _); [m_inv1|]. destruct (tr_Amount req) as [amount|] eqn:E; [|m_inv1].
  destruct (Z.leb_spec amount 0); [m_inv1|]. apply CreateTransfer_refines in H as [HT _]; [|done].
  eapply act_transfer; [|done]. by rewrite E.
Qed.

Lemma CreateWithdrawal_Execute_act req c s w s' :
  runs_in_tx c → CreateWithdrawal_Execute req c s = (Ok w, s') → api_act (st_db s) (st_db s').
Proof.
  intros [db0 Hc] H. eapply CreateWithdrawal_Execute_requested in H as [HR _]; [|done..].
  by eapply act_create.
Qed.

Lemma ApproveWithdrawal_Execute_act id actor reason c s w s' :
  runs_in_tx c → ApproveWithdrawal_Execute id actor reason c s = (Ok w, s') →
  api_act (st_db s) (st_db s').
Proof.
  intros Hc H. apply ApproveWithdrawal_Execute_refines in H as [(_ & _ & HA) _]; [|done].
  by eapply act_approve.
Qed.

Lemma new_accounts_ok customerID t keys c s accounts s' :
  Forall (λ '(_, _, ty), ty ∈ [AccountTypeAvailable; AccountTypeHold]) keys →
  mapM (new_account customerID t) keys c s = (Ok accounts, s') →
  st_db s' = st_db s ∧
  ∀ a, a ∈ accounts → acct_CustomerID a = customerID ∧
                      acct_Type a ∈ [AccountTypeAvailable; AccountTypeHold].
Proof.
  intros Hk. revert s accounts. induction Hk as [|[[ch a] ty] keys Hty _ IH]; intros s accounts H;
    simpl in H; m_straight; [by split; [|set_solver]|].
  match goal with H1 : mapM _ _ _ _ = _ |- _ => apply IH in H1 as [E Hacc] end. split; [done|].
  intros x [->|Hx]%elem_of_cons; [done|by apply Hacc].
Qed.

Lemma CreateCustomer_Execute_act c s cust s' :
  runs_in_tx c → CreateCustomer_Execute uuid_Parse c s = (Ok cust, s') → api_act (st_db s) (st_db s').
Proof.
  intros Hc H. unfold CreateCustomer_Execute in H. m_straight.
  match goal with H1 : mapM _ _ _ _ = _ |- _ =>
    apply new_accounts_ok in H1 as [E Hacc]; [|repeat constructor; set_solver] end.
  match goal with H1 : CreateCustomer _ _ _ _ _ = _ |- _ =>
    apply CreateCustomer_refines in H1 as [HP _]; [|done] end.
  rewrite E in HP. cbn in HP. eapply act_provision; [|exact HP]. exact Hacc.
Qed.

Lemma server_acts r c s calls s' :
  runs_in_tx c → server r c s = (Ok calls, s') → is_2xx calls → api_act (st_db s) (st_db s').
Proof.
  intros Hc H Hst. unfold server, Handlers.server in H.
  assert (∀ m : M (list WriterCall),
    tx_reads m → m c s = (Ok calls, s') → api_act (st_db s) (st_db s')) as Hreads.
  { intros m Hm Hr. apply Hm in Hr; [|done]. rewrite Hr. apply act_none. }
  destruct (route r); simpl in H.
  - unfold customerServer_CreateCustomer in H. handler_cases H.
    rename select (CreateCustomer_Execute _ _ _ = _) into HE.
    apply CreateCustomer_Execute_act in HE; [|done]. unfold answer in H. by m_inv.
  - eapply Hreads; [|exact H]. unfold customerServer_GetCustomer, GetCustomer_Execute,
      answer_error, problem, answer; simpl; unfold CustomerReader_GetCustomer, wrapping. tx_reads_tac.
  - eapply Hreads; [|exact H]. unfold customerServer_GetCustomerBalances, GetCustomerBalances_Execute,
      answer_error, problem, answer; simpl; unfold BalanceRepository_CustomerBalances, wrapping, scan_big.
    tx_reads_tac.
  - unfold customerServer_CreateTransfer in H. handler_cases H.
    rename select (CreateTransfer_Execute _ _ _ = _) into HE.
    apply CreateTransfer_Execute_act in HE; [|done]. apply transfer_answer_db in H. by rewrite H.
  - eapply Hreads; [|exact H]. unfold customerServer_ListCustomerTransactions,
      ListCustomerTransactions_Execute, answer_error, problem, answer. tx_reads_tac.
  - eapply Hreads; [|exact H]. unfold customerServer_GetCustomerDeposits, GetCustomerDeposits_Execute,
      answer_error, problem, answer. tx_reads_tac.
  - eapply Hreads; [|exact H]. unfold customerServer_GetUnsupportedTokenObservations,
      ListUnsupportedTokenObservations_Execute, answer_error, problem, answer; simpl;
      unfold UnsupportedTokenRepository_ListObservations, wrapping, scan_big. tx_reads_tac.
  - eapply Hreads; [|exact H]. unfold customerServer_GetWithdrawalFeeEstimate, EstimateFee_Execute,
      answer_error, problem, answer. tx_reads_tac.
  - unfold customerServer_CreateWithdrawal in H. handler_cases H.
    rename select (CreateWithdrawal_Execute _ _ _ = _) into HE.
    apply CreateWithdrawal_Execute_act in HE; [|done]. apply withdrawal_answer_db in H. by rewrite H.
  - unfold customerServer_ApproveWithdrawal in H. handler_cases H.
    rename select (ApproveWithdrawal_Execute _ _ _ _ _ = _) into HE.
    apply ApproveWithdrawal_Execute_act in HE; [|done]. apply withdrawal_answer_db in H. by rewrite H.
  - m_inv. apply act_none.
Qed.

(** ** The API *)

Definition api_request (r : Request) : M StoredResponse :=
  IdempotencyMiddleware encode_problem sha256 server r.

Section closed.
Context (I : DB → Prop) (I_commit : ∀ db db', I db → commit db db' → I db').
Context (Tx_preserves : ∀ id n c, preserves I (ListCustomerTransactions id n c)).
Context (Dep_preserves : ∀ id, preserves I (ListCustomerDeposits id)).

Lemma server_commits : handler_commits I server.
Proof.
  intros r c s calls s' row Hc HI H Hst. eapply I_commit; [done|]. apply commit_api. by eapply server_acts.
Qed.

(** A handler outside a transaction: a read, or a refusal. *)
Lemma server_preserves r : preserves I (server r).
Proof.
  unfold server, Handlers.server. destruct (route r); simpl.
  - unfold customerServer_CreateCustomer, CreateCustomer_Execute, new_account, answer_error, problem, answer.
    simpl. unfold CustomerRepository_CreateCustomer, tx_insert. preserves_tac.
  - unfold customerServer_GetCustomer, GetCustomer_Execute, answer_error, problem, answer; simpl;
      unfold CustomerReader_GetCustomer. preserves_tac.
  - unfold customerServer_GetCustomerBalances, GetCustomerBalances_Execute, answer_error, problem, answer;
      simpl; unfold BalanceRepository_CustomerBalances, scan_big. preserves_tac.
  - unfold customerServer_CreateTransfer, CreateTransfer_Execute, transfer_answer, answer_error, problem,
      answer; simpl; unfold TransferRepository_CreateTransfer, tx_query, tx_insert, scan_big. preserves_tac.
  - unfold customerServer_ListCustomerTransactions, ListCustomerTransactions_Execute, answer_error, problem,
      answer. preserves_tac.
  - unfold customerServer_GetCustomerDeposits, GetCustomerDeposits_Execute, answer_error, problem, answer.
    preserves_tac.
  - unfold customerServer_GetUnsupportedTokenObservations, ListUnsupportedTokenObservations_Execute,
      answer_error, problem, answer; simpl; unfold UnsupportedTokenRepository_ListObservations, scan_big.
    preserves_tac.
  - unfold customerServer_GetWithdrawalFeeEstimate, EstimateFee_Execute, answer_error, problem, answer.
    preserves_tac.
  - unfold customerServer_CreateWithdrawal, CreateWithdrawal_Execute, withdrawal_answer, answer_error,
      problem, answer; simpl. unfold WithdrawalThresholdLister_GetApprovalThreshold,
      WithdrawalRepository_CreateWithdrawal, write_outbox, write_postings, tx_query, tx_insert, scan_big.
    preserves_tac.
  - unfold customerServer_ApproveWithdrawal, ApproveWithdrawal_Execute, withdrawal_answer, answer_error,
      problem, answer; simpl. unfold WithdrawalRepository_ApproveWithdrawal, lock_withdrawal,
      bind_text, update_withdrawals, tx_update_rows, write_outbox, tx_query, tx_insert, scan_big. preserves_tac.
  - auto with preserves.
Qed.

Lemma api_request_preserves r : preserves I (api_request r).
Proof.
  destruct (isMutatingMethod (rq_Method r)) eqn:Hm.
  - intros c s res s' Hc Ho HI H. by eapply (middleware_preserves I); [..|apply server_commits| | | |exact H].
  - unfold api_request, IdempotencyMiddleware. rewrite Hm. simpl.
    apply preserves_bind; [apply server_preserves|auto with preserves].
Qed.
End closed.
End api.

(** ** The watcher and the broadcaster *)

Lemma tx_refines_wrapping {A} ctx (m : M A) R : tx_refines m R → tx_refines (wrapping ctx m) R.
Proof. intros Hm c s a s' Hc H%wrapping_Ok. exact (Hm _ _ _ _ Hc H). Qed.

(** What one run of the sign-and-broadcast use case commits. *)
Inductive broadcast_step : DB → DB → Prop :=
  | step_claim chain w db db' : claimed chain db (Some w) db' → broadcast_step db db'
  | step_record id h tx db u db' : recorded id h tx db u db' → broadcast_step db db'
  | step_broadcast id db u db' : marked_broadcast id db u db' → broadcast_step db db'.

Lemma broadcast_step_commit db db' : broadcast_step db db' → commit db db'.
Proof. intros []; [by eapply commit_claim|by eapply commit_record|by eapply commit_broadcast]. Qed.

Section broadcaster.
Context (I : DB → Prop).
Hypothesis (I_claim : ∀ chain w db db', I db → claimed chain db (Some w) db' → I db').
Hypothesis (I_record : ∀ id h tx db u db', I db → recorded id h tx db u db' → I db').
Hypothesis (I_broadcast : ∀ id db u db', I db → marked_broadcast id db u db' → I db').
Context `{G : Signer} `{!SignerLaws G} `{B : TransactionBroadcaster} `{!TransactionBroadcasterLaws B}.

Lemma finalize_preserves w : preserves I (finalize w).
Proof.
  eapply preserves_in_tx; [apply tx_refines_wrapping, MarkBroadcast_law|]. intros db u db' HI HM.
  by eapply I_broadcast.
Qed.

Lemma sendAndFinalize_preserves chain w : preserves I (sendAndFinalize chain w).
Proof.
  unfold sendAndFinalize. apply preserves_bind; [intros c s r s' _ _ HI [= _ <-]; done|].
  intros db. apply preserves_bind; [auto with preserves|]. intros _.
  apply preserves_bind; [apply preserves_try, preserves_external, Send_external|]. intros [u|e]; simpl.
  - apply finalize_preserves.
  - apply preserves_if; [auto with preserves|apply finalize_preserves].
Qed.

Lemma signAndSend_preserves chain w nonce : preserves I (signAndSend chain w nonce).
Proof.
  unfold signAndSend. apply preserves_bind; [apply preserves_wrapping, preserves_quiet, Build_quiet|].
  intros [dg unsignedTx]. apply preserves_bind; [auto with preserves|]. intros _.
  apply preserves_bind; [apply preserves_wrapping, preserves_external, Sign_external|]. intros sig.
  apply preserves_bind; [auto with preserves|]. intros [tx h].
  apply preserves_bind; [|intros _; apply sendAndFinalize_preserves].
  eapply preserves_in_tx; [apply tx_refines_wrapping, RecordSignedTx_law|]. intros db u db' HI HR.
  by eapply I_record.
Qed.

Lemma claim_preserves chain : preserves I (claim chain).
Proof.
  apply preserves_in_tx_out. intros c s a s' Hc HI H. apply bind_Ok in H as (o & s1 & H & Hk).
  apply wrapping_Ok in H. apply ClaimApprovedWithdrawal_law in H as [HC _]; [|done].
  destruct o as [w|]; [|m_inv; done]. m_inv. by eapply I_claim.
Qed.

Lemma resume_preserves chain w nonce : preserves I (resume chain w nonce).
Proof.
  unfold resume. apply preserves_if; [apply signAndSend_preserves|apply sendAndFinalize_preserves].
Qed.

(** With [allowClaim] false nothing is claimed. *)
Lemma SignAndBroadcast_resumes chain : preserves I (SignAndBroadcastWithdrawal_Execute chain false).
Proof.
  unfold SignAndBroadcastWithdrawal_Execute. apply preserves_bind; [apply preserves_try, preserves_in_tx_read|].
  intros [[|w ws]|e]; [|destruct (w_Nonce w)|]; [cbn [negb]; auto with preserves| |auto with preserves..].
  apply preserves_bind; [|auto with preserves]. apply preserves_try, resume_preserves.
Qed.

Lemma SignAndBroadcast_preserves chain allowClaim :
  preserves I (SignAndBroadcastWithdrawal_Execute chain allowClaim).
Proof.
  unfold SignAndBroadcastWithdrawal_Execute. apply preserves_bind; [apply preserves_try, preserves_in_tx_read|].
  intros [[|w ws]|e]; [|destruct (w_Nonce w)|]; [| |auto with preserves..].
  - apply preserves_if; [auto with preserves|].
    apply preserves_bind; [apply preserves_try, claim_preserves|]. intros [[[w n]|]|e]; [|auto with preserves..].
    apply preserves_bind; [apply preserves_try, signAndSend_preserves|auto with preserves].
  - apply preserves_bind; [|auto with preserves]. apply preserves_try, resume_preserves.
Qed.
End broadcaster.

Section binaries.
Context (I : DB → Prop) (I_commit : ∀ db db', I db → commit db db' → I db').
Context `{Scan : ChainScanner} `{!ChainScannerLaws Scan}.
Context `{G : Signer} `{!SignerLaws G} `{B : TransactionBroadcaster} `{!TransactionBroadcasterLaws B}.

Lemma TrackDeposits_preserves chain : preserves I (TrackDeposits_Execute chain).
Proof.
  unfold TrackDeposits_Execute. simpl.
  apply preserves_bind; [unfold DepositAddressLister_ListDepositAddresses; auto with preserves|].
  intros addresses. apply preserves_bind;
    [unfold TokenRegistry_ListTokenRegistry; auto 6 with preserves|].
  intros registry. apply preserves_bind;
    [apply preserves_wrapping, preserves_external, Head_external|].
  intros [[latest safe] finalized]. apply preserves_if; [auto with preserves|].
  eapply preserves_in_tx; [apply TrackDeposits_tx_refines|]. intros db r db' HI HP.
  eapply I_commit; [done|]. by eapply commit_poll.
Qed.

Lemma UpsertToken_preserves chain contract asset : preserves I (TokenRegistry_UpsertToken chain contract asset).
Proof.
  apply preserves_wrapping, preserves_step. intros c s r s' Hc Ho HI H.
  cbv zeta in H; destruct (upsert_token (mkTokenRow chain (ToLower contract) asset) _) as [[[] db']|code] eqn:E; injection H as _ <-.
  - eapply I_commit; [apply Ho, HI|]. by eapply commit_token.
  - by apply Ho.
Qed.

Lemma poll_one_preserves chain w : preserves I (poll_one chain w).
Proof.
  unfold poll_one. apply preserves_bind; [apply preserves_try, preserves_external, Receipt_external|].
  assert (∀ id f R, tx_refines (f id) R → (∀ db u db', I db → R db u db' → I db') →
    preserves I (settle id f)) as Hs by (intros id f R HR HI; by eapply preserves_in_tx).
  intros [[[|] [|]]|e]; try auto with preserves.
  - apply preserves_bind; [|intros [|]; auto with preserves]. apply preserves_try.
    eapply Hs; [apply SettleConfirmed_law|]. intros. eapply I_commit; [done|]. by eapply commit_confirm.
  - apply preserves_bind; [|intros [|]; auto with preserves]. apply preserves_try.
    eapply Hs; [apply SettleFailed_law|]. intros. eapply I_commit; [done|]. by eapply commit_fail.
Qed.

Lemma PollWithdrawalReceipts_preserves chain : preserves I (PollWithdrawalReceipts_Execute chain).
Proof.
  unfold PollWithdrawalReceipts_Execute. apply preserves_bind; [apply preserves_try, preserves_in_tx_read|].
  intros [ws|e]; [|auto with preserves].
  apply preserves_bind; [|intros []; auto with preserves].
  induction ws as [|w ws IH]; simpl; [auto with preserves|].
  apply preserves_bind; [apply poll_one_preserves|]. intros [r errs].
  apply preserves_bind; [done|]. intros [r' errs']. auto with preserves.
Qed.

Lemma DetectStuckWithdrawals_preserves chain t : preserves I (DetectStuckWithdrawals_Execute chain t).
Proof.
  unfold DetectStuckWithdrawals_Execute. apply preserves_bind; [apply preserves_try, preserves_in_tx_read|].
  intros [ws|e]; [|auto with preserves].
  apply preserves_bind; [|intros []; auto with preserves].
  induction ws as [|w ws IH]; simpl; [auto with preserves|].
  apply preserves_bind.
  - apply preserves_try. eapply preserves_in_tx; [apply MarkStuckAlerted_law|].
    intros. eapply I_commit; [done|]. by eapply commit_alert.
  - intros [u|e]; (apply preserves_bind; [done|]; intros [r' errs']; auto with preserves).
Qed.
End binaries.

(** ** The initial database *)

Section initial.
Context (uuid : nat → string) (uuid_inj : ∀ n m, uuid n = uuid m → n = m) (t : Z).

Lemma migrated_account_ids : NoDup (map ac_id (t_accounts (migrated_db uuid t))).
Proof.
  change (NoDup (map uuid [0;1;2;3;4;5;6;7]%nat)).
  apply (NoDup_fmap_2_strong uuid); [by intros ? ? _ _ ?%uuid_inj|].
  apply (bool_decide_eq_true_1 (NoDup [0;1;2;3;4;5;6;7]%nat)). reflexivity.
Qed.

Lemma migrated_ledger_ok : ledger_ok (migrated_db uuid t).
Proof.
  constructor; try (by constructor); try (cbn; set_solver); [apply migrated_account_ids|].
  intros a b Ha Hb (_ & E1 & E2 & E3). cbn in Ha, Hb.
  repeat apply elem_of_cons in Ha as [->|Ha]; repeat apply elem_of_cons in Hb as [->|Hb];
    try done; by apply elem_of_nil in Ha || apply elem_of_nil in Hb.
Qed.

Lemma migrated_Inv : Inv (migrated_db uuid t).
Proof.
  constructor; [apply migrated_ledger_ok|..].
  - constructor; cbn; try (by constructor); try set_solver.
    + apply (bool_decide_eq_true_1 (NoDup [ChainBase; ChainArbitrum])). reflexivity.
  - constructor; cbn; try (by constructor); try set_solver.
  - intros r Hr. cbn in Hr. repeat apply elem_of_cons in Hr as [->|Hr]; [reflexivity..|by apply elem_of_nil in Hr].
Qed.

Lemma migrated_conserved : conserved (migrated_db uuid t).
Proof. intros ch a. unfold pair_total. by apply sumZ_zero. Qed.
End initial.

Lemma reachable_ok db : reachable db → Inv db ∧ conserved db.
Proof.
  intros (uuid & t & Hinj & Hs).
  assert (Inv (migrated_db uuid t) ∧ conserved (migrated_db uuid t)) as H0
    by (split; [by apply migrated_Inv|apply migrated_conserved]).
  revert H0. induction Hs as [|a b d Hab _ IH]; [done|]. intros H0. by apply IH, (commit_ok a).
Qed.

(** ** The platform's accounts are those of the migrations *)

Definition customer_rows_added (db db' : DB) : Prop :=
  ∃ rows, t_accounts db' = t_accounts db ++ rows ∧ ∀ r, r ∈ rows → ac_customer r ≠ None.

Lemma accounts_same db db' : t_accounts db' = t_accounts db → customer_rows_added db db'.
Proof. intros E. exists []. rewrite E, app_nil_r. split; [done|set_solver]. Qed.

Lemma credits_accounts es db db' : steps_over credited es db db' → t_accounts db' = t_accounts db.
Proof.
  revert db. induction es as [|e es IH]; intros db H; [by rewrite H|].
  destruct H as (db1 & (je & db2 & now & oid & _ & _ & HP & _ & ->) & H2). rewrite (IH _ H2). cbn.
  apply HP.
Qed.

Lemma api_act_accounts db db' : api_act db db' → ledger_ok db → customer_rows_added db db'.
Proof.
  intros HA Hl. destruct HA.
  - by apply accounts_same.
  - destruct H0 as (_ & _ & _ & _ & _ & ->). exists (map account_row accounts). split; [done|].
    by intros r (x & -> & _)%list_elem_of_fmap.
  - apply accounts_same. destruct (H0 Hl) as (src & dst & _ & _ & _ & HP & _). apply HP.
  - apply accounts_same. destruct H as (fee & th & _ & _ & HC).
    destruct HC as [(av & ho & je & db1 & oid & _ & _ & _ & _ & _ & _ & _ & HP & _ & _ & ty & _ & ->) _].
    apply HP.
  - apply accounts_same. by destruct H as (row & now & oid & _ & _ & _ & _ & ->).
Qed.

Lemma settled_accounts id target ty ev ct plat db u db' :
  settled id target ty ev ct plat db u db' → t_accounts db' = t_accounts db.
Proof.
  intros (row & ho & cp & je & db1 & now & oid & _ & _ & _ & _ & _ & _ & _ & _ & HP & _ & ->). apply HP.
Qed.

Lemma commit_accounts db db' : commit db db' → ledger_ok db → customer_rows_added db db'.
Proof.
  intros HC Hl. destruct HC as [db db1 row HA|? ? ? ? H|? ? ? ? ? ? H|? ? ? ? H|? ? ? ? H|? ? ? ? H
    |? ? ? ? H|? ? ? ? ? ? ? H|? ? ? H].
  - by apply api_act_accounts in HA.
  - apply accounts_same. by destruct H as (row & nn & now & aid & _ & _ & _ & _ & ->).
  - apply accounts_same. by destruct H as (row & a & _ & _ & _ & _ & _ & ->).
  - apply accounts_same. by destruct H as (row & a & h' & now & _ & _ & _ & _ & _ & _ & _ & ->).
  - by apply accounts_same, settled_accounts in H || apply accounts_same; eapply settled_accounts.
  - apply accounts_same. by eapply settled_accounts.
  - apply accounts_same. by destruct H as (row & now & oid & _ & _ & _ & ->).
  - apply accounts_same.
    destruct H as (_ & from & to & n & m & ns & nf & t & t' & db1 & db2 & db3 & HS & HP & HF & HC & _).
    apply scanned_same_ledger in HS as (_ & _ & E). rewrite (credits_accounts _ _ _ HC), <-E.
    destruct HP as (now1 & _ & _ & ->). by destruct HF as (now2 & _ & _ & ->).
  - apply accounts_same. by apply upsert_token_frame in H as [l ->].
Qed.

Definition platform_accounts (db : DB) : list AccountRow := filter (λ r, ac_customer r = None) (t_accounts db).

Lemma reachable_platform db :
  reachable db → ∃ uuid t, platform_accounts db = t_accounts (migrated_db uuid t).
Proof.
  intros (uuid & t & Hinj & Hs). exists uuid, t.
  assert (Inv (migrated_db uuid t) ∧ conserved (migrated_db uuid t) ∧
          platform_accounts (migrated_db uuid t) = t_accounts (migrated_db uuid t)) as H0
    by (split_and!; [by apply migrated_Inv|apply migrated_conserved|done]).
  clear Hinj. remember (t_accounts (migrated_db uuid t)) as plat eqn:Ep. clear Ep.
  induction Hs as [a|a b d Hab _ IH]; [by destruct H0 as (_ & _ & ?)|]. destruct H0 as (HI & Hc & E).
  apply IH. destruct (commit_ok a b Hab (conj HI Hc)) as [HI' Hc']. split_and!; [done|done|].
  apply commit_accounts in Hab as (rows & Er & Hr); [|apply HI]. unfold platform_accounts in *.
  rewrite Er, filter_app, E, (filter_none _ rows) by done. by rewrite app_nil_r.
Qed.

Lemma migrated_pair uuid t ch a :
  (ch, a) ∈ SupportedChainAssetPairs →
  ∃ i j, filter (of_pair ch a) (t_accounts (migrated_db uuid t)) =
    [mkAccountRow (uuid i) None ch a AccountTypeAvailable t;
     mkAccountRow (uuid j) None ch a AccountTypeTreasury t].
Proof.
  intros H. repeat apply elem_of_cons in H as [[= -> ->]|H]; [..|by apply elem_of_nil in H];
    [exists 0%nat, 4%nat|exists 1%nat, 5%nat|exists 2%nat, 6%nat|exists 3%nat, 7%nat]; reflexivity.
Qed.

(** What the customers of a pair hold, available and on hold. *)
Definition customers_total (db : DB) (ch : Chain) (a : Asset) : Z :=
  sumZ (λ r, sum_postings db (ac_id r))
    (filter (λ r, of_pair ch a r ∧ ac_customer r ≠ None) (t_accounts db)).

Lemma customers_total_eq db ch a :
  reachable db → (ch, a) ∈ SupportedChainAssetPairs →
  customers_total db ch a = deposited db ch a - paid_out db ch a.
Proof.
  intros HR Hpair. destruct (reachable_ok db HR) as [HI Hc].
  destruct (reachable_platform db HR) as (uuid & t & Eplat).
  specialize (Hc ch a). unfold pair_total in Hc.
  rewrite (sumZ_filter_split (λ r, ac_customer r ≠ None)) in Hc.
  rewrite !list_filter_filter in Hc.
  assert (customers_total db ch a =
    sumZ (λ r, sum_postings db (ac_id r)) (filter (λ r, ac_customer r ≠ None ∧ of_pair ch a r) (t_accounts db))) as ->.
  { unfold customers_total. f_equal. apply list_filter_iff. intros r. tauto. }
  assert (filter (λ r, ¬ ac_customer r ≠ None ∧ of_pair ch a r) (t_accounts db) =
          filter (of_pair ch a) (platform_accounts db)) as E.
  { unfold platform_accounts. rewrite list_filter_filter. apply list_filter_iff. intros r.
    split; intros [H1 H2]; [split; [done|by apply dec_stable]|split; [by intros ?|done]]. }
  rewrite E in Hc.
  assert (∀ r, r ∈ platform_accounts db → balance_ok db r) as Hb.
  { intros r [_ Hr]%list_elem_of_filter. by apply (inv_balances _ HI). }
  revert Hc Hb. rewrite Eplat. unfold SupportedChainAssetPairs in Hpair. intros Hc Hb.
  assert (sumZ (λ r, sum_postings db (ac_id r)) (filter (of_pair ch a) (t_accounts (migrated_db uuid t)))
          = paid_out db ch a - deposited db ch a) as Hp; [|lia].
  destruct (migrated_pair uuid t ch a Hpair) as (i & j & Ef).
  assert (∀ r, r ∈ filter (of_pair ch a) (t_accounts (migrated_db uuid t)) → balance_ok db r) as Hb'
    by (intros r [_ Hr]%list_elem_of_filter; by apply Hb).
  rewrite Ef in Hb' |- *.
  pose proof (Hb' _ ltac:(by left)) as H1. pose proof (Hb' _ ltac:(by right; left)) as H2.
  cbv [balance_ok ac_customer ac_type ac_chain ac_asset ac_id] in H1, H2. simpl. lia.
Qed.

(** ** Every entry point refines the abstract system *)

Section system.
Context `{DD : DepositAddressDeriver} `{FE : FeeEstimator} `{Scan : ChainScanner} `{G : Signer}.
Context `{B : TransactionBroadcaster}.
Context (Fee_quiet : ∀ ch a z, quiet (EstimateFee ch a z)).
Context `{!ChainScannerLaws Scan} `{!SignerLaws G} `{!TransactionBroadcasterLaws B}.
Context (uuid_Parse : string → option bytes) (uuid_String : bytes → string).
Context (encode_problem : ProblemDetails → bytes) (encode_payload : Payload → bytes).
Context (decode_transfer : bytes → option TransferBody) (decode_withdrawal : bytes → option WithdrawalBody).
Context (decode_approve : bytes → option ApproveBody) (sha256 hmac : bytes → bytes).
Context (zone : Z → Z) (route : Request → Endpoint).

(** What the three binaries are made of: the API's requests, the watcher's token
    registration and polls, the broadcaster's claims, receipt polls and alerts. *)
Inductive Entry :=
  | EnApi (r : Request)
  | EnRegisterToken (chain contract asset : string)
  | EnWatch (chain : Chain)
  | EnBroadcast (chain : Chain) (allowClaim : bool)
  | EnPollReceipts (chain : Chain)
  | EnDetectStuck (chain : Chain) (olderThan : Z).

Let history_repository :=
  postgres_TransactionRepository zone uuid_Parse hmac.

Definition run_entry (e : Entry) : M unit :=
  match e with
  | EnApi r =>
      let! _ := @api_request _ _ history_repository _ uuid_Parse uuid_String encode_problem encode_payload
        decode_transfer decode_withdrawal decode_approve sha256 route r in ret tt
  | EnRegisterToken chain contract asset => TokenRegistry_UpsertToken chain contract asset
  | EnWatch chain => let! _ := TrackDeposits_Execute chain in ret tt
  | EnBroadcast chain allowClaim =>
      let! _ := SignAndBroadcastWithdrawal_Execute chain allowClaim in ret tt
  | EnPollReceipts chain => let! _ := PollWithdrawalReceipts_Execute chain in ret tt
  | EnDetectStuck chain olderThan => let! _ := DetectStuckWithdrawals_Execute chain olderThan in ret tt
  end.

Lemma history_reads id n cur : tx_reads (@ListCustomerTransactions history_repository id n cur).
Proof.
  simpl. unfold TransactionRepository_ListCustomerTransactions, wrapping, scan_big. tx_reads_tac.
Qed.
Lemma deposits_reads id : tx_reads (ListCustomerDeposits id).
Proof. simpl. unfold DepositReader_ListCustomerDeposits, wrapping, scan_big. tx_reads_tac. Qed.

Lemma run_entry_preserves I e :
  (∀ db db', I db → commit db db' → I db') → preserves I (run_entry e).
Proof.
  intros HI. destruct e; simpl.
  - apply preserves_bind; [|auto with preserves]. apply api_request_preserves; try done.
    + apply history_reads.
    + apply deposits_reads.
    + intros id n cur. simpl. unfold TransactionRepository_ListCustomerTransactions, scan_big. preserves_tac.
    + intros id. simpl. unfold DepositReader_ListCustomerDeposits, scan_big. preserves_tac.
  - by apply UpsertToken_preserves.
  - apply preserves_bind; [by apply TrackDeposits_preserves|auto with preserves].
  - apply preserves_bind; [|auto with preserves]. apply SignAndBroadcast_preserves;
      [..|done|done]; intros *; eauto using broadcast_step, broadcast_step_commit.
  - apply preserves_bind; [by apply PollWithdrawalReceipts_preserves|auto with preserves].
  - apply preserves_bind; [by apply DetectStuckWithdrawals_preserves|auto with preserves].
Qed.

(** The state after a sequence of entry points of one process. *)
Fixpoint run_entries (es : list Entry) (c : Ctx) (s : St) : St :=
  match es with
  | [] => s
  | e :: es => run_entries es c (snd (run_entry e c s))
  end.

Lemma run_entries_preserves (I : DB → Prop) es c s :
  (∀ db db', I db → commit db db' → I db') → cx_tx c = None →
  (∀ n db, I db → I (env_other (cx_env c) n db)) → I (st_db s) → I (st_db (run_entries es c s)).
Proof.
  intros HI Hc Ho. revert s. induction es as [|e es IH]; intros s HR; [done|]. simpl. apply IH.
  destruct (run_entry e c s) as [r s'] eqn:E. by eapply run_entry_preserves.
Qed.

Lemma reachable_commit db db' : reachable db → commit db db' → reachable db'.
Proof. intros (uuid & t & Hinj & Hs) HC. exists uuid, t. split; [done|]. by eapply rtc_r. Qed.
Lemma reachable_commits db db' : reachable db → rtc commit db db' → reachable db'.
Proof. intros (uuid & t & Hinj & H1) H2. exists uuid, t. split; [done|by etrans]. Qed.

(** C9: whatever faults, lost acknowledgements and interleavings there are, every
    sequence of entry points takes the committed database only along [commit]
    steps, its own or other sessions': the database it leaves is reached from the one
    it found by whole committed transactions. The code refines the abstract
    transaction system. *)
Theorem entries_refine_commits es c s :
  cx_tx c = None → (∀ n db, reachable db → rtc commit db (env_other (cx_env c) n db)) →
  reachable (st_db s) → rtc commit (st_db s) (st_db (run_entries es c s)).
Proof.
  intros Hc Ho HR. apply (run_entries_preserves (λ db, reachable db ∧ rtc commit (st_db s) db)); [| |..]; try done.
  - intros db db' [Hr Hs] HC. split; [by eapply reachable_commit|by eapply rtc_r].
  - intros n db [Hr Hs]. pose proof (Ho n db Hr) as Hn.
    split; [by eapply reachable_commits|by etrans].
Qed.
End system.

(** ** What holds of every reachable database *)

(** C1: double entry. Every journal entry's postings sum to zero, every posting
    belongs to an entry and an account, and no entry or cause repeats. *)
Theorem reachable_ledger db :
  reachable db →
  (∀ e, entry_sum db e = 0) ∧ NoDup (map je_cause (t_journal_entries db)) ∧
  (∀ p, p ∈ t_postings db → po_entry p ∈ map je_id (t_journal_entries db) ∧
                             po_account p ∈ map ac_id (t_accounts db)).
Proof.
  intros HR. destruct (reachable_ok db HR) as [[[] _ _ _] _]. split_and!; try done. auto.
Qed.

(** C2: solvency. No customer's available balance is negative, every hold balance is
    exactly the customer's open withdrawals, and what a pair's customers hold
    together is exactly what was credited less what was paid out on chain. *)
Theorem reachable_solvent db :
  reachable db →
  (∀ r cust, r ∈ t_accounts db → ac_customer r = Some cust →
     match ac_type r with
     | AccountTypeAvailable => 0 <= sum_postings db (ac_id r)
     | AccountTypeHold => sum_postings db (ac_id r) = held db cust (ac_chain r) (ac_asset r)
     | AccountTypeTreasury => False
     end) ∧
  (∀ ch a, (ch, a) ∈ SupportedChainAssetPairs →
     customers_total db ch a = deposited db ch a - paid_out db ch a).
Proof.
  intros HR. destruct (reachable_ok db HR) as [HI _]. split.
  - intros r cust Hr Ec. pose proof (inv_balances _ HI r Hr) as Hb. unfold balance_ok in Hb.
    rewrite Ec in Hb. by destruct (ac_type r).
  - intros ch a. by apply customers_total_eq.
Qed.

(** C8: nonces. On every chain the nonces allocated to withdrawals, in the order of
    allocation, are 0, 1, 2, ... up to the counter: none is skipped, none repeats,
    and each belongs to the one withdrawal that carries it. *)
Theorem reachable_nonces db n :
  reachable db → n ∈ t_chain_nonce_state db →
  map ba_nonce (filter (λ a, ba_chain a = nn_chain n) (t_broadcast_attempts db)) = seqZ 0 (nn_next n) ∧
  NoDup (map ba_withdrawal (t_broadcast_attempts db)) ∧
  (∀ a, a ∈ t_broadcast_attempts db →
     ∃ w, w ∈ t_withdrawals db ∧ wr_id w = ba_withdrawal a ∧ wr_nonce w = Some (ba_nonce a)).
Proof.
  intros HR Hn. destruct (reachable_ok db HR) as [HI _]. pose proof (inv_withdrawals _ HI) as Hw.
  split_and!; [by apply (wk_nonces _ Hw)|apply Hw|].
  intros a Ha. destruct (wk_attempt _ Hw a Ha) as (w & ? & ? & _ & ?). eauto.
Qed.

(** C4: settlement happens exactly once. A withdrawal is confirmed exactly when the
    journal has its settlement entry, failed exactly when it has its release entry,
    never both, and no cause of any type has two entries: neither its settlement nor
    its release (nor its hold) can be posted a second time. *)
Theorem reachable_settlements db id :
  reachable db →
  (has_cause db withdrawalSettlementCauseType id ↔ with_status db id WithdrawalStatusConfirmed) ∧
  (has_cause db withdrawalFailureCauseType id ↔ with_status db id WithdrawalStatusFailed) ∧
  ¬ (has_cause db withdrawalSettlementCauseType id ∧ has_cause db withdrawalFailureCauseType id) ∧
  ∀ ty, (length (filter (λ e, je_cause e = (ty, id)) (t_journal_entries db)) <= 1)%nat.
Proof.
  intros HR. destruct (reachable_ok db HR) as [HI _]. pose proof (inv_withdrawals _ HI) as Hw.
  split; [apply Hw|]. split; [apply Hw|]. split.
  - intros [(w1 & H1 & E1 & S1)%(wk_confirmed _ Hw) (w2 & H2 & E2 & S2)%(wk_failed _ Hw)].
    assert (w1 = w2) as ->; [|congruence].
    apply (key_unique wr_id (t_withdrawals db) w2 (wk_ids _ Hw) H2 w1 H1). congruence.
  - intros ty. apply filter_key_le_1. apply (inv_ledger _ HI).
Qed.

(** C5: a deposit is credited exactly once: its credit entry exists exactly when the
    row is credited, the cause is unique, and two rows that are not orphaned never
    have the same (chain, transaction, log). *)
Theorem reachable_credits db id :
  reachable db →
  (has_cause db depositCreditCauseType id ↔
     ∃ d, d ∈ t_deposits db ∧ dr_id d = id ∧ dr_state d = DepositCredited) ∧
  (length (filter (λ e, je_cause e = (depositCreditCauseType, id)) (t_journal_entries db)) <= 1)%nat ∧
  NoDup (map dr_key (filter (λ d, dr_state d ≠ DepositOrphaned) (t_deposits db))).
Proof.
  intros HR. destruct (reachable_ok db HR) as [HI _]. pose proof (inv_deposits _ HI) as Hd.
  split_and!; [apply Hd| |apply Hd]. apply filter_key_le_1. apply (inv_ledger _ HI).
Qed.
