(* ===== verification/Sessions.v ===== *)
(** * Concurrent sessions

    What the statements of Sql.v claim, share and change, and the order in which the
    API's transactions lock and write: the accounts of a transfer or a withdrawal request
    first and all at once (transfer_repo.go 33-55, withdrawal_repo.go 175-191), or the
    withdrawal of an approval (380-384); then one journal entry, its postings, and the
    idempotency key last. [api_session] are those transactions, and one that runs to its
    end on a database is one step of System.v ([api_session_commits]). *)

From Stdlib Require Import ZArith Lia.
From stdpp Require Import prelude strings sorting gmap fin_maps.
From S2P Require Import Prelude GoStd Domain Store Effects Ledger Transfers Withdrawals WithdrawalSpecs Deposits.
From S2P Require Import Solvency Conservation CreateWithdrawals Sql Idempotency System.

(** ** What a write claims and refers to *)

(** The values of unique columns, and the rows foreign keys refer to. *)
Inductive Slot :=
  | SEntry (id : string)
  | SCause (cause : string * string)
  | SPosting (id : string)
  | SWithdrawal (id : string)
  | SOutbox (id : string)
  | SKey (key : string)
  | SAccount (id : string)
  | SCustomer (id : string).
#[export] Instance Slot_eq_dec : EqDecision Slot.
Proof. solve_decision. Defined.

Definition used (db : DB) (k : Slot) : Prop :=
  match k with
  | SEntry id => id ∈ map je_id (t_journal_entries db)
  | SCause cause => cause ∈ map je_cause (t_journal_entries db)
  | SPosting id => id ∈ map po_id (t_postings db)
  | SWithdrawal id => id ∈ map wr_id (t_withdrawals db)
  | SOutbox id => id ∈ map ob_id (t_outbox_events db)
  | SKey key => key ∈ map ik_key (t_idempotency_keys db)
  | SAccount id => id ∈ map ac_id (t_accounts db)
  | SCustomer id => id ∈ map cu_id (t_customers db)
  end.

Definition claims (w : Write) : list Slot :=
  match w with
  | WEntry r => [SEntry (je_id r); SCause (je_cause r)]
  | WPosting r => [SPosting (po_id r)]
  | WWithdrawal r => [SWithdrawal (wr_id r)]
  | WOutbox r => [SOutbox (ob_id r)]
  | WKey r => [SKey (ik_key r)]
  | WCredited _ _ | WApproved _ _ _ _ => []
  end.
Definition refs (w : Write) : list Slot :=
  match w with
  | WPosting r => [SEntry (po_entry r); SAccount (po_account r)]
  | WWithdrawal r => [SCustomer (wr_customer r); SEntry (wr_hold_entry r)]
  | _ => []
  end.
(** The account whose row the foreign key of a posting locks FOR KEY SHARE. *)
Definition shares (w : Write) : list Slot := match w with WPosting r => [SAccount (po_account r)] | _ => [] end.
(** The withdrawal an UPDATE changes. *)
Definition touches (w : Write) : list Slot := match w with WApproved id _ _ _ => [SWithdrawal id] | _ => [] end.

(** The CHECKs and column types. *)
Definition checks (w : Write) : Prop :=
  match w with
  | WPosting r => numeric78 (po_amount r)
  | WWithdrawal r => numeric78 (wr_amount r) ∧ known_chain (wr_chain r) ∧ known_asset (wr_asset r) ∧
      0 < wr_amount r ∧ hex_text 40 (wr_destination r)
  | WApproved _ actor reason _ => Forall pg_text [actor; reason]
  | WKey r => is_integer (ik_status r)
  | _ => True
  end.

Definition claims_of (ws : list Write) : list Slot := ws ≫= claims.
Definition shares_of (ws : list Write) : list Slot := ws ≫= shares.
Definition touches_of (ws : list Write) : list Slot := ws ≫= touches.

Lemma exec_ok w db :
  exec w db = PgOk (write w db) ↔ Forall (λ k, ¬ used db k) (claims w) ∧ Forall (used db) (refs w) ∧ checks w.
Proof.
  assert (∀ d : DB, PgOk d = PgOk d ↔ True) as Hd by done.
  destruct w; [..|cbn [exec write claims refs checks]; rewrite pg_require_ok, !Forall_nil, Hd; tauto];
    cbn [exec write claims refs checks];
    unfold insert_journal_entry, insert_posting, insert_withdrawal, insert_outbox_event, insert_idempotency_key;
    rewrite ?pg_require_ok, ?Forall_cons, ?Forall_nil, Hd; cbn [used]; tauto.
Qed.

Lemma used_write w db k : used (write w db) k ↔ used db k ∨ k ∈ claims w.
Proof.
  destruct w, k; cbn [write claims used t_journal_entries t_postings t_withdrawals t_outbox_events
    t_idempotency_keys t_accounts t_customers set_journal_entries set_postings set_withdrawals set_outbox_events
    set_idempotency_keys mark_credited set_deposits mark_approved];
    rewrite ?map_app, ?elem_of_app, ?(update_where_keys wr_id) by done; cbn [map];
    rewrite ?elem_of_cons, ?elem_of_nil; naive_solver.
Qed.

Lemma used_view db ws k : used (view db ws) k ↔ used db k ∨ k ∈ claims_of ws.
Proof.
  induction ws as [|w ws IH] using rev_ind; [unfold claims_of; simpl; rewrite elem_of_nil; tauto|].
  rewrite view_snoc, used_write, IH. unfold claims_of. rewrite bind_app, elem_of_app. simpl. rewrite app_nil_r. tauto.
Qed.

Lemma write_accounts w db : t_accounts (write w db) = t_accounts db.
Proof. by destruct w. Qed.
Lemma view_accounts db ws : t_accounts (view db ws) = t_accounts db.
Proof. induction ws as [|w ws IH] using rev_ind; [done|]. by rewrite view_snoc, write_accounts. Qed.
Lemma view_select db ws keys : select_accounts keys (view db ws) = select_accounts keys db.
Proof. unfold select_accounts. by rewrite view_accounts. Qed.

(** What the writes add to an account. *)
Definition added (ws : list Write) (account : string) : Z :=
  sumZ (λ w, match w with WPosting r => if decide (po_account r = account) then po_amount r else 0 | _ => 0 end) ws.

Lemma sum_view db ws a : sum_postings (view db ws) a = sum_postings db a + added ws a.
Proof.
  induction ws as [|w ws IH] using rev_ind; [unfold added; simpl; lia|].
  rewrite view_snoc. unfold added in *. rewrite sumZ_app. cbn [sumZ foldr].
  rewrite Z.add_assoc, <-IH. destruct w; try (unfold sum_postings; simpl; lia).
  unfold sum_postings. cbn [write t_postings set_postings]. rewrite filter_app, sumZ_app.
  case_decide as E; [rewrite (filter_cons_True _ r) by done|rewrite (filter_cons_False _ r) by done]; simpl; lia.
Qed.

Lemma added_unshared ws a : SAccount a ∉ shares_of ws → added ws a = 0.
Proof.
  unfold added, shares_of. induction ws as [|w ws IH]; [done|]. simpl. rewrite not_elem_of_app. intros [Hw Hws].
  rewrite IH by done. destruct w; try done. cbn in Hw. rewrite decide_False by set_solver. done.
Qed.

(** The rows of one withdrawal. *)
Definition rows_of (db : DB) (id : string) : list WithdrawalRow := filter (λ r, wr_id r = id) (t_withdrawals db).

Lemma find_rows_of db id : find_withdrawal db id = head (rows_of db id).
Proof.
  unfold find_withdrawal, rows_of. induction (t_withdrawals db) as [|r l IH]; [done|]. simpl.
  case_bool_decide as E; [by rewrite filter_cons_True|by rewrite filter_cons_False].
Qed.

Lemma affected_rows_of db id :
  rows_affected (approvable id) (t_withdrawals db) =
  length (filter (λ r, wr_status r = WithdrawalStatusAwaitingApproval) (rows_of db id)).
Proof.
  unfold rows_affected, rows_of. rewrite list_filter_filter. f_equal. apply list_filter_iff. intros r.
  unfold approvable. tauto.
Qed.

Lemma rows_write_alike w db db' id : rows_of db' id = rows_of db id → rows_of (write w db') id = rows_of (write w db) id.
Proof.
  unfold rows_of. destruct w; cbn [write t_withdrawals set_journal_entries set_postings set_withdrawals set_outbox_events
    set_idempotency_keys mark_credited set_deposits mark_approved]; [done|done| |done..|].
  - rewrite !filter_app. by intros ->.
  - rewrite !filter_update_where by done. by intros ->.
Qed.

Lemma rows_view_alike ws db db' id : rows_of db' id = rows_of db id → rows_of (view db' ws) id = rows_of (view db ws) id.
Proof.
  intros H. induction ws as [|w ws IH] using rev_ind; [done|]. rewrite !view_snoc. by apply rows_write_alike.
Qed.

(** Writes to other withdrawals. *)
Lemma rows_write w db id :
  SWithdrawal id ∉ claims w → SWithdrawal id ∉ touches w → rows_of (write w db) id = rows_of db id.
Proof.
  unfold rows_of. destruct w as [| |r| | | |i actor reason now]; cbn [write claims touches t_withdrawals
    set_journal_entries set_postings set_withdrawals set_outbox_events set_idempotency_keys mark_credited set_deposits
    mark_approved]; rewrite ?elem_of_cons, ?elem_of_nil; try done.
  - intros Hc _. rewrite filter_app, filter_cons_False by naive_solver. apply app_nil_r.
  - intros _ Ht. rewrite filter_update_where by done. unfold update_where. rewrite <-(map_id (filter _ _)) at 2.
    apply map_ext_in. intros r Hr%list_elem_of_In. apply list_elem_of_filter in Hr as [<- _].
    apply decide_False. intros [E _]. naive_solver.
Qed.

Lemma rows_view ws db id :
  SWithdrawal id ∉ claims_of ws → SWithdrawal id ∉ touches_of ws → rows_of (view db ws) id = rows_of db id.
Proof.
  induction ws as [|w ws IH] using rev_ind; [done|]. unfold claims_of, touches_of in *.
  rewrite !bind_app, !not_elem_of_app. simpl. rewrite !app_nil_r. intros [Hc Hcw] [Ht Htw].
  rewrite view_snoc, rows_write by done. by apply IH.
Qed.

(** ** The discipline of the programs *)

Definition slot_id (k : Slot) : option string :=
  match k with SEntry id | SPosting id | SWithdrawal id | SOutbox id => Some id | _ => None end.

(** Ids are drawn before they are used. *)
Definition owned (ids : list string) (w : Write) : Prop :=
  Forall (λ k, match slot_id k with Some id => id ∈ ids | None => True end) (claims w).

(** One journal entry (a cause), then one idempotency key. *)
Definition next_stage (stage : nat) (w : Write) : option nat :=
  match w with
  | WEntry _ => if decide (stage = 0)%nat then Some 1%nat else None
  | WKey _ => if decide (stage <= 1)%nat then Some 2%nat else None
  | WCredited _ _ | WApproved _ _ _ _ => None
  | _ => Some stage
  end.

(** A program that holds the locks [L] reads the balance of, and posts to, accounts of
    [L] only, updates withdrawals of [L] only, and acquires no further lock. [Q] is what
    holds when it returns. *)
Fixpoint ordered {A} (Q : list string → nat → A → Prop) (L : list Slot) (ids : list string) (stage : nat) (p : Prog A)
    : Prop :=
  match p with
  | Return a => Q ids stage a
  | Raise _ => True
  | LockAccounts _ _ _ | LockWithdrawal _ _ _ | Select _ _ _ => False
  | Approve id _ _ _ _ k => SWithdrawal id ∈ L ∧ ∀ n, ordered Q L ids stage (k n)
  | SumPostings a _ k => SAccount a ∈ L ∧ ∀ z, ordered Q L ids stage (k z)
  | Exec w _ k => owned ids w ∧ Forall (λ a, a ∈ L) (shares w) ∧
      ∃ stage', next_stage stage w = Some stage' ∧ ordered Q L ids stage' k
  | NewID _ k => ∀ id, ordered Q L (id :: ids) stage (k id)
  | Now k => ∀ t, ordered Q L ids stage (k t)
  end.

Lemma ordered_bind {A B} Q R L ids stage (p : Prog A) (f : A → Prog B) :
  ordered Q L ids stage p → (∀ ids stage a, Q ids stage a → ordered R L ids stage (f a)) →
  ordered R L ids stage (bindP p f).
Proof.
  intros Hp Hf. revert ids stage Hp. induction p; intros ids stage; simpl; try naive_solver.
Qed.

(** The rows a lock statement may return, and when they are all it asks for. *)
Definition selected (keys : list AccountKey) (rows : list AccountRow) : Prop :=
  Forall (λ r, account_key r ∈ keys) rows.
Definition complete (keys : list AccountKey) (rows : list AccountRow) : Prop :=
  ∀ key, key ∈ keys → key ∈ map account_key rows.

Definition ends_at {A} (last : nat) (_ : list string) (stage : nat) (_ : A) : Prop := stage = last.
Definition account_locks (rows : list AccountRow) : list Slot := map SAccount (map ac_id rows).

(** Either its accounts are locked first, all at once, or one withdrawal; without one of
    them the program fails. A program that returns has reached stage [last]. *)
Inductive locks_first {A} (last : nat) : Prog A → Prop :=
  | locks_accounts keys on_err k :
      (∀ rows, selected keys rows →
         (complete keys rows ∧ ordered (ends_at last) (account_locks rows) [] 0 (k rows)) ∨ (∃ e, k rows = Raise e)) →
      locks_first last (LockAccounts keys on_err k)
  | locks_withdrawal id on_err k :
      (∃ e, k None = Raise e) → (∀ row, ordered (ends_at last) [SWithdrawal id] [] 0 (k (Some row))) →
      locks_first last (LockWithdrawal id on_err k).

(** ** The programs keep it *)

Lemma ordered_optionP {A B} Q L ids stage (o : option A) e (k : A → Prog B) :
  (∀ a, o = Some a → ordered Q L ids stage (k a)) → ordered Q L ids stage (optionP o e k).
Proof. destruct o; simpl; [by intros H; apply H|done]. Qed.

(** The goal [owned _ _ ∧ Forall _ _ ∧ _] of an INSERT that posts to no account. *)
Ltac owned_by_id :=
  split; [unfold owned; cbn [claims]; repeat (apply Forall_cons_2; [cbn; set_solver|]); apply Forall_nil_2
         |split; [apply Forall_nil_2|]].

Lemma ordered_postings {A} Q L ids stage entry debit credit amount now (k : Prog A) :
  SAccount debit ∈ L → SAccount credit ∈ L → (∀ ids', ids ⊆ ids' → ordered Q L ids' stage k) →
  ordered Q L ids stage (postings_prog entry debit credit amount now k).
Proof.
  intros Hd Hc Hk p q. simpl. unfold owned; cbn [claims shares]. rewrite !Forall_singleton. cbn [slot_id po_id po_account].
  split_and!; [set_solver|done|]. exists stage. split; [done|].
  rewrite !Forall_singleton. cbn [slot_id po_id po_account]. split_and!; [set_solver|done|].
  exists stage. split; [done|]. apply Hk. set_solver.
Qed.

(** What the lookup of a customer's account among the locked rows finds. *)
Lemma customer_lookup (rows : list (string * string)) c i :
  foldl (λ m '(accountID, customerID), <[customerID := accountID]> m) (∅ : gmap string string) rows !! c = Some i →
  (i, c) ∈ rows.
Proof.
  induction rows as [|[j d] rows IH] using rev_ind; [done|]. rewrite foldl_app. simpl.
  rewrite elem_of_app. destruct (decide (d = c)) as [->|Hne].
  - rewrite lookup_insert_eq. intros [= ->]. right. by left.
  - rewrite lookup_insert_ne by done. intros H. left. by apply IH.
Qed.

Lemma selected_id keys rows r :
  selected keys rows → r ∈ rows → SAccount (ac_id r) ∈ account_locks rows ∧ account_key r ∈ keys.
Proof.
  intros Hs Hr. split; [by do 2 apply list_elem_of_fmap_2|]. by eapply Forall_forall in Hs.
Qed.

Lemma transfer_key req r :
  account_key r ∈ transfer_keys req →
  account_key r = (Some (default EmptyString (ac_customer r)), tr_Chain req, tr_Asset req, AccountTypeAvailable).
Proof.
  unfold transfer_keys, account_key. rewrite !elem_of_cons, elem_of_nil.
  intros [[= E -> -> ->]|[[= E -> -> ->]|[]]]; by rewrite E.
Qed.

Lemma transfer_prog_locks req : locks_first 1 (transfer_prog req).
Proof.
  constructor. intros rows Hs. cbv zeta.
  set (rs := map (λ r, (ac_id r, default EmptyString (ac_customer r))) rows).
  destruct (foldl _ ∅ rs !! tr_Source req) as [src|] eqn:Es; [|right; by eexists].
  destruct (foldl _ ∅ rs !! tr_Destination req) as [dst|] eqn:Ed; [|right; by eexists].
  apply customer_lookup, list_elem_of_fmap in Es as (a & [= -> Ea] & Ha).
  apply customer_lookup, list_elem_of_fmap in Ed as (b & [= -> Eb] & Hb).
  pose proof (selected_id _ _ _ Hs Ha) as [Ia Ka%transfer_key].
  pose proof (selected_id _ _ _ Hs Hb) as [Ib Kb%transfer_key].
  left. split.
  - unfold complete, transfer_keys. intros key. rewrite !elem_of_cons, elem_of_nil.
    intros [->|[->|[]]]; apply list_elem_of_fmap; [exists a|exists b]; (split; [|done]); congruence.
  - cbn [optionP ordered]. split; [done|]. intros sum. apply ordered_optionP. intros balance _.
    destruct (balance <? _); [done|]. cbn [ordered]. intros je t. owned_by_id.
    exists 1%nat. split; [done|]. apply ordered_postings; [done..|]. by intros ids _.
Qed.

Lemma withdrawal_prog_locks req fee status : locks_first 1 (withdrawal_prog req fee status).
Proof.
  constructor. intros rows Hs. cbv zeta.
  case_decide; [right; by eexists|].
  destruct (by_type _ !! AccountType_text AccountTypeAvailable) as [av|] eqn:Ea; [|right; by eexists].
  destruct (by_type _ !! AccountType_text AccountTypeHold) as [ho|] eqn:Eh; [|right; by eexists].
  apply by_type_lookup, list_elem_of_fmap in Ea as (a & [= -> Ea] & Ha).
  apply by_type_lookup, list_elem_of_fmap in Eh as (b & [= -> Eb] & Hb).
  pose proof (selected_id _ _ _ Hs Ha) as [Ia Ka]. pose proof (selected_id _ _ _ Hs Hb) as [Ib Kb].
  left. split.
  - unfold complete, hold_keys, account_key in *. intros key. rewrite !elem_of_cons, elem_of_nil in *.
    intros [->|[->|[]]]; apply list_elem_of_fmap; [exists a|exists b]; (split; [|done]); naive_solver congruence.
  - cbn [optionP ordered]. split; [done|]. intros sum. apply ordered_optionP. intros balance _.
    destruct (balance <? _); [done|]. destruct (_ <? fee); [done|]. cbn [ordered]. intros je t. owned_by_id.
    exists 1%nat. split; [done|]. apply ordered_postings; [done..|]. intros ids Hids. cbn [ordered]. intros wid. owned_by_id.
    exists 1%nat. split; [done|]. apply ordered_optionP. intros et _. unfold outbox_prog. cbn [ordered]. intros oid. owned_by_id. by exists 1%nat.
Qed.

Lemma approve_prog_locks id actor reason : locks_first 0 (approve_prog id actor reason).
Proof.
  constructor; [by eexists|]. intros row. cbn [optionP]. case_decide; [done|].
  apply ordered_optionP. intros amount _. cbn [ordered]. intros t. split; [by left|]. intros n.
  case_decide; [done|]. unfold outbox_prog. cbn [ordered]. intros oid. owned_by_id. by exists 0%nat.
Qed.

(** ** The sessions of the API *)

(** The transaction of a mutating request (middleware_idempotency.go): the handler's
    statements, then the INSERT of its idempotency key. What fails rolls it back. *)
Definition request_prog {A} (p : Prog A) (row : A → IdempotencyRow) : Prog unit :=
  bindP p (λ a, Exec (WKey (row a))
    (λ e, if is_unique_violation e then ErrIs ErrKeyConflict else wrap "insert idempotency key" e) (Return tt)).

(** The requests that move money or approve a withdrawal, from their locking statement
    on. [db0] is the database the approval threshold was read from, before that. *)
Inductive api_session (db0 : DB) : Prog unit → Prop :=
  | as_transfer req row :
      0 < default 0 (tr_Amount req) → api_session db0 (request_prog (transfer_prog req) row)
  | as_withdrawal req fee th row :
      withdrawal_refusal req = None → find_threshold db0 (wq_Chain req) (wq_Asset req) = Some th →
      api_session db0 (request_prog
        (withdrawal_prog req fee (target_status (default 0 (wq_Amount req)) (th_amount th))) row)
  | as_approval id actor reason row : api_session db0 (request_prog (approve_prog id actor reason) row).

Lemma request_ordered {A} last L (p : Prog A) (row : A → IdempotencyRow) on_err :
  (last <= 1)%nat → ordered (ends_at last) L [] 0 p →
  ordered (ends_at 2) L [] 0 (bindP p (λ a, Exec (WKey (row a)) on_err (Return tt))).
Proof.
  intros Hl Hp. eapply ordered_bind; [exact Hp|]. intros ids stage a ->. cbn [ordered]. owned_by_id.
  exists 2%nat. split; [|done]. simpl. by rewrite decide_True.
Qed.

Lemma request_prog_locks {A} last (p : Prog A) row :
  (last <= 1)%nat → locks_first last p → locks_first 2 (request_prog p row).
Proof.
  intros Hl [keys on_err k Hk|id on_err k [e E] Hk]; unfold request_prog; cbn [bindP]; constructor.
  - intros rows Hs. destruct (Hk rows Hs) as [[Hc Ho]|[e ->]]; [left|right; by eexists].
    split; [done|]. by eapply request_ordered.
  - exists e. by rewrite E.
  - intros r. by eapply request_ordered.
Qed.

Lemma api_session_locks db0 p : api_session db0 p → locks_first 2 p.
Proof.
  intros []; (eapply request_prog_locks;
    [|first [apply transfer_prog_locks|apply withdrawal_prog_locks|apply approve_prog_locks]]); lia.
Qed.

Lemma run_bindP {A B} (p : Prog A) (f : A → Prog B) : run (bindP p f) ≈ bind (run p) (λ a, run (f a)).
Proof.
  induction p; cbn [bindP run]; [done|done|rewrite bind_assoc; apply bind_alike; intros; done..].
Qed.

(** A session that has returned, run alone on the database it commits to, is one
    committed request. *)
Lemma api_session_commits db0 p db ws :
  api_session db0 p → rtc (sql_step db) (p, []) (Return tt, ws) → commit db (view db ws).
Proof.
  intros Hp Hws. apply replay_alone in Hws as (c & s & s' & Hc & <- & Hrun & <-).
  assert (∀ A (q : Prog A) row, (∀ c s a s', runs_in_tx c → run q c s = (Ok a, s') → api_act (st_db s) (st_db s')) →
    run (request_prog q row) c s = (Ok tt, s') → commit (st_db s) (st_db s')) as Hreq.
  { intros A q row Hq H. unfold request_prog in H. rewrite (alike_run _ _ (run_bindP _ _)) in H. cbn [run] in H.
    m_inv. rename select (exec _ _ = _) into Hx. apply exec_write in Hx. rewrite Hx. apply commit_api. by eapply Hq. }
  destruct Hp as [req row Hamt|req fee th row Hr Hth|id actor reason row]; (eapply Hreq; [|exact Hrun]); clear c s s' Hc Hrun Hreq.
  - intros c s t s' Hc H. rewrite (alike_run _ _ (transfer_prog_is_code req)) in H.
    apply CreateTransfer_refines in H as [HT _]; [|done]. by eapply act_transfer.
  - intros c s w s' Hc H. rewrite (alike_run _ _ (withdrawal_prog_is_code _ _ _)) in H.
    apply CreateWithdrawal_refines in H as [HC _]; [|done]. apply (act_create db0 req _ w). exists fee, th.
    split_and!; [done..|]. assert (w_Amount w = default 0 (wq_Amount req)) as ->; [|done].
    by rewrite (cr_result _ _ _ _ _ _ HC).
  - intros c s w s' Hc H. rewrite (alike_run _ _ (approve_prog_is_code _ _ _)) in H.
    apply ApproveWithdrawal_refines in H as [HA _]; [|done]. by eapply act_approve.
Qed.
