(* ===== verification/Interleaving.v ===== *)
(** * Interleavings

    Sessions of the API interleaved statement by statement with each other, while
    anything else of the platform commits in between: the row locks that
    [SELECT ... FOR UPDATE] takes, on accounts one by one in the order of the ids, or on
    a withdrawal, whose row is read once the lock is granted; the waits of
    unique indexes for other transactions' uncommitted rows, and the waits of foreign
    keys for the lock of the referenced account. Every session that commits is one
    step of the abstract system of System.v, on the database it commits to. *)

From Stdlib Require Import ZArith Lia.
From stdpp Require Import prelude strings sorting gmap fin_maps.
From S2P Require Import Prelude GoStd Domain Store Effects Ledger Transfers Withdrawals.
From S2P Require Import Solvency History CreateWithdrawals Sql Idempotency System Sessions.

(** ** The machine *)

(** A transaction in progress: the accounts its current statement has yet to lock
    before [se_prog], the rows it has locked, its uncommitted writes and its ids. *)
Record Session := mkSession {
  se_prog : Prog unit; se_todo : list string; se_locks : list Slot;
  se_writes : list Write; se_ids : list string;
}.

(** The committed database and the transactions in progress. *)
Record World := mkWorld { w_db : DB; w_sessions : gmap nat Session }.

Definition put (i : nat) (se : Session) (w : World) : World := mkWorld (w_db w) (<[i := se]> (w_sessions w)).
Definition close (i : nat) (db : DB) (w : World) : World := mkWorld db (delete i (w_sessions w)).

(** FOR UPDATE waits for FOR UPDATE, and for the KEY SHARE of an uncommitted row that
    refers to the account. *)
Definition lockable (i : nat) (k : Slot) (w : World) : Prop :=
  map_Forall (λ _ se, k ∉ se_locks se ∧ k ∉ shares_of (se_writes se)) (delete i (w_sessions w)).

(** An INSERT waits for uncommitted rows with one of its keys, and for FOR UPDATE of
    the account it refers to. *)
Definition writable (i : nat) (x : Write) (w : World) : Prop :=
  map_Forall (λ _ se, Forall (λ k, k ∉ claims_of (se_writes se)) (claims x) ∧
                      Forall (λ k, k ∉ se_locks se) (shares x)) (delete i (w_sessions w)).

(** A generated id is nobody else's. *)
Definition unused_id (id : string) (w : World) : Prop := map_Forall (λ _ se, id ∉ se_ids se) (w_sessions w).

#[export] Instance lockable_dec i k w : Decision (lockable i k w).
Proof. unfold lockable. apply _. Defined.
#[export] Instance writable_dec i x w : Decision (writable i x w).
Proof. unfold writable. apply _. Defined.
#[export] Instance unused_id_dec id w : Decision (unused_id id w).
Proof. unfold unused_id. apply _. Defined.

(** What the session's next statement has to wait for. *)
Definition may_go (i : nat) (id : string) (se : Session) (w : World) : Prop :=
  match se_todo se, se_prog se with
  | a :: _, _ => lockable i (SAccount a) w
  | [], LockWithdrawal row _ _ | [], Approve row _ _ _ _ _ => lockable i (SWithdrawal row) w
  | [], Exec x _ _ => writable i x w
  | [], NewID _ _ => unused_id id w
  | [], _ => True
  end.
#[export] Instance may_go_dec i id se w : Decision (may_go i id se w).
Proof. unfold may_go. destruct (se_todo se); [destruct (se_prog se)|]; apply _. Defined.

Inductive Outcome := Continues (se : Session) | Commits (db : DB) | RollsBack.

(** The statement itself, with what a generated id and the clock would be. One that
    fails rolls the transaction back (idempotency.go). *)
Definition advance (db : DB) (id : string) (t : Z) (se : Session) : Outcome :=
  match se with
  | mkSession p (a :: todo) locks ws ids => Continues (mkSession p todo (locks ++ [SAccount a]) ws ids)
  | mkSession p [] locks ws ids =>
      let seen := view db ws in
      match p with
      | Return _ => Commits seen
      | Raise _ => RollsBack
      | LockAccounts keys _ k =>
          let rows := select_accounts keys seen in Continues (mkSession (k rows) (map ac_id rows) locks ws ids)
      | LockWithdrawal row _ k =>
          let o := find_withdrawal seen row in
          Continues (mkSession (k o) [] (if o then locks ++ [SWithdrawal row] else locks) ws ids)
      | SumPostings a _ k => Continues (mkSession (k (sum_postings seen a)) [] locks ws ids)
      | Select f _ k => Continues (mkSession (k (f seen)) [] locks ws ids)
      | Exec x _ k =>
          match exec x seen with
          | PgOk _ => Continues (mkSession k [] locks (ws ++ [x]) ids)
          | PgFail _ => RollsBack
          end
      | Approve row actor reason now _ k =>
          let x := WApproved row actor reason now in
          match exec x seen with
          | PgOk _ => Continues (mkSession (k (rows_affected (approvable row) (t_withdrawals seen))) [] locks (ws ++ [x]) ids)
          | PgFail _ => RollsBack
          end
      | NewID _ k => Continues (mkSession (k id) [] locks ws (id :: ids))
      | Now k => Continues (mkSession (k t) [] locks ws ids)
      end
  end.

(** One step of session [i]; [None]: it waits. *)
Definition session_step (i : nat) (id : string) (t : Z) (w : World) : option World :=
  match w_sessions w !! i with
  | None => None
  | Some se =>
      if decide (may_go i id se w) then
        Some (match advance (w_db w) id t se with
              | Continues se' => put i se' w
              | Commits db => close i db w
              | RollsBack => close i (w_db w) w
              end)
      else None
  end.

(** What another transaction cannot do while the session is open: post to an account
    or change a withdrawal it has locked, insert a row with a key of its uncommitted
    rows, delete a row they refer to. *)
Record undisturbed (db db' : DB) (se : Session) : Prop := {
  ud_balances : ∀ a, SAccount a ∈ se_locks se → sum_postings db' a = sum_postings db a;
  ud_rows : ∀ id, SWithdrawal id ∈ se_locks se → rows_of db' id = rows_of db id;
  ud_claims : Forall (λ k, ¬ used db' k) (claims_of (se_writes se));
  ud_refs : Forall (λ k, used db k → used db' k) (se_writes se ≫= refs);
}.

Inductive wstep (w : World) : World → Prop :=
  | w_begin i db0 p :
      w_sessions w !! i = None → api_session db0 p → wstep w (put i (mkSession p [] [] [] []) w)
  | w_session i id t w' : session_step i id t w = Some w' → wstep w w'
  | w_rollback i : wstep w (close i (w_db w) w)
  | w_other db' :
      commit (w_db w) db' → map_Forall (λ _ se, undisturbed (w_db w) db' se) (w_sessions w) →
      wstep w (mkWorld db' (w_sessions w)).

(** ** What holds of a session *)

(** What its writes have claimed at a stage of the program. *)
Definition stage_ok (stage : nat) (ws : list Write) : Prop :=
  Forall (λ k, match k with SCause _ => (1 <= stage)%nat | SKey _ => stage = 2%nat | _ => True end) (claims_of ws).

Definition id_sorted (l : list string) : Prop := StronglySorted (λ a b, str_le a b ∧ a ≠ b) l.

(** What a locking statement gives on [db], with all its locks [L]. *)
Inductive started (db : DB) : Prog unit → list Slot → Prog unit → Prop :=
  | st_accounts keys on_err k (rows := select_accounts keys db) :
      complete keys rows → started db (LockAccounts keys on_err k) (account_locks rows) (k rows)
  | st_withdrawal id on_err k row :
      find_withdrawal db id = Some row → started db (LockWithdrawal id on_err k) [SWithdrawal id] (k (Some row)).

Definition accounts_of (L : list Slot) : list string := omap (λ k, match k with SAccount a => Some a | _ => None end) L.

Inductive session_ok (db : DB) : Session → Prop :=
  | ok_start db0 p : api_session db0 p → session_ok db (mkSession p [] [] [] [])
  | ok_refuses e todo ls :
      id_sorted (ls ++ todo) → session_ok db (mkSession (Raise e) todo (map SAccount ls) [] [])
  | ok_body db0 p0 L q p todo locks ws ids stage :
      api_session db0 p0 → started db p0 L q → locks ++ map SAccount todo = L → id_sorted (accounts_of L) →
      ordered (ends_at 2) L [] 0 q →
      rtc (sql_step db) (q, []) (p, ws) →
      ordered (ends_at 2) L ids stage p →
      Forall (owned ids) ws → Forall (λ k, k ∈ L) (shares_of ws) → Forall (λ k, k ∈ L) (touches_of ws) →
      stage_ok stage ws →
      (todo = [] ∨ (p = q ∧ ws = [])) →
      session_ok db (mkSession p todo locks ws ids).

Definition apart (se se' : Session) : Prop :=
  se_locks se ## se_locks se' ∧ claims_of (se_writes se) ## claims_of (se_writes se') ∧ se_ids se ## se_ids se'.

Record world_ok (w : World) : Prop := {
  wo_reachable : reachable (w_db w);
  wo_sessions : map_Forall (λ _ se, session_ok (w_db w) se) (w_sessions w);
  wo_apart : ∀ i j se se', w_sessions w !! i = Some se → w_sessions w !! j = Some se' → i ≠ j → apart se se';
}.

(** ** A session is not disturbed by what commits in between *)

Lemma claims_of_snoc ws x k : k ∈ claims_of (ws ++ [x]) ↔ k ∈ claims_of ws ∨ k ∈ claims x.
Proof. unfold claims_of. rewrite bind_app, elem_of_app. simpl. by rewrite app_nil_r. Qed.
Lemma shares_of_snoc ws x : shares_of (ws ++ [x]) = shares_of ws ++ shares x.
Proof. unfold shares_of. rewrite bind_app. simpl. by rewrite app_nil_r. Qed.
Lemma touches_of_snoc ws x : touches_of (ws ++ [x]) = touches_of ws ++ touches x.
Proof. unfold touches_of. rewrite bind_app. simpl. by rewrite app_nil_r. Qed.

Lemma accounts_of_app L L' : accounts_of (L ++ L') = accounts_of L ++ accounts_of L'.
Proof. apply omap_app. Qed.
Lemma accounts_of_map l : accounts_of (map SAccount l) = l.
Proof. induction l as [|a l IH]; [done|]. exact (f_equal (cons a) IH). Qed.

Lemma steps_prefix {A} db (x y : Prog A * list Write) : rtc (sql_step db) x y → x.2 `prefix_of` y.2.
Proof.
  induction 1 as [x|x y z Hxy _ IH]; [done|]. etrans; [|exact IH].
  destruct Hxy; simpl; try done; by apply prefix_app_r.
Qed.

Lemma step_claims {A} db (x y : Prog A * list Write) :
  sql_step db x y → Forall (λ k, ¬ used db k) (claims_of x.2) → Forall (λ k, ¬ used db k) (claims_of y.2).
Proof.
  assert (∀ x ws, exec x (view db ws) = PgOk (view db (ws ++ [x])) →
    Forall (λ k, ¬ used db k) (claims_of ws) → Forall (λ k, ¬ used db k) (claims_of (ws ++ [x]))) as Hex.
  { intros x' ws H. rewrite view_snoc in H. apply exec_ok in H as (Hc & _).
    rewrite !Forall_forall. intros Hx k' [?|Hk']%claims_of_snoc; [by apply Hx|].
    eapply Forall_forall in Hc; [|exact Hk']. rewrite used_view in Hc. tauto. }
  destruct 1; simpl; try done; by apply Hex.
Qed.

Lemma steps_claims {A} db (p q : Prog A) ws :
  rtc (sql_step db) (p, []) (q, ws) → Forall (λ k, ¬ used db k) (claims_of ws).
Proof.
  intros H. change ws with ((q, ws).2). assert (Forall (λ k, ¬ used db k) (claims_of (p, [] : list Write).2)) as H0
    by apply Forall_nil_2.
  revert H0. induction H as [x|x y z Hxy _ IH]; [done|]. intros H0. by apply IH, (step_claims _ _ _ Hxy).
Qed.

Lemma exec_undisturbed db db' ws ws' x :
  ws ++ [x] `prefix_of` ws' → Forall (λ k, ¬ used db' k) (claims_of ws') →
  Forall (λ k, used db k → used db' k) (ws' ≫= refs) →
  exec x (view db ws) = PgOk (view db (ws ++ [x])) → exec x (view db' ws) = PgOk (view db' (ws ++ [x])).
Proof.
  intros [rest ->] Hc Hr. rewrite !view_snoc, !exec_ok, !Forall_forall. intros (Hcl & Href & Hch).
  rewrite Forall_forall in Hc, Hr. unfold claims_of in Hc. split_and!; [..|done].
  - intros k Hk. rewrite used_view. intros [Hu|Hu].
    + apply (Hc k); [|done]. rewrite !bind_app. simpl. set_solver.
    + apply (Hcl k Hk). rewrite used_view. by right.
  - intros k Hk. rewrite used_view. specialize (Href k Hk). rewrite used_view in Href.
    destruct Href as [Hu|?]; [left|by right]. apply Hr; [|done]. rewrite !bind_app. simpl. set_solver.
Qed.

Lemma steps_undisturbed {A} db db' Q L ids stage (x y : Prog A * list Write) :
  rtc (sql_step db) x y → ordered Q L ids stage x.1 →
  (∀ a, SAccount a ∈ L → sum_postings db' a = sum_postings db a) →
  (∀ id, SWithdrawal id ∈ L → rows_of db' id = rows_of db id) →
  Forall (λ k, ¬ used db' k) (claims_of y.2) → Forall (λ k, used db k → used db' k) (y.2 ≫= refs) →
  rtc (sql_step db') x y.
Proof.
  intros H Ho Hsum Hrows Hc Hr. revert ids stage Ho.
  induction H as [x|x y z Hxy Hyz IH]; intros ids stage Ho; [done|].
  specialize (IH Hc Hr). destruct Hxy as [| | |B f oe k ws|x oe k ws Hx|id actor reason now oe k ws x Hx| |]; simpl in Ho; try done.
  - destruct Ho as [Ha Ho]. eapply rtc_l; [|exact (IH _ _ (Ho _))].
    rewrite sum_view, <-Hsum, <-sum_view by done. apply sql_sum.
  - destruct Ho as (_ & _ & stage' & _ & Ho). eapply rtc_l; [|exact (IH _ _ Ho)]. apply sql_exec.
    apply steps_prefix in Hyz. by eapply exec_undisturbed.
  - destruct Ho as [Hid Ho]. eapply rtc_l; [|exact (IH _ _ (Ho _))].
    rewrite affected_rows_of, <-(rows_view_alike ws db db') by (by apply Hrows). rewrite <-affected_rows_of.
    apply sql_approve. apply steps_prefix in Hyz. by eapply exec_undisturbed.
  - eapply rtc_l; [apply sql_id|exact (IH _ _ (Ho _))].
  - eapply rtc_l; [apply sql_now|exact (IH _ _ (Ho _))].
Qed.

(** Accounts are unique, so a complete answer stays the answer. *)
Lemma complete_stays keys db db' rows :
  reachable db' → t_accounts db' = t_accounts db ++ rows →
  complete keys (select_accounts keys db) → select_accounts keys db' = select_accounts keys db.
Proof.
  intros [HI _]%reachable_ok E Hc. pose proof (inv_ledger _ HI) as Hl. unfold select_accounts. f_equal.
  rewrite E, filter_app. assert (filter (λ r, account_key r ∈ keys) rows = []) as ->; [|by rewrite app_nil_r].
  destruct (filter _ rows) as [|r rs] eqn:F; [done|]. exfalso.
  assert (r ∈ filter (λ r, account_key r ∈ keys) rows) as [Hkey Hr]%list_elem_of_filter by (rewrite F; by left).
  apply Hc in Hkey as (a & Ea & Ha)%list_elem_of_fmap.
  unfold select_accounts in Ha. rewrite merge_sort_Permutation in Ha. apply list_elem_of_filter in Ha as [_ Ha].
  assert (a = r) as ->.
  { apply (lo_account_keys _ Hl); rewrite ?E; [set_solver..|]. unfold same_account, account_key in *. split_and!; congruence. }
  pose proof (lo_account_ids _ Hl) as Hnd. rewrite E, map_app, NoDup_app in Hnd. destruct Hnd as (_ & Hnd & _).
  apply (Hnd (ac_id r)); by apply list_elem_of_fmap_2.
Qed.

Lemma started_undisturbed db db' rows p0 L q :
  reachable db' → t_accounts db' = t_accounts db ++ rows →
  (∀ id, SWithdrawal id ∈ L → rows_of db' id = rows_of db id) → started db p0 L q → started db' p0 L q.
Proof.
  intros Hr E Hrows HS. revert Hrows. destruct HS as [keys oe k rs Hc|id oe k row Hid]; intros Hrows.
  - pose proof (complete_stays _ _ _ _ Hr E Hc) as Es. subst rs. rewrite <-Es in *. by constructor.
  - constructor. rewrite find_rows_of, Hrows by (by left). by rewrite <-find_rows_of.
Qed.

Lemma session_undisturbed db db' rows se :
  reachable db' → t_accounts db' = t_accounts db ++ rows → undisturbed db db' se →
  session_ok db se → session_ok db' se.
Proof.
  intros Hr E [Hb Hrows Hc Href] Hok.
  destruct Hok as [db0 p|e todo ls|db0 p0 L q p todo locks ws ids stage Hp Hst EL Hs Ho Hrun Hp' Hids Hsh Hto Hstg Ht].
  - by eapply ok_start.
  - by apply ok_refuses.
  - cbn [se_locks se_writes] in *. subst L.
    assert (∀ id, SWithdrawal id ∈ locks ++ map SAccount todo → rows_of db' id = rows_of db id) as Hrows'.
    { intros id [Hin|(a & [=] & _)%list_elem_of_fmap]%elem_of_app. by apply Hrows. }
    eapply ok_body; try done; [by eapply started_undisturbed|].
    destruct Ht as [->|[-> ->]]; [|done]. rewrite app_nil_r in *. by eapply steps_undisturbed.
Qed.

(** ** A session's own steps *)

Lemma started_step db p0 L q : started db p0 L q → sql_step db (p0, []) (q, []).
Proof. intros [keys oe k rows _|id oe k row F]; [apply sql_lock|]. rewrite <-F. apply sql_lock_withdrawal. Qed.

Lemma strictly_sorted l : StronglySorted str_le l → NoDup l → id_sorted l.
Proof.
  intros Hs. induction Hs as [|a l _ IH Ha]; [constructor|]. intros [Hn Hl]%NoDup_cons.
  constructor; [by apply IH|]. rewrite Forall_forall in *. intros b Hb. split; [by apply Ha|]. by intros ->.
Qed.

Lemma select_sorted keys db : reachable db → id_sorted (map ac_id (select_accounts keys db)).
Proof.
  intros [HI _]%reachable_ok. unfold select_accounts. apply strictly_sorted.
  - apply (StronglySorted_fmap ac_id (λ a b, str_le (ac_id a) (ac_id b))); [done|].
    apply StronglySorted_merge_sort; [intros a b c; apply str_le_trans|intros a b; apply str_le_total].
  - rewrite merge_sort_Permutation. eapply sublist_NoDup, fmap_sublist, sublist_filter.
    apply lo_account_ids, HI.
Qed.

Lemma select_selected keys db : selected keys (select_accounts keys db).
Proof.
  unfold selected, select_accounts. rewrite merge_sort_Permutation. apply Forall_forall.
  by intros r [Hr _]%list_elem_of_filter.
Qed.

Lemma owned_mono ids ids' x : ids ⊆ ids' → owned ids x → owned ids' x.
Proof. intros H Ho. eapply Forall_impl; [exact Ho|]. intros k. simpl. destruct (slot_id k); [apply H|done]. Qed.

Lemma stage_ok_next stage stage' ws x :
  next_stage stage x = Some stage' → stage_ok stage ws → stage_ok stage' (ws ++ [x]).
Proof.
  unfold stage_ok, claims_of. rewrite bind_app, Forall_app. simpl. rewrite app_nil_r.
  intros Hx Hws. destruct x; simpl in Hx; repeat case_decide; simplify_eq; (split; [|repeat constructor]).
  all: eapply Forall_impl; [exact Hws|]; intros []; simpl; lia || done.
Qed.

(** The session after its locking statement. *)
Lemma start_ok db db0 p :
  reachable db → api_session db0 p →
  match advance db EmptyString 0 (mkSession p [] [] [] []) with Continues se' => session_ok db se' | _ => False end.
Proof.
  intros Hr Hp. pose proof (api_session_locks _ _ Hp) as Hl. destruct Hl as [keys oe k Hk|id oe k [e E] Hk]; simpl.
  - set (rows := select_accounts keys db). pose proof (select_sorted keys db Hr) as Hsort.
    destruct (Hk rows (select_selected _ _)) as [[Hc Ho]|[e E]].
    + eapply (ok_body _ db0 _ (account_locks rows) (k rows)); try done; try by constructor.
      unfold account_locks. by rewrite accounts_of_map.
    + rewrite E. by apply (ok_refuses _ _ _ []).
  - destruct (find_withdrawal db id) as [row|] eqn:F; [|rewrite E; apply (ok_refuses _ _ _ []); constructor].
    eapply (ok_body _ db0 _ [SWithdrawal id] (k (Some row))); try done; by constructor.
Qed.

(** The database a session ends on, or the session going on. *)
Lemma advance_ok db id t se :
  reachable db → session_ok db se →
  match advance db id t se with
  | Continues se' => session_ok db se'
  | Commits db' => commit db db'
  | RollsBack => True
  end.
Proof.
  intros Hr Hok. destruct Hok as [db0 p Hp|e todo ls Hs
    |db0 p0 L q p todo locks ws ids stage Hp Hst0 EL Hs Ho Hrun Hp' Hids Hsh Hto Hst Ht].
  - pose proof (start_ok db db0 p Hr Hp) as Hse. destruct (api_session_locks _ _ Hp); exact Hse.
  - destruct todo as [|a todo]; simpl; [done|]. change [SAccount a] with (map SAccount [a]). rewrite <-map_app.
    apply ok_refuses. by rewrite <-app_assoc.
  - destruct todo as [|a todo].
    + clear Ht. pose proof EL as EL'. rewrite app_nil_r in EL'. subst locks.
      pose proof (λ q' ws' ids' stage' Hstep Hq Hi Hs' Ht' Hst', ok_body db db0 p0 L q q' [] L ws' ids' stage' Hp Hst0 EL Hs Ho
        (rtc_r _ _ _ Hrun Hstep) Hq Hi Hs' Ht' Hst' (or_introl eq_refl)) as Hgo.
      destruct p as [[]|e|? ? ?|? ? ?|a oe' p|? ? ? ?|x oe' p|row actor reason now oe' p|ctx p|p]; simpl in Hp' |- *; try done.
      * apply (api_session_commits db0 _ _ _ Hp). eapply rtc_l; [by eapply started_step|done].
      * destruct Hp' as [_ Hq]. eapply Hgo; [apply sql_sum|by apply Hq|done..].
      * destruct Hp' as (Hx & Hsx & stage' & Hn & Hq). destruct (exec x _) as [db'|] eqn:Ex; [|done].
        pose proof (exec_write _ _ _ Ex) as ->. rewrite <-view_snoc in Ex.
        eapply Hgo; [by apply sql_exec|exact Hq|apply Forall_app; split; [done|by apply Forall_singleton]| | |by eapply stage_ok_next].
        -- rewrite shares_of_snoc. by apply Forall_app.
        -- rewrite touches_of_snoc. apply Forall_app. split; [done|]. destruct x; apply Forall_nil_2 || done.
      * destruct Hp' as [Hrow Hq]. destruct (pg_require _ _ _) as [db'|] eqn:Ex; [|done].
        set (x := WApproved row actor reason now). change (exec x (view db ws) = PgOk db') in Ex.
        pose proof (exec_write _ _ _ Ex) as ->. rewrite <-view_snoc in Ex.
        eapply Hgo; [by apply sql_approve|by apply Hq|apply Forall_app; split; [done|by repeat constructor]| | |].
        -- rewrite shares_of_snoc. apply Forall_app. split; [done|apply Forall_nil_2].
        -- rewrite touches_of_snoc. apply Forall_app. split; [done|by apply Forall_singleton].
        -- unfold stage_ok, claims_of. rewrite bind_app, Forall_app. by split; [|apply Forall_nil_2].
      * eapply Hgo; [apply sql_id|by apply Hp'| |done..].
        eapply Forall_impl; [exact Hids|]. intros x. apply owned_mono. set_solver.
      * eapply Hgo; [apply sql_now|by apply Hp'|done..].
    + destruct Ht as [?|[-> ->]]; [done|]. simpl. eapply ok_body; try done; [|by right]. by rewrite <-app_assoc.
Qed.

Lemma session_claims db se : session_ok db se → Forall (λ k, ¬ used db k) (claims_of (se_writes se)).
Proof. intros []; [apply Forall_nil_2..|by eapply steps_claims]. Qed.

(** What a session past its locks has written is under them. *)
Lemma session_covered db se :
  session_ok db se → se_todo se = [] →
  Forall (λ k, k ∈ se_locks se) (shares_of (se_writes se)) ∧ Forall (λ k, k ∈ se_locks se) (touches_of (se_writes se)).
Proof.
  intros [] Ht; [split; apply Forall_nil_2..|]. simpl in *. subst. rewrite app_nil_r in *. done.
Qed.

(** A withdrawal it has locked exists. *)
Lemma locked_used db se id : session_ok db se → SWithdrawal id ∈ se_locks se → used db (SWithdrawal id).
Proof.
  intros [|e todo ls|db0 p0 L q p todo locks ws ids stage Hp Hst EL] Hin; simpl in Hin; [by apply elem_of_nil in Hin|..].
  - apply list_elem_of_fmap in Hin as (a & [=] & _).
  - assert (SWithdrawal id ∈ L) as HL by (rewrite <-EL; apply elem_of_app; by left).
    clear - Hst HL. destruct Hst as [|i oe k row F].
    + apply list_elem_of_fmap in HL as (a & [=] & _).
    + apply list_elem_of_singleton in HL as [= <-]. apply List.find_some in F as [Hr%list_elem_of_In <-%bool_decide_eq_true].
      by apply list_elem_of_fmap_2.
Qed.

(** ** The sessions together *)

Lemma commits_writes db id t se db' :
  advance db id t se = Commits db' → se_todo se = [] ∧ db' = view db (se_writes se).
Proof.
  destruct se as [p [|a todo] locks ws ids]; simpl; [|done].
  destruct p as [| | | | | |x ? ?|row actor reason now ? ?| |]; try done;
    [by intros [= <-]|by destruct (exec x _)|by destruct (pg_require _ _ _)].
Qed.

(** The others, when a session commits. *)
Lemma commit_undisturbed db id t se se' db' :
  session_ok db se → session_ok db se' → apart se se' → advance db id t se = Commits db' → undisturbed db db' se'.
Proof.
  intros Hse Hse' (Hl & Hc & _) [Ht ->]%commits_writes. destruct (session_covered _ _ Hse Ht) as [Hsh Hto].
  rewrite Forall_forall in Hsh. rewrite Forall_forall in Hto. pose proof (session_claims _ _ Hse) as Hcl.
  constructor.
  - intros a Ha. rewrite sum_view, added_unshared; [lia|]. intros Hin%Hsh. by apply (Hl (SAccount a)).
  - intros i Hi. apply rows_view.
    + intros Hin. rewrite Forall_forall in Hcl. by apply (Hcl _ Hin), (locked_used _ se').
    + intros Hin%Hto. by apply (Hl (SWithdrawal i)).
  - pose proof (session_claims _ _ Hse') as Hu. rewrite Forall_forall in *. intros k Hk. rewrite used_view.
    intros [?|?]; [by eapply Hu|by apply (Hc k)].
  - apply Forall_forall. intros k _ Hk. apply used_view. by left.
Qed.

Lemma advance_apart i j id t w se se1 se' :
  may_go i id se w → j ≠ i → w_sessions w !! j = Some se' → apart se se' →
  advance (w_db w) id t se = Continues se1 → apart se1 se'.
Proof.
  intros Hgo Hj Hse' (Hl & Hc & Hi) Hadv.
  assert (delete i (w_sessions w) !! j = Some se') as Hd by by rewrite lookup_delete_ne.
  assert (∀ k, lockable i k w → se_locks se ++ [k] ## se_locks se') as Hlock.
  { intros k Hk. destruct (Hk _ _ Hd) as [Hk' _]. set_solver. }
  destruct se as [p [|a todo] locks ws ids]; simpl in Hadv; unfold may_go in Hgo; cbn [se_todo se_prog se_locks] in *.
  - destruct p as [| | |row ? ?| | |x ? ?|row actor reason now ? ?|c k|]; try done; simplify_eq; try by split_and!.
    + split_and!; [|done|done]. cbn [se_locks]. destruct (find_withdrawal _ _); [by apply Hlock|done].
    + destruct (exec x _); simplify_eq. split_and!; [done| |done]. cbn [se_writes] in *.
      apply (Hgo _ _) in Hd as [Hcl _]. rewrite Forall_forall in Hcl.
      intros y [?|?]%claims_of_snoc Hk; [by apply (Hc y)|by apply (Hcl y)].
    + destruct (pg_require _ _ _); simplify_eq. split_and!; [done| |done]. cbn [se_writes] in *.
      intros y [?|Hk]%claims_of_snoc; [by apply Hc|by apply elem_of_nil in Hk].
    + split_and!; [done|done|]. cbn [se_ids] in *. apply (Hgo _ _) in Hse'. set_solver.
  - simplify_eq. split_and!; [|done|done]. by apply Hlock.
Qed.

Lemma apart_sym se se' : apart se se' → apart se' se.
Proof. intros (? & ? & ?). unfold apart. set_solver. Qed.

Lemma world_put i se w :
  world_ok w → session_ok (w_db w) se → (∀ j se', j ≠ i → w_sessions w !! j = Some se' → apart se se') →
  world_ok (put i se w).
Proof.
  intros [Hr Hs Ha] Hse Hap. constructor; simpl; [done|by apply map_Forall_insert_2|].
  intros j k s s' [[<- <-]|[Hj Es]]%lookup_insert_Some [[<- <-]|[Hk Es']]%lookup_insert_Some Hne; [done|..].
  - by apply (Hap k).
  - by apply apart_sym, (Hap j).
  - by apply (Ha j k).
Qed.

(** Some sessions are gone, and the others were not disturbed. *)
Lemma world_commit w db' sessions :
  world_ok w → reachable db' → (∃ rows, t_accounts db' = t_accounts (w_db w) ++ rows) →
  sessions ⊆ w_sessions w → map_Forall (λ _ se, undisturbed (w_db w) db' se) sessions → world_ok (mkWorld db' sessions).
Proof.
  intros [Hr Hs Ha] Hr' [rows E] Hsub Hu. constructor; simpl; [done| |].
  - intros i se Hi. eapply session_undisturbed; [done|exact E|by apply (Hu i)|].
    eapply Hs, lookup_weaken; eassumption.
  - intros i j se se' Hi Hj Hne. eapply (Ha i j); [by eapply lookup_weaken..|done].
Qed.

Lemma undisturbed_same db se : session_ok db se → undisturbed db db se.
Proof. intros H. constructor; [done|done|by apply session_claims|]. by apply Forall_forall. Qed.

Lemma world_close i w : world_ok w → world_ok (close i (w_db w) w).
Proof.
  intros Hw. apply (world_commit w); [done|apply Hw|exists []; by rewrite app_nil_r|apply delete_subseteq|].
  intros j se Hj. apply undisturbed_same. eapply (wo_sessions _ Hw j), lookup_weaken; [done|apply delete_subseteq].
Qed.

Lemma commit_rows db db' : reachable db → commit db db' → ∃ rows, t_accounts db' = t_accounts db ++ rows.
Proof. intros [HI _]%reachable_ok H. apply commit_accounts in H as (rows & E & _); [by exists rows|apply HI]. Qed.

Definition committed_step (w w' : World) : Prop := w_db w' = w_db w ∨ commit (w_db w) (w_db w').

Lemma session_step_ok i id t w w' :
  world_ok w → session_step i id t w = Some w' → world_ok w' ∧ committed_step w w'.
Proof.
  intros Hw H. unfold session_step in H. destruct (w_sessions w !! i) as [se|] eqn:Hi; [|done].
  case_decide as Hgo; [|done]. injection H as <-.
  pose proof (wo_sessions _ Hw i se Hi) as Hse. pose proof (advance_ok (w_db w) id t se (wo_reachable _ Hw) Hse) as Hadv.
  destruct (advance (w_db w) id t se) as [se1|db'|] eqn:E.
  - split; [|by left]. apply world_put; [done..|]. intros j se' Hj Hse'. eapply advance_apart; [done..| |done].
    by apply (wo_apart _ Hw i j).
  - split; [|by right]. apply (world_commit w); [done|by eapply reachable_commit, Hadv; apply Hw| |apply delete_subseteq|].
    + by apply commit_rows; [apply Hw|].
    + intros j se' [Hj Hse']%lookup_delete_Some. eapply commit_undisturbed; [exact Hse| |apply (wo_apart _ Hw i j); done|exact E].
      by apply (wo_sessions _ Hw j).
  - split; [by apply world_close|by left].
Qed.

Lemma wstep_ok w w' : world_ok w → wstep w w' → world_ok w' ∧ committed_step w w'.
Proof.
  intros Hw [i db0 p Hi Hp|i id t w1 Hs|i|db' Hc Hu].
  - split; [|by left]. apply world_put; [done|by eapply ok_start|]. intros j se' _ _. split_and!; set_solver.
  - by eapply session_step_ok.
  - split; [by apply world_close|by left].
  - split; [|by right]. apply (world_commit w); [done|by eapply reachable_commit, Hc; apply Hw| |done|done].
    by apply commit_rows; [apply Hw|].
Qed.

(** The worlds reached from a database and no transaction in progress. *)
Definition runs_from (db : DB) (w : World) : Prop := rtc wstep (mkWorld db ∅) w.

Lemma wsteps_ok w w' : rtc wstep w w' → world_ok w → world_ok w' ∧ rtc commit (w_db w) (w_db w').
Proof.
  induction 1 as [w|w w1 w2 Hs _ IH]; [by split|]. intros Hw. destruct (wstep_ok _ _ Hw Hs) as [Hw1 Hc].
  destruct (IH Hw1) as [Hw2 Hcs]. split; [done|]. destruct Hc as [E|Hc]; [by rewrite <-E|by eapply rtc_l].
Qed.

Lemma runs_from_ok db w : reachable db → runs_from db w → world_ok w ∧ rtc commit db (w_db w).
Proof. intros Hr H. by apply (wsteps_ok _ _ H). Qed.

(** ** The committed sessions are serial *)

(** C10: isolation. Whatever the interleaving of transfers, withdrawal requests and
    approvals, statement by statement, with each other and with what else the platform commits,
    the committed database only ever changes by whole steps of the abstract system: a
    session that has returned is one committed request on the database as it then is,
    and no customer's available balance is ever overdrawn. *)
Theorem interleavings_refine_commits db w w' :
  reachable db → runs_from db w → wstep w w' →
  rtc commit db (w_db w) ∧ (w_db w' = w_db w ∨ commit (w_db w) (w_db w')) ∧
  (∀ i se, w_sessions w !! i = Some se → se_prog se = Return tt → se_todo se = [] →
     commit (w_db w) (view (w_db w) (se_writes se))) ∧
  (∀ r cust, r ∈ t_accounts (w_db w') → ac_customer r = Some cust → ac_type r = AccountTypeAvailable →
     0 <= sum_postings (w_db w') (ac_id r)).
Proof.
  intros Hdb Hr Hs. destruct (runs_from_ok _ _ Hdb Hr) as [Hw Hc]. destruct (wstep_ok _ _ Hw Hs) as [Hw' Hc'].
  split_and!; [done|done|..].
  - intros i se Hi Ep Et. pose proof (advance_ok (w_db w) EmptyString 0 se (wo_reachable _ Hw) (wo_sessions _ Hw i se Hi)) as H.
    destruct se; simpl in *; by subst.
  - intros r cust Ha Ec Et. destruct (reachable_ok _ (wo_reachable _ Hw')) as [HI _].
    pose proof (inv_balances _ HI r Ha) as Hb. unfold balance_ok in Hb. by rewrite Ec, Et in Hb.
Qed.
