(* ===== verification/Deadlock.v ===== *)
(** * Deadlocks

    Which session waits for which, and why the sessions of the API never wait for each
    other in a circle: one withdrawal (withdrawal_repo.go 380-384), or accounts in the
    order of their ids (transfer_repo.go 33-41, withdrawal_repo.go 177-184), are locked
    before anything is written, and after that only the cause of the journal entry and
    then the idempotency key can be contended. They also all end. The crediting of
    deposits, which locks accounts only through foreign keys and in the order of the
    blocks, is not part of that discipline. *)

From Stdlib Require Import ZArith Lia.
From stdpp Require Import prelude strings sorting gmap fin_sets fin_maps fin_map_dom.
From S2P Require Import Prelude GoStd Domain Store Effects Ledger History Sql System Sessions Interleaving.

(** ** Waiting *)

Definition has_locked (se : Session) (k : Slot) : Prop := k ∈ se_locks se ∨ k ∈ shares_of (se_writes se).

(** The statement of [se] that is due waits for [se'] to end. *)
Definition waits_on (se se' : Session) : Prop :=
  match se_todo se, se_prog se with
  | a :: _, _ => has_locked se' (SAccount a)
  | [], LockWithdrawal row _ _ | [], Approve row _ _ _ _ _ => has_locked se' (SWithdrawal row)
  | [], Exec x _ _ => Exists (λ k, k ∈ claims_of (se_writes se')) (claims x) ∨ Exists (λ k, k ∈ se_locks se') (shares x)
  | [], _ => False
  end.

Definition waits_for (w : World) (i j : nat) : Prop :=
  ∃ se se', i ≠ j ∧ w_sessions w !! i = Some se ∧ w_sessions w !! j = Some se' ∧ waits_on se se'.

#[export] Instance has_locked_dec se k : Decision (has_locked se k).
Proof. unfold has_locked. apply _. Defined.
#[export] Instance waits_on_dec se se' : Decision (waits_on se se').
Proof. unfold waits_on. destruct (se_todo se); [destruct (se_prog se)|]; apply _. Defined.

(** What a session may go without is exactly waiting. *)
Lemma may_go_waits i id se w :
  unused_id id w → may_go i id se w ↔ map_Forall (λ _ se', ¬ waits_on se se') (delete i (w_sessions w)).
Proof.
  intros Hid. unfold may_go, waits_on, lockable, writable, has_locked.
  assert (∀ P Q : Session → Prop, (∀ se', P se' ↔ Q se') →
    map_Forall (λ _ : nat, P) (delete i (w_sessions w)) ↔ map_Forall (λ _, Q) (delete i (w_sessions w))) as Hext.
  { intros P Q HPQ. unfold map_Forall. by setoid_rewrite HPQ. }
  assert (map_Forall (λ _ _, ¬ False) (delete i (w_sessions w)) ↔ True) as Ht by (split; [done|intros _ ? ? ? []]).
  destruct (se_todo se); [destruct (se_prog se)|]; rewrite ?Ht; try tauto; try (apply Hext; tauto).
  apply Hext. intros se'. rewrite !Exists_exists, !Forall_forall. naive_solver.
Qed.

(** A session that cannot go waits for another one. *)
Lemma blocked_waits i id se w :
  w_sessions w !! i = Some se → unused_id id w → ¬ may_go i id se w → ∃ j, waits_for w i j.
Proof.
  intros Hi Hid Hgo. rewrite may_go_waits in Hgo by done.
  apply map_not_Forall in Hgo as (j & se' & [Hne Hj]%lookup_delete_Some & Hw); [|intros; apply _].
  exists j, se, se'. split_and!; [done..|]. by apply dec_stable.
Qed.

(** And a session that waits cannot go. *)
Lemma waits_stuck i j id t w : waits_for w i j → session_step i id t w = None.
Proof.
  intros (se & se' & Hne & Hi & Hj & Hw). unfold session_step. rewrite Hi.
  assert (delete i (w_sessions w) !! j = Some se') as Hd by by rewrite lookup_delete_ne.
  rewrite decide_False; [done|]. unfold may_go, waits_on, has_locked in *.
  destruct (se_todo se) as [|a todo]; [destruct (se_prog se); try done|]; intros Hgo; apply (Hgo j) in Hd as [H1 H2]; try tauto.
  rewrite Forall_forall in H1. rewrite Forall_forall in H2.
  destruct Hw as [(y & ? & ?)%Exists_exists|(y & ? & ?)%Exists_exists]; [by apply (H1 y)|by apply (H2 y)].
Qed.

(** ** The order of what is waited for *)

(** A withdrawal, accounts by id, causes, keys. *)
Definition rank (se : Session) : nat * string :=
  match se_todo se, se_prog se with
  | a :: _, _ => (1%nat, a)
  | [], LockWithdrawal _ _ _ => (0%nat, EmptyString)
  | [], Exec (WEntry _) _ _ => (2%nat, EmptyString)
  | [], Exec (WKey _) _ _ => (3%nat, EmptyString)
  | [], _ => (4%nat, EmptyString)
  end.
Definition before (r r' : nat * string) : Prop :=
  (r.1 < r'.1)%nat ∨ (r.1 = r'.1 ∧ str_le r.2 r'.2 ∧ r.2 ≠ r'.2).

#[export] Instance before_irreflexive : Irreflexive before.
Proof. intros [n s] [?|(_ & _ & ?)]; simpl in *; [lia|done]. Qed.
#[export] Instance before_transitive : Transitive before.
Proof.
  intros [n s] [n' s'] [n'' s''] [?|(? & ? & ?)] [?|(? & Hle & ?)]; simpl in *; [left; simpl; lia..|]. right; simpl.
  split_and!; [lia|by etrans|]. intros <-. by destruct (str_le_antisymm s s').
Qed.

Lemma sorted_before locks a todo b : id_sorted (locks ++ a :: todo) → b ∈ locks → str_le b a ∧ b ≠ a.
Proof.
  intros Hs Hb. apply (StronglySorted_app_1_elem_of (λ a b, str_le a b ∧ a ≠ b) locks (a :: todo)); [done|done|by left].
Qed.

Lemma session_locks_sorted db se : session_ok db se → id_sorted (accounts_of (se_locks se) ++ se_todo se).
Proof.
  intros [|e todo ls|db0 p0 L q p todo locks ws ids stage Hp Hst EL Hs]; simpl; [constructor|by rewrite accounts_of_map|].
  by rewrite <-(accounts_of_map todo), <-accounts_of_app, EL.
Qed.

Lemma locking_unwritten db se : session_ok db se → se_todo se ≠ [] → se_writes se = [].
Proof. intros [] Ht; simpl in *; [done..|]. by destruct_or?; destruct_and?; subst. Qed.

(** Before the locking statement nothing is held. *)
Lemma starting_free db se id on_err k a :
  session_ok db se → se_todo se = [] → se_prog se = LockWithdrawal id on_err k → ¬ has_locked se a ∧ se_writes se = [].
Proof.
  intros [|e todo ls|db0 p0 L q p todo locks ws ids stage Hp Hst EL Hs Ho Hrun Hp'] Ht Ep; simpl in *; [|done|by subst p].
  split; [|done]. unfold has_locked. simpl. rewrite !elem_of_nil. tauto.
Qed.

Lemma session_owned db se : session_ok db se → Forall (owned (se_ids se)) (se_writes se).
Proof. by intros []; simpl. Qed.

(** The stage of a session about to insert. *)
Lemma inserting_stage db se x on_err k :
  session_ok db se → se_todo se = [] → se_prog se = Exec x on_err k →
  ∃ stage stage', stage_ok stage (se_writes se) ∧ next_stage stage x = Some stage' ∧
    owned (se_ids se) x ∧ Forall (λ k, k ∈ se_locks se) (shares x).
Proof.
  intros Hok Ht Hp. destruct Hok as [db0 p Hap|e todo ls Hs
    |db0 p0 L q p todo locks ws ids stage Hap Hst0 EL Hs Ho Hrun Hp' Hids Hsh Hto Hst Htodo]; simpl in *; subst; [|done|].
  - apply api_session_locks in Hap. inversion Hap.
  - rewrite app_nil_r in *. destruct Hp' as (Hx & Hsx & stage' & Hn & _). by exists stage, stage'.
Qed.

(** A session updates a withdrawal it has locked itself. *)
Lemma updating_locked db se id actor reason now on_err k :
  session_ok db se → se_todo se = [] → se_prog se = Approve id actor reason now on_err k → SWithdrawal id ∈ se_locks se.
Proof.
  intros Hok Ht Hp. destruct Hok as [db0 p Hap|e todo ls Hs
    |db0 p0 L q p todo locks ws ids stage Hap Hst0 EL Hs Ho Hrun Hp']; simpl in *; subst; [|done|].
  - apply api_session_locks in Hap. inversion Hap.
  - rewrite app_nil_r in *. apply Hp'.
Qed.

(** An id is claimed by its owner only. *)
Lemma claimed_id db se ids k id :
  session_ok db se → k ∈ claims_of (se_writes se) → slot_id k = Some id → ids ## se_ids se → id ∉ ids.
Proof.
  intros Hok Hk Hid Hd Hin. apply (Hd id); [done|]. apply session_owned in Hok.
  unfold claims_of in Hk. apply list_elem_of_bind in Hk as (x & Hkx & Hx). rewrite Forall_forall in Hok.
  specialize (Hok x Hx). unfold owned in Hok. rewrite Forall_forall in Hok. specialize (Hok k Hkx). by rewrite Hid in Hok.
Qed.

(** What an insert waits for is a cause or a key, which puts its holder at a stage. *)
Lemma insert_waits db se se' x on_err k :
  session_ok db se → session_ok db se' → apart se se' →
  se_todo se = [] → se_prog se = Exec x on_err k → waits_on se se' →
  (∃ r, x = WEntry r ∧ SCause (je_cause r) ∈ claims_of (se_writes se')) ∨
  (∃ r, x = WKey r ∧ SKey (ik_key r) ∈ claims_of (se_writes se')).
Proof.
  intros Hok Hok' (Hl & Hc & Hi) Ht Hp Hw. destruct (inserting_stage _ _ _ _ _ Hok Ht Hp) as (stage & stage' & Hst & Hn & Hown & Hsh).
  unfold waits_on in Hw. rewrite Ht, Hp in Hw. destruct Hw as [Hw|Hw]; apply Exists_exists in Hw as (y & Hy & Hin).
  - assert (slot_id y = None) as Hy'.
    { destruct (slot_id y) as [id|] eqn:E; [|done]. exfalso. eapply claimed_id; [exact Hok'|done..|].
      unfold owned in Hown. rewrite Forall_forall in Hown. specialize (Hown y Hy). by rewrite E in Hown. }
    destruct x as [r|r|r|r|r|? ?|? ? ? ?]; simpl in Hy; rewrite ?elem_of_cons, ?elem_of_nil in Hy;
      [left; exists r|..|right; exists r| |]; naive_solver.
  - rewrite Forall_forall in Hsh. by destruct (Hl y); [apply Hsh|].
Qed.

(** Foreign keys share accounts only. *)
Lemma withdrawal_held se id : has_locked se (SWithdrawal id) → SWithdrawal id ∈ se_locks se.
Proof.
  intros [|Hk]; [done|]. unfold shares_of in Hk. apply list_elem_of_bind in Hk as (x & Hkx & _).
  destruct x; simpl in Hkx; rewrite ?elem_of_cons, ?elem_of_nil in Hkx; naive_solver.
Qed.

(** A session that is past its locks and waits is about to insert a cause or a key,
    or has not started. *)
Inductive waits_past (se : Session) : nat → Prop :=
  | past_cause r on_err k stage :
      se_prog se = Exec (WEntry r) on_err k → stage_ok stage (se_writes se) → stage = 0%nat → waits_past se 2
  | past_key r on_err k stage :
      se_prog se = Exec (WKey r) on_err k → stage_ok stage (se_writes se) → (stage <= 1)%nat → waits_past se 3
  | past_start id on_err k : se_prog se = LockWithdrawal id on_err k → waits_past se 0.

Lemma past_waits db se se' :
  session_ok db se → session_ok db se' → apart se se' → se_todo se = [] → waits_on se se' →
  ∃ n, waits_past se n ∧ rank se = (n, EmptyString).
Proof.
  intros Hok Hok' Ha Ht Hw. pose proof Hw as Hw0. unfold waits_on in Hw. rewrite Ht in Hw. unfold rank. rewrite Ht.
  destruct (se_prog se) as [| | |id ? ?| | |x ? ?|id ? ? ? ? ?| |] eqn:Ep; try done.
  - eexists. split; [by eapply past_start|done].
  - destruct (inserting_stage _ _ _ _ _ Hok Ht Ep) as (stage & stage' & Hst & Hn & _).
    destruct (insert_waits _ _ _ _ _ _ Hok Hok' Ha Ht Ep Hw0) as [(r & -> & _)|(r & -> & _)]; simpl in Hn; case_decide; try done.
    + eexists. split; [by eapply past_cause|done].
    + eexists. split; [by eapply past_key|done].
  - exfalso. pose proof (updating_locked _ _ _ _ _ _ _ _ Hok Ht Ep) as Hl. destruct Ha as (Hd & _ & _).
    by apply (Hd (SWithdrawal id)), withdrawal_held.
Qed.

Lemma past_before db se se' n n' :
  session_ok db se → session_ok db se' → apart se se' → se_todo se = [] → se_todo se' = [] →
  waits_on se se' → waits_past se n → waits_past se' n' → (n < n')%nat.
Proof.
  intros Hok Hok' Ha Ht Ht' Hw Hp Hp'.
  assert (∀ on_err k id, se_prog se' ≠ LockWithdrawal id on_err k) as Hfree.
  { intros oe k id Ep'. destruct (starting_free _ _ _ _ _ (SAccount EmptyString) Hok' Ht' Ep') as [_ Ews].
    destruct Hp as [r ? ? ? Ep|r ? ? ? Ep|i ? ? Ep].
    1,2: destruct (insert_waits _ _ _ _ _ _ Hok Hok' Ha Ht Ep Hw) as [(? & _ & Hr)|(? & _ & Hr)];
      rewrite Ews in Hr; by apply elem_of_nil in Hr.
    unfold waits_on in Hw. rewrite Ht, Ep in Hw. by apply (starting_free _ _ _ _ _ _ Hok' Ht' Ep') in Hw. }
  assert (∀ stage, stage_ok stage (se_writes se') → match n with 2 => 1 <= stage | 3 => stage = 2 | _ => True end)%nat as Hst.
  { intros st Hst. unfold stage_ok in Hst. rewrite Forall_forall in Hst. destruct Hp as [r ? ? ? Ep|r ? ? ? Ep|i ? ? Ep]; [..|done].
    all: by destruct (insert_waits _ _ _ _ _ _ Hok Hok' Ha Ht Ep Hw) as [(? & [=] & Hr)|(? & [=] & Hr)]; apply Hst in Hr. }
  destruct Hp' as [r' ? ? st Ep' Hs ->|r' ? ? st Ep' Hs Hle|i ? ? Ep']; [..|by apply Hfree in Ep'];
    apply Hst in Hs; destruct Hp; lia.
Qed.

(** A session that waits for another that waits ranks before it. *)
Lemma waiting_ranks db se se' se'' :
  session_ok db se → session_ok db se' → session_ok db se'' → apart se se' → apart se' se'' →
  waits_on se se' → waits_on se' se'' → before (rank se) (rank se').
Proof.
  intros Hok Hok' Hok'' Ha Ha' Hw Hw'.
  assert (se_todo se = [] → ∃ n, waits_past se n ∧ rank se = (n, EmptyString)) as Hpast by (intros Ht; by apply (past_waits db se se')).
  destruct (se_todo se') as [|b todo'] eqn:Et'.
  - (* the holder is past its locks *)
    destruct (past_waits _ _ _ Hok' Hok'' Ha' Et' Hw') as (n' & Hp' & ->).
    destruct (se_todo se) as [|a todo] eqn:Et.
    + destruct (Hpast eq_refl) as (n & Hp & ->). left; simpl. by apply (past_before db se se').
    + unfold rank. rewrite Et. left; simpl. destruct Hp' as [| |id oe k Ep']; [lia..|].
      unfold waits_on in Hw. rewrite Et in Hw. by destruct (starting_free _ _ _ _ _ (SAccount a) Hok' Et' Ep') as [[]].
  - (* the holder is locking: it has written nothing *)
    pose proof (locking_unwritten _ _ Hok' ltac:(by rewrite Et')) as Ews.
    destruct (se_todo se) as [|a todo] eqn:Et.
    + destruct (Hpast eq_refl) as (n & Hp & ->). unfold rank. rewrite Et'. left; simpl. destruct Hp as [r oe k st Ep|r oe k st Ep|]; [..|lia].
      all: destruct (insert_waits _ _ _ _ _ _ Hok Hok' Ha Et Ep Hw) as [(? & _ & Hr)|(? & _ & Hr)];
        rewrite Ews in Hr; by apply elem_of_nil in Hr.
    + unfold waits_on, has_locked in Hw. rewrite Et, Ews in Hw. destruct Hw as [Hw|Hw]; [|by apply elem_of_nil in Hw].
      right. unfold rank. rewrite Et, Et'. split; [done|]. apply (sorted_before (accounts_of (se_locks se')) b todo').
      * rewrite <-Et'. by eapply session_locks_sorted.
      * apply list_elem_of_omap. by exists (SAccount a).
Qed.

(** ** No deadlock *)

Lemma waits_for_ranks w i j k se se' :
  world_ok w → w_sessions w !! i = Some se → w_sessions w !! j = Some se' →
  waits_for w i j → waits_for w j k → before (rank se) (rank se').
Proof.
  intros Hw Hi Hj (s1 & s2 & Hij & E1 & E2 & W1) (s3 & s4 & Hjk & E3 & E4 & W2).
  assert (s1 = se) as -> by congruence. assert (s2 = se') as -> by congruence. assert (s3 = se') as -> by congruence.
  pose proof (wo_sessions _ Hw) as Hs. pose proof (wo_apart _ Hw) as Ha.
  apply (waiting_ranks (w_db w) se se' s4); [by eapply Hs..|by eapply (Ha i j)|by eapply (Ha j k)|done|done].
Qed.

Lemma waiting_circle w i j se se' k :
  world_ok w → tc (waits_for w) i j → waits_for w j k →
  w_sessions w !! i = Some se → w_sessions w !! j = Some se' → before (rank se) (rank se').
Proof.
  intros Hw Hij. revert se se'. induction Hij as [i j Hij|i l j Hil Hlj IH]; intros se se' Hjk Hi Hj.
  - by eapply waits_for_ranks.
  - pose proof Hil as (s1 & s2 & _ & _ & El & _).
    assert (∃ m, waits_for w l m) as [m Hlm] by (by inversion Hlj; subst; eexists).
    transitivity (rank s2); [by eapply waits_for_ranks|by apply IH].
Qed.

Lemma no_circle w i : world_ok w → ¬ tc (waits_for w) i i.
Proof.
  intros Hw Hc. assert (∃ k, waits_for w i k) as [k Hk] by (by inversion Hc; subst; eexists).
  pose proof Hk as (se & _ & _ & Hi & _). pose proof (waiting_circle _ _ _ _ _ _ Hw Hc Hk Hi Hi) as H.
  by apply (irreflexivity before) in H.
Qed.

#[export] Instance before_dec r r' : Decision (before r r').
Proof. unfold before. apply _. Defined.

Definition idle (w : World) (i : nat) : Prop := ∀ j, ¬ waits_for w i j.

Lemma waits_dec w i : is_Some (w_sessions w !! i) → idle w i ∨ ∃ j, waits_for w i j.
Proof.
  intros [se Hi]. destruct (decide (map_Forall (λ _ se', ¬ waits_on se se') (delete i (w_sessions w)))) as [H|H].
  - left. intros j (s1 & s2 & Hne & E1 & E2 & Hw). assert (s1 = se) as -> by congruence.
    by apply (H j s2); [rewrite lookup_delete_ne|].
  - right. apply map_not_Forall in H as (j & se' & [Hne Hj]%lookup_delete_Some & H); [|by intros; apply _].
    exists j, se, se'. split_and!; [done..|]. by apply dec_stable.
Qed.

(** Of the sessions open, one of the last in rank does not wait, or the one it waits
    for does not. *)
Lemma one_goes w : world_ok w → w_sessions w ≠ ∅ → ∃ i, is_Some (w_sessions w !! i) ∧ idle w i.
Proof.
  intros Hw Hne. set (r := λ i, from_option rank (0%nat, EmptyString) (w_sessions w !! i)).
  assert (Transitive (λ i j, before (r j) (r i))) as Htr by (intros a b c Hab Hbc; by transitivity (r b)).
  destruct (minimal_exists_elem_of_L (λ i j, before (r j) (r i)) (dom (w_sessions w))) as (i & Hi & Hmin).
  { by intros E%dom_empty_inv_L. }
  apply elem_of_dom in Hi. destruct (waits_dec w i Hi) as [?|[j Hij]]; [by exists i|].
  pose proof Hij as (se & se' & _ & Ei & Ej & _). exists j. split; [by eexists|]. intros k Hjk.
  pose proof (waits_for_ranks _ _ _ _ _ _ Hw Ei Ej Hij Hjk) as Hb.
  assert (before (r j) (r i)) as Hb'; [|unfold r in Hb'; rewrite Ei, Ej in Hb'; simpl in Hb'].
  - apply Hmin; [by eapply elem_of_dom_2|]. unfold r. by rewrite Ei, Ej.
  - apply (irreflexivity before (rank se)). by transitivity (rank se').
Qed.

(** C13: no deadlock. However transfers, withdrawal requests and approvals interleave, no
    two or more of their sessions wait for each other in a circle, and as long as any is open one
    of them can do its next statement. *)
Theorem sessions_never_deadlock db w :
  reachable db → runs_from db w →
  (∀ i, ¬ tc (waits_for w) i i) ∧
  (w_sessions w ≠ ∅ → ∃ i, ∀ id t, unused_id id w → ∃ w', session_step i id t w = Some w').
Proof.
  intros Hdb Hr. destruct (runs_from_ok _ _ Hdb Hr) as [Hw _]. split; [intros i; by apply no_circle|].
  intros Hne. destruct (one_goes w Hw Hne) as (i & [se Hi] & Hn). exists i. intros id t Hid.
  unfold session_step. rewrite Hi. destruct (decide (may_go i id se w)) as [Hgo|Hgo]; [by eexists|].
  by destruct (blocked_waits _ _ _ _ Hi Hid Hgo) as [j []%Hn].
Qed.

(** ** They all end *)

(** A program of at most [n] statements. *)
Fixpoint within {A} (n : nat) (p : Prog A) {struct p} : Prop :=
  match p, n with
  | Return _, _ | Raise _, _ => True
  | _, O => False
  | LockAccounts _ _ k, S n => ∀ rows, within n (k rows)
  | LockWithdrawal _ _ k, S n => ∀ o, within n (k o)
  | SumPostings _ _ k, S n => ∀ z, within n (k z)
  | Select _ _ k, S n => ∀ b, within n (k b)
  | Exec _ _ k, S n => within n k
  | Approve _ _ _ _ _ k, S n => ∀ rows, within n (k rows)
  | NewID _ k, S n => ∀ id, within n (k id)
  | Now k, S n => ∀ t, within n (k t)
  end.

(** The withdrawal's fourteen, with the key. *)
Definition session_length : nat := 14.

Lemma within_mono {A} n n' (p : Prog A) : (n <= n')%nat → within n p → within n' p.
Proof.
  revert n n'. induction p as [a|e|keys oe k IH|id oe k IH|a oe k IH|B f oe k IH|w oe k IH|id ac re t oe k IH|ctx k IH|k IH];
    intros [|n] [|n'] Hle Hp; simpl in *; try done; try lia;
    first [intros x; apply (IH x n); [lia|apply Hp]|apply (IH n); [lia|done]].
Qed.

Lemma within_optionP {A B} n (o : option A) e (k : A → Prog B) :
  (∀ a, within n (k a)) → within n (optionP o e k).
Proof. destruct o; simpl; [intros H; apply H|done]. Qed.

Lemma within_bindP {A B} n m (p : Prog A) (f : A → Prog B) :
  within n p → (∀ a, within m (f a)) → within (n + m) (bindP p f).
Proof.
  intros Hp Hf. revert n Hp. induction p as [a|e|keys oe k IH|id oe k IH|a oe k IH|C g oe k IH|w oe k IH|id ac re t oe k IH|ctx k IH|k IH];
    intros n Hp; simpl in *;
    [|done|destruct n as [|n]; [done|]; simpl in *; first [intros x; apply IH, Hp|by apply IH]..].
  eapply within_mono, Hf. lia.
Qed.

Lemma api_session_within db0 p : api_session db0 p → within session_length p.
Proof.
  intros [req row _|req fee th row _ _|id actor reason row]; unfold request_prog.
  - apply (within_bindP 9 5); [|by intros a]. intros rows. cbv zeta. do 2 (apply within_optionP; intros ?).
    intros sum. apply within_optionP. intros b. by destruct (b <? _).
  - apply (within_bindP 13 1); [|by intros a]. intros rows. cbv zeta. case_decide; [done|].
    do 2 (apply within_optionP; intros ?). intros sum. apply within_optionP. intros b.
    destruct (b <? _); [done|]. destruct (_ <? fee); [done|]. repeat intro. by apply within_optionP.
  - apply (within_bindP 9 5); [|by intros a]. intros o. apply within_optionP. intros r. case_decide; [done|].
    apply within_optionP. intros amount t n. by case_decide.
Qed.

(** The steps the session may still take, on [accounts] accounts. *)
Definition cost (accounts n : nat) (se : Session) : nat := S (n * S accounts + length (se_todo se)).

Lemma select_length keys db : (length (select_accounts keys db) <= length (t_accounts db))%nat.
Proof. unfold select_accounts. rewrite merge_sort_Permutation. apply length_filter. Qed.

Lemma advance_cost db id t n se se' :
  advance db id t se = Continues se' → within n (se_prog se) →
  ∃ n', within n' (se_prog se') ∧ (n' <= n)%nat ∧
    (cost (length (t_accounts db)) n' se' < cost (length (t_accounts db)) n se)%nat.
Proof.
  unfold cost. destruct se as [p [|a todo] locks ws ids]; simpl; [|intros [= <-] Hp; exists n; simpl; split_and!; [done|lia..]].
  destruct n as [|n]; [by destruct p|]. intros Hadv Hp. exists n.
  destruct p as [| |keys ? k| | | |x ? ?|? ? ? ? ? ?| |]; simpl in *; try destruct (exec x _); try destruct (pg_require _ _ _);
    simplify_eq; simpl; (split; [done|]); try lia.
  pose proof (select_length keys (view db ws)) as Hl. rewrite view_accounts in Hl. rewrite length_map. lia.
Qed.

(** The steps the sessions may still take, with [f i] statements left of session [i]. *)
Definition total (f : nat → nat) (w : World) : Z :=
  sumZ (λ '(i, se), Z.of_nat (cost (length (t_accounts (w_db w))) (f i) se)) (map_to_list (w_sessions w)).
Definition lengths (f : nat → nat) (w : World) : Prop := map_Forall (λ i se, within (f i) (se_prog se)) (w_sessions w).

Lemma total_delete f i se w :
  w_sessions w !! i = Some se →
  total f w = Z.of_nat (cost (length (t_accounts (w_db w))) (f i) se) + total f (close i (w_db w) w).
Proof. intros Hi. unfold total. by rewrite <-(map_to_list_delete _ _ _ Hi). Qed.

Lemma total_ext f f' w : map_Forall (λ i _, f i = f' i) (w_sessions w) → total f w = total f' w.
Proof.
  intros H. unfold total. apply sumZ_ext. intros [i se] Hi%elem_of_map_to_list. by rewrite (H i se Hi).
Qed.

Lemma total_nonneg f w : 0 <= total f w.
Proof. unfold total. apply sumZ_nonneg. intros [i se] _. lia. Qed.

Definition moves (w w' : World) : Prop := ∃ i id t, session_step i id t w = Some w'.

Lemma lengths_close f i db w : lengths f w → lengths f (close i db w).
Proof. intros H. by apply map_Forall_delete. Qed.

Lemma total_close f i db se w :
  w_sessions w !! i = Some se → t_accounts db = t_accounts (w_db w) → total f (close i db w) < total f w.
Proof.
  intros Hi E. rewrite (total_delete f i se w Hi). unfold total, cost. simpl. rewrite E. lia.
Qed.

(** A step of a session brings its end nearer. *)
Lemma moves_total w w' f :
  moves w w' → lengths f w → ∃ f', lengths f' w' ∧ total f' w' < total f w.
Proof.
  intros (i & id & t & H) Hf. unfold session_step in H. destruct (w_sessions w !! i) as [se|] eqn:Hi; [|done].
  case_decide; [|done]. injection H as <-. destruct (advance (w_db w) id t se) as [se'|db|] eqn:E.
  - destruct (advance_cost _ _ _ _ _ _ E (Hf i se Hi)) as (n & Hn & _ & Hc).
    set (f' := λ j, if decide (j = i) then n else f j).
    assert (∀ j, j ≠ i → f' j = f j) as Hne by (intros j Hj; unfold f'; by rewrite decide_False).
    assert (f' i = n) as Hfi by (unfold f'; by rewrite decide_True). exists f'. split.
    + intros j s; simpl; intros [[<- <-]|[Hj Hs]]%lookup_insert_Some; [by rewrite Hfi|]. rewrite Hne by done. by apply Hf.
    + rewrite (total_delete f i se w Hi), (total_delete f' i se' (put i se' w)) by (simpl; by rewrite lookup_insert_eq).
      unfold put, close; simpl. rewrite delete_insert_eq, Hfi, (total_ext f' f); [lia|].
      intros j s; simpl; intros [Hj _]%lookup_delete_Some. by apply Hne.
  - apply commits_writes in E as [_ ->]. exists f. split; [by apply lengths_close|].
    eapply total_close; [done|apply view_accounts].
  - exists f. split; [by apply lengths_close|]. by eapply total_close.
Qed.

Lemma nsteps_total n w w' f : nsteps moves n w w' → lengths f w → Z.of_nat n <= total f w.
Proof.
  intros H. revert f. induction H as [w|n w w1 w2 Hm _ IH]; intros f Hf; [apply total_nonneg|].
  destruct (moves_total _ _ _ Hm Hf) as (f' & Hf' & Hlt). specialize (IH f' Hf'). lia.
Qed.

Lemma wstep_within w w' :
  wstep w w' → lengths (λ _, session_length) w → lengths (λ _, session_length) w'.
Proof.
  intros Hs Hw. destruct Hs as [i db0 p Hi Hp|i id t w1 Hs|i|db' Hc Hu]; [| |by apply lengths_close|done].
  - apply map_Forall_insert_2; [by eapply api_session_within|done].
  - unfold session_step in Hs. destruct (w_sessions w !! i) as [se|] eqn:Hi; [|done].
    case_decide; [|done]. injection Hs as <-. destruct (advance (w_db w) id t se) as [se'|db|] eqn:E.
    + apply map_Forall_insert_2; [|done]. destruct (advance_cost _ _ _ _ _ _ E (Hw i se Hi)) as (n & Hn & Hle & _).
      by eapply within_mono.
    + by apply lengths_close.
    + by apply lengths_close.
Qed.

Lemma runs_from_within db w : runs_from db w → lengths (λ _, session_length) w.
Proof.
  intros H. assert (lengths (λ _, session_length) (mkWorld db ∅)) as H0 by apply map_Forall_empty.
  revert H0. induction H as [|w w1 w2 Hs _ IH]; [done|]. intros H0. apply IH. by eapply wstep_within.
Qed.

Lemma moves_wsteps w w' : rtc moves w w' → rtc wstep w w'.
Proof. apply rtc_subrel. intros x y (i & id & t & H). by eapply w_session. Qed.

(** An id no session has drawn. *)
Lemma unused_id_exists w : ∃ id, unused_id id w.
Proof.
  exists (fresh (map_to_list (w_sessions w) ≫= λ '(_, se), se_ids se)). intros i se Hi Hin.
  apply (infinite_is_fresh (map_to_list (w_sessions w) ≫= λ '(_, se), se_ids se)).
  apply list_elem_of_bind. exists (i, se). split; [done|by apply elem_of_map_to_list].
Qed.

(** C38: termination. However the open sessions are scheduled, they take a bounded number
    of steps, and can stop only when all of them have ended. *)
Theorem sessions_all_end db w :
  reachable db → runs_from db w →
  (∃ bound, ∀ n w', nsteps moves n w w' → (n <= bound)%nat) ∧
  (∀ w', rtc moves w w' → (∀ w'', ¬ moves w' w'') → w_sessions w' = ∅).
Proof.
  intros Hdb Hr. split.
  - exists (Z.to_nat (total (λ _, session_length) w)). intros n w' Hn.
    apply (nsteps_total _ _ _ (λ _, session_length)) in Hn; [lia|by eapply runs_from_within].
  - intros w' Hm%moves_wsteps Hstop. assert (runs_from db w') as Hr' by (unfold runs_from in *; by etrans).
    destruct (runs_from_ok _ _ Hdb Hr') as [Hw _]. destruct (decide (w_sessions w' = ∅)) as [|Hne]; [done|].
    destruct (one_goes w' Hw Hne) as (i & [se Hi] & Hn). destruct (unused_id_exists w') as [id Hid].
    exfalso. eapply Hstop. exists i, id, 0. unfold session_step. rewrite Hi.
    destruct (decide (may_go i id se w')) as [Hgo|Hgo]; [done|].
    by destruct (blocked_waits _ _ _ _ Hi Hid Hgo) as [j []%Hn].
Qed.
