(* ===== verification/ApiFrame.v ===== *)
(** * The API's handlers leave the key table alone

    Inside the middleware's transaction no handler of [server] reads or writes
    idempotency_keys, on any path, errors included: what the retry theorems of
    Idempotency.v ask of the handler they wrap. *)

From Stdlib Require Import ZArith Lia.
From stdpp Require Import prelude strings gmap.
From S2P Require Import Prelude GoStd Domain Store Effects Ledger Transfers Withdrawals.
From S2P Require Import WithdrawalSpecs Ports Deposits Customers CreateWithdrawals Idempotency Handlers.
From S2P Require Import History Watcher System.

Definition keeps_keys {A} (m : M A) : Prop :=
  ∀ c s r s', runs_in_tx c → m c s = (r, s') →
    t_idempotency_keys (st_db s') = t_idempotency_keys (st_db s).

Section keeps_lemmas.
Context {A B : Type}.

Lemma keeps_keys_reads (m : M A) : tx_reads m → keeps_keys m.
Proof. intros Hm c s r s' Hc H. by rewrite (Hm _ _ _ _ Hc H). Qed.
Lemma keeps_keys_bind (m : M A) (k : A → M B) :
  keeps_keys m → (∀ a, keeps_keys (k a)) → keeps_keys (bind m k).
Proof.
  intros Hm Hk c s r s' Hc H. unfold bind in H. destruct (m c s) as [[a|e] s1] eqn:E.
  - apply Hm in E; [|done]. apply Hk in H; [|done]. congruence.
  - simplify_eq. by eapply Hm.
Qed.
Lemma keeps_keys_map_err f (m : M A) : keeps_keys m → keeps_keys (map_err f m).
Proof.
  intros Hm c s r s' Hc H. unfold map_err in H.
  destruct (m c s) as [[a|e] s1] eqn:E; simplify_eq; by eapply Hm.
Qed.
Lemma keeps_keys_try (m : M A) : keeps_keys m → keeps_keys (try m).
Proof.
  intros Hm c s r s' Hc H. unfold try in H. destruct (m c s) as [r1 s1] eqn:E. simplify_eq.
  by eapply Hm.
Qed.
Lemma keeps_keys_exec (f : DB → pgres (A * DB)) :
  (∀ db a db', f db = PgOk (a, db') → t_idempotency_keys db' = t_idempotency_keys db) →
  keeps_keys (tx_exec f).
Proof.
  intros Hf c s r s' _ H. unfold tx_exec, txFromContext in H.
  destruct (cx_tx c); [|by simplify_eq]. destruct (st_aborted s); [by simplify_eq|].
  destruct (env_fault _ _); [by simplify_eq|].
  destruct (f (st_db s)) as [[a db']|] eqn:E; simplify_eq; [by eapply Hf|done].
Qed.
Lemma keeps_keys_query (f : DB → A) : keeps_keys (tx_query f).
Proof. apply keeps_keys_exec. by intros db a db' [= _ <-]. Qed.
Lemma keeps_keys_newUUID ctx : keeps_keys (newUUID ctx).
Proof.
  intros c s r s' _ H. unfold newUUID, wrapping, map_err, step in H.
  destruct (env_fault _ _); by simplify_eq.
Qed.
Lemma keeps_keys_now : keeps_keys now.
Proof. by intros c s r s' _ [= _ <-]. Qed.
End keeps_lemmas.

Lemma keeps_keys_insert f :
  (∀ db db', f db = PgOk db' → t_idempotency_keys db' = t_idempotency_keys db) → keeps_keys (tx_insert f).
Proof.
  intros Hf. apply keeps_keys_exec. intros db [] db' H. destruct (f db) eqn:E; simplify_eq. by apply Hf.
Qed.
Lemma keeps_keys_update_withdrawals (P : WithdrawalRow → Prop) `{!∀ r, Decision (P r)} f :
  keeps_keys (update_withdrawals P f).
Proof. apply keeps_keys_exec. by intros db n db' [= _ <-]. Qed.

Lemma keeps_keys_bind_text l : keeps_keys (bind_text l).
Proof. apply keeps_keys_exec. intros db n db' H. pg_inv H. by subst. Qed.

Lemma keeps_keys_mapM {A B} (f : A → M B) l : (∀ x, keeps_keys (f x)) → keeps_keys (mapM f l).
Proof.
  intros Hf. induction l; simpl; [apply keeps_keys_reads, tx_reads_ret|].
  apply keeps_keys_bind; [done|]. intros y. apply keeps_keys_bind; [done|]. intros ys.
  apply keeps_keys_reads, tx_reads_ret.
Qed.
Lemma keeps_keys_forM {A} (l : list A) f : (∀ x, keeps_keys (f x)) → keeps_keys (forM_ l f).
Proof.
  intros Hf. induction l; simpl; [apply keeps_keys_reads, tx_reads_ret|]. by apply keeps_keys_bind.
Qed.

Ltac insert_frame H :=
  unfold insert_customer, insert_account, insert_deposit_address, insert_journal_entry, insert_posting,
    insert_outbox_event, insert_withdrawal in H; pg_inv H; by subst.

Create HintDb keeps_keys.
#[export] Hint Resolve keeps_keys_map_err keeps_keys_try keeps_keys_query
  keeps_keys_newUUID keeps_keys_now keeps_keys_mapM keeps_keys_forM keeps_keys_update_withdrawals
  keeps_keys_bind_text : keeps_keys.
#[export] Hint Extern 4 (keeps_keys (wrapping _ _)) => apply keeps_keys_map_err : keeps_keys.
#[export] Hint Extern 4 (keeps_keys (tx_insert _)) =>
  apply keeps_keys_insert; let Hi := fresh in intros ? ? Hi; insert_frame Hi : keeps_keys.
#[export] Hint Extern 5 (keeps_keys _) => apply keeps_keys_reads; solve [auto with tx_reads] : keeps_keys.
Ltac keeps_keys_tac :=
  repeat first [ progress intros | solve [auto 4 with keeps_keys] | apply keeps_keys_bind
               | apply keeps_keys_try | apply keeps_keys_map_err | apply keeps_keys_mapM
               | apply keeps_keys_forM | case_match | case_decide ].

Lemma write_outbox_keeps_keys et p t : keeps_keys (write_outbox et p t).
Proof. unfold write_outbox. keeps_keys_tac. Qed.
Lemma write_postings_keeps_keys e d cr a t : keeps_keys (write_postings e d cr a t).
Proof. unfold write_postings. keeps_keys_tac. Qed.
#[export] Hint Resolve write_outbox_keeps_keys write_postings_keeps_keys : keeps_keys.

Lemma CreateTransfer_keeps_keys req : keeps_keys (CreateTransfer_Execute req).
Proof.
  unfold CreateTransfer_Execute; simpl. unfold TransferRepository_CreateTransfer, scan_big. keeps_keys_tac.
Qed.
Lemma CreateWithdrawal_keeps_keys req fee st : keeps_keys (CreateWithdrawal req fee st).
Proof. simpl. unfold WithdrawalRepository_CreateWithdrawal, scan_big. keeps_keys_tac. Qed.
Lemma ApproveWithdrawal_keeps_keys id actor reason : keeps_keys (ApproveWithdrawal id actor reason).
Proof. simpl. unfold WithdrawalRepository_ApproveWithdrawal, lock_withdrawal, scan_big. keeps_keys_tac. Qed.

#[export] Hint Resolve CreateTransfer_keeps_keys CreateWithdrawal_keeps_keys ApproveWithdrawal_keeps_keys : keeps_keys.

Section api_frame.
Context `{DD : DepositAddressDeriver} `{FE : FeeEstimator} `{TxR : TransactionRepository}.
Context `{DR : DepositReader}.
Context (uuid_Parse : string → option bytes) (uuid_String : bytes → string).
Context (encode_problem : ProblemDetails → bytes) (encode_payload : Payload → bytes).
Context (decode_transfer : bytes → option TransferBody) (decode_withdrawal : bytes → option WithdrawalBody).
Context (decode_approve : bytes → option ApproveBody) (route : Request → Endpoint).
Context (Fee_quiet : ∀ ch a z, quiet (EstimateFee ch a z)).
Context (Tx_reads : ∀ id n c, tx_reads (ListCustomerTransactions id n c)).
Context (Dep_reads : ∀ id, tx_reads (ListCustomerDeposits id)).

Lemma CreateCustomer_keeps_keys : keeps_keys (CreateCustomer_Execute uuid_Parse).
Proof.
  unfold CreateCustomer_Execute, new_account; simpl. unfold CustomerRepository_CreateCustomer.
  keeps_keys_tac.
Qed.
Lemma CreateWithdrawal_Execute_keeps_keys req : keeps_keys (CreateWithdrawal_Execute req).
Proof.
  unfold CreateWithdrawal_Execute. simpl. unfold WithdrawalThresholdLister_GetApprovalThreshold, scan_big.
  keeps_keys_tac.
Qed.

Lemma ApproveWithdrawal_Execute_keeps_keys id actor reason :
  keeps_keys (ApproveWithdrawal_Execute id actor reason).
Proof. unfold ApproveWithdrawal_Execute. keeps_keys_tac. Qed.
Lemma answer_error_keeps_keys r cases title detail e :
  keeps_keys (answer_error encode_problem r cases title detail e).
Proof. unfold answer_error, problem. keeps_keys_tac. Qed.
#[local] Hint Resolve CreateCustomer_keeps_keys CreateWithdrawal_Execute_keeps_keys
  ApproveWithdrawal_Execute_keeps_keys answer_error_keeps_keys : keeps_keys.

Lemma serve_keeps_keys ep r :
  keeps_keys (serve uuid_Parse uuid_String encode_problem encode_payload decode_transfer
    decode_withdrawal decode_approve ep r).
Proof.
  destruct ep; simpl.
  - unfold customerServer_CreateCustomer, answer, problem. keeps_keys_tac.
  - unfold customerServer_GetCustomer, GetCustomer_Execute, answer, problem; simpl.
    unfold CustomerReader_GetCustomer. keeps_keys_tac.
  - unfold customerServer_GetCustomerBalances, GetCustomerBalances_Execute, answer, problem; simpl.
    unfold BalanceRepository_CustomerBalances, scan_big. keeps_keys_tac.
  - unfold customerServer_CreateTransfer, transfer_answer, answer, problem. keeps_keys_tac.
  - unfold customerServer_ListCustomerTransactions, ListCustomerTransactions_Execute, answer, problem.
    keeps_keys_tac.
  - unfold customerServer_GetCustomerDeposits, GetCustomerDeposits_Execute, answer, problem. keeps_keys_tac.
  - unfold customerServer_GetUnsupportedTokenObservations, ListUnsupportedTokenObservations_Execute,
      answer, problem; simpl. unfold UnsupportedTokenRepository_ListObservations, scan_big. keeps_keys_tac.
  - unfold customerServer_GetWithdrawalFeeEstimate, EstimateFee_Execute, answer, problem. keeps_keys_tac.
  - unfold customerServer_CreateWithdrawal, withdrawal_answer, answer, problem. keeps_keys_tac.
  - unfold customerServer_ApproveWithdrawal, withdrawal_answer, answer, problem. keeps_keys_tac.
  - auto with keeps_keys.
Qed.

Lemma server_keeps_keys :
  handler_keeps_keys (server uuid_Parse uuid_String encode_problem encode_payload decode_transfer
    decode_withdrawal decode_approve route).
Proof. intros r c s calls s' Hc H. by eapply serve_keeps_keys. Qed.
End api_frame.
