(* ===== verification/Schema.v ===== *)
(** * The schema's constraints hold of every database

    [schema_ok] states, table by table, the PRIMARY KEY, UNIQUE, FOREIGN KEY, CHECK
    and range constraints of the migrations. Every statement of the program keeps
    them, so every function does ([keeps]), inside a transaction and outside, on
    every path, whatever fails. *)

From Stdlib Require Import ZArith Lia.
From stdpp Require Import prelude strings sorting gmap.
From S2P Require Import Prelude GoStd Domain Store Effects Ledger Transfers Withdrawals WithdrawalSpecs.
From S2P Require Import Ports Broadcast Deposits Customers CreateWithdrawals Idempotency Handlers History.
From S2P Require Import Watcher System.

(** ** The constraints *)

Record deposit_ok (d : DepositRow) : Prop := {
  dt_chain : known_chain (dr_chain d); dt_asset : known_asset (dr_asset d);
  dt_address : hex_text 40 (dr_address d); dt_log : is_integer (dr_log_index d);
  dt_amount : 0 < dr_amount d ∧ numeric78 (dr_amount d); dt_block : is_bigint (dr_block_number d);
  dt_hash : not_null_ok (hex_text 64) (dr_block_hash d);
}.

Record unsupported_ok (o : UnsupportedTokenObservation) : Prop := {
  ut_chain : known_chain (un_Chain o); ut_address : hex_text 40 (un_Address o);
  ut_contract : hex_text 40 (un_ContractAddress o); ut_log : is_integer (un_LogIndex o);
  ut_amount : 0 < un_Amount o ∧ numeric78 (un_Amount o); ut_block : is_bigint (un_BlockNumber o);
}.

Record posting_ok (entries accounts : list string) (p : Posting) : Prop := {
  pt_entry : po_entry p ∈ entries; pt_account : po_account p ∈ accounts;
  pt_amount : numeric78 (po_amount p);
}.

Record withdrawal_ok (customers entries : list string) (w : WithdrawalRow) : Prop := {
  wt_chain : known_chain (wr_chain w); wt_asset : known_asset (wr_asset w);
  wt_amount : 0 < wr_amount w ∧ numeric78 (wr_amount w); wt_destination : hex_text 40 (wr_destination w);
  wt_customer : wr_customer w ∈ customers; wt_entry : wr_hold_entry w ∈ entries;
  wt_nonce : not_null_ok is_bigint (wr_nonce w);
}.

Record attempt_ok (withdrawals : list string) (a : AttemptRow) : Prop := {
  bt_chain : known_chain (ba_chain a); bt_nonce : is_bigint (ba_nonce a);
  bt_withdrawal : ba_withdrawal a ∈ withdrawals;
}.

Record token_ok (r : TokenRow) : Prop := {
  tt_chain : known_chain (tk_chain r); tt_asset : tk_asset r = AssetUSDC;
  tt_contract : hex_text 40 (tk_contract r) ∧ tk_contract r = ToLower (tk_contract r);
}.

Definition account_ok (customers : list string) (a : AccountRow) : Prop :=
  not_null_ok (.∈ customers) (ac_customer a).
Definition address_ok (customers : list string) (a : DepositAddressRow) : Prop :=
  da_customer a ∈ customers ∧ hex_text 40 (da_address a).
Definition nonce_ok (n : NonceRow) : Prop := known_chain (nn_chain n) ∧ is_bigint (nn_next n).
Definition threshold_ok (r : ThresholdRow) : Prop :=
  known_chain (th_chain r) ∧ known_asset (th_asset r) ∧ 0 < th_amount r ∧ numeric78 (th_amount r).
Definition policy_ok (r : CreditingPolicyRow) : Prop :=
  known_chain (cp_chain r) ∧ known_asset (cp_asset r) ∧ cp_credit_tier r = "finalized"%string.

Definition ac_key (a : AccountRow) := (ac_customer a, ac_chain a, ac_asset a, ac_type a).
Definition cr_key (r : CursorRow) : Chain * string := (cr_chain r, cr_tier r).
Definition tk_key (r : TokenRow) : Chain * string := (tk_chain r, tk_contract r).
Definition th_key (r : ThresholdRow) : Chain * Asset := (th_chain r, th_asset r).
Definition cp_key (r : CreditingPolicyRow) : Chain * Asset := (cp_chain r, cp_asset r).

(** The rows of the partial index idx_deposits_active_chain_tx_hash_log_index. *)
Definition active (d : DepositRow) : Prop := dr_state d ≠ DepositOrphaned.
#[export] Instance active_dec d : Decision (active d).
Proof. unfold active. apply _. Defined.
Definition active_keys (l : list DepositRow) : list (Chain * string * Z) := map dr_key (filter active l).

(** The identifiers other tables refer to. *)
Definition customer_ids (db : DB) := map cu_id (t_customers db).
Definition account_ids (db : DB) := map ac_id (t_accounts db).
Definition entry_ids (db : DB) := map je_id (t_journal_entries db).
Definition withdrawal_ids (db : DB) := map wr_id (t_withdrawals db).

Record schema_ok (db : DB) : Prop := {
  sc_customers : NoDup (map cu_id (t_customers db));
  sc_account_ids : NoDup (map ac_id (t_accounts db));
  sc_account_keys : NoDup (map ac_key (t_accounts db));
  sc_accounts : Forall (account_ok (map cu_id (t_customers db))) (t_accounts db);
  sc_address_customers : NoDup (map da_customer (t_deposit_addresses db));
  sc_address_values : NoDup (map da_address (t_deposit_addresses db));
  sc_addresses : Forall (address_ok (map cu_id (t_customers db))) (t_deposit_addresses db);
  sc_keys : NoDup (map ik_key (t_idempotency_keys db));
  sc_statuses : Forall (λ r, is_integer (ik_status r)) (t_idempotency_keys db);
  sc_entry_ids : NoDup (map je_id (t_journal_entries db));
  sc_causes : NoDup (map je_cause (t_journal_entries db));
  sc_posting_ids : NoDup (map po_id (t_postings db));
  sc_postings : Forall (posting_ok (map je_id (t_journal_entries db)) (map ac_id (t_accounts db)))
                  (t_postings db);
  sc_deposit_ids : NoDup (map dr_id (t_deposits db));
  sc_deposit_keys : NoDup (active_keys (t_deposits db));
  sc_deposits : Forall deposit_ok (t_deposits db);
  sc_cursor_keys : NoDup (map cr_key (t_watcher_cursors db));
  sc_cursors : Forall (λ r, is_bigint (cr_last_block r)) (t_watcher_cursors db);
  sc_outbox : NoDup (map ob_id (t_outbox_events db));
  sc_policy_keys : NoDup (map cp_key (t_crediting_policy db));
  sc_policies : Forall policy_ok (t_crediting_policy db);
  sc_token_keys : NoDup (map tk_key (t_token_registry db));
  sc_tokens : Forall token_ok (t_token_registry db);
  sc_unsupported_ids : NoDup (map un_ID (t_unsupported db));
  sc_unsupported_keys : NoDup (map un_key (t_unsupported db));
  sc_unsupported : Forall unsupported_ok (t_unsupported db);
  sc_withdrawal_ids : NoDup (map wr_id (t_withdrawals db));
  sc_withdrawals : Forall (withdrawal_ok (map cu_id (t_customers db)) (map je_id (t_journal_entries db)))
                     (t_withdrawals db);
  sc_threshold_keys : NoDup (map th_key (t_thresholds db));
  sc_thresholds : Forall threshold_ok (t_thresholds db);
  sc_nonce_chains : NoDup (map nn_chain (t_chain_nonce_state db));
  sc_nonces : Forall nonce_ok (t_chain_nonce_state db);
  sc_attempt_ids : NoDup (map ba_id (t_broadcast_attempts db));
  sc_attempt_withdrawals : NoDup (map ba_withdrawal (t_broadcast_attempts db));
  sc_attempts : Forall (attempt_ok (map wr_id (t_withdrawals db))) (t_broadcast_attempts db);
}.

(** ** Insertions *)

Lemma NoDup_map_snoc {A B} (f : A → B) l x : f x ∉ map f l → NoDup (map f l) → NoDup (map f (l ++ [x])).
Proof. intros. rewrite map_app. by apply NoDup_snoc. Qed.

Lemma Forall_snoc_2 {A} (P : A → Prop) l x : P x → Forall P l → Forall P (l ++ [x]).
Proof. intros. apply Forall_app_2; [done|by constructor]. Qed.

Lemma elem_map_snoc {A B} (f : A → B) l x y : y ∈ map f l → y ∈ map f (l ++ [x]).
Proof. rewrite map_app, elem_of_app. auto. Qed.
#[local] Hint Resolve NoDup_map_snoc Forall_snoc_2 elem_map_snoc : schema.

(** A row's references stay valid when the tables it refers to grow. *)
Section growth.
Context (ids ids' ids2 ids2' : list string) (Hg : ∀ i, i ∈ ids → i ∈ ids') (Hg2 : ∀ i, i ∈ ids2 → i ∈ ids2').
Lemma account_ok_grow l : Forall (account_ok ids) l → Forall (account_ok ids') l.
Proof. intros H. eapply Forall_impl; [exact H|]. unfold account_ok. intros a. destruct (ac_customer a); simpl; auto. Qed.
Lemma address_ok_grow l : Forall (address_ok ids) l → Forall (address_ok ids') l.
Proof. intros H. eapply Forall_impl; [exact H|]. intros a []. split; auto. Qed.
Lemma posting_ok_grow l : Forall (posting_ok ids ids2) l → Forall (posting_ok ids' ids2') l.
Proof. intros H. eapply Forall_impl; [exact H|]. intros p []. split; auto. Qed.
Lemma withdrawal_ok_grow l : Forall (withdrawal_ok ids ids2) l → Forall (withdrawal_ok ids' ids2') l.
Proof. intros H. eapply Forall_impl; [exact H|]. intros w []. split; auto. Qed.
Lemma attempt_ok_grow l : Forall (attempt_ok ids) l → Forall (attempt_ok ids') l.
Proof. intros H. eapply Forall_impl; [exact H|]. intros a []. split; auto. Qed.
End growth.
#[local] Hint Resolve account_ok_grow address_ok_grow posting_ok_grow withdrawal_ok_grow attempt_ok_grow : schema.

(** The goal [schema_ok] after a change of one table: the other tables' fields are
    those of the old database. *)
Ltac schema_fields Hs := destruct Hs; constructor; cbn; try assumption; eauto 4 with schema.
Ltac insert_schema H Hs := pg_inv H; subst; schema_fields Hs.

Section inserts.
Context (db db' : DB) (Hs : schema_ok db).

Lemma insert_customer_schema r : insert_customer r db = PgOk db' → schema_ok db'.
Proof. unfold insert_customer. intros H. insert_schema H Hs. Qed.

Lemma insert_account_schema r : insert_account r db = PgOk db' → schema_ok db'.
Proof.
  unfold insert_account. intros H. pg_inv H. subst. schema_fields Hs.
  apply NoDup_map_snoc; [|done]. intros (a & E & Ha)%list_elem_of_fmap.
    rewrite Forall_forall in C0. apply (C0 a Ha). by injection E.
Qed.

Lemma insert_deposit_address_schema r : insert_deposit_address r db = PgOk db' → schema_ok db'.
Proof.
  unfold insert_deposit_address. intros H. pg_inv H. subst. schema_fields Hs. by apply Forall_snoc_2.
Qed.

Lemma insert_idempotency_key_schema r : insert_idempotency_key r db = PgOk db' → schema_ok db'.
Proof. unfold insert_idempotency_key. intros H. insert_schema H Hs. Qed.

Lemma insert_journal_entry_schema r : insert_journal_entry r db = PgOk db' → schema_ok db'.
Proof. unfold insert_journal_entry. intros H. insert_schema H Hs. Qed.

Lemma insert_posting_schema r : insert_posting r db = PgOk db' → schema_ok db'.
Proof. unfold insert_posting. intros H. pg_inv H. subst. schema_fields Hs. by apply Forall_snoc_2. Qed.

Lemma insert_outbox_event_schema r : insert_outbox_event r db = PgOk db' → schema_ok db'.
Proof. unfold insert_outbox_event. intros H. insert_schema H Hs. Qed.

(** A withdrawal is inserted without a nonce. *)
Lemma insert_withdrawal_schema r : wr_nonce r = None → insert_withdrawal r db = PgOk db' → schema_ok db'.
Proof.
  unfold insert_withdrawal. intros Hn H. assert (not_null_ok is_bigint (wr_nonce r)) by (by rewrite Hn).
  pg_inv H. subst. schema_fields Hs. by apply Forall_snoc_2. Qed.

Lemma insert_broadcast_attempt_schema r : insert_broadcast_attempt r db = PgOk db' → schema_ok db'.
Proof. unfold insert_broadcast_attempt. intros H. pg_inv H. subst. schema_fields Hs. by apply Forall_snoc_2. Qed.

Lemma insert_deposit_schema r n :
  insert_deposit_on_conflict_do_nothing r db = PgOk (n, db') → schema_ok db'.
Proof.
  unfold insert_deposit_on_conflict_do_nothing. intros H. pg_inv H. case_decide as Hk; pg_inv H; simplify_eq; [done|].
  schema_fields Hs; [|by apply Forall_snoc_2].
  unfold active_keys. rewrite filter_app. destruct (decide (active r)) as [Ha|Ha].
  - rewrite (filter_cons_True active) by done. rewrite filter_nil. by apply NoDup_map_snoc.
  - rewrite (filter_cons_False active) by done. by rewrite filter_nil, app_nil_r.
Qed.

Lemma insert_unsupported_schema r n :
  insert_unsupported_on_conflict_do_nothing r db = PgOk (n, db') → schema_ok db'.
Proof.
  unfold insert_unsupported_on_conflict_do_nothing. intros H. pg_inv H.
  case_decide; pg_inv H; simplify_eq; [done|]. schema_fields Hs. by apply Forall_snoc_2.
Qed.
End inserts.

(** ** Updates *)

Lemma Forall_update_where {R} (Q P : R → Prop) `{∀ r, Decision (P r)} f l :
  (∀ r, P r → Q r → Q (f r)) → Forall Q l → Forall Q (update_where P f l).
Proof. intros Hf Hl. apply Forall_map. eapply Forall_impl; [exact Hl|]. intros r Hr. case_decide; auto. Qed.

(** INSERT ... ON CONFLICT (key) DO UPDATE of a keyed table. *)
Section upsert.
Context {R K : Type} (key : R → K) (r : R) (P : R → Prop) `{∀ x, Decision (P x)}.
Hypothesis (P_key : ∀ x, P x ↔ key x = key r).
Let upserted l := if decide (Exists P l) then update_where P (λ _, r) l else l ++ [r].

Lemma upsert_keys l : NoDup (map key l) → NoDup (map key (upserted l)).
Proof.
  intros Hl. unfold upserted. case_decide as E.
  - replace (map key (update_where P (λ _, r) l)) with (map key l); [done|].
    unfold update_where. rewrite map_map. apply map_ext. intros x. case_decide as Hx; [by apply P_key|done].
  - apply NoDup_map_snoc; [|done]. intros (x & Ex & Hx)%list_elem_of_fmap. apply E, Exists_exists.
    exists x. split; [done|]. by apply P_key.
Qed.

Lemma upsert_Forall (Q : R → Prop) l : Q r → Forall Q l → Forall Q (upserted l).
Proof.
  intros Hr Hl. unfold upserted. case_decide; [by apply Forall_update_where|by apply Forall_snoc_2].
Qed.
End upsert.

Lemma active_keys_update (P : DepositRow → Prop) `{∀ r, Decision (P r)} f l :
  (∀ r, dr_key (f r) = dr_key r) → (∀ r, r ∈ l → P r → active (f r) → active r) →
  active_keys (update_where P f l) `sublist_of` active_keys l.
Proof.
  intros Hk Ha. induction l as [|r l IH]; [done|].
  assert (active_keys (update_where P f l) `sublist_of` active_keys l) as IH' by (apply IH; set_solver).
  unfold active_keys in *. unfold update_where; fold (update_where P f l). cbn [map].
  fold (update_where P f l). set (r' := if decide (P r) then f r else r).
  assert (dr_key r' = dr_key r) as E by (unfold r'; by case_decide).
  assert (active r' → active r) as Hr' by (unfold r'; case_decide; [apply Ha; [left|done]|done]).
  destruct (decide (active r')) as [H1|H1].
  - rewrite (filter_cons_True active r'), (filter_cons_True active r) by auto. cbn [map]. rewrite E. by apply sublist_skip.
  - rewrite (filter_cons_False active r') by done. destruct (decide (active r)) as [H2|H2].
    + rewrite (filter_cons_True active r) by done. cbn [map]. by apply sublist_cons.
    + by rewrite (filter_cons_False active r) by done.
Qed.

Section updates.
Context (db : DB) (Hs : schema_ok db).

(** What an UPDATE of withdrawals leaves of a row; a nonce it sets is a [bigint]. *)
Definition same_request (f : WithdrawalRow → WithdrawalRow) : Prop := ∀ r,
  (not_null_ok is_bigint (wr_nonce r) → not_null_ok is_bigint (wr_nonce (f r))) ∧ wr_id (f r) = wr_id r ∧ wr_customer (f r) = wr_customer r ∧ wr_chain (f r) = wr_chain r ∧
  wr_asset (f r) = wr_asset r ∧ wr_amount (f r) = wr_amount r ∧
  wr_destination (f r) = wr_destination r ∧ wr_hold_entry (f r) = wr_hold_entry r.

Lemma update_withdrawals_schema (P : WithdrawalRow → Prop) `{∀ r, Decision (P r)} f :
  same_request f → schema_ok (set_withdrawals (update_where P f (t_withdrawals db)) db).
Proof.
  intros Hf. assert (map wr_id (update_where P f (t_withdrawals db)) = map wr_id (t_withdrawals db)) as E
    by (apply update_where_map; intros r; by destruct (Hf r) as (_ & ? & _)).
  destruct Hs; constructor; cbn; rewrite ?E; try done.
  apply Forall_update_where; [|done]. intros r _ []. destruct (Hf r) as (? & _ & E1 & E2 & E3 & E4 & E5 & E6).
  split; rewrite ?E1, ?E2, ?E3, ?E4, ?E5, ?E6; auto.
Qed.

(** An UPDATE puts no row into the partial index. *)
Definition keeps_inactive (P : DepositRow → Prop) (state : DepositState) : Prop :=
  state = DepositOrphaned ∨ ∀ r, r ∈ t_deposits db → P r → active r.

Lemma update_deposits_schema (P : DepositRow → Prop) `{∀ r, Decision (P r)} state now :
  keeps_inactive P state →
  schema_ok (set_deposits (update_where P (dr_transition state now) (t_deposits db)) db).
Proof.
  intros HP. destruct Hs; constructor; cbn; try done.
  - by rewrite update_where_map.
  - eapply sublist_NoDup; [exact sc_deposit_keys0|]. apply active_keys_update; [done|].
    intros r Hr HPr Ha. destruct HP as [->|HP]; [by destruct Ha|by apply HP].
  - apply Forall_update_where; [|done]. intros r _ []. by split.
Qed.

Lemma update_attempts_schema (P : AttemptRow → Prop) `{∀ r, Decision (P r)} h tx :
  schema_ok (set_broadcast_attempts (update_where P (ba_record h tx) (t_broadcast_attempts db)) db).
Proof.
  destruct Hs; constructor; cbn; try done; try by rewrite update_where_map.
  apply Forall_update_where; [|done]. intros r _ []. by split.
Qed.

Lemma advance_nonce_schema chain now :
  Forall (λ r, nn_chain r = chain → is_bigint (nn_next r + 1)) (t_chain_nonce_state db) →
  schema_ok (set_chain_nonce_state
    (update_where (λ r, nn_chain r = chain) (nn_advance now) (t_chain_nonce_state db)) db).
Proof.
  intros Hb. destruct Hs; constructor; cbn; try done; [by rewrite update_where_map|].
  apply Forall_map. apply Forall_forall. intros r Hr. rewrite Forall_forall in Hb, sc_nonces0.
  destruct (sc_nonces0 r Hr) as [? ?]. case_decide; [|done]. split; [done|]. by apply Hb.
Qed.

Lemma upsert_cursor_schema r : is_bigint (cr_last_block r) → schema_ok (upsert_cursor r db).
Proof.
  intros Hb. destruct Hs; constructor; cbn; try done.
  - apply (upsert_keys cr_key); [|done]. intros x. unfold cr_key. split; [by intros [-> ->]|by intros [= -> ->]].
  - by apply upsert_Forall.
Qed.

Lemma upsert_token_schema r db' : upsert_token r db = PgOk (tt, db') → schema_ok db'.
Proof.
  unfold upsert_token. intros H. pg_inv H. subst db'. destruct Hs. constructor; cbn; try done.
  - apply (upsert_keys tk_key); [|done]. intros x. unfold same_token, tk_key. split; [by intros [-> ->]|by intros [= -> ->]].
  - by apply upsert_Forall.
Qed.
End updates.
