(* ===== verification/SchemaKept.v ===== *)
(** * Every function keeps the schema's constraints

    [maintains I m]: run inside a transaction or outside, to the end or to any
    error, [m] leaves the database in [I]. The monad's operations compose it, each
    repository statement establishes it for [schema_ok], and so the repositories, the
    use cases, the handlers and the entry points of the three binaries have it. *)

From Stdlib Require Import ZArith Lia.
From stdpp Require Import prelude strings gmap.
From S2P Require Import Prelude GoStd Domain Store Effects Ledger Transfers Withdrawals.
From S2P Require Import Ports Broadcast Deposits Customers CreateWithdrawals Idempotency Handlers History.
From S2P Require Import Solvency Watcher System Schema.

(** ** The combinator *)

Section maintains.
Context (O : Ctx → Prop) (I : DB → Prop).

(** Under any context in [O]. *)
Definition maintains_under {A} (m : M A) : Prop :=
  ∀ c s r s', O c → I (st_db s) → m c s = (r, s') → I (st_db s').
#[local] Notation maintains := maintains_under.

Lemma maintains_ret {A} (a : A) : maintains (ret a).
Proof. by intros c s r s' _ HI [= _ <-]. Qed.
Lemma maintains_throw {A} e : maintains (throw (A:=A) e).
Proof. by intros c s r s' _ HI [= _ <-]. Qed.
Lemma maintains_bind {A B} (m : M A) (k : A → M B) :
  maintains m → (∀ a, maintains (k a)) → maintains (bind m k).
Proof.
  intros Hm Hk c s r s' Ho HI H. unfold bind in H. destruct (m c s) as [[a|e] s1] eqn:E.
  - by eapply (Hk a); [..|exact H]; [|eapply Hm].
  - simplify_eq. by eapply Hm.
Qed.
(** What follows may rely on what the answer [m] gives. *)
Lemma maintains_bind_post {A B} (Q : A → Prop) (m : M A) (k : A → M B) :
  maintains m → (∀ c s a s', I (st_db s) → m c s = (Ok a, s') → Q a) → (∀ a, Q a → maintains (k a)) →
  maintains (bind m k).
Proof.
  intros Hm HQ Hk c s r s' Ho HI H. unfold bind in H. destruct (m c s) as [[a|e] s1] eqn:E.
  - by eapply (Hk a); [eapply HQ|..|exact H]; [exact HI|exact E| |eapply Hm].
  - simplify_eq. by eapply Hm.
Qed.
Lemma maintains_map_err {A} f (m : M A) : maintains m → maintains (map_err f m).
Proof.
  intros Hm c s r s' Ho HI H. unfold map_err in H.
  destruct (m c s) as [[a|e] s1] eqn:E; simplify_eq; by eapply Hm.
Qed.
Lemma maintains_try {A} (m : M A) : maintains m → maintains (try m).
Proof.
  intros Hm c s r s' Ho HI H. unfold try in H. destruct (m c s) as [r' s1] eqn:E; simplify_eq.
  by eapply Hm.
Qed.
Lemma maintains_when b m : maintains m → maintains (when b m).
Proof. intros Hm. destruct b; [done|apply maintains_ret]. Qed.
Lemma maintains_lift_option {A} (o : option A) e : maintains (lift_option o e).
Proof. destruct o; [apply maintains_ret|apply maintains_throw]. Qed.
Lemma maintains_lift_result {A} (r : result A) : maintains (lift_result r).
Proof. destruct r; [apply maintains_ret|apply maintains_throw]. Qed.
Lemma maintains_emit ev : maintains (emit ev).
Proof. by intros c s r s' _ HI [= _ <-]. Qed.
Lemma maintains_now : maintains now.
Proof. by intros c s r s' _ HI [= _ <-]. Qed.
Lemma maintains_committed_db : maintains committed_db.
Proof. by intros c s r s' _ HI [= _ <-]. Qed.

Lemma maintains_newUUID ctx : maintains (newUUID ctx).
Proof.
  intros c s r s' _ HI H. unfold newUUID, wrapping, map_err, step in H.
  destruct (env_fault _ _); by simplify_eq/=.
Qed.
(** A statement that keeps [I] when it succeeds. *)
Lemma maintains_tx_exec {A} (f : DB → pgres (A * DB)) :
  (∀ db a db', I db → f db = PgOk (a, db') → I db') → maintains (tx_exec f).
Proof.
  intros Hf c s r s' _ HI H. unfold tx_exec, txFromContext in H.
  destruct (cx_tx c); [|by simplify_eq]. destruct (st_aborted s); [by simplify_eq|].
  destruct (env_fault _ _); [by simplify_eq|].
  destruct (f (st_db s)) as [[a db']|] eqn:E; simplify_eq/=; [by eapply Hf|done].
Qed.
Lemma maintains_tx_insert f : (∀ db db', I db → f db = PgOk db' → I db') → maintains (tx_insert f).
Proof.
  intros Hf. apply maintains_tx_exec. intros db [] db' HI H.
  destruct (f db) eqn:E; simplify_eq. by eapply Hf.
Qed.
Lemma maintains_tx_query {A} (f : DB → A) : maintains (tx_query f).
Proof. apply maintains_tx_exec. by intros db a db' HI [= _ <-]. Qed.
Lemma maintains_mapM {A B} (f : A → M B) l : (∀ x, maintains (f x)) → maintains (mapM f l).
Proof.
  intros Hf. induction l; simpl; [apply maintains_ret|].
  apply maintains_bind; [done|]. intros y. apply maintains_bind; [done|]. intros ys. apply maintains_ret.
Qed.
Lemma maintains_forM_elem {A} (l : list A) f : (∀ x, x ∈ l → maintains (f x)) → maintains (forM_ l f).
Proof.
  intros Hf. induction l as [|x l IH]; simpl; [apply maintains_ret|].
  apply maintains_bind; [apply Hf; left|]. intros _. apply IH. intros y Hy. apply Hf. by right.
Qed.
Lemma maintains_forM {A} (l : list A) f : (∀ x, maintains (f x)) → maintains (forM_ l f).
Proof. intros Hf. apply maintains_forM_elem. auto. Qed.

End maintains.

Notation maintains I := (maintains_under (others_preserve I) I).

(** What lets the other sessions act, when they keep [I]. *)
Section others.
Context (I : DB → Prop).
#[local] Notation kept := (maintains I).

(** Reads, remote calls and whatever only lets the others act. *)
Lemma maintains_quiet {A} (m : M A) : quiet m → kept m.
Proof. intros Hm c s r s' Ho HI H. apply Hm in H as (E & _). eapply (others_only_keeps I); [by apply Ho|done..]. Qed.
Lemma maintains_external {A} (m : M A) : external m → kept m.
Proof. intros Hm. by apply maintains_quiet, quiet_external. Qed.
Lemma maintains_pool_query {A} (f : DB → A) : kept (pool_query f).
Proof. apply maintains_quiet, quiet_pool_query. Qed.

Lemma maintains_pool_exec {A} (f : DB → pgres (A * DB)) :
  (∀ db a db', I db → f db = PgOk (a, db') → I db') → kept (pool_exec f).
Proof.
  intros Hf c s r s' Ho HI H. unfold pool_exec, step in H. destruct (env_fault _ _); [by simplify_eq|].
  assert (I (env_other (cx_env c) (st_tick (bump s)) (st_db (bump s)))) by (by apply Ho).
  destruct (f _) as [[a db']|] eqn:E; simplify_eq/=; [by eapply Hf|done].
Qed.

(** Committed, rolled back, aborted, or committed with the acknowledgement lost. *)
Lemma maintains_in_tx_out {A} on_begin on_commit (body : M (TxOutcome A)) :
  kept body → kept (in_tx_out on_begin on_commit body).
Proof.
  intros Hb c s r s' Ho HI [(e & -> & ->)|(o & s2 & Eb & _ & _ & Hcase)]%in_tx_out_cases; [done|].
  assert (I (visible c s)) by (by apply Ho).
  destruct Hcase as [[-> _]|(a & _ & -> & _)]; [done|]. by eapply Hb; [..|exact Eb].
Qed.
Lemma maintains_in_tx {A} cb cc (body : M A) : kept body → kept (in_tx cb cc body).
Proof.
  intros Hb. apply maintains_in_tx_out, maintains_bind; [done|]. intros a. apply maintains_ret.
Qed.
Lemma maintains_in_tx_read {A} ctx (body : M A) : kept body → kept (in_tx_read ctx body).
Proof.
  intros Hb. apply maintains_in_tx_out, maintains_bind; [done|]. intros a. apply maintains_ret.
Qed.
End others.

Create HintDb maintains.
#[export] Hint Resolve maintains_ret maintains_throw maintains_map_err maintains_try maintains_when
  maintains_lift_option maintains_lift_result maintains_emit maintains_now maintains_committed_db
  maintains_quiet maintains_external maintains_newUUID maintains_pool_query maintains_tx_query
  maintains_in_tx maintains_in_tx_read maintains_mapM maintains_forM : maintains.
#[export] Hint Extern 4 (maintains_under _ _ (wrapping _ _)) => apply maintains_map_err : maintains.
Ltac maintains_tac :=
  repeat first [ progress intros | solve [auto 4 with maintains] | apply maintains_bind
               | apply maintains_try | apply maintains_map_err | apply maintains_when
               | apply maintains_in_tx | apply maintains_in_tx_read | apply maintains_in_tx_out
               | apply maintains_mapM | apply maintains_forM | case_match | case_decide ].

(** ** The statements *)

#[local] Notation kept := (maintains schema_ok).

Lemma update_withdrawals_kept (P : WithdrawalRow → Prop) `{!∀ r, Decision (P r)} f :
  same_request f → kept (update_withdrawals P f).
Proof.
  intros Hf. apply maintains_tx_exec. intros db n db' Hs [= _ <-]. by apply update_withdrawals_schema.
Qed.
Lemma update_deposits_kept (P : DepositRow → Prop) `{!∀ r, Decision (P r)} state now :
  (∀ db, keeps_inactive db P state) → kept (update_deposits P (dr_transition state now)).
Proof.
  intros HP. apply maintains_tx_exec. intros db n db' Hs [= _ <-]. by apply update_deposits_schema.
Qed.
Lemma insert_withdrawal_kept r : wr_nonce r = None → kept (tx_insert (insert_withdrawal r)).
Proof. intros Hr. apply maintains_tx_insert. intros db db' Hs H. by eapply insert_withdrawal_schema. Qed.
(** The promotions' rows are not orphaned, and neither is what they become. *)
Lemma promote_deposits_kept from state chain block now :
  from ≠ DepositOrphaned →
  kept (update_deposits (promotable from chain block) (dr_transition state now)).
Proof. intros Hf. apply update_deposits_kept. intros db. right. intros r _ [E _]. unfold active. by rewrite E. Qed.
Lemma orphan_deposit_kept id now :
  kept (update_deposits (λ r, dr_id r = id) (dr_transition DepositOrphaned now)).
Proof. apply update_deposits_kept. intros db. by left. Qed.
Lemma update_attempts_kept (P : AttemptRow → Prop) `{!∀ r, Decision (P r)} h tx :
  kept (update_attempts P (ba_record h tx)).
Proof. apply maintains_tx_exec. intros db n db' Hs [= _ <-]. by apply update_attempts_schema. Qed.
Lemma advance_nonce_kept chain now : kept (advance_nonce chain now).
Proof.
  apply maintains_tx_exec. intros db n db' Hs H. cbv zeta in H. pg_inv H. subst.
  by apply advance_nonce_schema.
Qed.
Lemma bind_bigint_kept z : kept (bind_bigint z).
Proof. apply maintains_tx_exec. intros db n db' Hs H. pg_inv H. by subst. Qed.

Lemma bind_text_kept l : kept (bind_text l).
Proof. apply maintains_tx_exec. intros db n db' Hs H. pg_inv H. by subst. Qed.

(** The cursor was bound to its [bigint] column first. *)
Lemma SetCursor_kept chain tier block : kept (DepositRepository_SetCursor chain tier block).
Proof.
  unfold DepositRepository_SetCursor. apply maintains_bind; [auto with maintains|]. intros t.
  apply maintains_map_err. intros c s r s' Ho Hs H. unfold bind in H.
  destruct (bind_bigint block c s) as [[u|e] s1] eqn:E.
  - assert (is_bigint block).
    { apply tx_exec_Ok in E as (db' & E & _). by apply pg_require_ok in E as [? _]. }
    apply bind_bigint_kept in E; [|done..].
    revert Ho E H. apply (maintains_tx_exec (others_preserve schema_ok) schema_ok). intros db [] db' Hs' [= <-].
    by apply upsert_cursor_schema.
  - simplify_eq. by eapply bind_bigint_kept.
Qed.

#[export] Hint Resolve orphan_deposit_kept update_attempts_kept advance_nonce_kept bind_bigint_kept bind_text_kept
  SetCursor_kept : maintains.
#[export] Hint Extern 4 (maintains schema_ok (update_withdrawals _ _)) =>
  by apply update_withdrawals_kept; intros ?; split_and! : maintains.
#[export] Hint Extern 4 (maintains schema_ok (update_deposits (promotable _ _ _) _)) =>
  by apply promote_deposits_kept : maintains.
#[export] Hint Extern 4 (maintains schema_ok (tx_insert _)) => apply maintains_tx_insert;
  eauto using insert_customer_schema, insert_account_schema, insert_deposit_address_schema,
    insert_idempotency_key_schema, insert_journal_entry_schema, insert_posting_schema,
    insert_outbox_event_schema, insert_broadcast_attempt_schema : maintains.
#[export] Hint Extern 3 (maintains schema_ok (tx_insert (insert_withdrawal _))) =>
  by apply insert_withdrawal_kept : maintains.
#[export] Hint Extern 4 (maintains schema_ok (tx_exec _)) => apply maintains_tx_exec;
  eauto using insert_deposit_schema, insert_unsupported_schema : maintains.

Lemma write_outbox_kept et p t : kept (write_outbox et p t).
Proof. unfold write_outbox. maintains_tac. Qed.
Lemma write_postings_kept e d cr a t : kept (write_postings e d cr a t).
Proof. unfold write_postings. maintains_tac. Qed.
Lemma scan_big_kept ctx z : kept (scan_big ctx z).
Proof. unfold scan_big. maintains_tac. Qed.
#[export] Hint Resolve write_outbox_kept write_postings_kept scan_big_kept : maintains.

(** ** The repositories *)

Lemma lock_withdrawal_kept id : kept (lock_withdrawal id).
Proof. unfold lock_withdrawal. maintains_tac. Qed.
#[export] Hint Resolve lock_withdrawal_kept : maintains.

Lemma CreateTransfer_kept req : kept (TransferRepository_CreateTransfer req).
Proof. unfold TransferRepository_CreateTransfer. maintains_tac. Qed.
Lemma CreateWithdrawal_kept req fee st : kept (WithdrawalRepository_CreateWithdrawal req fee st).
Proof. unfold WithdrawalRepository_CreateWithdrawal. maintains_tac. Qed.
Lemma ApproveWithdrawal_kept id actor reason : kept (WithdrawalRepository_ApproveWithdrawal id actor reason).
Proof. unfold WithdrawalRepository_ApproveWithdrawal. maintains_tac. Qed.
(** The nonce a claim takes is in its column's range. *)
Lemma locked_nonce_ok chain c s o s' :
  schema_ok (st_db s) →
  wrapping "lock chain nonce state" (tx_query (λ db, find_nonce db chain)) c s = (Ok o, s') →
  not_null_ok nonce_ok o.
Proof.
  intros Hs H. apply map_err_Ok, tx_query_Ok in H as [-> _]. destruct (find_nonce _ _) as [n|] eqn:E; [|done].
  apply List.find_some in E as [Hn%list_elem_of_In _]. pose proof (sc_nonces _ Hs) as H.
  rewrite Forall_forall in H. by apply H.
Qed.
Lemma ClaimApprovedWithdrawal_kept chain : kept (WithdrawalRepository_ClaimApprovedWithdrawal chain).
Proof.
  unfold WithdrawalRepository_ClaimApprovedWithdrawal. apply maintains_bind; [maintains_tac|].
  intros [row|]; [|maintains_tac]. apply maintains_bind; [maintains_tac|]. intros amount.
  apply (maintains_bind_post _ _ (not_null_ok nonce_ok)); [maintains_tac|exact (locked_nonce_ok chain)|].
  intros nonceRow Hn.
  apply (maintains_bind_post _ _ is_bigint); [maintains_tac|by destruct nonceRow; intros c s a s' _ [= <- _]; apply Hn|].
  intros nextNonce Hb. maintains_tac.
Qed.
Lemma RecordSignedTx_kept id h tx : kept (WithdrawalRepository_RecordSignedTx id h tx).
Proof. unfold WithdrawalRepository_RecordSignedTx. maintains_tac. Qed.
Lemma MarkBroadcast_kept id : kept (WithdrawalRepository_MarkBroadcast id).
Proof. unfold WithdrawalRepository_MarkBroadcast. maintains_tac. Qed.
Lemma settleWithdrawal_kept id target cause event counterpart platform :
  kept (settleWithdrawal id target cause event counterpart platform).
Proof. unfold settleWithdrawal. maintains_tac. Qed.
Lemma MarkStuckAlerted_kept id : kept (WithdrawalRepository_MarkStuckAlerted id).
Proof. unfold WithdrawalRepository_MarkStuckAlerted. maintains_tac. Qed.
Lemma ListSignedWithdrawals_kept chain : kept (WithdrawalRepository_ListSignedWithdrawals chain).
Proof. unfold WithdrawalRepository_ListSignedWithdrawals. maintains_tac. Qed.
Lemma ListBroadcastWithdrawals_kept chain : kept (WithdrawalRepository_ListBroadcastWithdrawals chain).
Proof. unfold WithdrawalRepository_ListBroadcastWithdrawals. maintains_tac. Qed.
Lemma ListStuckCandidates_kept chain old : kept (WithdrawalRepository_ListStuckCandidates chain old).
Proof. unfold WithdrawalRepository_ListStuckCandidates. maintains_tac. Qed.
Lemma GetApprovalThreshold_kept chain asset : kept (WithdrawalThresholdLister_GetApprovalThreshold chain asset).
Proof. unfold WithdrawalThresholdLister_GetApprovalThreshold. maintains_tac. Qed.
Lemma CreateCustomer_kept customer accounts address :
  kept (CustomerRepository_CreateCustomer customer accounts address).
Proof. unfold CustomerRepository_CreateCustomer. maintains_tac. Qed.
#[export] Hint Resolve CreateTransfer_kept CreateWithdrawal_kept ApproveWithdrawal_kept
  ClaimApprovedWithdrawal_kept RecordSignedTx_kept MarkBroadcast_kept settleWithdrawal_kept
  MarkStuckAlerted_kept ListSignedWithdrawals_kept ListBroadcastWithdrawals_kept
  ListStuckCandidates_kept GetApprovalThreshold_kept CreateCustomer_kept : maintains.

Lemma RecordObserved_kept d : kept (DepositRepository_RecordObserved d).
Proof. unfold DepositRepository_RecordObserved. maintains_tac. Qed.
Lemma PromoteToSafe_kept chain b : kept (DepositRepository_PromoteToSafe chain b).
Proof. unfold DepositRepository_PromoteToSafe. maintains_tac. Qed.
Lemma PromoteToFinalized_kept chain b : kept (DepositRepository_PromoteToFinalized chain b).
Proof. unfold DepositRepository_PromoteToFinalized. maintains_tac. Qed.
Lemma ListPendingDeposits_kept chain : kept (DepositRepository_ListPendingDeposits chain).
Proof. unfold DepositRepository_ListPendingDeposits. maintains_tac. Qed.
Lemma OrphanDeposit_kept id : kept (DepositRepository_OrphanDeposit id).
Proof. unfold DepositRepository_OrphanDeposit. maintains_tac. Qed.
(** The rows a crediting run updates are not orphaned: they were finalized when it
    listed them, and inside its transaction only it changes them. *)
Definition live_ids (l : list eligibleCreditDeposit) (db : DB) : Prop :=
  Forall (λ e, ∀ r, r ∈ t_deposits db → dr_id r = el_depositID e → active r) l.
Definition crediting (l : list eligibleCreditDeposit) (db : DB) : Prop := schema_ok db ∧ live_ids l db.

Lemma eligible_live chain db : schema_ok db → live_ids (eligible_credits chain db) db.
Proof.
  intros Hs. apply Forall_forall. intros e (d & da & Hd & _ & Ef & Ei & _)%eligible_credits_elem r Hr E.
  assert (r = d) as -> by (eapply (key_unique dr_id); [apply (sc_deposit_ids _ Hs)|done..|congruence]).
  unfold active. by rewrite Ef.
Qed.

Lemma crediting_frame l db db' :
  t_deposits db' = t_deposits db → schema_ok db' → crediting l db → crediting l db'.
Proof. intros E Hs [_ Hl]. split; [done|]. unfold live_ids. by rewrite E. Qed.

Lemma crediting_update l e db now :
  e ∈ l → crediting l db → crediting l (set_deposits (update_where (λ r, dr_id r = el_depositID e)
    (dr_transition DepositCredited now) (t_deposits db)) db).
Proof.
  intros He [Hs Hl]. unfold live_ids in *. rewrite Forall_forall in Hl. split.
  - apply update_deposits_schema; [done|]. right. intros r Hr E. by eapply Hl.
  - apply Forall_forall. intros e' He' r Hr E. cbn in Hr. apply list_elem_of_fmap in Hr as (r0 & -> & Hr0).
    case_decide; [done|]. by eapply Hl.
Qed.

Section credit.
Context (l : list eligibleCreditDeposit).
#[local] Notation kept_crediting := (maintains_under (λ _, True) (crediting l)).

Lemma crediting_insert f :
  (∀ db db', schema_ok db → f db = PgOk db' → schema_ok db') →
  (∀ db db', f db = PgOk db' → t_deposits db' = t_deposits db) → kept_crediting (tx_insert f).
Proof.
  intros Hf Hd. apply maintains_tx_insert. intros db db' HI H.
  eapply crediting_frame; [by apply Hd|eapply Hf; [apply HI|done]|done].
Qed.
Lemma crediting_entry r : kept_crediting (tx_insert (insert_journal_entry r)).
Proof. apply crediting_insert; [by eauto using insert_journal_entry_schema|]. intros db db' H. by insert_eqs. Qed.
Lemma crediting_posting r : kept_crediting (tx_insert (insert_posting r)).
Proof. apply crediting_insert; [by eauto using insert_posting_schema|]. intros db db' H. by insert_eqs. Qed.
Lemma crediting_outbox r : kept_crediting (tx_insert (insert_outbox_event r)).
Proof. apply crediting_insert; [by eauto using insert_outbox_event_schema|]. intros db db' H. by insert_eqs. Qed.
#[local] Hint Resolve crediting_entry crediting_posting crediting_outbox : maintains.

Lemma credit_one_kept t e : e ∈ l → kept_crediting (credit_one t e).
Proof.
  intros He. unfold credit_one, scan_big, write_postings, write_outbox. maintains_tac.
  apply maintains_tx_exec. intros db n db' HI [= _ <-]. by apply crediting_update.
Qed.
Lemma credit_loop_kept t : kept_crediting (forM_ l (credit_one t)).
Proof. apply maintains_forM_elem. intros e He. by apply credit_one_kept. Qed.
End credit.

Lemma CreditFinalizedDeposits_kept chain : kept (DepositRepository_CreditFinalizedDeposits chain).
Proof.
  intros c s r s' Ho Hs H. unfold DepositRepository_CreditFinalizedDeposits in H.
  unfold bind at 1 in H. destruct (wrapping _ _ c s) as [[l|e] s1] eqn:H1.
  2:{ simplify_eq. revert Ho Hs H1. apply maintains_map_err; auto with maintains. }
  apply map_err_Ok, tx_query_Ok in H1 as [-> ->].
  enough (crediting (eligible_credits chain (st_db s)) (st_db s')) as [? _] by done.
  assert (crediting (eligible_credits chain (st_db s)) (st_db (bump s))) as HI by (split; [|by apply eligible_live]; done).
  refine ((_ : maintains_under (λ _, True) _ _) c _ r s' I HI H).
  apply maintains_bind; [auto with maintains|]. intros t.
  apply maintains_bind; [apply credit_loop_kept|]. intros u. auto with maintains.
Qed.
Lemma Cursor_kept chain tier : kept (DepositRepository_Cursor chain tier).
Proof. unfold DepositRepository_Cursor. maintains_tac. Qed.
Lemma RecordObservation_kept o : kept (UnsupportedTokenRepository_RecordObservation o).
Proof. unfold UnsupportedTokenRepository_RecordObservation. maintains_tac. Qed.
Lemma UpsertToken_kept chain contract asset : kept (TokenRegistry_UpsertToken chain contract asset).
Proof.
  apply maintains_map_err, maintains_pool_exec. intros db [] db' Hs H. by eapply upsert_token_schema.
Qed.
#[export] Hint Resolve RecordObserved_kept PromoteToSafe_kept PromoteToFinalized_kept
  ListPendingDeposits_kept OrphanDeposit_kept CreditFinalizedDeposits_kept Cursor_kept
  RecordObservation_kept UpsertToken_kept : maintains.

Lemma Lookup_kept key : kept (Lookup key).
Proof. simpl. unfold IdempotencyStore_Lookup. maintains_tac. Qed.
Lemma Insert_kept key hash resp : kept (Insert key hash resp).
Proof. simpl. unfold IdempotencyStore_Insert. maintains_tac. Qed.
#[export] Hint Resolve Lookup_kept Insert_kept : maintains.

(** ** The use cases *)

Section watcher.
Context `{Scan : ChainScanner} `{!ChainScannerLaws Scan}.

Lemma ScanDeposits_kept a r x y : kept (ScanDeposits a r x y).
Proof. apply maintains_external, ScanDeposits_external. Qed.
#[local] Hint Resolve ScanDeposits_kept : maintains.

Lemma record_transfers_kept t ts : kept (record_transfers t ts).
Proof. induction ts; simpl; maintains_tac. Qed.
Lemma record_unsupported_kept t us : kept (record_unsupported t us).
Proof. induction us; simpl; maintains_tac. Qed.
#[local] Hint Resolve record_transfers_kept record_unsupported_kept : maintains.

Lemma scan_phase_kept chain addresses registry cursor latest :
  kept (scan_phase chain addresses registry cursor latest).
Proof. unfold scan_phase; simpl. maintains_tac. Qed.
#[local] Hint Resolve scan_phase_kept : maintains.

Lemma TrackDeposits_tx_kept chain addresses registry latest safe finalized :
  kept (TrackDeposits_tx chain addresses registry latest safe finalized).
Proof. unfold TrackDeposits_tx; simpl. maintains_tac. Qed.
#[local] Hint Resolve TrackDeposits_tx_kept : maintains.

Lemma TrackDeposits_kept chain : kept (TrackDeposits_Execute chain).
Proof.
  unfold TrackDeposits_Execute; simpl.
  unfold TokenRegistry_ListTokenRegistry, DepositAddressLister_ListDepositAddresses.
  assert (kept Head) by apply maintains_external, Head_external. maintains_tac.
Qed.
End watcher.

Section broadcaster.
Context `{G : Signer} `{!SignerLaws G} `{B : TransactionBroadcaster} `{!TransactionBroadcasterLaws B}.

Lemma Build_kept chain a n d z : kept (BuildUnsignedWithdrawal chain a n d z).
Proof. apply maintains_quiet, Build_quiet. Qed.
Lemma Sign_kept chain digest : kept (Sign chain digest).
Proof. apply maintains_external, Sign_external. Qed.
Lemma Send_kept chain tx : kept (SendRawTransaction chain tx).
Proof. apply maintains_external, Send_external. Qed.
#[local] Hint Resolve Build_kept Sign_kept Send_kept : maintains.

Lemma sendAndFinalize_kept chain w : kept (sendAndFinalize chain w).
Proof. unfold sendAndFinalize, finalize; simpl. maintains_tac. Qed.
#[local] Hint Resolve sendAndFinalize_kept : maintains.
Lemma signAndSend_kept chain w nonce : kept (signAndSend chain w nonce).
Proof. unfold signAndSend; simpl. maintains_tac. Qed.
#[local] Hint Resolve signAndSend_kept : maintains.
Lemma claim_kept chain : kept (claim chain).
Proof. unfold claim; simpl. maintains_tac. Qed.
#[local] Hint Resolve claim_kept : maintains.
Lemma SignAndBroadcast_kept chain allow : kept (SignAndBroadcastWithdrawal_Execute chain allow).
Proof. unfold SignAndBroadcastWithdrawal_Execute, resume; simpl. maintains_tac. Qed.

Lemma poll_one_kept chain w : kept (poll_one chain w).
Proof.
  assert (kept (GetFinalizedReceipt chain (w_TxHash w))) by apply maintains_external, Receipt_external.
  unfold poll_one, settle; simpl.
  unfold WithdrawalRepository_SettleConfirmedWithdrawal, WithdrawalRepository_SettleFailedWithdrawal.
  maintains_tac.
Qed.
#[local] Hint Resolve poll_one_kept : maintains.
Lemma poll_all_kept chain ws : kept (poll_all chain ws).
Proof. induction ws; simpl; maintains_tac. Qed.
#[local] Hint Resolve poll_all_kept : maintains.
Lemma PollWithdrawalReceipts_kept chain : kept (PollWithdrawalReceipts_Execute chain).
Proof. unfold PollWithdrawalReceipts_Execute; simpl. maintains_tac. Qed.
End broadcaster.

Lemma alert_all_kept ws : kept (alert_all ws).
Proof. induction ws; simpl; unfold markAlerted; simpl; maintains_tac. Qed.
#[export] Hint Resolve alert_all_kept : maintains.
Lemma DetectStuckWithdrawals_kept chain old : kept (DetectStuckWithdrawals_Execute chain old).
Proof. unfold DetectStuckWithdrawals_Execute; simpl. maintains_tac. Qed.
#[export] Hint Resolve TrackDeposits_kept SignAndBroadcast_kept PollWithdrawalReceipts_kept
  DetectStuckWithdrawals_kept : maintains.

(** ** The API and the entry points *)

Section api.
Context `{DD : DepositAddressDeriver} `{FE : FeeEstimator} `{TxR : TransactionRepository}.
Context `{DR : DepositReader}.
Context (uuid_Parse : string → option bytes) (uuid_String : bytes → string).
Context (encode_problem : ProblemDetails → bytes) (encode_payload : Payload → bytes).
Context (decode_transfer : bytes → option TransferBody) (decode_withdrawal : bytes → option WithdrawalBody).
Context (decode_approve : bytes → option ApproveBody) (sha256 : bytes → bytes) (route : Request → Endpoint).
Context (Fee_quiet : ∀ ch a z, quiet (EstimateFee ch a z)).
Context (Tx_kept : ∀ id n c, kept (ListCustomerTransactions id n c)).
Context (Dep_kept : ∀ id, kept (ListCustomerDeposits id)).

Lemma answer_error_kept r cases title detail e :
  kept (answer_error encode_problem r cases title detail e).
Proof. unfold answer_error, problem. maintains_tac. Qed.
Lemma withdrawal_answer_kept r st failed w :
  kept (withdrawal_answer uuid_Parse encode_problem encode_payload r st failed w).
Proof. unfold withdrawal_answer, problem, answer. maintains_tac. Qed.
Lemma transfer_answer_kept r t : kept (transfer_answer uuid_Parse encode_problem encode_payload r t).
Proof. unfold transfer_answer, problem, answer. maintains_tac. Qed.
#[local] Hint Resolve answer_error_kept withdrawal_answer_kept transfer_answer_kept : maintains.

Lemma serve_kept ep r :
  kept (serve uuid_Parse uuid_String encode_problem encode_payload decode_transfer
    decode_withdrawal decode_approve ep r).
Proof.
  destruct ep; simpl.
  - unfold customerServer_CreateCustomer, CreateCustomer_Execute, new_account, answer, problem; simpl.
    maintains_tac.
  - unfold customerServer_GetCustomer, GetCustomer_Execute, answer, problem; simpl.
    unfold CustomerReader_GetCustomer. maintains_tac.
  - unfold customerServer_GetCustomerBalances, GetCustomerBalances_Execute, answer, problem; simpl.
    unfold BalanceRepository_CustomerBalances. maintains_tac.
  - unfold customerServer_CreateTransfer, CreateTransfer_Execute, answer, problem; simpl. maintains_tac.
  - unfold customerServer_ListCustomerTransactions, ListCustomerTransactions_Execute, answer, problem.
    maintains_tac.
  - unfold customerServer_GetCustomerDeposits, GetCustomerDeposits_Execute, answer, problem. maintains_tac.
  - unfold customerServer_GetUnsupportedTokenObservations, ListUnsupportedTokenObservations_Execute,
      answer, problem; simpl. unfold UnsupportedTokenRepository_ListObservations. maintains_tac.
  - unfold customerServer_GetWithdrawalFeeEstimate, EstimateFee_Execute, answer, problem. maintains_tac.
  - unfold customerServer_CreateWithdrawal, CreateWithdrawal_Execute, answer, problem; simpl. maintains_tac.
  - unfold customerServer_ApproveWithdrawal, ApproveWithdrawal_Execute, answer, problem; simpl.
    maintains_tac.
  - auto with maintains.
Qed.
#[local] Hint Resolve serve_kept : maintains.

Lemma run_handler_kept next r key hash :
  (∀ r, kept (next r)) → kept (run_handler encode_problem next r key hash).
Proof. intros Hn. unfold run_handler. maintains_tac. Qed.
#[local] Hint Resolve run_handler_kept : maintains.

Lemma api_request_kept r :
  kept (api_request uuid_Parse uuid_String encode_problem encode_payload decode_transfer
    decode_withdrawal decode_approve sha256 route r).
Proof.
  unfold api_request, IdempotencyMiddleware, server. maintains_tac.
Qed.
End api.

Section system.
Context `{DD : DepositAddressDeriver} `{FE : FeeEstimator} `{Scan : ChainScanner} `{G : Signer}.
Context `{B : TransactionBroadcaster}.
Context (Fee_quiet : ∀ ch a z, quiet (EstimateFee ch a z)).
Context `{!ChainScannerLaws Scan} `{!SignerLaws G} `{!TransactionBroadcasterLaws B}.
Context (uuid_Parse : string → option bytes) (uuid_String : bytes → string).
Context (encode_problem : ProblemDetails → bytes) (encode_payload : Payload → bytes).
Context (decode_transfer : bytes → option TransferBody) (decode_withdrawal : bytes → option WithdrawalBody).
Context (decode_approve : bytes → option ApproveBody) (sha256 hmac : bytes → bytes).
Context (zone : Z → Z) (route : Request → Endpoint).

Let run_entry := run_entry uuid_Parse uuid_String encode_problem encode_payload decode_transfer
  decode_withdrawal decode_approve sha256 hmac zone route.
Let run_entries := run_entries uuid_Parse uuid_String encode_problem encode_payload decode_transfer
  decode_withdrawal decode_approve sha256 hmac zone route.

Lemma run_entry_kept e : kept (run_entry e).
Proof.
  destruct e; simpl; (apply maintains_bind; [|auto with maintains]) || idtac; auto with maintains.
  apply api_request_kept; [done|..]; intros *; simpl;
    unfold TransactionRepository_ListCustomerTransactions, DepositReader_ListCustomerDeposits; maintains_tac.
Qed.

(** The accounts, thresholds and counters the migrations insert. *)
Lemma migrated_schema uuid t : (∀ n m, uuid n = uuid m → n = m) → schema_ok (migrated_db uuid t).
Proof.
  intros Hinj. constructor; cbn; try (by repeat constructor); try done.
  - by apply (migrated_account_ids uuid Hinj t).
  - unfold ac_key; cbn. by apply (bool_decide_unpack _).
  - by apply (bool_decide_unpack _).
  - unfold th_key; cbn. by apply (bool_decide_unpack _).
  - by apply (bool_decide_unpack _).
Qed.

(** C14: the schema. PRIMARY KEYs, UNIQUEs, FOREIGN KEYs, CHECKs and the ranges of the
    numeric columns hold of the migrated database, and every sequence of entry points
    keeps them, whatever faults, lost acknowledgements and other sessions it meets. The
    UPDATEs check nothing in the model: that a promotion, an orphaning or a credit makes
    no second active row of one (chain, tx_hash, log_index), and that a claim writes a
    nonce in range, is what the program's own guards give. *)
Theorem entries_keep_schema :
  (∀ uuid t, (∀ n m, uuid n = uuid m → n = m) → schema_ok (migrated_db uuid t)) ∧
  (∀ es c s, others_preserve schema_ok c → schema_ok (st_db s) → schema_ok (st_db (run_entries es c s))).
Proof.
  split; [by apply migrated_schema|]. intros es c s Ho. revert s.
  induction es as [|e es IH]; intros s Hs; simpl; [done|]. apply IH.
  destruct (System.run_entry _ _ _ _ _ _ _ _ _ _ _ e c s) as [r s'] eqn:E.
  eapply run_entry_kept; [exact Ho|exact Hs|exact E].
Qed.
End system.
