(* ===== verification/Scanner.v ===== *)
(** * The chain scanner

    src/internal/adapter/evm/scanner.go: [Head], [BlockHash], [ScanDeposits] and its
    three passes (top-level ETH transfers, internal ETH transfers found in call
    traces, ERC-20 Transfer logs). The JSON-RPC node is the class [scanClient];
    go-ethereum's pure helpers are the class [GoEthereum]. *)

From Stdlib Require Import ZArith Lia.
From stdpp Require Import prelude strings gmap list_numbers.
From S2P Require Import Prelude GoStd Domain Store Effects Ports.

(** ** What the adapter uses of go-ethereum *)

(** Addresses and hashes are 20 and 32 bytes. *)
Class GoEthereum := {
  HexToAddress : string → bytes;
  Address_Hex : bytes → string;
  BytesToAddress : bytes → bytes;
  BytesToHash : bytes → bytes;
  Hash_Hex : bytes → string;
  Keccak256Hash : bytes → bytes;
  SafeBlockNumber : Z;
  FinalizedBlockNumber : Z;
}.

Record rawBlockTransaction := mkRawTx { rt_Hash : bytes; rt_To : option bytes; rt_Value : option Z }.
Record rawBlock := mkRawBlock { rb_Hash : bytes; rb_Transactions : list rawBlockTransaction }.

Inductive callFrame :=
  mkCallFrame (Type_ : string) (From : bytes) (To : option bytes) (Value : option Z)
    (Error_ : string) (Calls : list callFrame).
Definition cf_Type (f : callFrame) : string := let 'mkCallFrame t _ _ _ _ _ := f in t.
Definition cf_To (f : callFrame) : option bytes := let 'mkCallFrame _ _ t _ _ _ := f in t.
Definition cf_Value (f : callFrame) : option Z := let 'mkCallFrame _ _ _ v _ _ := f in v.
Definition cf_Error (f : callFrame) : string := let 'mkCallFrame _ _ _ _ e _ := f in e.
Definition cf_Calls (f : callFrame) : list callFrame := let 'mkCallFrame _ _ _ _ _ l := f in l.

Record txCallTrace := mkTrace { tt_TxHash : bytes; tt_Result : callFrame; tt_Error : string }.

Record Log := mkLog {
  lg_Address : bytes; lg_Topics : list bytes; lg_Data : bytes; lg_BlockNumber : Z;
  lg_TxHash : bytes; lg_BlockHash : bytes; lg_Index : Z; lg_Removed : bool;
}.
Record Header := mkHeader { hd_Number : option Z; hd_Hash : bytes }.

(** [HeaderByNumber] answers [ethereum.NotFound] for a height with no block;
    [FilterLogs] is given the range and the topics of each position (none: any). *)
Class scanClient := {
  BlockNumber : M Z;
  HeaderByNumber : Z → M (option Header);
  FilterLogs : Z → Z → list (list bytes) → M (list Log);
  eth_getBlockByNumber : Z → M rawBlock;
  debug_traceBlockByNumber : Z → M (list txCallTrace);
}.
Class scanClientLaws (C : scanClient) := {
  BlockNumber_external : external BlockNumber;
  HeaderByNumber_external n : external (HeaderByNumber n);
  FilterLogs_external a b ts : external (FilterLogs a b ts);
  getBlock_external n : external (eth_getBlockByNumber n);
  traceBlock_external n : external (debug_traceBlockByNumber n);
}.

Section scanner.
Context `{GE : GoEthereum} `{C : scanClient} (chain_Name : string).

Definition nativeTransferLogIndex : Z := -1.
Definition erc20TransferSignature : bytes := Keccak256Hash "Transfer(address,address,uint256)".

(** ** Head and BlockHash *)

Definition tag_block (tag : string) (number : Z) : M Z :=
  let! header := wrapping ("query " +:+ chain_Name +:+ " for " +:+ tag +:+
                           " block (RPC endpoint may not support the " +:+ tag +:+ " tag)")
                   (HeaderByNumber number) in
  match header with
  | Some h =>
      lift_option (hd_Number h)
        (ErrText ("query " +:+ chain_Name +:+ " for " +:+ tag +:+ " block: RPC returned no header"))
  | None => throw (ErrText ("query " +:+ chain_Name +:+ " for " +:+ tag +:+ " block: RPC returned no header"))
  end.

Definition Scanner_Head : M (Z * Z * Z) :=
  let! latest := wrapping ("query " +:+ chain_Name +:+ " for head block") BlockNumber in
  let! safe := tag_block "safe" SafeBlockNumber in
  let! finalized := tag_block "finalized" FinalizedBlockNumber in
  ret (latest, u64 safe, u64 finalized).

Definition Scanner_BlockHash (blockNumber : Z) : M (option string) :=
  let! header := try (HeaderByNumber blockNumber) in
  match header with
  | Err e =>
      if errors_Is e EthereumNotFound then ret None
      else throw (wrap ("query " +:+ chain_Name +:+ " for block header") e)
  | Ok (Some h) => ret (Some (Hash_Hex (hd_Hash h)))
  | Ok None => throw (ErrText "panic: nil header")
  end.

(** ** Top-level transfers *)

Section known.
Context (known : gmap bytes string).

Definition native_transfer (block : rawBlock) (blockNum : Z) (tx : rawBlockTransaction)
    : option ObservedTransfer :=
  match rt_To tx with
  | None => None
  | Some to =>
      match known !! to with
      | None => None
      | Some addr =>
          match rt_Value tx with
          | None => None
          | Some value =>
              if value <=? 0 then None
              else Some (mkObservedTransfer chain_Name AssetETH addr (Hash_Hex (rt_Hash tx))
                           nativeTransferLogIndex value blockNum (Hash_Hex (rb_Hash block)))
          end
      end
  end.
Definition native_transfers (block : rawBlock) (blockNum : Z) : list ObservedTransfer :=
  omap (native_transfer block blockNum) (rb_Transactions block).

(** ** Internal transfers *)

Definition visit (block : rawBlock) (blockNum : Z) (txHash : bytes) (idx : Z) (childReverted : bool)
    (child : callFrame) : list ObservedTransfer :=
  if negb childReverted && String.eqb (cf_Type child) "CALL" then
    match cf_To child, cf_Value child with
    | Some to, Some value =>
        match known !! to with
        | Some addr =>
            if 0 <? value
            then [mkObservedTransfer chain_Name AssetETH addr (Hash_Hex txHash) (-2 - idx) value
                    blockNum (Hash_Hex (rb_Hash block))]
            else []
        | None => []
        end
    | _, _ => []
    end
  else [].

(** The closure [walk] and the two variables it updates: [dfsIndex], [transfers]. *)
Fixpoint walk (visit : Z → bool → callFrame → list ObservedTransfer) (frame : callFrame)
    (reverted : bool) (st : Z * list ObservedTransfer) : Z * list ObservedTransfer :=
  let 'mkCallFrame _ _ _ _ _ calls := frame in
  (fix children (calls : list callFrame) (st : Z * list ObservedTransfer) :=
     match calls with
     | [] => st
     | child :: calls =>
         let '(dfsIndex, transfers) := st in
         let childReverted := reverted || negb (String.eqb (cf_Error child) EmptyString) in
         children calls
           (walk visit child childReverted
              (dfsIndex + 1, transfers ++ visit dfsIndex childReverted child))
     end) calls st.

Definition trace_transfers (block : rawBlock) (blockNum : Z) (transfers : list ObservedTransfer)
    (trace : txCallTrace) : list ObservedTransfer :=
  if negb (String.eqb (tt_Error trace) EmptyString) then transfers
  else snd (walk (visit block blockNum (tt_TxHash trace)) (tt_Result trace)
              (negb (String.eqb (cf_Error (tt_Result trace)) EmptyString)) (0, transfers)).

(** A failed trace call turns the pass off for the rest of the process's life. *)
Definition scanInternalTransfers (block : rawBlock) (blockNum : Z) : M (list ObservedTransfer) :=
  let! disabled := internalTraceDisabled in
  if disabled || bool_decide (known = ∅) then ret [] else
  let! traces := try (debug_traceBlockByNumber blockNum) in
  match traces with
  | Err _ => do! disableInternalTrace in ret []
  | Ok traces => ret (foldl (trace_transfers block blockNum) [] traces)
  end.

(** [for blockNum := fromBlock; blockNum <= toBlock; blockNum++]; [fuel] bounds the
    number of iterations. *)
Fixpoint scan_blocks (fuel : nat) (blockNum toBlock : Z) : M (list ObservedTransfer) :=
  if blockNum <=? toBlock then
    match fuel with
    | O => throw (ErrText "out of fuel")
    | S fuel =>
        let! block := wrapping ("query " +:+ chain_Name +:+ " for block") (eth_getBlockByNumber blockNum) in
        let! internal := scanInternalTransfers block blockNum in
        let! rest := scan_blocks fuel (u64 (blockNum + 1)) toBlock in
        ret (native_transfers block blockNum ++ internal ++ rest)
    end
  else ret [].

Definition scanNativeTransfers (fromBlock toBlock : Z) : M (list ObservedTransfer) :=
  scan_blocks (Z.to_nat (toBlock - fromBlock + 1)) fromBlock toBlock.

(** ** ERC-20 transfers *)

Definition log_transfer (tokenRegistry : gmap string Asset) (l : Log)
    : option (ObservedTransfer + UnsupportedTokenObservation) :=
  match lg_Topics l with
  | [_; _; topic2] =>
      if lg_Removed l || negb (String.length (lg_Data l) =? 32)%nat then None else
      match known !! BytesToAddress topic2 with
      | None => None
      | Some addr =>
          let amount := big_SetBytes (lg_Data l) in
          if amount <=? 0 then None else
          match tokenRegistry !! ToLower (Address_Hex (lg_Address l)) with
          | None =>
              Some (inr (mkUnsupported EmptyString chain_Name addr (Address_Hex (lg_Address l))
                           (Hash_Hex (lg_TxHash l)) (i64 (lg_Index l)) amount (lg_BlockNumber l) 0))
          | Some asset =>
              Some (inl (mkObservedTransfer chain_Name asset addr (Hash_Hex (lg_TxHash l))
                           (i64 (lg_Index l)) amount (lg_BlockNumber l) (Hash_Hex (lg_BlockHash l))))
          end
      end
  | _ => None
  end.

Definition erc20_topics : list (list bytes) :=
  [[erc20TransferSignature]; []; map (λ p, BytesToHash (fst p)) (map_to_list known)].

Definition left_of {X Y} (v : X + Y) : option X := match v with inl x => Some x | inr _ => None end.
Definition right_of {X Y} (v : X + Y) : option Y := match v with inl _ => None | inr y => Some y end.

Definition scanERC20Transfers (tokenRegistry : gmap string Asset) (fromBlock toBlock : Z)
    : M (list ObservedTransfer * list UnsupportedTokenObservation) :=
  if bool_decide (known = ∅) then ret ([], []) else
  let! logs := wrapping ("query " +:+ chain_Name +:+ " for ERC-20 transfer logs")
                 (FilterLogs fromBlock toBlock erc20_topics) in
  let found := omap (log_transfer tokenRegistry) logs in
  ret (omap left_of found, omap right_of found).
End known.

Definition known_addresses (knownAddresses : list string) : gmap bytes string :=
  foldl (λ known a, <[HexToAddress a := a]> known) ∅ knownAddresses.

Definition Scanner_ScanDeposits (knownAddresses : list string) (tokenRegistry : gmap string Asset)
    (fromBlock toBlock : Z) : M (list ObservedTransfer * list UnsupportedTokenObservation) :=
  if toBlock <? fromBlock then ret ([], []) else
  let known := known_addresses knownAddresses in
  let! native := scanNativeTransfers known fromBlock toBlock in
  let! (erc20, unsupported) := scanERC20Transfers known tokenRegistry fromBlock toBlock in
  ret (native ++ erc20, unsupported).

#[export] Instance evm_ChainScanner : ChainScanner := {
  Head := Scanner_Head;
  BlockHash := Scanner_BlockHash;
  ScanDeposits := Scanner_ScanDeposits;
}.
End scanner.
