(* ===== verification/ScannerProofs.v ===== *)
(** * What the scanner finds

    The call-trace walk of Scanner.v against a reference that prunes reverted
    subtrees; what a transaction, a call and a log say, independently of the code
    ([top_level], [internal], [supported], [unsupported]); and that a whole scan over a
    node that answers from one chain returns just these, whether or not it supports
    tracing. *)

From Stdlib Require Import ZArith Lia.
From stdpp Require Import prelude strings gmap list_numbers.
From S2P Require Import Prelude GoStd Domain Store Effects Ports Scanner.

(** ** The call tree *)

Lemma callFrame_nested_ind (P : callFrame → Prop) :
  (∀ f, Forall P (cf_Calls f) → P f) → ∀ f, P f.
Proof.
  intros HP. fix IH 1. intros [ty fr to v e calls]. apply HP. simpl.
  induction calls as [|c calls IHc]; constructor; [apply IH|apply IHc].
Qed.

Definition failed (f : callFrame) : bool := negb (String.eqb (cf_Error f) EmptyString).

(** Every non-root frame in the order [walk] numbers them, with its revert flag. *)
Fixpoint preorder (frame : callFrame) (reverted : bool) : list (bool * callFrame) :=
  let 'mkCallFrame _ _ _ _ _ calls := frame in
  (fix go (calls : list callFrame) :=
     match calls with
     | [] => []
     | c :: calls =>
         let r := reverted || failed c in (r, c) :: preorder c r ++ go calls
     end) calls.

(** The reference: the frames that took effect, found by not entering reverted ones. *)
Fixpoint live_frames (frame : callFrame) : list callFrame :=
  let 'mkCallFrame _ _ _ _ _ calls := frame in
  (fix go (calls : list callFrame) :=
     match calls with
     | [] => []
     | c :: calls => (if failed c then [] else c :: live_frames c) ++ go calls
     end) calls.

Fixpoint visits (v : Z → bool → callFrame → list ObservedTransfer) (i : Z)
    (l : list (bool * callFrame)) : list ObservedTransfer :=
  match l with [] => [] | (r, f) :: l => v i r f ++ visits v (i + 1) l end.

Lemma visits_app v i l1 l2 :
  visits v i (l1 ++ l2) = visits v i l1 ++ visits v (i + Z.of_nat (length l1)) l2.
Proof.
  revert i. induction l1 as [|[r f] l1 IH]; intros i; simpl; [by rewrite Z.add_0_r|].
  rewrite IH, <-app_assoc. do 3 f_equal. lia.
Qed.

Lemma walk_preorder v f r i ts :
  walk v f r (i, ts) =
    (i + Z.of_nat (length (preorder f r)), ts ++ visits v i (preorder f r)).
Proof.
  revert r i ts. induction f as [[ty fr to va e calls] IH] using callFrame_nested_ind.
  intros r. simpl in IH |- *. induction IH as [|c calls Hc _ IHc]; intros i ts; simpl.
  { by rewrite Z.add_0_r, app_nil_r. }
  fold (failed c). rewrite Hc, IHc. f_equal.
  - rewrite length_app. lia.
  - by rewrite visits_app, <-!app_assoc.
Qed.

Lemma preorder_reverted f r b c : (b, c) ∈ preorder f r → r = true → b = true.
Proof.
  revert r. induction f as [[ty fr to va e calls] IH] using callFrame_nested_ind.
  intros r H ->. simpl in IH, H. induction IH as [|d calls Hd _ IHc]; [by apply elem_of_nil in H|].
  apply elem_of_cons in H as [[= -> _]|[H|H]%elem_of_app]; [done|by eapply Hd|by apply IHc].
Qed.

Definition unreverted (l : list (bool * callFrame)) : list callFrame :=
  omap (λ p : bool * callFrame, if fst p then None else Some (snd p)) l.

Lemma unreverted_none f : unreverted (preorder f true) = [].
Proof.
  assert (∀ p, p ∈ preorder f true → fst p = true) as H
    by (intros [b d] Hp; by apply preorder_reverted in Hp).
  induction (preorder f true) as [|p l IH]; [done|]. unfold unreverted in *. simpl.
  rewrite (H p) by left. apply IH. intros q Hq. apply H. by right.
Qed.

Lemma preorder_live f : unreverted (preorder f false) = live_frames f.
Proof.
  induction f as [[ty fr to va e calls] IH] using callFrame_nested_ind.
  simpl in IH |- *. induction IH as [|c calls Hc _ IHc]; [done|].
  unfold unreverted in *. cbn -[preorder].
  destruct (failed c) eqn:E; rewrite omap_app, IHc.
  - pose proof (unreverted_none c) as Hn. unfold unreverted in Hn. by rewrite Hn.
  - by rewrite Hc.
Qed.

Section scanner.
Context `{GE : GoEthereum} (chain_Name : string) (known : gmap bytes string).

(** The value a frame that took effect brings to a known address. *)
Definition moved (f : callFrame) : option (string * Z) :=
  if String.eqb (cf_Type f) "CALL" then
    match cf_To f, cf_Value f with
    | Some to, Some v => match known !! to with
                         | Some a => if 0 <? v then Some (a, v) else None
                         | None => None
                         end
    | _, _ => None
    end
  else None.

Definition effective_calls (trace : txCallTrace) : list callFrame :=
  if String.eqb (tt_Error trace) EmptyString && negb (failed (tt_Result trace))
  then live_frames (tt_Result trace) else [].

Definition found (block : rawBlock) (n : Z) (trace : txCallTrace) : list ObservedTransfer :=
  trace_transfers chain_Name known block n [] trace.

Let visit := visit chain_Name known.

Lemma visit_moved block n tx i r f :
  map (λ t, (ot_Address t, ot_Amount t)) (visit block n tx i r f) =
    (if r then [] else option_list (moved f)) ∧
  ∀ t, t ∈ visit block n tx i r f → ot_LogIndex t = -2 - i ∧ ot_TxHash t = Hash_Hex tx ∧
    ot_BlockNumber t = n ∧ ot_BlockHash t = Hash_Hex (rb_Hash block) ∧ ot_Asset t = AssetETH.
Proof.
  unfold visit, Scanner.visit, moved. destruct r; simpl; [split; [done|set_solver]|].
  repeat case_match; simpl; split; try done; try set_solver.
  all: intros t ->%list_elem_of_singleton; done.
Qed.

Lemma visits_moved block n tx i l :
  map (λ t, (ot_Address t, ot_Amount t)) (visits (visit block n tx) i l) =
    omap moved (unreverted l) ∧
  ∀ t, t ∈ visits (visit block n tx) i l → ot_LogIndex t <= -2 - i ∧ ot_TxHash t = Hash_Hex tx ∧
    ot_BlockNumber t = n ∧ ot_BlockHash t = Hash_Hex (rb_Hash block) ∧ ot_Asset t = AssetETH.
Proof.
  revert i. induction l as [|[r f] l IH]; intros i; simpl; [split; [done|set_solver]|].
  destruct (IH (i + 1)) as [E HA]. destruct (visit_moved block n tx i r f) as [Ev Hv]. split.
  - rewrite map_app, Ev, E. destruct r; simpl; [done|]. by destruct (moved f).
  - intros t [Ht|Ht]%elem_of_app; [apply Hv in Ht|apply HA in Ht]; destruct_and!; split_and!; auto; lia.
Qed.

Lemma visits_indices block n tx i l : NoDup (map ot_LogIndex (visits (visit block n tx) i l)).
Proof.
  revert i. induction l as [|[r f] l IH]; intros i; simpl; [constructor|].
  rewrite map_app. apply NoDup_app. split_and!; [| |done].
  - destruct (visit_moved block n tx i r f) as [E _]. apply (f_equal length) in E.
    rewrite length_map in E. destruct (visit block n tx i r f) as [|t [|t' ts]].
    + constructor.
    + apply NoDup_singleton.
    + destruct r; [done|]. by destruct (moved f).
  - intros x (t & -> & Ht)%list_elem_of_fmap (t' & E & Ht')%list_elem_of_fmap.
    apply (visit_moved block n tx i r f) in Ht as [Ei _].
    apply (visits_moved block n tx (i + 1) l) in Ht' as [Hi _]. lia.
Qed.

Lemma trace_transfers_found block n ts tr :
  trace_transfers chain_Name known block n ts tr = ts ++ found block n tr.
Proof.
  unfold found, trace_transfers. destruct (String.eqb _ _); simpl; [|by rewrite app_nil_r].
  by rewrite !walk_preorder.
Qed.

(** C30: internal transfers. The depth-first walk of a transaction's call trace records
    exactly, in order and once each, the CALL frames that moved a positive value to a
    known address and took effect (no frame above them, nor they, reverted), under
    log indices at or below -2 that are distinct within the transaction. *)
Theorem internal_transfers_reference block n trace :
  map (λ t, (ot_Address t, ot_Amount t)) (found block n trace) = omap moved (effective_calls trace) ∧
  NoDup (map ot_LogIndex (found block n trace)) ∧
  Forall (λ t, ot_LogIndex t <= -2 ∧ ot_TxHash t = Hash_Hex (tt_TxHash trace) ∧
               ot_BlockNumber t = n ∧ ot_BlockHash t = Hash_Hex (rb_Hash block) ∧
               ot_Asset t = AssetETH) (found block n trace).
Proof.
  unfold found, trace_transfers, effective_calls. fold (failed (tt_Result trace)).
  destruct (String.eqb _ _); simpl; [|by split_and!; [|constructor|constructor]].
  rewrite walk_preorder. simpl. fold (visit block n (tt_TxHash trace)).
  split_and!.
  - destruct (visits_moved block n (tt_TxHash trace) 0 (preorder (tt_Result trace) (failed (tt_Result trace)))) as [E _].
    rewrite E. destruct (failed _); [by rewrite unreverted_none|by rewrite preorder_live].
  - apply visits_indices.
  - apply Forall_forall. intros t Ht. apply visits_moved in Ht as (? & ?). split; [lia|done].
Qed.
End scanner.

(** ** What there is to find, said of the chain alone *)

(** The topic filter of eth_getLogs: a position with no alternatives matches anything,
    and a log with fewer topics than positions does not match. *)
Fixpoint topics_match (ts : list (list bytes)) (topics : list bytes) : bool :=
  match ts, topics with
  | [], _ => true
  | _ :: _, [] => false
  | alternatives :: ts, t :: topics =>
      (bool_decide (alternatives = []) || bool_decide (t ∈ alternatives)) && topics_match ts topics
  end.

Section specification.
Context `{GE : GoEthereum} (chain_Name : string) (addresses : list string).

(** A 20-byte address is one of the known ones, written [addr] (the last way, if a list
    spells it several ways). *)
Definition known_as (a : bytes) (addr : string) : Prop :=
  ∃ before after, addresses = before ++ addr :: after ∧ HexToAddress addr = a ∧
    ∀ x, x ∈ after → HexToAddress x ≠ a.

(** A transaction of a block that sends ETH to a known address. *)
Definition top_level (n : Z) (block : rawBlock) (t : ObservedTransfer) : Prop :=
  ∃ tx to addr v, tx ∈ rb_Transactions block ∧ rt_To tx = Some to ∧ known_as to addr ∧
    rt_Value tx = Some v ∧ 0 < v ∧
    t = mkObservedTransfer chain_Name AssetETH addr (Hash_Hex (rt_Hash tx)) (-1) v n (Hash_Hex (rb_Hash block)).

(** A CALL inside a transaction that sends ETH to a known address and took effect: it is
    the [i]th frame below the root, and neither it nor one above it failed. *)
Definition internal (n : Z) (block : rawBlock) (trace : txCallTrace) (t : ObservedTransfer) : Prop :=
  tt_Error trace = EmptyString ∧
  ∃ i f to addr v,
    preorder (tt_Result trace) (failed (tt_Result trace)) !! i = Some (false, f) ∧
    cf_Type f = "CALL" ∧ cf_To f = Some to ∧ known_as to addr ∧ cf_Value f = Some v ∧ 0 < v ∧
    t = mkObservedTransfer chain_Name AssetETH addr (Hash_Hex (tt_TxHash trace)) (-2 - Z.of_nat i) v n
          (Hash_Hex (rb_Hash block)).

(** A well-formed Transfer log of a positive amount to a known address, still in the
    chain: three topics (signature, from, to) and one 32-byte word of data. *)
Definition token_transfer (l : Log) (addr : string) (amount : Z) : Prop :=
  lg_Removed l = false ∧
  (∃ from to, lg_Topics l = [Keccak256Hash "Transfer(address,address,uint256)"; from; BytesToHash to] ∧
     known_as to addr) ∧
  String.length (lg_Data l) = 32%nat ∧ amount = big_SetBytes (lg_Data l) ∧ 0 < amount.

Definition supported (registry : gmap string Asset) (l : Log) (t : ObservedTransfer) : Prop :=
  ∃ addr amount asset, token_transfer l addr amount ∧
    registry !! ToLower (Address_Hex (lg_Address l)) = Some asset ∧
    t = mkObservedTransfer chain_Name asset addr (Hash_Hex (lg_TxHash l)) (i64 (lg_Index l)) amount
          (lg_BlockNumber l) (Hash_Hex (lg_BlockHash l)).
Definition unsupported (registry : gmap string Asset) (l : Log) (u : UnsupportedTokenObservation) : Prop :=
  ∃ addr amount, token_transfer l addr amount ∧
    registry !! ToLower (Address_Hex (lg_Address l)) = None ∧
    u = mkUnsupported EmptyString chain_Name addr (Address_Hex (lg_Address l)) (Hash_Hex (lg_TxHash l))
          (i64 (lg_Index l)) amount (lg_BlockNumber l) 0.

(** *** The code's tables and passes find exactly these *)

Lemma known_addresses_spec a addr : known_addresses addresses !! a = Some addr ↔ known_as a addr.
Proof.
  unfold known_as, known_addresses.
  assert (∀ m : gmap bytes string,
    foldl (λ known a, <[HexToAddress a := a]> known) m addresses !! a = Some addr ↔
    (∃ before after, addresses = before ++ addr :: after ∧ HexToAddress addr = a ∧
       ∀ x, x ∈ after → HexToAddress x ≠ a) ∨
    (m !! a = Some addr ∧ ∀ x, x ∈ addresses → HexToAddress x ≠ a)) as Hgen.
  { induction addresses as [|y l IH]; intros m; simpl.
    - split; [intros H; right; split; [done|by intros x ?%elem_of_nil]|].
      intros [(? & ? & H & _)|[H _]]; [by destruct (app_cons_not_nil _ _ _ H)|done].
    - rewrite IH. split.
      + intros [(b & a' & -> & E & Ha)|[H Ha]]; [left; by exists (y :: b), a'|].
        apply lookup_insert_Some in H as [[E ->]|[Hne H]]; [left; by exists [], l|].
        right. split; [done|]. intros x [->|Hx]%elem_of_cons; auto.
      + intros [(b & a' & El & E & Ha)|[H Ha]].
        * destruct b as [|z b]; simplify_eq/=; [right|left; by exists b, a'].
          split; [by apply lookup_insert_Some; left|done].
        * right. split; [|intros x Hx; apply Ha; by right].
          apply lookup_insert_Some. right. split; [apply Ha; by left|done]. }
  rewrite Hgen, lookup_empty. naive_solver.
Qed.

Lemma known_as_in a addr : known_as a addr → ∃ s, a = HexToAddress s.
Proof. intros (_ & _ & _ & <- & _). by exists addr. Qed.

Let known := known_addresses addresses.

Lemma native_transfers_spec n block t :
  t ∈ native_transfers chain_Name known block n ↔ top_level n block t.
Proof.
  unfold native_transfers, top_level. rewrite list_elem_of_omap. unfold native_transfer, nativeTransferLogIndex.
  split.
  - intros (tx & Htx & H). repeat case_match; simplify_eq.
    match goal with Hk : _ !! _ = Some _ |- _ => apply known_addresses_spec in Hk end.
    eexists tx, _, _, _. split_and!; try done. by apply Z.leb_gt.
  - intros (tx & to & addr & v & Htx & Eto & Hk & Ev & Hv & ->). exists tx. split; [done|].
    apply known_addresses_spec in Hk. unfold known. rewrite Eto, Hk, Ev.
    by destruct (Z.leb_spec v 0); [lia|].
Qed.

Lemma visits_elem v i0 l (t : ObservedTransfer) :
  t ∈ visits v i0 l ↔ ∃ i r f, l !! i = Some (r, f) ∧ t ∈ v (i0 + Z.of_nat i) r f.
Proof.
  revert i0. induction l as [|[r f] l IH]; intros i0; simpl.
  { split; [by intros ?%elem_of_nil|]. by intros (i & r & f & H & _). }
  rewrite elem_of_app, IH. split.
  - intros [H|(i & r' & f' & H & Ht)]; [exists 0%nat, r, f; by rewrite Z.add_0_r|].
    exists (S i), r', f'. split; [done|]. by replace (i0 + Z.of_nat (S i)) with (i0 + 1 + Z.of_nat i) by lia.
  - intros ([|i] & r' & f' & H & Ht); simplify_eq/=; [left; by rewrite Z.add_0_r in Ht|right].
    exists i, r', f'. split; [done|]. by replace (i0 + 1 + Z.of_nat i) with (i0 + Z.of_nat (S i)) by lia.
Qed.

Lemma found_spec n block trace t :
  t ∈ found chain_Name known block n trace ↔ internal n block trace t.
Proof.
  unfold found, trace_transfers, internal. destruct (String.eqb_spec (tt_Error trace) EmptyString) as [E|E]; simpl.
  2:{ split; [by intros ?%elem_of_nil|]. by intros [? _]. }
  fold (failed (tt_Result trace)). rewrite walk_preorder. cbn [snd]. rewrite app_nil_l, visits_elem. split.
  - intros (i & r & f & Hi & Ht). split; [done|]. unfold visit in Ht.
    destruct r; [by apply elem_of_nil in Ht|]. simpl in Ht. revert Ht.
    destruct (String.eqb_spec (cf_Type f) "CALL"); [|by intros ?%elem_of_nil].
    repeat case_match; try (by intros ?%elem_of_nil). intros ->%list_elem_of_singleton.
    match goal with Hk : _ !! _ = Some _ |- _ => apply known_addresses_spec in Hk end.
    eexists i, f, _, _, _. split_and!; try done. by apply Z.ltb_lt.
  - intros (_ & i & f & to & addr & v & Hi & Ety & Eto & Hk & Ev & Hv & ->). exists i, false, f.
    split; [done|]. unfold visit. apply known_addresses_spec in Hk. unfold known.
    rewrite Ety, String.eqb_refl, Eto, Ev, Hk. simpl. destruct (Z.ltb_spec 0 v); [|lia].
    by apply list_elem_of_singleton.
Qed.

Context (Haddress : ∀ a, BytesToAddress (BytesToHash (HexToAddress a)) = HexToAddress a).

Definition classified (registry : gmap string Asset) (l : Log)
    (v : ObservedTransfer + UnsupportedTokenObservation) : Prop :=
  match v with inl t => supported registry l t | inr u => unsupported registry l u end.

Lemma erc20_topics_match topics :
  topics_match (erc20_topics known) topics = true ∧ length topics = 3%nat ∧ known ≠ ∅ ↔
  ∃ from to addr, topics = [Keccak256Hash "Transfer(address,address,uint256)"; from; BytesToHash to] ∧
    known_as to addr.
Proof.
  unfold erc20_topics, erc20TransferSignature. split.
  - destruct topics as [|t0 [|t1 [|t2 [|]]]]; intros (H & Hl & Hk); try done. simpl in H.
    rewrite !andb_true_iff, orb_true_iff, !bool_decide_eq_true in H.
    destruct H as (-> %list_elem_of_singleton & H & _).
    assert (t2 ∈ map (λ p, BytesToHash (fst p)) (map_to_list known)) as Ht.
    { destruct H as [H|H]; [|done]. apply fmap_nil_inv, map_to_list_empty_iff in H. by destruct Hk. }
    apply list_elem_of_fmap in Ht as ([a addr] & -> & Ha%elem_of_map_to_list).
    exists t1, a, addr. split; [done|]. by apply known_addresses_spec.
  - intros (from & to & addr & -> & Hk). apply known_addresses_spec in Hk. split_and!; [|done|].
    + simpl. rewrite !andb_true_r. apply andb_true_iff. split; [by apply bool_decide_eq_true, list_elem_of_singleton|].
      apply orb_true_iff. right. apply bool_decide_eq_true, list_elem_of_fmap. exists (to, addr).
      split; [done|]. by apply elem_of_map_to_list.
    + intros E. unfold known in E. rewrite E in Hk. by rewrite lookup_empty in Hk.
Qed.

(** What the pass makes of a log, and what a log is: decoding succeeds on exactly the
    logs that the filter lets through and that are transfers, and classifies them. *)
Lemma log_transfer_spec registry l v :
  topics_match (erc20_topics known) (lg_Topics l) = true ∧ log_transfer chain_Name known registry l = Some v ↔
  classified registry l v.
Proof.
  split.
  - intros [Hm H]. unfold log_transfer in H.
    destruct (lg_Topics l) as [|t0 [|t1 [|t2 [|]]]] eqn:Et; try done.
    destruct (lg_Removed l || _) eqn:Er; [done|]. apply orb_false_iff in Er as [Er Ed].
    apply negb_false_iff, Nat.eqb_eq in Ed.
    destruct (known !! BytesToAddress t2) as [addr|] eqn:Ek; [|done].
    destruct (Z.leb_spec (big_SetBytes (lg_Data l)) 0); [done|].
    assert (token_transfer l addr (big_SetBytes (lg_Data l))) as Htt.
    { destruct (proj1 (erc20_topics_match [t0; t1; t2])) as (from & to & addr' & [= -> -> ->] & Hto).
      { split_and!; [done|done|]. intros E. rewrite E in Ek. by rewrite lookup_empty in Ek. }
      split_and!; try done. exists from, to. split; [done|].
      destruct (known_as_in _ _ Hto) as [x ->]. rewrite Haddress in Ek. by apply known_addresses_spec. }
    destruct (registry !! _) as [asset|] eqn:Eg; simplify_eq; simpl.
    + by exists addr, (big_SetBytes (lg_Data l)), asset.
    + by exists addr, (big_SetBytes (lg_Data l)).
  - assert (∀ addr amount, token_transfer l addr amount →
      topics_match (erc20_topics known) (lg_Topics l) = true ∧
      log_transfer chain_Name known registry l =
        match registry !! ToLower (Address_Hex (lg_Address l)) with
        | None => Some (inr (mkUnsupported EmptyString chain_Name addr (Address_Hex (lg_Address l))
                    (Hash_Hex (lg_TxHash l)) (i64 (lg_Index l)) amount (lg_BlockNumber l) 0))
        | Some asset => Some (inl (mkObservedTransfer chain_Name asset addr (Hash_Hex (lg_TxHash l))
                    (i64 (lg_Index l)) amount (lg_BlockNumber l) (Hash_Hex (lg_BlockHash l))))
        end) as Htt.
    { intros addr amount (Hr & (from & to & Et & Hk) & Hd & -> & Hpos). rewrite Et. split.
      { apply (erc20_topics_match [_; from; BytesToHash to]). eauto. }
      unfold log_transfer. rewrite Et, Hr, Hd. destruct (known_as_in _ _ Hk) as [x ->].
      rewrite Haddress. apply known_addresses_spec in Hk. unfold known. rewrite Hk. simpl.
      by destruct (Z.leb_spec (big_SetBytes (lg_Data l)) 0); [lia|]. }
    destruct v as [t|u]; simpl.
    + intros (addr & amount & asset & Ht & Eg & ->). destruct (Htt _ _ Ht) as [? ->]. by rewrite Eg.
    + intros (addr & amount & Ht & Eg & ->). destruct (Htt _ _ Ht) as [? ->]. by rewrite Eg.
Qed.
End specification.

(** ** A whole scan *)

Section scan.
Context `{GE : GoEthereum} `{C : scanClient} (chain_Name : string) (c : Ctx).

(** [m] answers [r], whatever the state, and leaves the trace flag alone. *)
Definition answers {A} (m : M A) (r : result A) : Prop :=
  ∀ s, ∃ s', m c s = (r, s') ∧ st_internalTraceDisabled s' = st_internalTraceDisabled s.

(** The chain behind the node, and whether tracing a block works there. *)
Context (blocks : Z → rawBlock) (traces : Z → result (list txCallTrace)) (chain_logs : list Log).
Definition logs (a b : Z) (ts : list (list bytes)) : list Log :=
  filter (λ l, a <= lg_BlockNumber l <= b ∧ topics_match ts (lg_Topics l) = true) chain_logs.
Context (Hblocks : ∀ n, answers (eth_getBlockByNumber n) (Ok (blocks n))).
Context (Htraces : ∀ n, answers (debug_traceBlockByNumber n) (traces n)).
Context (Hlogs : ∀ a b ts, answers (FilterLogs a b ts) (Ok (logs a b ts))).
(** An address survives being padded to a topic. *)
Context (Haddress : ∀ a, BytesToAddress (BytesToHash (HexToAddress a)) = HexToAddress a).

Section known.
Context (known : gmap bytes string).

Definition internal_found (n : Z) : list ObservedTransfer :=
  match traces n with
  | Ok trs => trs ≫= found chain_Name known (blocks n) n
  | Err _ => []
  end.

(** Top-level transfers of every block, and internal ones until a trace fails. *)
Fixpoint eth_found (disabled : bool) (ns : list Z) : list ObservedTransfer :=
  match ns with
  | [] => []
  | n :: ns =>
      native_transfers chain_Name known (blocks n) n ++
      (if disabled then [] else internal_found n) ++
      eth_found (disabled || negb (is_Ok (traces n))) ns
  end.

Lemma fold_traces block n ts trs :
  foldl (trace_transfers chain_Name known block n) ts trs = ts ++ (trs ≫= found chain_Name known block n).
Proof.
  revert ts. induction trs as [|tr trs IH]; intros ts; simpl; [by rewrite app_nil_r|].
  rewrite trace_transfers_found, IH. by rewrite <-app_assoc.
Qed.

Lemma scanInternal_answers n s :
  known ≠ ∅ →
  ∃ s', scanInternalTransfers chain_Name known (blocks n) n c s =
          (Ok (if st_internalTraceDisabled s then [] else internal_found n), s') ∧
        st_internalTraceDisabled s' = st_internalTraceDisabled s || negb (is_Ok (traces n)) .
Proof.
  intros Hk. unfold scanInternalTransfers, bind, internalTraceDisabled.
  rewrite (bool_decide_eq_false_2 _ Hk), orb_false_r.
  destruct (st_internalTraceDisabled s) eqn:E; [by exists s|]. unfold try.
  destruct (Htraces n s) as (s' & -> & Ef). unfold internal_found.
  destruct (traces n) as [trs|e]; simpl.
  - exists s'. rewrite fold_traces. split; [done|]. congruence.
  - eexists. split; [reflexivity|done].
Qed.

Lemma scan_blocks_answers fuel a b s :
  known ≠ ∅ → 0 <= a → b < 2 ^ 64 - 1 → (Z.to_nat (b - a + 1) <= fuel)%nat →
  ∃ s', scan_blocks chain_Name known fuel a b c s =
          (Ok (eth_found (st_internalTraceDisabled s) (seqZ a (b - a + 1))), s').
Proof.
  intros Hk. revert a s. induction fuel as [|fuel IH]; intros a s Ha Hb Hf; simpl.
  { destruct (Z.leb_spec a b); [lia|]. exists s. by rewrite seqZ_nil by lia. }
  destruct (Z.leb_spec a b); [|exists s; by rewrite seqZ_nil by lia].
  unfold bind at 1. unfold wrapping, map_err.
  destruct (Hblocks a s) as (s1 & -> & E1). unfold bind at 1.
  destruct (scanInternal_answers a s1 Hk) as (s2 & -> & E2). unfold bind at 1.
  assert (u64 (a + 1) = a + 1) as -> by (apply Z.mod_small; lia).
  destruct (IH (a + 1) s2) as (s3 & ->); [lia..|]. exists s3. unfold ret. do 2 f_equal.
  rewrite (seqZ_cons a) by lia. simpl. rewrite E2, E1.
  do 4 f_equal; lia.
Qed.

Lemma eth_found_unknown disabled ns : known = ∅ → eth_found disabled ns = [].
Proof.
  intros Hk. revert disabled. induction ns as [|n ns IH]; intros disabled; [done|]. simpl.
  assert (native_transfers chain_Name known (blocks n) n = []) as ->.
  { unfold native_transfers. induction (rb_Transactions (blocks n)) as [|tx txs IHt]; [done|]. simpl.
    assert (native_transfer chain_Name known (blocks n) n tx = None) as ->; [|done].
    unfold native_transfer. destruct (rt_To tx); [|done]. by rewrite Hk, lookup_empty. }
  assert (internal_found n = []) as ->; [|by destruct disabled; apply IH].
  unfold internal_found. destruct (traces n) as [trs|]; [|done].
  induction trs as [|tr trs IHt]; [done|]. rewrite bind_cons, IHt, app_nil_r.
  destruct (internal_transfers_reference chain_Name known (blocks n) n tr) as [E _].
  apply (fmap_nil_inv (λ t, (ot_Address t, ot_Amount t))). etransitivity; [exact E|]. clear E.
  induction (effective_calls tr) as [|f l IHl]; [done|]. simpl.
  assert (moved known f = None) as ->; [|exact IHl]. unfold moved.
  repeat case_match; try done; by rewrite Hk, lookup_empty in *.
Qed.

Lemma scan_blocks_unknown fuel a b s :
  known = ∅ → 0 <= a → b < 2 ^ 64 - 1 → (Z.to_nat (b - a + 1) <= fuel)%nat →
  ∃ s', scan_blocks chain_Name known fuel a b c s = (Ok [], s').
Proof.
  intros Hk. revert a s. induction fuel as [|fuel IH]; intros a s Ha Hb Hf; simpl.
  { destruct (Z.leb_spec a b); [lia|]. by exists s. }
  destruct (Z.leb_spec a b); [|by exists s].
  unfold bind at 1. unfold wrapping, map_err.
  destruct (Hblocks a s) as (s1 & -> & E1). unfold bind at 1.
  unfold scanInternalTransfers, bind at 1, internalTraceDisabled.
  rewrite (bool_decide_eq_true_2 _ Hk), orb_true_r. unfold ret at 1, bind at 1.
  assert (u64 (a + 1) = a + 1) as -> by (apply Z.mod_small; lia).
  destruct (IH (a + 1) s1) as (s3 & ->); [lia..|]. exists s3. unfold ret. do 2 f_equal.
  pose proof (eth_found_unknown true [a] Hk) as En. simpl in En. by rewrite app_nil_r in En |- *.
Qed.

Lemma scanNative_answers a b s :
  0 <= a → b < 2 ^ 64 - 1 →
  ∃ s', scanNativeTransfers chain_Name known a b c s =
          (Ok (eth_found (st_internalTraceDisabled s) (seqZ a (b - a + 1))), s').
Proof.
  intros Ha Hb. unfold scanNativeTransfers. destruct (decide (known = ∅)) as [Hk|Hk].
  - rewrite eth_found_unknown by done. by apply scan_blocks_unknown.
  - by apply scan_blocks_answers.
Qed.

Lemma scanERC20_answers registry a b s :
  let found := omap (log_transfer chain_Name known registry) (logs a b (erc20_topics known)) in
  ∃ s', scanERC20Transfers chain_Name known registry a b c s =
          (Ok (omap left_of found, omap right_of found), s').
Proof.
  intros found. unfold scanERC20Transfers. case_bool_decide as Hk.
  - exists s. unfold ret. assert (found = []) as ->; [|done]. unfold found.
    induction (logs a b _) as [|l ls IH]; [done|]. simpl.
    assert (log_transfer chain_Name known registry l = None) as ->; [|done]. unfold log_transfer.
    repeat case_match; try done; by rewrite Hk, lookup_empty in *.
  - unfold wrapping, map_err, bind. destruct (Hlogs a b (erc20_topics known) s) as (s' & -> & _).
    by exists s'.
Qed.

Lemma eth_found_spec disabled a k t :
  t ∈ eth_found disabled (seqZ a (Z.of_nat k)) ↔
  ∃ n, a <= n < a + Z.of_nat k ∧
    (t ∈ native_transfers chain_Name known (blocks n) n ∨
     disabled = false ∧ (∀ m, a <= m <= n → is_Ok (traces m) = true) ∧ t ∈ internal_found n).
Proof.
  revert disabled a. induction k as [|k IH]; intros disabled a.
  { simpl. split; [by intros ?%elem_of_nil|]. intros (n & ? & _). lia. }
  rewrite seqZ_cons by lia. replace (Z.pred (Z.of_nat (S k))) with (Z.of_nat k) by lia. cbn [eth_found].
  rewrite !elem_of_app, IH. split.
  - intros [H|[H|(n & Hn & H)]].
    + exists a. split; [lia|by left].
    + destruct disabled; [by apply elem_of_nil in H|]. exists a. split; [lia|]. right. split_and!; [done| |done].
      intros m Hm. assert (m = a) as -> by lia. unfold internal_found in H.
      destruct (traces a); [done|by apply elem_of_nil in H].
    + exists n. split; [lia|]. destruct H as [H|(Hd & Hok & H)]; [by left|right].
      apply orb_false_iff in Hd as [-> Ha]. split_and!; [done| |done]. intros m Hm.
      destruct (decide (m = a)) as [->|]; [by destruct (traces a)|]. apply Hok. lia.
  - intros (n & Hn & H). destruct (decide (n = a)) as [->|].
    + destruct H as [H|(-> & _ & H)]; auto.
    + right. right. exists n. split; [lia|]. destruct H as [H|(-> & Hok & H)]; [by left|right].
      split_and!; [|intros m Hm; apply Hok; lia|done]. rewrite (Hok a) by lia. done.
Qed.
End known.

Lemma left_of_spec {X Y Z} (f : X → option (Y + Z)) (l : list X) y :
  y ∈ omap left_of (omap f l) ↔ ∃ x, x ∈ l ∧ f x = Some (inl y).
Proof.
  rewrite list_elem_of_omap. setoid_rewrite list_elem_of_omap. split.
  - intros ([y'|z] & (x & Hx & E) & [= ->]). eauto.
  - intros (x & Hx & E). exists (inl y). eauto.
Qed.
Lemma right_of_spec {X Y Z} (f : X → option (Y + Z)) (l : list X) z :
  z ∈ omap right_of (omap f l) ↔ ∃ x, x ∈ l ∧ f x = Some (inr z).
Proof.
  rewrite list_elem_of_omap. setoid_rewrite list_elem_of_omap. split.
  - intros ([y|z'] & (x & Hx & E) & [= ->]). eauto.
  - intros (x & Hx & E). exists (inr z). eauto.
Qed.

(** C29: a scan is sound and complete. Over a node that answers, scanning an inclusive
    range terminates and succeeds whatever becomes of call tracing, and reports exactly
    what is on the chain: every transaction of the range's blocks that sends ETH to a
    known address; every call inside a transaction that sends ETH to one and took
    effect, in the blocks before the first whose trace cannot be had; and every
    well-formed ERC-20 Transfer log of a positive amount to one, as a deposit of its
    asset when the registry has the contract and as an unsupported token when not.
    Each is reported with its own address, amount, transaction, index and block. (How
    often one is reported is not said: the insertions keep one row of each.) *)
Theorem ScanDeposits_complete addresses registry a b s :
  0 <= a <= b → b < 2 ^ 64 - 1 →
  ∃ ts us s', Scanner_ScanDeposits chain_Name addresses registry a b c s = (Ok (ts, us), s') ∧
  (∀ t, t ∈ ts ↔
     (∃ n, a <= n <= b ∧ top_level chain_Name addresses n (blocks n) t) ∨
     (st_internalTraceDisabled s = false ∧ ∃ n trs trace, a <= n <= b ∧
        (∀ m, a <= m <= n → is_Ok (traces m) = true) ∧ traces n = Ok trs ∧ trace ∈ trs ∧
        internal chain_Name addresses n (blocks n) trace t) ∨
     (∃ l, l ∈ chain_logs ∧ a <= lg_BlockNumber l <= b ∧ supported chain_Name addresses registry l t)) ∧
  (∀ u, u ∈ us ↔
     ∃ l, l ∈ chain_logs ∧ a <= lg_BlockNumber l <= b ∧ unsupported chain_Name addresses registry l u).
Proof.
  intros Hab Hb. set (known := known_addresses addresses).
  set (tokens := omap (log_transfer chain_Name known registry) (logs a b (erc20_topics known))).
  set (eth := eth_found known (st_internalTraceDisabled s) (seqZ a (b - a + 1))).
  assert (∃ s', Scanner_ScanDeposits chain_Name addresses registry a b c s =
    (Ok (eth ++ omap left_of tokens, omap right_of tokens), s')) as [s' Hrun].
  { unfold Scanner_ScanDeposits. destruct (Z.ltb_spec b a); [lia|]. fold known. cbv zeta.
    unfold bind at 1. destruct (scanNative_answers known a b s) as (s1 & ->); [lia..|]. unfold bind at 1.
    destruct (scanERC20_answers known registry a b s1) as (s2 & ->). by exists s2. }
  assert (∀ l v, l ∈ logs a b (erc20_topics known) ∧ log_transfer chain_Name known registry l = Some v ↔
    l ∈ chain_logs ∧ a <= lg_BlockNumber l <= b ∧ classified chain_Name addresses registry l v) as Hlog.
  { intros l v. unfold logs. rewrite list_elem_of_filter, <-(log_transfer_spec chain_Name addresses Haddress).
    fold known. tauto. }
  eexists _, _, s'. split; [exact Hrun|]. split.
  - intros t. rewrite elem_of_app. unfold tokens. rewrite left_of_spec.
    setoid_rewrite Hlog. cbn [classified]. unfold eth, known.
    replace (b - a + 1) with (Z.of_nat (Z.to_nat (b - a + 1))) by lia. rewrite eth_found_spec.
    setoid_rewrite native_transfers_spec. split.
    + intros [(n & Hn & [H|(Hd & Hok & H)])|H]; [left; exists n; split; [lia|done]| |by right; right].
      right. left. split; [done|]. unfold internal_found in H. destruct (traces n) as [trs|] eqn:E; [|by apply elem_of_nil in H].
      apply list_elem_of_bind in H as (trace & H%found_spec & Htr). exists n, trs, trace. split_and!; try done; lia.
    + intros [(n & Hn & H)|[(Hd & n & trs & trace & Hn & Hok & E & Htr & H)|H]]; [left|left|by right].
      * exists n. split; [lia|by left].
      * exists n. split; [lia|]. right. split_and!; [done..|]. unfold internal_found. rewrite E.
        apply list_elem_of_bind. exists trace. split; [by apply found_spec|done].
  - intros u. unfold tokens. rewrite right_of_spec. by setoid_rewrite Hlog.
Qed.
End scan.

(** ** The port's laws *)

Section laws.
Context `{GE : GoEthereum} `{C : scanClient} `{!scanClientLaws C} (chain_Name : string).
#[local] Hint Resolve BlockNumber_external HeaderByNumber_external FilterLogs_external
  getBlock_external traceBlock_external : external.

Lemma external_trace_flag :
  external internalTraceDisabled ∧ external disableInternalTrace.
Proof. split; intros c s r s' [= <- <-]; done. Qed.

Lemma tag_block_external tag n : external (tag_block chain_Name tag n).
Proof.
  unfold tag_block, wrapping. apply external_bind; [auto with external|].
  intros [h|]; auto with external.
Qed.

Lemma scanInternal_external known block n :
  external (scanInternalTransfers chain_Name known block n).
Proof.
  destruct external_trace_flag as [H1 H2]. unfold scanInternalTransfers.
  apply external_bind; [done|]. intros d. destruct (_ || _); [auto with external|].
  apply external_bind; [auto with external|]. intros [trs|e]; auto with external.
Qed.

Lemma scan_blocks_external known fuel a b : external (scan_blocks chain_Name known fuel a b).
Proof.
  revert a. induction fuel as [|fuel IH]; intros a; simpl; destruct (a <=? b); auto with external.
  apply external_bind; [unfold wrapping; auto with external|]. intros block.
  apply external_bind; [apply scanInternal_external|]. intros found.
  apply external_bind; [apply IH|]. auto with external.
Qed.

#[export] Instance evm_ChainScannerLaws : ChainScannerLaws (evm_ChainScanner chain_Name).
Proof.
  constructor; simpl.
  - unfold Scanner_Head, wrapping. apply external_bind; [auto with external|]. intros latest.
    apply external_bind; [apply tag_block_external|]. intros safe.
    apply external_bind; [apply tag_block_external|]. auto with external.
  - intros n. unfold Scanner_BlockHash. apply external_bind; [auto with external|].
    intros [[h|]|e]; try destruct (errors_Is _ _); auto with external.
  - intros ks reg a b. unfold Scanner_ScanDeposits. destruct (b <? a); [auto with external|].
    apply external_bind; [apply scan_blocks_external|]. intros native.
    apply external_bind; [|intros [? ?]; auto with external].
    unfold scanERC20Transfers, wrapping. case_bool_decide; [auto with external|].
    apply external_bind; auto with external.
Qed.
End laws.
