(* ===== verification/FeeEstimation.v ===== *)
(** * Fee estimation

    src/internal/adapter/evm/fee_estimator.go. The node is the class [feeClient],
    one per configured chain; go-ethereum's ABI codec and transaction encoding are
    the class [GoEthereumTx]. *)

From Stdlib Require Import ZArith Lia.
From stdpp Require Import prelude strings gmap.
From S2P Require Import Prelude GoStd Domain Store Effects Ports Scanner.

Record DynamicFeeTx := mkDynamicFeeTx {
  dt_ChainID : Z; dt_Nonce : Z; dt_GasTipCap : Z; dt_GasFeeCap : Z; dt_Gas : Z;
  dt_To : bytes; dt_Value : Z; dt_Data : bytes;
}.

(** A value of [abi.Unpack]'s result. *)
Inductive AbiValue := AbiUint64 (z : Z) | AbiBig (z : Z) | AbiOther.

(** go-ethereum's [abi] and [core/types]: the calldata encodings, and transactions
    with their encodings, signing hash and signed form. *)
Class GoEthereumTx := {
  Pack_transfer : bytes → Z → result bytes;
  Pack_gasEstimateComponents : bytes → bool → bytes → result bytes;
  Unpack_gasEstimateComponents : bytes → result (list AbiValue);
  Pack_getL1FeeUpperBound : Z → result bytes;
  Unpack_getL1FeeUpperBound : bytes → result (list AbiValue);
  Transaction : Type;
  NewTx : DynamicFeeTx → Transaction;
  MarshalBinary : Transaction → result bytes;
  UnmarshalBinary : bytes → result Transaction;
  ChainId : Transaction → Z;
  Signer_Hash : Z → Transaction → bytes;
  WithSignature : Z → Transaction → bytes → result Transaction;
  Transaction_Hash : Transaction → bytes;
}.

(** [CallContext] issuing an eth_call, [EstimateGas] and [SuggestGasPrice]. *)
Record feeClient := mkFeeClient {
  fc_eth_call : bytes → bytes → M bytes;
  fc_EstimateGas : bytes → bytes → Z → M Z;
  fc_SuggestGasPrice : M Z;
}.

Section fees.
Context `{GE : GoEthereum} `{GT : GoEthereumTx} `{TR : TokenRegistryLister}.
Context (clients : gmap string feeClient).

Definition nodeInterfaceAddress : bytes := HexToAddress "0x00000000000000000000000000000000000000C8".
Definition gasPriceOracleAddress : bytes := HexToAddress "0x420000000000000000000000000000000000000F".
Definition feeEstimatePlaceholderAddress : bytes :=
  HexToAddress "0x000000000000000000000000000000000000dEaD".

Definition usdc_contracts (registry : gmap string Asset) : list string :=
  map fst (filter (λ p, snd p = AssetUSDC) (map_to_list registry)).

Definition usdcContractAddress (chain : Chain) : M bytes :=
  let! registry := wrapping ("list token registry for chain " +:+ chain) (ListTokenRegistry chain) in
  match map HexToAddress (usdc_contracts registry) with
  | [] => throw (ErrText ("no token_registry entry for USDC on chain " +:+ chain))
  | [found] => ret found
  | _ => throw (ErrText ("ambiguous token_registry on chain " +:+ chain))
  end.

Definition representativeTransaction (chain : Chain) (asset : Asset) (amount : Z)
    : M (bytes * bytes * Z) :=
  if String.eqb asset AssetETH then ret (feeEstimatePlaceholderAddress, EmptyString, amount)
  else if String.eqb asset AssetUSDC then
    let! usdcAddress := usdcContractAddress chain in
    let! data := wrapping "encode representative transfer calldata"
                   (lift_result (Pack_transfer feeEstimatePlaceholderAddress 0)) in
    ret (usdcAddress, data, 0)
  else throw (ErrText ("fee estimation not supported for asset " +:+ asset)).

Definition estimateArbitrumFee (client : feeClient) (to data : bytes) : M FeeEstimate :=
  let! calldata := wrapping "encode gasEstimateComponents calldata"
    (lift_result (Pack_gasEstimateComponents to false data)) in
  let! result := wrapping "call NodeInterface.gasEstimateComponents"
    (fc_eth_call client nodeInterfaceAddress calldata) in
  let! outputs := wrapping "decode gasEstimateComponents result"
    (lift_result (Unpack_gasEstimateComponents result)) in
  match outputs with
  | [o0; o1; o2; _] =>
      match o0, o1, o2 with
      | AbiUint64 gasEstimate, AbiUint64 gasEstimateForL1, AbiBig baseFee =>
          let l2Gas := gasEstimate - gasEstimateForL1 in
          if l2Gas <? 0
          then throw (ErrText "gasEstimateComponents: gasEstimateForL1 exceeds gasEstimate")
          else ret (mkFeeEstimate (l2Gas * baseFee) (gasEstimateForL1 * baseFee)
                      (Some (gasEstimate * baseFee)))
      | _, _, _ => throw (ErrText "gasEstimateComponents: unexpected type")
      end
  | _ => throw (ErrText "gasEstimateComponents returned a wrong number of outputs, want 4")
  end.

Definition representativeUnsignedTxSize (to data : bytes) (value gasLimit gasPrice : Z) : result Z :=
  let tx := NewTx (mkDynamicFeeTx 0 0 gasPrice gasPrice gasLimit to value data) in
  match MarshalBinary tx with
  | Err _ => Err (ErrText "panic: evm: marshal representative unsigned transaction")
  | Ok encoded => Ok (Z.of_nat (String.length encoded))
  end.

Definition estimateBaseFee (client : feeClient) (to data : bytes) (value : Z) : M FeeEstimate :=
  let! gasLimit := wrapping "estimate gas" (fc_EstimateGas client to data value) in
  let! gasPrice := wrapping "suggest gas price" (fc_SuggestGasPrice client) in
  let l2Fee := gasLimit * gasPrice in
  let! txSize := lift_result (representativeUnsignedTxSize to data value gasLimit gasPrice) in
  let! calldata := wrapping "encode getL1FeeUpperBound calldata"
    (lift_result (Pack_getL1FeeUpperBound txSize)) in
  let! result := wrapping "call GasPriceOracle.getL1FeeUpperBound"
    (fc_eth_call client gasPriceOracleAddress calldata) in
  let! outputs := wrapping "decode getL1FeeUpperBound result"
    (lift_result (Unpack_getL1FeeUpperBound result)) in
  match outputs with
  | [AbiBig l1Fee] => ret (mkFeeEstimate l2Fee l1Fee (Some (l2Fee + l1Fee)))
  | [_] => throw (ErrText "getL1FeeUpperBound: unexpected type for result")
  | _ => throw (ErrText "getL1FeeUpperBound returned a wrong number of outputs, want 1")
  end.

Definition FeeEstimator_EstimateFee (chain : Chain) (asset : Asset) (amount : Z) : M FeeEstimate :=
  match clients !! chain with
  | None => throw (ErrText ("fee estimation: no configured RPC client for chain " +:+ chain))
  | Some client =>
      let! (to, data, value) := representativeTransaction chain asset amount in
      if String.eqb chain ChainArbitrum then estimateArbitrumFee client to data
      else if String.eqb chain ChainBase then estimateBaseFee client to data value
      else throw (ErrText ("fee estimation not supported for chain " +:+ chain))
  end.

#[export] Instance evm_FeeEstimator : FeeEstimator := { EstimateFee := FeeEstimator_EstimateFee }.

(** ** What an estimate is *)

Class feeClientsLaws := {
  eth_call_external ch cl to d : clients !! ch = Some cl → external (fc_eth_call cl to d);
  EstimateGas_external ch cl to d v : clients !! ch = Some cl → external (fc_EstimateGas cl to d v);
  SuggestGasPrice_external ch cl : clients !! ch = Some cl → external (fc_SuggestGasPrice cl);
  ListTokenRegistry_quiet ch : quiet (ListTokenRegistry ch);
}.

Lemma usdcContractAddress_Ok chain c s a s' :
  usdcContractAddress chain c s = (Ok a, s') →
  ∃ registry contract, ListTokenRegistry chain c s = (Ok registry, s') ∧
    usdc_contracts registry = [contract] ∧ a = HexToAddress contract.
Proof.
  unfold usdcContractAddress. intros H. apply bind_Ok in H as (registry & s1 & H1%wrapping_Ok & H).
  exists registry. destruct (usdc_contracts registry) as [|ct [|ct' l]]; simpl in H; simplify_eq.
  apply ret_Ok in H as [-> ->]. by exists ct.
Qed.

(** The fields every estimate satisfies. *)
Definition estimate_ok (e : FeeEstimate) : Prop := fe_TotalFee e = Some (fe_L2Fee e + fe_L1Fee e).

Lemma estimateArbitrumFee_Ok client to data c s e s' :
  estimateArbitrumFee client to data c s = (Ok e, s') →
  ∃ gas gasL1 baseFee, gasL1 <= gas ∧ fe_L2Fee e = (gas - gasL1) * baseFee ∧
    fe_L1Fee e = gasL1 * baseFee ∧ estimate_ok e.
Proof.
  unfold estimateArbitrumFee. intros H. apply bind_Ok in H as (cd & s1 & _ & H).
  apply bind_Ok in H as (res & s2 & _ & H). apply bind_Ok in H as (outs & s3 & _ & H).
  repeat case_match; simplify_eq.
  match goal with Hl : (_ <? 0) = false |- _ => apply Z.ltb_ge in Hl end.
  apply ret_Ok in H as [-> ->]. eexists _, _, _.
  split; [|split; [reflexivity|split; [reflexivity|]]]; unfold estimate_ok; simpl; [lia|f_equal; lia].
Qed.

Lemma estimateBaseFee_Ok client to data value c s e s' :
  estimateBaseFee client to data value c s = (Ok e, s') →
  ∃ gasLimit gasPrice, fe_L2Fee e = gasLimit * gasPrice ∧ estimate_ok e.
Proof.
  unfold estimateBaseFee. intros H. apply bind_Ok in H as (gasLimit & s1 & _ & H).
  apply bind_Ok in H as (gasPrice & s2 & _ & H). apply bind_Ok in H as (size & s3 & _ & H).
  apply bind_Ok in H as (cd & s4 & _ & H). apply bind_Ok in H as (res & s5 & _ & H).
  apply bind_Ok in H as (outs & s6 & _ & H). repeat case_match; simplify_eq.
  apply ret_Ok in H as [-> ->]. by exists gasLimit, gasPrice.
Qed.

(** An estimate is consistent. It is only given for the two chains and the two
    assets, for a configured chain; its total is its L2 and L1 parts together; and a
    USDC estimate is only given when exactly one USDC contract is registered. *)
Theorem EstimateFee_consistent chain asset amount c s e s' :
  EstimateFee chain asset amount c s = (Ok e, s') →
  fe_TotalFee e = Some (fe_L2Fee e + fe_L1Fee e) ∧ is_Some (clients !! chain) ∧
  (chain = ChainBase ∨ chain = ChainArbitrum) ∧
  (asset = AssetETH ∨
   asset = AssetUSDC ∧ ∃ registry contract s1, ListTokenRegistry chain c s = (Ok registry, s1) ∧
     usdc_contracts registry = [contract]).
Proof.
  intros H. simpl in H. unfold FeeEstimator_EstimateFee in H.
  destruct (clients !! chain) as [client|]; [|done].
  apply bind_Ok in H as ([[to data] value] & s1 & Hr & H).
  assert (fe_TotalFee e = Some (fe_L2Fee e + fe_L1Fee e) ∧ (chain = ChainBase ∨ chain = ChainArbitrum))
    as [HT Hch].
  { destruct (String.eqb_spec chain ChainArbitrum).
    - apply estimateArbitrumFee_Ok in H as (? & ? & ? & _ & _ & _ & ?). auto.
    - destruct (String.eqb_spec chain ChainBase); [|done].
      apply estimateBaseFee_Ok in H as (? & ? & _ & ?). auto. }
  split_and!; [done|done|done|]. unfold representativeTransaction in Hr.
  destruct (String.eqb_spec asset AssetETH); [by left|].
  destruct (String.eqb_spec asset AssetUSDC); [|done]. right. split; [done|].
  apply bind_Ok in Hr as (a & s2 & Ha & Hr).
  apply usdcContractAddress_Ok in Ha as (registry & contract & Hl & E & _). by exists registry, contract, s2.
Qed.

Lemma usdcContractAddress_quiet chain :
  quiet (ListTokenRegistry chain) → quiet (usdcContractAddress chain).
Proof.
  intros Hl. unfold usdcContractAddress. apply quiet_bind; [auto with quiet|].
  intros registry. destruct (map _ _) as [|a [|b l]]; auto with quiet external.
Qed.

Lemma EstimateFee_quiet `{!feeClientsLaws} chain asset amount : quiet (EstimateFee chain asset amount).
Proof.
  simpl. unfold FeeEstimator_EstimateFee.
  destruct (clients !! chain) as [cl|] eqn:E; [|auto with quiet external].
  apply quiet_bind.
  { unfold representativeTransaction. destruct (String.eqb _ _); [auto with quiet external|].
    destruct (String.eqb _ _); [|auto with quiet external].
    apply quiet_bind; [apply usdcContractAddress_quiet, ListTokenRegistry_quiet|].
    intros a. unfold wrapping. auto 8 with quiet external. }
  intros [[to data] value]. apply quiet_external. destruct (String.eqb _ _).
  - unfold estimateArbitrumFee, wrapping. apply external_bind; [auto with external|]. intros cd.
    apply external_bind; [eauto using eth_call_external with external|]. intros res.
    apply external_bind; [auto with external|]. intros outs. repeat case_match; auto with external.
  - destruct (String.eqb _ _); [|auto with external]. unfold estimateBaseFee, wrapping.
    apply external_bind; [eauto using EstimateGas_external with external|]. intros gl.
    apply external_bind; [eauto using SuggestGasPrice_external with external|]. intros gp. cbv zeta.
    apply external_bind; [auto with external|]. intros size.
    apply external_bind; [auto with external|]. intros cd.
    apply external_bind; [eauto using eth_call_external with external|]. intros res.
    apply external_bind; [auto with external|]. intros outs. repeat case_match; auto with external.
Qed.
End fees.
