(* ===== verification/EvmBroadcaster.v ===== *)
(** * Building, assembling and sending withdrawal transactions

    src/internal/adapter/evm/broadcaster.go and deployer.go, over go-ethereum's
    transaction type ([GoEthereumTx] of FeeEstimation.v) and the node's client. *)

From Stdlib Require Import ZArith Lia.
From stdpp Require Import prelude strings gmap.
From S2P Require Import Prelude GoStd Domain Store Effects Ports Scanner FeeEstimation.

Record Receipt := mkReceipt { rc_BlockNumber : option Z; rc_Status : Z }.

Section clients.
Context `{GE : GoEthereum} `{GT : GoEthereumTx}.

Class broadcastClient := {
  bc_EstimateGas : bytes → bytes → Z → M Z;
  bc_SuggestGasPrice : M Z;
  bc_SendTransaction : Transaction → M unit;
  bc_TransactionReceipt : bytes → M Receipt;
  bc_HeaderByNumber : Z → M (option Header);
}.
Class broadcastClientLaws (C : broadcastClient) := {
  bc_EstimateGas_external to d v : external (bc_EstimateGas to d v);
  bc_SuggestGasPrice_external : external bc_SuggestGasPrice;
  bc_SendTransaction_external tx : external (bc_SendTransaction tx);
  bc_Receipt_external h : external (bc_TransactionReceipt h);
  bc_Header_external n : external (bc_HeaderByNumber n);
}.

(** [types.ReceiptStatusSuccessful]; [common.HexToHash]. *)
Context `{C : broadcastClient} `{TR : TokenRegistryLister}.
Context (ReceiptStatusSuccessful : Z) (HexToHash : string → bytes).
Context (chain_Name : string) (chain_ChainID : Z).

(** ** broadcaster.go *)

Definition checkChain (chain : Chain) : M unit :=
  if negb (String.eqb chain_Name chain)
  then throw (ErrText ("broadcaster configured for chain " +:+ chain_Name +:+ ", got " +:+ chain))
  else ret tt.

(** The switch on the asset: recipient, calldata, value, and the calldata of the gas
    simulation. *)
Definition transfer_of (chain : Chain) (asset : Asset) (destination : bytes) (amount : Z)
    : M (bytes * bytes * Z * bytes) :=
  if String.eqb asset AssetETH then ret (destination, EmptyString, amount, EmptyString)
  else if String.eqb asset AssetUSDC then
    let! usdcAddress := usdcContractAddress chain in
    let! packed := wrapping "encode withdrawal transfer calldata"
      (lift_result (Pack_transfer destination amount)) in
    let! estimatePacked := wrapping "encode representative withdrawal transfer calldata"
      (lift_result (Pack_transfer destination 0)) in
    ret (usdcAddress, packed, 0, estimatePacked)
  else throw (ErrText ("broadcasting not supported for asset " +:+ asset)).

Definition gasFeeCap (gasPrice : Z) : Z := gasPrice * 120 / 100.

Definition withdrawal_tx (nonce gasPrice gasLimit : Z) (txTo : bytes) (value : Z) (data : bytes)
    : DynamicFeeTx :=
  mkDynamicFeeTx chain_ChainID (u64 nonce) gasPrice (gasFeeCap gasPrice) gasLimit txTo value data.

Definition Broadcaster_BuildUnsignedWithdrawal (chain : Chain) (asset : Asset) (nonce : Z) (to : string)
    (amount : Z) : M (bytes * bytes) :=
  do! checkChain chain in
  if nonce <? 0 then throw (ErrText "nonce must be non-negative") else
  if amount <=? 0 then throw (ErrText "amount must be positive") else
  let destination := HexToAddress to in
  let! (txTo, data, value, estimateData) := transfer_of chain asset destination amount in
  let! gasLimit := wrapping "estimate gas" (bc_EstimateGas txTo estimateData value) in
  let! gasPrice := wrapping "suggest gas price" bc_SuggestGasPrice in
  let tx := NewTx (withdrawal_tx nonce gasPrice gasLimit txTo value data) in
  let hash := Signer_Hash chain_ChainID tx in
  let! encoded := wrapping "marshal unsigned withdrawal tx" (lift_result (MarshalBinary tx)) in
  ret (hash, encoded).

Definition map_result_err {A} (ctx : string) (r : result A) : result A :=
  match r with Ok a => Ok a | Err e => Err (wrap ctx e) end.

Definition Broadcaster_AssembleSignedTx (unsignedTx signature : bytes) : result (bytes * string) :=
  bindE (map_result_err "unmarshal unsigned withdrawal tx" (UnmarshalBinary unsignedTx)) (λ tx,
  bindE (map_result_err "attach signature to withdrawal tx"
                 (WithSignature (ChainId tx) tx signature)) (λ signed,
  bindE (map_result_err "marshal signed withdrawal tx" (MarshalBinary signed)) (λ encoded,
  Ok (encoded, Hash_Hex (Transaction_Hash signed))))).

Definition Broadcaster_SendRawTransaction (chain : Chain) (signedTx : bytes) : M unit :=
  do! checkChain chain in
  let! tx := wrapping "unmarshal signed withdrawal tx" (lift_result (UnmarshalBinary signedTx)) in
  wrapping "send raw withdrawal transaction" (bc_SendTransaction tx).

Definition Broadcaster_GetFinalizedReceipt (chain : Chain) (txHash : string) : M (bool * bool) :=
  do! checkChain chain in
  let! receipt := try (bc_TransactionReceipt (HexToHash txHash)) in
  match receipt with
  | Err e =>
      if errors_Is e EthereumNotFound then ret (false, false)
      else throw (wrap ("query " +:+ chain_Name +:+ " for withdrawal tx receipt") e)
  | Ok receipt =>
      let! header := wrapping ("query " +:+ chain_Name +:+ " for finalized block")
                       (bc_HeaderByNumber FinalizedBlockNumber) in
      match header with
      | Some (mkHeader (Some finalized) _) =>
          match rc_BlockNumber receipt with
          | None => ret (false, false)
          | Some block =>
              if finalized <? block then ret (false, false)
              else ret (true, Z.eqb (rc_Status receipt) ReceiptStatusSuccessful)
          end
      | _ => throw (ErrText ("query " +:+ chain_Name +:+ " for finalized block: RPC returned no header"))
      end
  end.

#[export] Instance evm_TransactionBroadcaster : TransactionBroadcaster := {
  BuildUnsignedWithdrawal := Broadcaster_BuildUnsignedWithdrawal;
  AssembleSignedTx := Broadcaster_AssembleSignedTx;
  SendRawTransaction := Broadcaster_SendRawTransaction;
  GetFinalizedReceipt := Broadcaster_GetFinalizedReceipt;
}.

(** ** deployer.go *)

Definition verifyDeployerPresence (ChainID : M Z) (CodeAt : bytes → M bytes) (deployer : bytes) : M unit :=
  let! gotID := wrapping ("query " +:+ chain_Name +:+ " for chain id") ChainID in
  if negb (Z.eqb gotID chain_ChainID) then throw (ErrText "RPC endpoint reports another chain id") else
  let! code := wrapping ("query " +:+ chain_Name +:+ " for canonical deployer code") (CodeAt deployer) in
  if (String.length code =? 0)%nat then throw (ErrText "canonical CREATE2 deployer has no code on chain")
  else ret tt.

(** ** What is built, assembled and sent *)

(** What go-ethereum promises of encodings. *)
Class GoEthereumTxLaws := {
  Unmarshal_Marshal tx b : MarshalBinary tx = Ok b → UnmarshalBinary b = Ok tx;
  Marshal_nonempty tx : MarshalBinary tx ≠ Ok EmptyString;
  ChainId_NewTx t : ChainId (NewTx t) = dt_ChainID t;
}.

Lemma checkChain_Ok chain c s u s' : checkChain chain c s = (Ok u, s') → chain = chain_Name ∧ s' = s.
Proof.
  unfold checkChain. destruct (String.eqb_spec chain_Name chain); simpl; intros H; [|done].
  apply ret_Ok in H as [_ ->]. done.
Qed.

Lemma checkChain_self c s : checkChain chain_Name c s = (Ok tt, s).
Proof. unfold checkChain. by rewrite String.eqb_refl. Qed.

(** What the built transaction transfers. *)
Definition pays (chain : Chain) (asset : Asset) (destination : bytes) (amount : Z) (c : Ctx) (s : St)
    (t : DynamicFeeTx) : Prop :=
  (asset = AssetETH ∧ dt_To t = destination ∧ dt_Value t = amount ∧ dt_Data t = EmptyString) ∨
  (asset = AssetUSDC ∧ dt_Value t = 0 ∧ Pack_transfer destination amount = Ok (dt_Data t) ∧
   ∃ registry contract s1, ListTokenRegistry chain c s = (Ok registry, s1) ∧
     usdc_contracts registry = [contract] ∧ dt_To t = HexToAddress contract).

(** C33: the transaction pays the withdrawal. What [BuildUnsignedWithdrawal] returns is
    the encoding and the signing digest of one transaction on the configured chain,
    with the allocated nonce, that sends exactly the amount to the destination (in
    ETH, or by a USDC transfer call on the one registered contract), under a fee cap
    no lower than its tip. *)
Theorem Build_pays chain asset nonce to amount c s digest unsigned s' :
  Broadcaster_BuildUnsignedWithdrawal chain asset nonce to amount c s = (Ok (digest, unsigned), s') →
  nonce < 2 ^ 63 →
  chain = chain_Name ∧ 0 <= nonce ∧ 0 < amount ∧
  ∃ t, MarshalBinary (NewTx t) = Ok unsigned ∧ digest = Signer_Hash chain_ChainID (NewTx t) ∧
    dt_ChainID t = chain_ChainID ∧ dt_Nonce t = nonce ∧
    (0 <= dt_GasTipCap t → dt_GasTipCap t <= dt_GasFeeCap t) ∧
    pays chain asset (HexToAddress to) amount c s t.
Proof.
  intros H Hn. unfold Broadcaster_BuildUnsignedWithdrawal in H.
  apply bind_Ok in H as (u & s0 & Hc & H). apply checkChain_Ok in Hc as [-> ->].
  destruct (Z.ltb_spec nonce 0); [done|]. destruct (Z.leb_spec amount 0); [done|].
  cbv zeta in H. apply bind_Ok in H as ([[[txTo data] value] est] & s1 & Ht & H).
  apply bind_Ok in H as (gasLimit & s2 & _ & H). apply bind_Ok in H as (gasPrice & s3 & _ & H).
  apply bind_Ok in H as (enc & s4 & He & H). apply wrapping_Ok in He.
  apply ret_Ok in H as [[= -> ->] ->]. split_and!; [done|done|done|].
  exists (withdrawal_tx nonce gasPrice gasLimit txTo value data).
  split; [by destruct (MarshalBinary _); simpl in He; unfold ret in He; simplify_eq|].
  split; [done|]. split; [done|]. split; [apply Z.mod_small; lia|]. split.
  { simpl. unfold gasFeeCap. intros Hg. apply Z.div_le_lower_bound; lia. }
  unfold transfer_of in Ht. destruct (String.eqb_spec asset AssetETH).
  { left. apply ret_Ok in Ht as [[= -> -> -> ->] _]. done. }
  destruct (String.eqb_spec asset AssetUSDC); [|done]. right. split; [done|].
  apply bind_Ok in Ht as (usdc & s5 & Hu & Ht). apply bind_Ok in Ht as (packed & s6 & Hp & Ht).
  apply bind_Ok in Ht as (estp & s7 & _ & Ht). apply ret_Ok in Ht as [[= -> -> -> ->] _].
  apply wrapping_Ok in Hp. apply usdcContractAddress_Ok in Hu as (registry & contract & Hl & E & ->).
  simpl. split; [done|]. split; [by destruct (Pack_transfer _ _); simpl in Hp; unfold ret in Hp; simplify_eq|].
  by exists registry, contract, s5.
Qed.

(** The bytes sent are the transaction signed. Assembling the bytes that were
    built for [t] with a signature gives the encoding and the hash of [t] with that
    signature, and sending those bytes hands the node exactly that transaction. *)
Theorem Assemble_Send_roundtrip {GTL : GoEthereumTxLaws} t unsigned signature signed txHash c s :
  MarshalBinary (NewTx t) = Ok unsigned →
  Broadcaster_AssembleSignedTx unsigned signature = Ok (signed, txHash) →
  ∃ stx, WithSignature (dt_ChainID t) (NewTx t) signature = Ok stx ∧
    MarshalBinary stx = Ok signed ∧ txHash = Hash_Hex (Transaction_Hash stx) ∧
    Broadcaster_SendRawTransaction chain_Name signed c s =
      wrapping "send raw withdrawal transaction" (bc_SendTransaction stx) c s.
Proof.
  intros Hm H. unfold Broadcaster_AssembleSignedTx in H. rewrite (Unmarshal_Marshal _ _ Hm) in H.
  simpl in H. rewrite ChainId_NewTx in H.
  destruct (WithSignature _ _ _) as [stx|] eqn:Es; [|done]. simpl in H.
  destruct (MarshalBinary stx) as [enc|] eqn:Em; [|done]. simpl in H. simplify_eq.
  exists stx. split_and!; try done. unfold Broadcaster_SendRawTransaction, checkChain.
  rewrite String.eqb_refl. simpl. rewrite (Unmarshal_Marshal _ _ Em). reflexivity.
Qed.

(** C34: a receipt settles only once final, and then as its status says. For its own
    chain, and a node that answers with the transaction's receipt and with its finalized
    header, [GetFinalizedReceipt] reports a receipt exactly when the receipt names a
    block and that block is at or below the finalized one, and then success exactly when
    its status is the successful one; a receipt the node does not know is reported as
    not found; and no answer comes without the node having given these. *)
Theorem GetFinalizedReceipt_final txHash c s :
  (∀ receipt s1 finalized h s2,
     bc_TransactionReceipt (HexToHash txHash) c s = (Ok receipt, s1) →
     bc_HeaderByNumber FinalizedBlockNumber c s1 = (Ok (Some (mkHeader (Some finalized) h)), s2) →
     ∃ found success,
       Broadcaster_GetFinalizedReceipt chain_Name txHash c s = (Ok (found, success), s2) ∧
       (found = true ↔ ∃ block, rc_BlockNumber receipt = Some block ∧ block <= finalized) ∧
       (success = true ↔ found = true ∧ rc_Status receipt = ReceiptStatusSuccessful)) ∧
  (∀ e s1, bc_TransactionReceipt (HexToHash txHash) c s = (Err e, s1) → errors_Is e EthereumNotFound = true →
     Broadcaster_GetFinalizedReceipt chain_Name txHash c s = (Ok (false, false), s1)) ∧
  (∀ chain found success s',
     Broadcaster_GetFinalizedReceipt chain txHash c s = (Ok (found, success), s') →
     chain = chain_Name ∧
     ((∃ e, bc_TransactionReceipt (HexToHash txHash) c s = (Err e, s') ∧ errors_Is e EthereumNotFound = true) ∨
      ∃ receipt s1 finalized h, bc_TransactionReceipt (HexToHash txHash) c s = (Ok receipt, s1) ∧
        bc_HeaderByNumber FinalizedBlockNumber c s1 = (Ok (Some (mkHeader (Some finalized) h)), s'))).
Proof.
  split; [|split].
  - intros receipt s1 finalized h s2 Hr Hh. unfold Broadcaster_GetFinalizedReceipt.
    erewrite bind_run by apply checkChain_self.
    erewrite bind_run by (unfold try; rewrite Hr; reflexivity).
    cbv beta iota. erewrite bind_run by (apply wrapping_run, Hh).
    destruct (rc_BlockNumber receipt) as [block|].
    + destruct (Z.ltb_spec finalized block) as [Hlt|Hle]; eexists _, _; (split; [reflexivity|]).
      * split; [split; [done|]|split; [done|by intros [? _]]]. intros (b & [= ->] & ?). lia.
      * split; [split; [|done]; by exists block|]. rewrite Z.eqb_eq. tauto.
    + eexists _, _. split; [reflexivity|].
      split; [split; [done|by intros (b & ? & _)]|split; [done|by intros [? _]]].
  - intros e s1 Hr Hnf. unfold Broadcaster_GetFinalizedReceipt.
    erewrite bind_run by apply checkChain_self.
    erewrite bind_run by (unfold try; rewrite Hr; reflexivity). cbv beta iota. by rewrite Hnf.
  - intros chain found success s' H. unfold Broadcaster_GetFinalizedReceipt in H.
    apply bind_Ok in H as (u & s0 & Hc & H). apply checkChain_Ok in Hc as [-> ->]. split; [done|].
    apply bind_Ok in H as (r & s1 & Hr & H). apply try_Ok in Hr. destruct r as [receipt|e].
    + apply bind_Ok in H as (hd & s2 & Hh & H). apply wrapping_Ok in Hh.
      destruct hd as [[[finalized|] h]|]; [|done..]. right. exists receipt, s1, finalized, h.
      assert (s' = s2) as ->; [|done].
      destruct (rc_BlockNumber receipt); [destruct (_ <? _)|]; by apply ret_Ok in H as [_ ->].
    + destruct (errors_Is e _) eqn:He; [|done]. apply ret_Ok in H as [_ ->]. left. by exists e.
Qed.

(** ** The port's laws *)

#[export] Instance evm_TransactionBroadcasterLaws `{!broadcastClientLaws C} {GTL : GoEthereumTxLaws}
    (TR_quiet : ∀ ch, quiet (ListTokenRegistry ch)) :
  TransactionBroadcasterLaws evm_TransactionBroadcaster.
Proof.
  assert (∀ chain, external (checkChain chain)) as Hcheck
    by (intros chain; unfold checkChain; destruct (negb _); auto with external).
  constructor; simpl.
  - intros chain a n to v. unfold Broadcaster_BuildUnsignedWithdrawal.
    apply quiet_bind; [by apply quiet_external|]. intros _.
    destruct (n <? 0); [auto with quiet external|]. destruct (v <=? 0); [auto with quiet external|].
    cbv zeta. apply quiet_bind.
    { unfold transfer_of. destruct (String.eqb _ _); [auto with quiet external|].
      destruct (String.eqb _ _); [|auto with quiet external].
      apply quiet_bind; [by apply usdcContractAddress_quiet|]. intros usdc. apply quiet_external.
      unfold wrapping. apply external_bind; [auto with external|]. intros p.
      apply external_bind; auto with external. }
    intros [[[txTo data] value] est]. apply quiet_external. unfold wrapping.
    apply external_bind; [apply external_map_err, bc_EstimateGas_external|]. intros gl.
    apply external_bind; [apply external_map_err, bc_SuggestGasPrice_external|]. intros gp.
    apply external_bind; auto with external.
  - intros chain tx. unfold Broadcaster_SendRawTransaction, wrapping. apply external_bind; [done|].
    intros _. apply external_bind; [auto with external|]. intros t.
    apply external_map_err, bc_SendTransaction_external.
  - intros chain h. unfold Broadcaster_GetFinalizedReceipt, wrapping. apply external_bind; [done|].
    intros _. apply external_bind; [apply external_try, bc_Receipt_external|].
    intros [r|e]; [|destruct (errors_Is _ _); auto with external].
    apply external_bind; [apply external_map_err, bc_Header_external|].
    intros [[[f|] hh]|]; auto with external. destruct (rc_BlockNumber r); auto with external.
    destruct (_ <? _); auto with external.
  - intros u sig tx h. unfold Broadcaster_AssembleSignedTx.
    destruct (UnmarshalBinary u) as [t|]; [|done]. simpl. destruct (WithSignature _ _ _) as [st|]; [|done].
    simpl. destruct (MarshalBinary st) as [enc|] eqn:E; [|done]. simpl. intros [= <- _] ->.
    by apply Marshal_nonempty in E.
Qed.
End clients.
