(* ===== verification/Signers.v ===== *)
(** * The two signers

    src/internal/adapter/signer/kms/kms_signer.go and
    src/internal/adapter/signer/software/software_signer.go. The secp256k1 library,
    AWS KMS and Keccak-256 are parameters; Go's own [encoding/asn1] is modelled as
    far as the KMS signer uses it (a SEQUENCE of two INTEGERs). *)

From Stdlib Require Import ZArith Lia Ascii.
From stdpp Require Import prelude strings.
From S2P Require Import Prelude GoStd Domain Store Effects Ports.

(** ** [encoding/asn1]: what [Unmarshal] accepts for [struct{ R, S *big.Int }] *)

(** The content octets of a definite length. *)
Fixpoint der_long_length (numBytes : nat) (acc : Z) (b : bytes) : option (Z * bytes) :=
  match numBytes with
  | O => if acc <? 128 then None else Some (acc, b)
  | S n =>
      match b with
      | EmptyString => None
      | String c b =>
          if 2 ^ 23 <=? acc then None
          else let acc := 256 * acc + byte_val c in
               if acc =? 0 then None else der_long_length n acc b
      end
  end.
Definition der_length (b : bytes) : option (Z * bytes) :=
  match b with
  | EmptyString => None
  | String c b =>
      if byte_val c <? 128 then Some (byte_val c, b)
      else if byte_val c =? 128 then None
      else der_long_length (Z.to_nat (byte_val c - 128)) 0 b
  end.

(** One element with the tag octet [tag]: its content and what follows it. *)
Definition der_element (tag : ascii) (b : bytes) : option (bytes * bytes) :=
  match b with
  | EmptyString => None
  | String t b =>
      if negb (Ascii.eqb t tag) then None else
      match der_length b with
      | None => None
      | Some (len, b) =>
          if Z.of_nat (String.length b) <? len then None
          else Some (take_bytes (Z.to_nat len) b, drop_bytes (Z.to_nat len) b)
      end
  end.

Definition tagInteger : ascii := byte_of 2.
Definition tagSequence : ascii := byte_of 48.

(** [checkInteger] and [parseBigInt]: minimal two's complement. *)
Definition checkInteger (b : bytes) : bool :=
  match b with
  | EmptyString => false
  | String _ EmptyString => true
  | String b0 (String b1 _) =>
      negb ((byte_val b0 =? 0) && (byte_val b1 <? 128) || (byte_val b0 =? 255) && (128 <=? byte_val b1))
  end.
Definition parseBigInt (b : bytes) : option Z :=
  if negb (checkInteger b) then None else
  match b with
  | String c _ =>
      Some (if byte_val c <? 128 then big_SetBytes b
            else big_SetBytes b - 256 ^ Z.of_nat (String.length b))
  | EmptyString => None
  end.

Definition asn1_integer (b : bytes) : option (Z * bytes) :=
  match der_element tagInteger b with
  | None => None
  | Some (content, rest) => option_map (λ z, (z, rest)) (parseBigInt content)
  end.

(** Bytes after the two fields, and after the SEQUENCE, are allowed. *)
Definition asn1_signature (der : bytes) : option (Z * Z) :=
  match der_element tagSequence der with
  | None => None
  | Some (content, _) =>
      match asn1_integer content with
      | None => None
      | Some (r, content) => option_map (λ p, (r, fst p)) (asn1_integer content)
      end
  end.

(** ** kms_signer.go *)

Definition secp256k1N : Z := 0xFFFFFFFFFFFFFFFFFFFFFFFFFFFFFFFEBAAEDCE6AF48A03BBFD25E8CD0364141.
Definition secp256k1HalfN : Z := Z.shiftr secp256k1N 1.

Definition normalizeLowS (s : Z) : Z := if secp256k1HalfN <? s then secp256k1N - s else s.

Definition parseDERSignature (der : bytes) : result (Z * Z) :=
  match asn1_signature der with
  | Some rs => Ok rs
  | None => Err (ErrText "unmarshal DER ECDSA signature")
  end.

(** [x.FillBytes(buf)] writes the absolute value, and panics when it does not fit. *)
Definition FillBytes32 (x : Z) : result bytes :=
  if Z.abs x <? 256 ^ 32 then Ok (big_FillBytes 32 (Z.abs x))
  else Err (ErrText "panic: math/big: buffer too small to fit value").

Section kms.
(** decred's [RecoverCompact] and [IsEqual], and KMS's Sign. *)
Context (PublicKey : Type) (RecoverCompact : bytes → bytes → option PublicKey).
Context (IsEqual : PublicKey → PublicKey → bool) (kms_Sign : bytes → M bytes).
Context (pubKey : PublicKey).

Definition recovers (digest rBytes sBytes : bytes) (want : PublicKey) (v : Z) : bool :=
  match RecoverCompact (String (byte_of (27 + v)) (rBytes +:+ sBytes)) digest with
  | None => false
  | Some candidate => IsEqual candidate want
  end.

Definition recoverRecoveryID (digest : bytes) (r s : Z) (want : PublicKey) : result Z :=
  bindE (FillBytes32 r) (λ rBytes, bindE (FillBytes32 s) (λ sBytes,
    if recovers digest rBytes sBytes want 0 then Ok 0
    else if recovers digest rBytes sBytes want 1 then Ok 1
    else Err (ErrText "no recovery id in {0, 1} recovered the expected public key for this signature"))).

Definition kms_assemble (digest der : bytes) : result bytes :=
  bindE (parseDERSignature der) (λ '(r, sig),
    let sig := normalizeLowS sig in
    bindE (recoverRecoveryID digest r sig pubKey) (λ v,
    bindE (FillBytes32 r) (λ rBytes, bindE (FillBytes32 sig) (λ sBytes,
    Ok (rBytes +:+ sBytes +:+ String (byte_of v) EmptyString))))).

Definition kms_Signer_Sign (chain : Chain) (digest : bytes) : M bytes :=
  let! der := wrapping "kms sign" (kms_Sign digest) in
  lift_result (kms_assemble digest der).

Definition kms_Signer : Signer := {| Sign := kms_Signer_Sign |}.

Lemma kms_SignerLaws : (∀ d, external (kms_Sign d)) → SignerLaws kms_Signer.
Proof.
  intros HS. constructor. intros chain d. simpl. unfold kms_Signer_Sign, wrapping.
  apply external_bind; auto with external.
Qed.

Lemma FillBytes32_Ok x b : FillBytes32 x = Ok b → b = big_FillBytes 32 (Z.abs x) ∧ Z.abs x < 256 ^ 32.
Proof. unfold FillBytes32. destruct (Z.ltb_spec (Z.abs x) (256 ^ 32)); [|done]. by intros [= <-]. Qed.

Lemma FillBytes32_small x : 0 <= x < 256 ^ 32 → FillBytes32 x = Ok (big_FillBytes 32 x).
Proof.
  intros Hx. unfold FillBytes32. rewrite Z.abs_eq by lia. by destruct (Z.ltb_spec x (256 ^ 32)); [|lia].
Qed.

Lemma normalizeLowS_spec s :
  0 < s < secp256k1N → 0 < normalizeLowS s <= secp256k1HalfN ∧
  (normalizeLowS s = s ∨ normalizeLowS s = secp256k1N - s) ∧
  normalizeLowS (normalizeLowS s) = normalizeLowS s.
Proof.
  intros Hs. assert (secp256k1N = 2 * secp256k1HalfN + 1) as HN by reflexivity.
  unfold normalizeLowS. destruct (Z.ltb_spec secp256k1HalfN s) as [H1|H1].
  - destruct (Z.ltb_spec secp256k1HalfN (secp256k1N - s)) as [H2|H2]; lia.
  - destruct (Z.ltb_spec secp256k1HalfN s) as [H2|H2]; lia.
Qed.

Lemma recoverRecoveryID_Ok digest r s want v :
  recoverRecoveryID digest r s want = Ok v →
  (v = 0 ∨ v = 1) ∧ Z.abs r < 256 ^ 32 ∧ Z.abs s < 256 ^ 32 ∧
  recovers digest (big_FillBytes 32 (Z.abs r)) (big_FillBytes 32 (Z.abs s)) want v = true.
Proof.
  unfold recoverRecoveryID. intros H.
  destruct (FillBytes32 r) as [rb|] eqn:Er; [|done]. apply FillBytes32_Ok in Er as [-> ?].
  destruct (FillBytes32 s) as [sb|] eqn:Es; [|done]. apply FillBytes32_Ok in Es as [-> ?].
  unfold bindE in H. repeat case_match; simplify_eq; auto.
Qed.
End kms.

(** ** [newSigner]: the public key KMS holds, and the address it controls *)

Section kms_new.
(** decred's public keys, [asn1.Unmarshal] of a SubjectPublicKeyInfo (the bytes of its
    bit string), Keccak-256, and KMS's GetPublicKey. *)
Context (PublicKey : Type) (asn1_spki : bytes → result bytes) (ParsePubKey : bytes → result PublicKey).
Context (SerializeUncompressed : PublicKey → bytes) (LegacyKeccak256 : bytes → bytes).
Context (kms_GetPublicKey : string → M bytes).

Definition parseSPKIPublicKey (der : bytes) : result PublicKey :=
  match asn1_spki der with
  | Err e => Err (wrap "unmarshal SPKI DER" e)
  | Ok bits => match ParsePubKey bits with
               | Err e => Err (wrap "parse secp256k1 point from SPKI public key bytes" e)
               | Ok pub => Ok pub
               end
  end.

Definition kms_deriveAddress (pub : PublicKey) : string :=
  "0x" +:+ hex_EncodeToString (drop_bytes 12 (LegacyKeccak256 (drop_bytes 1 (SerializeUncompressed pub)))).

(** The key and its address. *)
Definition kms_newSigner (keyID : string) : M (PublicKey * string) :=
  let! der := wrapping "kms get public key" (kms_GetPublicKey keyID) in
  let! pub := wrapping "parse kms public key" (lift_result (parseSPKIPublicKey der)) in
  ret (pub, kms_deriveAddress pub).

Lemma kms_newSigner_external keyID : (∀ k, external (kms_GetPublicKey k)) → external (kms_newSigner keyID).
Proof. intros Hk. unfold kms_newSigner, wrapping. auto 8 with external. Qed.
End kms_new.

(** ** The DER encoding KMS answers with *)

Definition der_int_len (z : Z) : nat := Z.to_nat (big_BitLen z / 8 + 1).
Definition der_INTEGER (z : Z) : bytes :=
  String tagInteger (String (byte_of (Z.of_nat (der_int_len z))) (big_FillBytes (der_int_len z) z)).
Definition der_signature (r s : Z) : bytes :=
  let content := der_INTEGER r +:+ der_INTEGER s in
  String tagSequence (String (byte_of (Z.of_nat (String.length content))) content).

Lemma der_element_short tag content rest :
  (String.length content < 128)%nat →
  der_element tag (String tag (String (byte_of (Z.of_nat (String.length content))) (content +:+ rest))) =
    Some (content, rest).
Proof.
  intros Hl. unfold der_element. rewrite Ascii.eqb_refl. cbn [negb der_length].
  rewrite byte_val_of by lia. destruct (Z.ltb_spec (Z.of_nat (String.length content)) 128); [|lia].
  rewrite string_length_app.
  destruct (Z.ltb_spec (Z.of_nat (String.length content + String.length rest))
              (Z.of_nat (String.length content))); [lia|].
  by rewrite Nat2Z.id, take_bytes_app, drop_bytes_app.
Qed.

(** The two's complement length is enough, and minimal. *)
Lemma der_int_len_bounds z :
  0 <= z → let n := Z.of_nat (der_int_len z) in
  1 <= n ∧ 2 * z < 256 ^ n ∧ (2 <= n → 128 * 256 ^ (n - 2) <= z).
Proof.
  intros Hz n. unfold n, der_int_len, big_BitLen.
  destruct (Z.eqb_spec z 0) as [->|Hne]; [change (1 <= 1 ∧ 0 < 256 ∧ (2 <= 1 → 128 * 256 ^ (1 - 2) <= 0)); lia|]. rewrite Z.abs_eq by done.
  pose proof (Z.log2_spec z ltac:(lia)) as [H1 H2]. pose proof (Z.log2_nonneg z).
  set (l := Z.log2 z) in *. pose proof (Z.div_mod (l + 1) 8 ltac:(lia)) as Hd.
  pose proof (Z.mod_pos_bound (l + 1) 8 ltac:(lia)). set (q := (l + 1) / 8) in *.
  rewrite Z2Nat.id by lia. change 256 with (2 ^ 8). change 128 with (2 ^ 7).
  split_and!; [lia| |intros Hn].
  - rewrite <-Z.pow_mul_r by lia. apply (Z.lt_le_trans _ (2 * 2 ^ Z.succ l)); [lia|].
    rewrite <-Z.pow_succ_r by lia. apply Z.pow_le_mono_r; lia.
  - rewrite <-Z.pow_mul_r, <-Z.pow_add_r by lia. etrans; [|exact H1]. apply Z.pow_le_mono_r; lia.
Qed.

Lemma parseBigInt_Fill z : 0 <= z → parseBigInt (big_FillBytes (der_int_len z) z) = Some z.
Proof.
  intros Hz. pose proof (der_int_len_bounds z Hz) as (H1 & H2 & H3). unfold parseBigInt.
  destruct (der_int_len z) as [|n] eqn:En; [lia|]. rewrite Nat2Z.inj_succ in *.
  assert (byte_val (byte_of (z / 256 ^ Z.of_nat n mod 256)) = z / 256 ^ Z.of_nat n) as Htop.
  { rewrite Z.pow_succ_r in H2 by lia. rewrite byte_val_of by (apply Z.mod_pos_bound; lia).
    apply Z.mod_small. split; [apply Z.div_pos; lia|]. apply Z.div_lt_upper_bound; lia. }
  assert (z / 256 ^ Z.of_nat n < 128) as Hlow.
  { rewrite Z.pow_succ_r in H2 by lia. apply Z.div_lt_upper_bound; lia. }
  assert (checkInteger (big_FillBytes (S n) z) = true) as ->.
  { destruct n as [|n]; [done|]. cbn [big_FillBytes checkInteger].
    fold (byte_of (z / 256 ^ Z.of_nat (S n) mod 256)). fold (byte_of (z / 256 ^ Z.of_nat n mod 256)).
    rewrite Htop, byte_val_of by (apply Z.mod_pos_bound; lia).
    destruct (Z.eqb_spec (z / 256 ^ Z.of_nat (S n)) 255); [lia|]. simpl. rewrite orb_false_r.
    destruct (Z.eqb_spec (z / 256 ^ Z.of_nat (S n)) 0) as [E|]; [|done]. simpl.
    destruct (Z.ltb_spec (z / 256 ^ Z.of_nat n mod 256) 128) as [Hb|]; [|done]. exfalso.
    specialize (H3 ltac:(lia)). replace (Z.succ (Z.of_nat (S n)) - 2) with (Z.of_nat n) in H3 by lia.
    assert (z < 256 ^ Z.of_nat (S n)) as Hz2.
    { apply Z.div_small_iff in E; [|lia]. lia. }
    rewrite Nat2Z.inj_succ, Z.pow_succ_r in Hz2 by lia.
    rewrite Z.mod_small in Hb by (split; [apply Z.div_pos; lia|apply Z.div_lt_upper_bound; lia]).
    pose proof (Z.div_le_mono (128 * 256 ^ Z.of_nat n) z (256 ^ Z.of_nat n) ltac:(lia) H3) as Hd.
    rewrite Z.div_mul in Hd by lia. lia. }
  cbn [negb big_FillBytes]. fold (byte_of (z / 256 ^ Z.of_nat n mod 256)). rewrite Htop.
  destruct (Z.ltb_spec (z / 256 ^ Z.of_nat n) 128); [|lia]. f_equal.
  change (String (byte_of (z / 256 ^ Z.of_nat n mod 256)) (big_FillBytes n z)) with (big_FillBytes (S n) z).
  apply big_SetBytes_Fill. rewrite Nat2Z.inj_succ. lia.
Qed.

Lemma der_int_len_256 z : 0 <= z < 2 ^ 256 → (der_int_len z <= 33)%nat.
Proof.
  intros Hz. unfold der_int_len. pose proof (proj2 (big_BitLen_le_256 z ltac:(lia)) ltac:(lia)).
  assert (big_BitLen z / 8 <= 32) by (apply Z.div_le_upper_bound; lia). lia.
Qed.

Lemma asn1_integer_encode z rest :
  0 <= z < 2 ^ 256 → asn1_integer (der_INTEGER z +:+ rest) = Some (z, rest).
Proof.
  intros Hz. pose proof (der_int_len_256 z Hz). unfold asn1_integer, der_INTEGER.
  pose proof (der_element_short tagInteger (big_FillBytes (der_int_len z) z) rest) as He.
  rewrite big_FillBytes_length in He.
  change (String tagInteger ?x +:+ rest) with (String tagInteger (x +:+ rest)).
  change (String (byte_of ?k) ?x +:+ rest) with (String (byte_of k) (x +:+ rest)).
  rewrite He by lia. by rewrite parseBigInt_Fill by lia.
Qed.

Lemma asn1_signature_encode r s :
  0 <= r < 2 ^ 256 → 0 <= s < 2 ^ 256 → asn1_signature (der_signature r s) = Some (r, s).
Proof.
  intros Hr Hs. unfold asn1_signature, der_signature. cbv zeta.
  pose proof (der_element_short tagSequence (der_INTEGER r +:+ der_INTEGER s) EmptyString) as He.
  rewrite string_app_empty_r in He. rewrite He.
  - rewrite asn1_integer_encode by done.
    rewrite <-(string_app_empty_r (der_INTEGER s)), asn1_integer_encode by done. done.
  - rewrite string_length_app. unfold der_INTEGER. simpl. rewrite !big_FillBytes_length.
    pose proof (der_int_len_256 r Hr). pose proof (der_int_len_256 s Hs). lia.
Qed.

Section kms_spec.
Context (PublicKey : Type) (RecoverCompact : bytes → bytes → option PublicKey).
Context (IsEqual : PublicKey → PublicKey → bool) (pubKey : PublicKey).

Let assemble := kms_assemble PublicKey RecoverCompact IsEqual pubKey.
Let matches_key := recovers PublicKey RecoverCompact IsEqual.

(** C35: a KMS signature is canonical. For the DER encoding of any pair (r, s) of scalars
    below the curve order for which one of the recovery ids 0 and 1 recovers the
    signer's key, the signer returns the 65 bytes r, s', v, where s' is the low one
    of s and N - s and v recovers the key; and whatever bytes KMS answers with,
    nothing is returned unless its v, 0 or 1, recovers the signer's key. *)
Theorem kms_signature_canonical digest :
  (∀ r s, 0 < r < secp256k1N → 0 < s < secp256k1N →
     (∃ v, (v = 0 ∨ v = 1) ∧
        matches_key digest (big_FillBytes 32 r) (big_FillBytes 32 (normalizeLowS s)) pubKey v = true) →
     ∃ v, assemble digest (der_signature r s) =
            Ok (big_FillBytes 32 r +:+ big_FillBytes 32 (normalizeLowS s) +:+ String (byte_of v) EmptyString) ∧
       matches_key digest (big_FillBytes 32 r) (big_FillBytes 32 (normalizeLowS s)) pubKey v = true ∧
       0 < normalizeLowS s <= secp256k1HalfN ∧ (normalizeLowS s = s ∨ normalizeLowS s = secp256k1N - s)) ∧
  (∀ der sig, assemble digest der = Ok sig →
     ∃ rBytes sBytes v, sig = rBytes +:+ sBytes +:+ String (byte_of v) EmptyString ∧
       String.length rBytes = 32%nat ∧ String.length sBytes = 32%nat ∧ (v = 0 ∨ v = 1) ∧
       matches_key digest rBytes sBytes pubKey v = true).
Proof.
  assert (secp256k1N < 2 ^ 256) as HN by done. change (2 ^ 256) with (256 ^ 32) in HN. split.
  - intros r s Hr Hs Hv. pose proof (normalizeLowS_spec s Hs) as (Hlow & Hor & _).
    set (sig := normalizeLowS s) in *.
    assert (0 <= sig < 256 ^ 32) as Hsig by (destruct Hor; lia).
    unfold assemble, kms_assemble, parseDERSignature.
    rewrite asn1_signature_encode by (change (2 ^ 256) with (256 ^ 32); lia). unfold bindE at 1.
    fold sig. unfold recoverRecoveryID. rewrite !FillBytes32_small by lia. unfold bindE. fold matches_key.
    destruct (matches_key digest (big_FillBytes 32 r) (big_FillBytes 32 sig) pubKey 0) eqn:E0; [by exists 0|].
    destruct (matches_key digest (big_FillBytes 32 r) (big_FillBytes 32 sig) pubKey 1) eqn:E1; [by exists 1|].
    destruct Hv as (v & [->| ->] & Hv); congruence.
  - intros der sig H. unfold assemble, kms_assemble in H.
    destruct (parseDERSignature der) as [[r s]|]; [|done]. unfold bindE at 1 in H. cbv zeta in H.
    destruct (recoverRecoveryID _ _ _ _ _ _ _) as [v|] eqn:Ev; [|done]. unfold bindE at 1 in H.
    apply recoverRecoveryID_Ok in Ev as (Hv & Hr & Hs & Hrec).
    destruct (FillBytes32 r) as [rb|] eqn:Er; [|done]. apply FillBytes32_Ok in Er as [-> _].
    destruct (FillBytes32 (normalizeLowS s)) as [sb|] eqn:Es; [|done]. apply FillBytes32_Ok in Es as [-> _].
    unfold bindE in H. simplify_eq. eexists _, _, v. split_and!; try done; apply big_FillBytes_length.
Qed.
End kms_spec.

(** ** software_signer.go *)

Section software.
(** decred's secp256k1 and its compact signatures, and Keccak-256. *)
Context (PrivateKey : Type) (PrivKeyBytesLen : nat) (SetByteSlice_overflow : bytes → bool).
Context (PrivKeyFromBytes : bytes → PrivateKey) (IsZero : PrivateKey → bool).
Context (SignCompact : PrivateKey → bytes → bytes) (SerializeUncompressed : PrivateKey → bytes).
Context (LegacyKeccak256 : bytes → bytes).

(** [deriveAddress], of the key's public key. *)
Definition deriveAddress (key : PrivateKey) : string :=
  "0x" +:+ hex_EncodeToString
    (drop_bytes 12 (LegacyKeccak256 (drop_bytes 1 (SerializeUncompressed key)))).

Definition NewSigner (privateKeyHex : string) : result (PrivateKey * string) :=
  match hex_DecodeString (TrimPrefix privateKeyHex "0x") with
  | None => Err (ErrText "decode signer private key hex")
  | Some keyBytes =>
      if negb (String.length keyBytes =? PrivKeyBytesLen)%nat
      then Err (ErrText "signer private key has a wrong length")
      else if SetByteSlice_overflow keyBytes
      then Err (ErrText "signer private key must be less than the secp256k1 curve order")
      else let key := PrivKeyFromBytes keyBytes in
           if IsZero key then Err (ErrText "signer private key must not be zero")
           else Ok (key, deriveAddress key)
  end.

Definition software_Sign (key : PrivateKey) (digest : bytes) : result bytes :=
  let compact := SignCompact key digest in
  if negb (String.length compact =? 65)%nat then Err (ErrText "unexpected compact signature length")
  else match compact with
       | EmptyString => Err (ErrText "unexpected compact signature length")
       | String c rs => Ok (rs +:+ String (byte_of ((byte_val c - 27) mod 256)) EmptyString)
       end.

Definition software_Signer (key : PrivateKey) : Signer :=
  {| Sign := λ _ digest, lift_result (software_Sign key digest) |}.

Lemma software_SignerLaws key : SignerLaws (software_Signer key).
Proof. constructor. intros chain d. simpl. auto with external. Qed.

(** The in-memory signer. A key is accepted exactly when it is the hex of 32 bytes
    of a nonzero scalar below the curve order; and a compact signature 27+v, r, s
    comes out as r, s, v. *)
Theorem software_signer_spec :
  PrivKeyBytesLen = 32%nat →
  (∀ b, String.length b = 32%nat → SetByteSlice_overflow b = true ↔ secp256k1N <= big_SetBytes b) →
  (∀ b, String.length b = 32%nat → IsZero (PrivKeyFromBytes b) = true ↔ big_SetBytes b mod secp256k1N = 0) →
  (∀ h b, hex_DecodeString (TrimPrefix h "0x") = Some b →
     (∃ address, NewSigner h = Ok (PrivKeyFromBytes b, address)) ↔
     String.length b = 32%nat ∧ 0 < big_SetBytes b < secp256k1N) ∧
  (∀ key digest v r s, SignCompact key digest = String (byte_of (27 + v)) (r +:+ s) → 0 <= v < 4 →
     String.length r = 32%nat → String.length s = 32%nat →
     software_Sign key digest = Ok (r +:+ s +:+ String (byte_of v) EmptyString)).
Proof.
  intros Hlen Hover Hzero. split.
  - intros h b Hb. unfold NewSigner. rewrite Hb, Hlen.
    destruct (Nat.eqb_spec (String.length b) 32) as [Hl|Hl]; cbn [negb];
      [|by split; [intros [? ?]|intros [? _]]].
    specialize (Hover b Hl). specialize (Hzero b Hl). pose proof (big_SetBytes_bound b).
    destruct (SetByteSlice_overflow b).
    { split; [by intros [? ?]|]. intros [_ ?]. assert (secp256k1N <= big_SetBytes b) by by apply Hover. lia. }
    assert (big_SetBytes b < secp256k1N).
    { destruct (Z.ltb_spec (big_SetBytes b) secp256k1N); [done|]. by assert (false = true) by by apply Hover. }
    rewrite Z.mod_small in Hzero by lia. cbv zeta. destruct (IsZero (PrivKeyFromBytes b)).
    + split; [by intros [? ?]|]. intros [_ ?]. assert (big_SetBytes b = 0) by by apply Hzero. lia.
    + split; [|by eauto]. intros _. split; [done|].
      destruct (decide (big_SetBytes b = 0)) as [E|]; [by apply Hzero in E|lia].
  - intros key digest v r s E Hv Hr Hs. unfold software_Sign. rewrite E.
    assert (String.length (String (byte_of (27 + v)) (r +:+ s)) = 65%nat) as -> by
      (cbn [String.length]; rewrite string_length_app; lia). cbn [negb Nat.eqb].
    rewrite byte_val_of by lia. replace (27 + v - 27) with v by lia. rewrite Z.mod_small by lia.
    f_equal. clear. induction r as [|c r IH]; [done|].
    change (String c ((r +:+ s) +:+ String (byte_of v) EmptyString) =
            String c (r +:+ s +:+ String (byte_of v) EmptyString)). by rewrite IH.
Qed.
End software.
