(* ===== verification/Config.v ===== *)
(** * Configuration

    cmd/walletd/main.go: what each role reads from its environment before its first
    remote call, in the order it reads it, and which environments it accepts. *)

From Stdlib Require Import ZArith Lia Ascii DecimalString.
From stdpp Require Import prelude strings.
From S2P Require Import Prelude GoStd Duration Domain Store Effects Ports CreateWithdrawals Idempotency Scanner.

(** ** Environment *)

(** [strconv.ParseUint(v, 10, 64)]: digits only, and in range. *)
Definition ParseUint64 (v : string) : option Z :=
  match NilZero.uint_of_string v with
  | Some d => let z := Z.of_uint d in if z <? 2 ^ 64 then Some z else None
  | None => None
  end.

Definition splitNonEmpty (s : string) (sep : ascii) : list string :=
  if String.eqb s EmptyString then []
  else filter (λ p, p ≠ EmptyString) (map TrimSpace (Split s sep)).

Definition zeroAddress : string := "0x0000000000000000000000000000000000000000".

Section config.
Context `{GE : GoEthereum} (Getenv : string → string).

Definition requiredStringEnv (name : string) : result string :=
  let v := Getenv name in
  if String.eqb v EmptyString then Err (ErrText (name +:+ " is required")) else Ok v.

Definition requiredChainIDEnv (name : string) : result Z :=
  let v := Getenv name in
  if String.eqb v EmptyString then Err (ErrText (name +:+ " is required")) else
  match ParseUint64 v with
  | Some id => if id =? 0 then Err (ErrText (name +:+ " must be a positive decimal EIP-155 chain id"))
               else Ok id
  | None => Err (ErrText (name +:+ " must be a positive decimal EIP-155 chain id"))
  end.

Definition envPrefix (chainName : string) : result string :=
  if String.eqb chainName "base" then Ok "BASE"
  else if String.eqb chainName "arbitrum" then Ok "ARBITRUM"
  else Err (ErrText "--chain must be base or arbitrum").

Definition IsChecksummedAddress (s : string) : bool := String.eqb (Address_Hex (HexToAddress s)) s.

(** An optional duration, which must be positive. *)
Definition duration_env (name : string) (unset : Z) : result Z :=
  let v := Getenv name in
  if String.eqb v EmptyString then Ok unset else
  match ParseDuration v with
  | None => Err (ErrText (name +:+ " must be a valid duration, got " +:+ v))
  | Some parsed =>
      if parsed <=? 0 then Err (ErrText (name +:+ " must be a positive duration, got " +:+ v)) else Ok parsed
  end.

Definition second : Z := 10 ^ 9.
Definition defaultWatcherPollInterval : Z := 5 * second.
Definition defaultBroadcasterPollInterval : Z := 5 * second.
Definition defaultWithdrawalStuckThreshold : Z := 30 * 60 * second.
Definition defaultLivenessStalenessMultiplier : Z := 3.

(** [evm.Chain]. *)
Record EvmChain := mkEvmChain { ch_Name : string; ch_RPCURL : string; ch_ChainID : Z }.

Record ApiConfig := mkApiConfig {
  ac_DSN : string; ac_ListenAddr : string; ac_CursorSigningKey : bytes; ac_Chains : list EvmChain;
}.

(** [runAPI] up to its first remote call. *)
Definition api_config : result ApiConfig :=
  bindE (requiredStringEnv "DATABASE_URL") (λ dsn,
  let listenAddr := Getenv "API_LISTEN_ADDR" in
  let listenAddr := if String.eqb listenAddr EmptyString then ":8080" else listenAddr in
  bindE (requiredStringEnv "API_CURSOR_SIGNING_KEY") (λ cursorSigningKey,
  bindE (requiredStringEnv "BASE_RPC_URL") (λ baseRPCURL,
  bindE (requiredStringEnv "ARBITRUM_RPC_URL") (λ arbitrumRPCURL,
  bindE (requiredChainIDEnv "BASE_CHAIN_ID") (λ baseChainID,
  bindE (requiredChainIDEnv "ARBITRUM_CHAIN_ID") (λ arbitrumChainID,
  Ok (mkApiConfig dsn listenAddr cursorSigningKey
        [mkEvmChain "base" baseRPCURL baseChainID;
         mkEvmChain "arbitrum" arbitrumRPCURL arbitrumChainID]))))))).

Record WatcherConfig := mkWatcherConfig {
  wc_DSN : string; wc_Chain : EvmChain; wc_USDC : string; wc_PollInterval : Z;
}.

(** [runWatcher] up to its first remote call. *)
Definition watcher_config (chainName : string) : result WatcherConfig :=
  bindE (envPrefix chainName) (λ prefix,
  bindE (requiredStringEnv "DATABASE_URL") (λ dsn,
  bindE (requiredStringEnv (prefix +:+ "_RPC_URL")) (λ rpcURL,
  bindE (requiredChainIDEnv (prefix +:+ "_CHAIN_ID")) (λ chainID,
  bindE (requiredStringEnv (prefix +:+ "_USDC_ADDRESS")) (λ usdcAddress,
  if negb (IsChecksummedAddress usdcAddress)
  then Err (ErrText "USDC_ADDRESS must be a well-formed, EIP-55-checksummed address")
  else if String.eqb usdcAddress zeroAddress
  then Err (ErrText "USDC_ADDRESS is still the placeholder zero address")
  else
  bindE (duration_env "WATCHER_POLL_INTERVAL" defaultWatcherPollInterval) (λ pollInterval,
  Ok (mkWatcherConfig dsn (mkEvmChain chainName rpcURL chainID) usdcAddress pollInterval))))))).

Record BroadcasterConfig := mkBroadcasterConfig {
  bc_DSN : string; bc_Chain : EvmChain; bc_PollInterval : Z; bc_StuckThreshold : Z;
  bc_LivenessStaleness : Z;
}.

(** The watcher's interval, read only for the default of the staleness threshold: an
    unusable value is ignored. *)
Definition watcherPollIntervalForDefault : Z :=
  match ParseDuration (Getenv "WATCHER_POLL_INTERVAL") with
  | Some parsed => if 0 <? parsed then parsed else defaultWatcherPollInterval
  | None => defaultWatcherPollInterval
  end.

(** [runBroadcaster] up to its first remote call. *)
Definition broadcaster_config (chainName : string) : result BroadcasterConfig :=
  bindE (envPrefix chainName) (λ prefix,
  bindE (requiredStringEnv "DATABASE_URL") (λ dsn,
  bindE (requiredStringEnv (prefix +:+ "_RPC_URL")) (λ rpcURL,
  bindE (requiredChainIDEnv (prefix +:+ "_CHAIN_ID")) (λ chainID,
  bindE (duration_env "BROADCASTER_POLL_INTERVAL" defaultBroadcasterPollInterval) (λ pollInterval,
  bindE (duration_env "WITHDRAWAL_STUCK_THRESHOLD" defaultWithdrawalStuckThreshold) (λ stuckThreshold,
  bindE (duration_env "LIVENESS_STALENESS_THRESHOLD"
           (i64 (defaultLivenessStalenessMultiplier * watcherPollIntervalForDefault))) (λ staleness,
  Ok (mkBroadcasterConfig dsn (mkEvmChain chainName rpcURL chainID) pollInterval stuckThreshold
        staleness)))))))).

Inductive SignerBackend := BackendSoftware (privateKeyHex : string) | BackendKMS (keyID : string).

Definition signer_backend : result SignerBackend :=
  bindE (requiredStringEnv "SIGNER_BACKEND") (λ backend,
  if String.eqb backend "software"
  then bindE (requiredStringEnv "SIGNER_PRIVATE_KEY") (λ k, Ok (BackendSoftware k))
  else if String.eqb backend "kms"
  then bindE (requiredStringEnv "SIGNER_KMS_KEY_ID") (λ k, Ok (BackendKMS k))
  else Err (ErrText "SIGNER_BACKEND must be software or kms")).

Definition validTokens : list string := splitNonEmpty (Getenv "API_BEARER_TOKENS") ",".

(** ** What an accepted environment guarantees *)

Lemma ParseUint64_range v id : ParseUint64 v = Some id → 0 <= id < 2 ^ 64.
Proof.
  unfold ParseUint64. destruct (NilZero.uint_of_string v) as [d|]; [|done]. cbv zeta.
  destruct (Z.ltb_spec (Z.of_uint d) (2 ^ 64)); [|done]. intros [= <-].
  split; [unfold Z.of_uint; lia|done].
Qed.

Lemma requiredStringEnv_Ok name v : requiredStringEnv name = Ok v → v = Getenv name ∧ v ≠ EmptyString.
Proof.
  unfold requiredStringEnv. destruct (String.eqb_spec (Getenv name) EmptyString); [done|].
  by intros [= <-].
Qed.

Lemma requiredChainIDEnv_Ok name id :
  requiredChainIDEnv name = Ok id → ParseUint64 (Getenv name) = Some id ∧ 0 < id < 2 ^ 64.
Proof.
  unfold requiredChainIDEnv. destruct (String.eqb _ _); [done|].
  destruct (ParseUint64 (Getenv name)) as [z|] eqn:E; [|done]. apply ParseUint64_range in E as Hr.
  destruct (Z.eqb_spec z 0); [done|]. intros [= <-]. split; [done|lia].
Qed.

Lemma envPrefix_Ok chain prefix :
  envPrefix chain = Ok prefix → (chain, prefix) ∈ [("base", "BASE"); ("arbitrum", "ARBITRUM")].
Proof.
  unfold envPrefix. destruct (String.eqb_spec chain "base") as [->|]; [intros [= <-]; set_solver|].
  destruct (String.eqb_spec chain "arbitrum") as [->|]; [intros [= <-]; set_solver|done].
Qed.

Lemma duration_env_Ok name unset d :
  duration_env name unset = Ok d →
  (Getenv name = EmptyString ∧ d = unset) ∨ (ParseDuration (Getenv name) = Some d ∧ 0 < d < 2 ^ 63).
Proof.
  unfold duration_env. destruct (String.eqb_spec (Getenv name) EmptyString); [intros [= <-]; by left|].
  destruct (ParseDuration _) as [z|] eqn:E; [|done]. apply ParseDuration_range in E as Hr.
  destruct (Z.leb_spec z 0); [done|]. intros [= <-]. right. split; [done|lia].
Qed.

(** A default within range leaves only positive durations. *)
Lemma duration_env_positive name unset d :
  0 < unset < 2 ^ 63 → duration_env name unset = Ok d → 0 < d < 2 ^ 63.
Proof. intros Hu [[_ ->]|[_ H]]%duration_env_Ok; done. Qed.

Lemma watcherPollIntervalForDefault_range : 0 < watcherPollIntervalForDefault < 2 ^ 63.
Proof.
  unfold watcherPollIntervalForDefault. destruct (ParseDuration _) as [z|] eqn:E; [|done].
  apply ParseDuration_range in E. destruct (Z.ltb_spec 0 z); [lia|done].
Qed.

Definition chain_ok (c : EvmChain) : Prop :=
  ch_Name c ∈ ["base"; "arbitrum"] ∧ 0 < ch_ChainID c < 2 ^ 64 ∧ ch_RPCURL c ≠ EmptyString.

Lemma role_chain_ok chain prefix rpcURL chainID :
  envPrefix chain = Ok prefix → requiredStringEnv (prefix +:+ "_RPC_URL") = Ok rpcURL →
  requiredChainIDEnv (prefix +:+ "_CHAIN_ID") = Ok chainID → chain_ok (mkEvmChain chain rpcURL chainID).
Proof.
  intros Hp%envPrefix_Ok [_ Hu]%requiredStringEnv_Ok [_ Hid]%requiredChainIDEnv_Ok.
  unfold chain_ok. simpl. split_and!; [set_solver|lia|lia|done].
Qed.

(** The default of the staleness threshold is three watcher intervals while that fits. *)
Lemma staleness_default_exact w : 0 < w → 3 * w < 2 ^ 63 → i64 (defaultLivenessStalenessMultiplier * w) = 3 * w.
Proof. intros Hw Hf. unfold i64, defaultLivenessStalenessMultiplier. rewrite Z.mod_small; lia. Qed.

(** A watcher interval from a third of the largest duration on makes it negative: the
    broadcaster then never finds its watcher live. *)
Lemma staleness_default_wraps chain cfg :
  Getenv "LIVENESS_STALENESS_THRESHOLD" = EmptyString →
  2 ^ 63 <= 3 * watcherPollIntervalForDefault < 2 ^ 64 →
  broadcaster_config chain = Ok cfg → bc_LivenessStaleness cfg < 0.
Proof.
  intros He Hw H. unfold broadcaster_config in H.
  repeat (apply bindE_Ok in H; destruct H as (? & ? & H)). injection H as <-. simpl.
  rename select (duration_env "LIVENESS_STALENESS_THRESHOLD" _ = _) into Hs. apply duration_env_Ok in Hs.
  destruct Hs as [[_ ->]|[Hp _]]; [|rewrite He in Hp; vm_compute in Hp; discriminate].
  set (w := watcherPollIntervalForDefault) in *. unfold i64, defaultLivenessStalenessMultiplier.
  pose proof (Z.mod_small (3 * w + 2 ^ 63 - 2 ^ 64) (2 ^ 64) ltac:(lia)) as E.
  replace (3 * w + 2 ^ 63) with (3 * w + 2 ^ 63 - 2 ^ 64 + 1 * 2 ^ 64) by lia.
  rewrite Z.mod_add by lia. lia.
Qed.

(** C40: configuration bounds. A role starts only for a chain it knows, with a positive
    64-bit chain id and endpoints that are set; its intervals and thresholds are
    positive 64-bit durations; the watcher's token is a checksummed address other than
    zero; the derived staleness threshold is three watcher intervals when they fit,
    and negative when they are between 2^63 and 2^64. *)
Theorem accepted_configuration :
  (∀ chain cfg, watcher_config chain = Ok cfg →
     ch_Name (wc_Chain cfg) = chain ∧ chain_ok (wc_Chain cfg) ∧ 0 < wc_PollInterval cfg < 2 ^ 63 ∧
     IsChecksummedAddress (wc_USDC cfg) = true ∧ wc_USDC cfg ≠ zeroAddress) ∧
  (∀ chain cfg, broadcaster_config chain = Ok cfg →
     ch_Name (bc_Chain cfg) = chain ∧ chain_ok (bc_Chain cfg) ∧ 0 < bc_PollInterval cfg < 2 ^ 63 ∧
     0 < bc_StuckThreshold cfg < 2 ^ 63 ∧
     (3 * watcherPollIntervalForDefault < 2 ^ 63 → 0 < bc_LivenessStaleness cfg < 2 ^ 63) ∧
     (Getenv "LIVENESS_STALENESS_THRESHOLD" = EmptyString → 3 * watcherPollIntervalForDefault < 2 ^ 63 →
        bc_LivenessStaleness cfg = 3 * watcherPollIntervalForDefault) ∧
     (Getenv "LIVENESS_STALENESS_THRESHOLD" = EmptyString → 2 ^ 63 <= 3 * watcherPollIntervalForDefault < 2 ^ 64 →
        bc_LivenessStaleness cfg < 0)) ∧
  (∀ cfg, api_config = Ok cfg →
     map ch_Name (ac_Chains cfg) = ["base"; "arbitrum"] ∧ Forall chain_ok (ac_Chains cfg) ∧
     ac_CursorSigningKey cfg ≠ EmptyString).
Proof.
  pose proof watcherPollIntervalForDefault_range as Hw. split_and!.
  - intros chain cfg H. unfold watcher_config in H.
    apply bindE_Ok in H as (prefix & Hp & H). apply bindE_Ok in H as (dsn & _ & H).
    apply bindE_Ok in H as (url & Hu & H). apply bindE_Ok in H as (id & Hid & H).
    apply bindE_Ok in H as (usdc & _ & H). destruct (IsChecksummedAddress usdc) eqn:Hc; [|done].
    destruct (String.eqb_spec usdc zeroAddress) as [|Hz]; [done|]. simpl in H.
    apply bindE_Ok in H as (d & Hd & [= <-]). apply duration_env_positive in Hd; [|done].
    simpl. split_and!; [done|by eapply role_chain_ok|lia|lia|done|done].
  - intros chain cfg H. pose proof (staleness_default_wraps chain cfg) as Hwrap. unfold broadcaster_config in H.
    pose proof H as Hcfg. apply bindE_Ok in H as (prefix & Hp & H). apply bindE_Ok in H as (dsn & _ & H).
    apply bindE_Ok in H as (url & Hu & H). apply bindE_Ok in H as (id & Hid & H).
    apply bindE_Ok in H as (d & Hd & H). apply duration_env_positive in Hd; [|done].
    apply bindE_Ok in H as (st & Hst & H). apply duration_env_positive in Hst; [|done].
    apply bindE_Ok in H as (stale & Hs & [= <-]). apply duration_env_Ok in Hs. simpl.
    split_and!; [done|by eapply role_chain_ok|lia|lia|lia|lia| | |by intros ? ?; apply Hwrap].
    + intros Hf. rewrite staleness_default_exact in Hs by lia. lia.
    + intros He Hf. rewrite staleness_default_exact in Hs by lia.
      destruct Hs as [[_ ->]|[Hp' _]]; [done|]. rewrite He in Hp'. vm_compute in Hp'. discriminate.
  - intros cfg H. unfold api_config in H.
    apply bindE_Ok in H as (dsn & _ & H). cbv zeta in H. apply bindE_Ok in H as (key & Hk & H).
    apply bindE_Ok in H as (bu & Hbu & H). apply bindE_Ok in H as (au & Hau & H).
    apply bindE_Ok in H as (bid & Hbid & H). apply bindE_Ok in H as (aid & Haid & [= <-]).
    apply requiredStringEnv_Ok in Hk as [_ Hk]. simpl. split_and!; [done| |done].
    constructor; [|constructor; [|constructor]].
    + by apply (role_chain_ok "base" "BASE").
    + by apply (role_chain_ok "arbitrum" "ARBITRUM").
Qed.

(** Authentication. A request reaches the rest of the API exactly when it carries
    "Bearer " followed by one of the configured tokens, none of which is empty;
    otherwise the answer is 401 and nothing happens. *)
Theorem api_authenticates (encode_problem : ProblemDetails → bytes) next r :
  (∃ token, token ∈ validTokens ∧ token ≠ EmptyString ∧ rq_Authorization r = "Bearer " +:+ token ∧
     AuthMiddleware encode_problem validTokens next r = next r) ∨
  ((∀ token, rq_Authorization r = "Bearer " +:+ token → token ∉ validTokens) ∧
   ∃ body, sr_Status body = 401 ∧ AuthMiddleware encode_problem validTokens next r = ret body).
Proof.
  assert (∀ t, t ∈ validTokens → t ≠ EmptyString) as Hne.
  { unfold validTokens, splitNonEmpty. intros t. destruct (String.eqb _ _); [by intros ?%elem_of_nil|].
    by intros [? _]%list_elem_of_filter. }
  unfold AuthMiddleware. destruct (bearerToken (rq_Authorization r)) as [token|] eqn:E.
  - apply bearerToken_spec in E as [E Ht]. destruct (tokenIsValid validTokens token) eqn:Ev; simpl.
    + apply tokenIsValid_spec in Ev. left. by exists token.
    + right. split; [|eexists; split; [|reflexivity]; reflexivity]. intros t Et Hin. rewrite E in Et. apply (inj (String.app "Bearer ")) in Et as <-.
      apply tokenIsValid_spec in Hin. congruence.
  - right. split; [|eexists; split; [|reflexivity]; reflexivity]. intros t Et Hin.
    assert (bearerToken (rq_Authorization r) = Some t) as Eb; [|congruence].
    apply bearerToken_spec. split; [done|]. by apply Hne.
Qed.
End config.

