(* ===== verification/Walletd.v ===== *)
(** * The walletd binary

    cmd/walletd/main.go: the per-chain advisory locks, and the loops of the watcher
    and the broadcaster around the use cases. *)

From Stdlib Require Import ZArith Lia Ascii DecimalString.
From stdpp Require Import prelude strings sorting gmap list_numbers.
From S2P Require Import Prelude GoStd Domain Store Effects Ledger Withdrawals WithdrawalSpecs.
From S2P Require Import WithdrawalInvariant Ports Broadcast Solvency CreateWithdrawals Idempotency.
From S2P Require Import Deposits DepositSpecs Customers Watcher System Scanner.

(** ** Advisory locks *)

Definition watcherLockID (chainName : string) : option Z :=
  if String.eqb chainName "base" then Some 890100001
  else if String.eqb chainName "arbitrum" then Some 890100002 else None.
Definition broadcasterLockID (chainName : string) : option Z :=
  if String.eqb chainName "base" then Some 890200001
  else if String.eqb chainName "arbitrum" then Some 890200002 else None.

Inductive Role := RoleWatcher | RoleBroadcaster.
Definition lock_id (p : Role * string) : option Z :=
  match fst p with RoleWatcher => watcherLockID (snd p) | RoleBroadcaster => broadcasterLockID (snd p) end.

(** The processes running, each holding its session's lock; [pg_try_advisory_lock]
    answers false, and the process exits, when another session holds the key. *)
Record Fleet := mkFleet { fl_locks : gset Z; fl_running : list (Role * string) }.

Inductive fleet_step : Fleet → Fleet → Prop :=
  | fleet_start f p k :
      lock_id p = Some k → k ∉ fl_locks f →
      fleet_step f (mkFleet ({[k]} ∪ fl_locks f) (fl_running f ++ [p]))
  | fleet_refused f p k : lock_id p = Some k → k ∈ fl_locks f → fleet_step f f
  | fleet_stop f p k l1 l2 :
      fl_running f = l1 ++ p :: l2 → lock_id p = Some k →
      fleet_step f (mkFleet (fl_locks f ∖ {[k]}) (l1 ++ l2)).

Lemma lock_id_inj p q k : lock_id p = Some k → lock_id q = Some k → p = q.
Proof.
  destruct p as [[] ch], q as [[] ch']; unfold lock_id, watcherLockID, broadcasterLockID; simpl;
    repeat match goal with |- context [String.eqb ?a ?b] => destruct (String.eqb_spec a b) end;
    intros; simplify_eq; done.
Qed.

Record fleet_ok (f : Fleet) : Prop := {
  fo_held : ∀ p, p ∈ fl_running f → ∃ k, lock_id p = Some k ∧ k ∈ fl_locks f;
  fo_once : NoDup (fl_running f);
}.

Lemma fleet_step_ok f f' : fleet_step f f' → fleet_ok f → fleet_ok f'.
Proof.
  intros Hs [Hh Ho]. destruct Hs as [f p k Ek Hk|f p k Ek Hk|f p k l1 l2 E Ek]; [..|].
  - constructor; simpl.
    + intros q [Hq| ->%list_elem_of_singleton]%elem_of_app; [|exists k; set_solver].
      destruct (Hh q Hq) as (k' & ? & ?). exists k'. set_solver.
    + apply NoDup_app. split_and!; [done| |apply NoDup_singleton].
      intros q Hq ->%list_elem_of_singleton. destruct (Hh p Hq) as (k' & E' & ?). congruence.
  - done.
  - rewrite E in Hh, Ho. apply NoDup_app in Ho as (H1 & H2 & [H3 H4]%NoDup_cons).
    constructor; simpl.
    + intros q Hq. destruct (Hh q) as (k' & Ek' & Hk'); [set_solver|]. exists k'. split; [done|].
      apply elem_of_difference. split; [done|]. intros ->%elem_of_singleton.
      assert (q = p) as -> by by eapply lock_id_inj.
      apply elem_of_app in Hq as [Hq|Hq]; [|done]. apply (H2 p Hq). left.
    + apply NoDup_app. split_and!; [done| |done]. intros q Hq Hq'. apply (H2 q Hq). by right.
Qed.

(** One process per role and chain. However processes are started and stopped, no
    two running ones have the same role and chain, while a watcher and a broadcaster
    of one chain never exclude each other. *)
Theorem one_process_per_chain f :
  rtc fleet_step (mkFleet ∅ []) f →
  NoDup (fl_running f) ∧
  (∀ chain k k', lock_id (RoleWatcher, chain) = Some k → lock_id (RoleBroadcaster, chain) = Some k' → k ≠ k').
Proof.
  intros Hs. split.
  - assert (fleet_ok (mkFleet ∅ [])) as H0 by (constructor; [by intros p ?%elem_of_nil|constructor]).
    apply fo_once. induction Hs as [|f1 f2 f3 Hs _ IH]; [done|]. by eapply IH, fleet_step_ok.
  - intros chain k k' Hk Hk' ->. by pose proof (lock_id_inj _ _ _ Hk Hk').
Qed.

(** ** The loops *)

Section loops.
Context `{Scan : ChainScanner} `{!ChainScannerLaws Scan}.
Context `{G : Signer} `{!SignerLaws G} `{B : TransactionBroadcaster} `{!TransactionBroadcasterLaws B}.

(** [runWatcher]'s loop, [n] polls of it: an error is logged and the loop goes on. *)
Fixpoint watcher_loop (n : nat) (chain : Chain) : M (list (result ExecuteResult)) :=
  match n with
  | O => ret []
  | S n =>
      let! r := try (TrackDeposits_Execute chain) in
      let! rs := watcher_loop n chain in
      ret (r :: rs)
  end.

(** The inner loop of one broadcaster tick; [None] when [fuel] ran out. *)
Fixpoint drain (fuel : nat) (chain : Chain) (live : bool) (claimedCount : nat) : M (option nat) :=
  match fuel with
  | O => ret None
  | S fuel =>
      let! (claimed, err) := SignAndBroadcastWithdrawal_Execute chain live in
      match err with
      | Some _ => ret (Some claimedCount)
      | None => if negb claimed then ret (Some claimedCount)
                else drain fuel chain live (S claimedCount)
      end
  end.

Record Tick := mkTick {
  tk_live : bool; tk_logged : bool; tk_claimed : option nat;
  tk_poll : PollWithdrawalReceiptsResult; tk_stuck : DetectStuckWithdrawalsResult;
}.

(** One iteration of [runBroadcaster]'s loop. *)
Definition broadcaster_tick (fuel : nat) (chain : Chain) (staleAfter stuckThreshold : Z)
    (lastLive : option bool) : M Tick :=
  let! r := try (IsLive chain staleAfter) in
  let live := match r with Ok b => b | Err _ => false end in
  let logged := negb (bool_decide (lastLive = Some live)) in
  let! claimed := drain fuel chain live 0 in
  let! (poll, _) := PollWithdrawalReceipts_Execute chain in
  let! (stuck, _) := DetectStuckWithdrawals_Execute chain stuckThreshold in
  ret (mkTick live logged claimed poll stuck).

Fixpoint broadcaster_loop (n fuel : nat) (chain : Chain) (staleAfter stuckThreshold : Z)
    (lastLive : option bool) : M (list Tick) :=
  match n with
  | O => ret []
  | S n =>
      let! t := broadcaster_tick fuel chain staleAfter stuckThreshold lastLive in
      let! ts := broadcaster_loop n fuel chain staleAfter stuckThreshold (Some (tk_live t)) in
      ret (t :: ts)
  end.

(** *** The loops keep what every commit keeps *)

Lemma drain_keeps (I : DB → Prop) fuel chain live k :
  (∀ db db', I db → broadcast_step db db' → I db') → preserves I (drain fuel chain live k).
Proof.
  intros HI. revert k. induction fuel as [|fuel IH]; intros k; simpl; [auto with preserves|].
  apply preserves_bind; [apply SignAndBroadcast_preserves; [..|done|done]; intros; eauto using broadcast_step|].
  intros [claimed [e|]]; [auto with preserves|]. destruct claimed; [apply IH|apply preserves_ret].
Qed.

Section closed.
Context (I : DB → Prop) (I_commit : ∀ db db', I db → commit db db' → I db').

Lemma watcher_loop_preserves n chain : preserves I (watcher_loop n chain).
Proof.
  induction n as [|n IH]; simpl; [auto with preserves|].
  apply preserves_bind; [by apply preserves_try, TrackDeposits_preserves|]. intros r.
  apply preserves_bind; [done|auto with preserves].
Qed.

Lemma drain_preserves fuel chain live k : preserves I (drain fuel chain live k).
Proof. apply drain_keeps. intros; eauto using broadcast_step_commit. Qed.

Lemma broadcaster_loop_preserves n fuel chain sa st ll : preserves I (broadcaster_loop n fuel chain sa st ll).
Proof.
  revert ll. induction n as [|n IH]; intros ll; simpl; [auto with preserves|].
  apply preserves_bind; [|intros t; apply preserves_bind; [apply IH|auto with preserves]].
  unfold broadcaster_tick. apply preserves_bind.
  { apply preserves_try. simpl. unfold WatcherLiveness_IsLive. preserves_tac. }
  intros r. cbv zeta. apply preserves_bind; [apply drain_preserves|]. intros claimed.
  apply preserves_bind; [by apply PollWithdrawalReceipts_preserves|]. intros [poll e].
  apply preserves_bind; [by apply DetectStuckWithdrawals_preserves|]. intros [stuck e'].
  apply preserves_ret.
Qed.
End closed.
End loops.

(** ** The drain loop terminates *)

(** Withdrawals left to broadcast. *)
Definition to_broadcast (w : WithdrawalRow) : Prop :=
  wr_status w = WithdrawalStatusApproved ∨ wr_status w = WithdrawalStatusSigned.
#[export] Instance to_broadcast_dec w : Decision (to_broadcast w).
Proof. unfold to_broadcast. apply _. Defined.
Definition pending (db : DB) : nat := length (filter to_broadcast (t_withdrawals db)).

Section update.
Context {R : Type} (P Q : R → Prop) `{∀ r, Decision (P r), ∀ r, Decision (Q r)} (f : R → R).
Hypothesis (HPQ : ∀ r, P r → Q r).

Lemma filter_update_le l : (length (filter Q (update_where P f l)) <= length (filter Q l))%nat.
Proof.
  induction l as [|r l IH]; [done|]. change (update_where P f (r :: l)) with
    ((if decide (P r) then f r else r) :: update_where P f l).
  rewrite !filter_cons. repeat case_decide; simpl in *; try lia; exfalso; naive_solver.
Qed.

Lemma filter_update_lt l r :
  r ∈ l → P r → (∀ x, ¬ Q (f x)) → (length (filter Q (update_where P f l)) < length (filter Q l))%nat.
Proof.
  intros Hr HP Hf. induction l as [|x l IH]; [by apply elem_of_nil in Hr|].
  pose proof (filter_update_le l) as Hle. change (update_where P f (x :: l)) with
    ((if decide (P x) then f x else x) :: update_where P f l).
  rewrite !filter_cons. apply elem_of_cons in Hr as [<-|Hr].
  - rewrite (decide_True _ _ HP), decide_False, decide_True by auto. simpl. lia.
  - specialize (IH Hr). repeat case_decide; simpl in *; try lia; naive_solver.
Qed.
End update.

Lemma pending_step db db' : broadcast_step db db' → (pending db' <= pending db)%nat.
Proof.
  intros [chain w db1 db2 (row & nn & now & aid & _ & _ & _ & _ & ->)
         |id h tx db1 u db2 (row & a & _ & _ & _ & _ & _ & ->)
         |id db1 u db2 (row & a & h & now & _ & _ & _ & _ & _ & _ & _ & ->)]; unfold pending; tables.
  - apply filter_update_le. intros r [_ E]. by left.
  - done.
  - apply filter_update_le. intros r [_ E]. by right.
Qed.

Lemma pending_marked id db u db' : marked_broadcast id db u db' → (pending db' < pending db)%nat.
Proof.
  intros (row & a & h & now & Hrow & Hid & Hs & _ & _ & _ & _ & ->). unfold pending. tables.
  eapply filter_update_lt; [by intros r [_ ?]; right|done|done|].
  intros x [E|E]; discriminate E.
Qed.

Section terminates.
Context `{Scan : ChainScanner} `{!ChainScannerLaws Scan}.
Context `{G : Signer} `{!SignerLaws G} `{B : TransactionBroadcaster} `{!TransactionBroadcasterLaws B}.

(** Other sessions approve nothing while the loop drains. *)
Definition others_approve_nothing (c : Ctx) : Prop :=
  ∀ n db, (pending (env_other (cx_env c) n db) <= pending db)%nat.

Definition shrinks {A} (m : M A) : Prop := ∀ c s a s',
  cx_tx c = None → others_approve_nothing c → m c s = (Ok a, s') →
  (pending (st_db s') < pending (st_db s))%nat.
Definition never_grows {A} (m : M A) : Prop := ∀ k, preserves (λ db, (pending db <= k)%nat) m.

Lemma never_grows_le {A} (m : M A) c s r s' :
  never_grows m → cx_tx c = None → others_approve_nothing c → m c s = (r, s') →
  (pending (st_db s') <= pending (st_db s))%nat.
Proof.
  intros Hm Hc Ho H. eapply (Hm (pending (st_db s)) c s r s'); [done| |lia|done].
  intros n db. specialize (Ho n db). lia.
Qed.

Lemma shrinks_bind {A C} (m : M A) (k : A → M C) :
  never_grows m → (∀ a, shrinks (k a)) → shrinks (bind m k).
Proof.
  intros Hm Hk c s b s' Hc Ho H. apply bind_Ok in H as (a & s1 & H1 & H2).
  apply never_grows_le in H1; [|done..]. apply Hk in H2; [|done..]. lia.
Qed.

Lemma step_bound k db db' : (pending db <= k)%nat → broadcast_step db db' → (pending db' <= k)%nat.
Proof. intros Hk Hs%pending_step. lia. Qed.

Lemma finalize_shrinks w : shrinks (finalize w).
Proof.
  intros c s a s' Hc Ho H. unfold finalize in H.
  apply (in_tx_refines _ _ _ _ _ _ _ _ (tx_refines_wrapping _ _ _ (MarkBroadcast_law _))) in H as [H _].
  apply pending_marked in H. specialize (Ho (st_tick s) (st_db s)). unfold visible in H. lia.
Qed.

Lemma sendAndFinalize_shrinks chain w : shrinks (sendAndFinalize chain w).
Proof.
  unfold sendAndFinalize.
  apply shrinks_bind; [intros k c s r s' _ _ Hk [= _ <-]; done|]. intros db.
  apply shrinks_bind; [intros k; auto with preserves|]. intros _.
  apply shrinks_bind; [intros k; apply preserves_try, preserves_external, Send_external|].
  intros [u|e]; simpl; [apply finalize_shrinks|].
  destruct (negb _); [by intros c s a s' _ _ ?%throw_Ok|apply finalize_shrinks].
Qed.

Lemma signAndSend_shrinks chain w nonce : shrinks (signAndSend chain w nonce).
Proof.
  unfold signAndSend.
  apply shrinks_bind; [intros k; apply preserves_wrapping, preserves_quiet, Build_quiet|].
  intros [dg unsignedTx]. apply shrinks_bind; [intros k; auto with preserves|]. intros _.
  apply shrinks_bind; [intros k; apply preserves_wrapping, preserves_external, Sign_external|]. intros sig.
  apply shrinks_bind; [intros k; auto with preserves|]. intros [tx h].
  apply shrinks_bind; [|intros _; apply sendAndFinalize_shrinks].
  intros k. eapply preserves_in_tx; [apply tx_refines_wrapping, RecordSignedTx_law|].
  intros db u db' Hk HR. eapply step_bound; [done|]. by eapply step_record.
Qed.

(** The use case returns its error as a value. *)
Lemma SignAndBroadcast_Ok chain live c s e s' :
  SignAndBroadcastWithdrawal_Execute chain live c s ≠ (Err e, s').
Proof.
  unfold SignAndBroadcastWithdrawal_Execute, bind, try, ret. intros H. repeat case_match; simplify_eq.
Qed.

(** A run that reports it claimed or resumed a withdrawal, with no error, has one
    less left to broadcast. *)
Lemma Execute_shrinks chain live c s s' :
  cx_tx c = None → others_approve_nothing c →
  SignAndBroadcastWithdrawal_Execute chain live c s = (Ok (true, None), s') →
  (pending (st_db s') < pending (st_db s))%nat.
Proof.
  intros Hc Ho H. unfold SignAndBroadcastWithdrawal_Execute in H.
  apply bind_Ok in H as (listed & s1 & Hl & H).
  apply (never_grows_le _ _ _ _ _ (λ k, preserves_try _ _ (preserves_in_tx_read _ _ _))) in Hl; [|done..].
  assert (∀ (m : M unit) s1 s', shrinks m → (let! r := try m in ret (true, err_of r)) c s1 = (Ok (true, None), s') →
    (pending (st_db s') < pending (st_db s1))%nat) as Hlast.
  { intros m s2 s2' Hm H2. apply bind_Ok in H2 as (r & s3 & Hr%try_Ok & H2).
    apply ret_Ok in H2 as [[= E] ->]. destruct r as [u|]; [|done]. by eapply Hm. }
  destruct listed as [[|w ws]|e]; [| |by apply ret_Ok in H as [? _]].
  - destruct (negb live); [by apply ret_Ok in H as [? _]|].
    apply bind_Ok in H as (o & s2 & Hcl & H).
    assert (never_grows (claim chain)) as Hg.
    { intros k. apply claim_preserves. intros; eauto using step_bound, broadcast_step. }
    apply (never_grows_le _ _ _ _ _ (λ k, preserves_try _ _ (Hg k))) in Hcl; [|done..].
    destruct o as [[[w n]|]|e]; [|by apply ret_Ok in H as [? _]..].
    apply Hlast in H; [lia|apply signAndSend_shrinks].
  - destruct (w_Nonce w) as [n|]; [|by apply ret_Ok in H as [? _]].
    apply Hlast in H; [lia|]. unfold resume. destruct (String.eqb _ _);
      [apply signAndSend_shrinks|apply sendAndFinalize_shrinks].
Qed.

(** C39: the drain loop ends. Whatever faults happen, as long as other sessions approve
    nothing meanwhile, the broadcaster's inner loop makes at most one more iteration
    than there are withdrawals left to broadcast; each success moved one on. *)
Theorem drain_terminates fuel chain live k c s r s' :
  cx_tx c = None → others_approve_nothing c → (pending (st_db s) < fuel)%nat →
  drain fuel chain live k c s = (r, s') →
  (∃ n, r = Ok (Some (k + n)%nat) ∧ (n + pending (st_db s') <= pending (st_db s))%nat).
Proof.
  intros Hc Ho. revert k s r s'. induction fuel as [|fuel IH]; intros k s r s' Hf H; [lia|]. simpl in H.
  assert (never_grows (SignAndBroadcastWithdrawal_Execute chain live)) as Hg.
  { intros b. apply SignAndBroadcast_preserves; [..|done|done]; intros; eauto using step_bound, broadcast_step. }
  unfold bind in H. destruct (SignAndBroadcastWithdrawal_Execute chain live c s) as [[[claimed err]|e] s1] eqn:E.
  - pose proof (never_grows_le _ _ _ _ _ Hg Hc Ho E) as Hle.
    destruct err as [e|]; [injection H as <- <-; exists 0%nat; split; [f_equal; f_equal; lia|lia]|].
    destruct claimed; [|injection H as <- <-; exists 0%nat; rewrite Nat.add_0_r; split; [done|lia]].
    apply Execute_shrinks in E; [|done..].
    apply IH in H as (n & -> & Hn); [|lia]. exists (S n).
    replace (k + S n)%nat with (S k + n)%nat by lia. split; [done|lia].
  - by apply SignAndBroadcast_Ok in E.
Qed.
End terminates.
