(* ===== verification/Roles.v ===== *)
(** * The roles' startup

    cmd/walletd/main.go: [runWatcher], [runBroadcaster] and [runAPI] from their
    configuration to their loops. What they dial, the advisory lock and the migration
    runner are operations of the environment ([Startup]), secp256k1 and KMS the
    library the two signers are built from ([Custody]); a database is
    already migrated when [Migrate] runs on it. [n] bounds the endless loops. *)

From Stdlib Require Import ZArith Lia Ascii.
From stdpp Require Import prelude strings gmap.
From S2P Require Import Prelude GoStd Duration Sha256 Domain Store Effects Ledger Transfers Withdrawals.
From S2P Require Import WithdrawalSpecs Ports Broadcast Deposits Customers CreateWithdrawals Idempotency.
From S2P Require Import Handlers ApiJson Router History Watcher System ApiFrame Scanner FeeEstimation EvmBroadcaster.
From S2P Require Import Signers Config Walletd.

(** ** What the roles ask of the outside *)

(** An [ethclient.Client], as the deployer check uses it. *)
Record chainClient := mkChainClient { cc_ChainID : M Z; cc_CodeAt : bytes → M bytes }.

Class Startup := {
  DialContext : string → M chainClient;
  pgxpool_New : string → M unit;
  pool_Acquire : M unit;
  pg_try_advisory_lock : Z → M bool;
  NewPostgresSessionLocker : M unit;
  goose_NewProvider : M unit;
  provider_Up : M unit;
}.

(** The AWS configuration and KMS, encoding/asn1's SubjectPublicKeyInfo, decred's
    secp256k1 and Keccak-256, as the two signers use them. *)
Class Custody := {
  LoadDefaultConfig : M unit;
  kms_GetPublicKey : string → M bytes;
  kms_Sign : string → bytes → M bytes;
  asn1_spki : bytes → result bytes;
  PublicKey : Type;
  ParsePubKey : bytes → result PublicKey;
  SerializeUncompressed : PublicKey → bytes;
  RecoverCompact : bytes → bytes → option PublicKey;
  IsEqual : PublicKey → PublicKey → bool;
  PrivateKey : Type;
  PrivKeyBytesLen : nat;
  SetByteSlice_overflow : bytes → bool;
  PrivKeyFromBytes : bytes → PrivateKey;
  IsZero : PrivateKey → bool;
  PubKey : PrivateKey → PublicKey;
  SignCompact : PrivateKey → bytes → bytes;
  LegacyKeccak256 : bytes → bytes;
}.

(** None of it touches the tables of a migrated database. *)
Class StartupLaws (S : Startup) := {
  Dial_external url : external (DialContext url);
  ChainID_external url c s client s' : DialContext url c s = (Ok client, s') → external (cc_ChainID client);
  CodeAt_external url c s client s' b : DialContext url c s = (Ok client, s') → external (cc_CodeAt client b);
  pool_external dsn : external (pgxpool_New dsn);
  Acquire_external : external pool_Acquire;
  lock_external k : external (pg_try_advisory_lock k);
  locker_external : external NewPostgresSessionLocker;
  provider_external : external goose_NewProvider;
  Up_external : external provider_Up;
}.
Class CustodyLaws (C : Custody) := {
  LoadDefaultConfig_external : external LoadDefaultConfig;
  GetPublicKey_external keyID : external (kms_GetPublicKey keyID);
  kms_Sign_external keyID digest : external (kms_Sign keyID digest);
}.

Section roles.
Context `{GE : GoEthereum} (Getenv : string → string) `{St : Startup} `{Cu : Custody}.

(** ** deployer.go, migrate.go and the adapters' constructors *)

Definition connecting (chain : EvmChain) (e : error) : error :=
  wrap ("connect to " +:+ ch_Name chain +:+ " RPC " +:+ ch_RPCURL chain) e.

Definition VerifyDeployerPresence (chain : EvmChain) : M unit :=
  let! client := map_err (connecting chain) (DialContext (ch_RPCURL chain)) in
  verifyDeployerPresence (ch_Name chain) (ch_ChainID chain) (cc_ChainID client) (cc_CodeAt client)
    canonicalDeployerAddress.

Definition Migrate : M unit :=
  do! wrapping "create goose session locker" NewPostgresSessionLocker in
  do! wrapping "create goose provider" goose_NewProvider in
  wrapping "run migrations" provider_Up.

(** The dial of [NewScanner], [NewBroadcaster] and, per chain, [NewFeeEstimator]; the
    client is the class instance the adapter's model is over. *)
Definition NewScanner (chain : EvmChain) : M unit :=
  do! map_err (connecting chain) (DialContext (ch_RPCURL chain)) in ret tt.
Definition NewBroadcaster (chain : EvmChain) : M unit :=
  do! map_err (connecting chain) (DialContext (ch_RPCURL chain)) in ret tt.
Definition NewFeeEstimator (chains : list EvmChain) : M unit :=
  forM_ chains (λ chain, do! map_err (connecting chain) (DialContext (ch_RPCURL chain)) in ret tt).

(** ** runWatcher *)

Section watcher.
Context `{Scan : ChainScanner}.

(** The best-effort report of the cursors: whatever happens, the watcher goes on. *)
Definition report_cursors (chain : Chain) : M unit :=
  let! _ := try (in_tx_read "begin startup cursor-read transaction"
    (let! observed := DepositRepository_Cursor chain CursorTierObserved in
     let! safe := DepositRepository_Cursor chain CursorTierSafe in
     let! finalized := DepositRepository_Cursor chain CursorTierFinalized in
     ret (observed, safe, finalized))) in
  ret tt.

(** The lock of a role, held by a connection of its own for the process's life. *)
Definition take_lock (role chainName : string) (lockID : option Z) : M unit :=
  do! wrapping ("acquire postgres connection for " +:+ role +:+ " lock") pool_Acquire in
  let! id := lift_option lockID (ErrText ("panic: " +:+ role +:+ "LockID: unknown chain " +:+ chainName)) in
  let! lockAcquired := wrapping ("acquire " +:+ role +:+ " advisory lock for chain " +:+ chainName)
    (pg_try_advisory_lock id) in
  assert! lockAcquired else ErrText ("another " +:+ role +:+ " process already holds the advisory lock") in
  ret tt.

(** [chainFlag] is the parsed [--chain]. *)
Definition watcher_startup (chainFlag : result string) : M WatcherConfig :=
  let! chainName := wrapping "parse watcher flags" (lift_result chainFlag) in
  let! cfg := lift_result (watcher_config Getenv chainName) in
  do! wrapping "verify canonical CREATE2 deployer presence" (VerifyDeployerPresence (wc_Chain cfg)) in
  do! wrapping "connect to postgres" (pgxpool_New (wc_DSN cfg)) in
  do! take_lock "watcher" chainName (watcherLockID chainName) in
  do! wrapping "run migrations" Migrate in
  ret cfg.

Definition watcher_serve (cfg : WatcherConfig) (n : nat) : M (list (result ExecuteResult)) :=
  let chainName := ch_Name (wc_Chain cfg) in
  do! wrapping "upsert configured USDC address into token registry"
    (TokenRegistry_UpsertToken chainName (wc_USDC cfg) AssetUSDC) in
  do! wrapping "connect chain scanner" (NewScanner (wc_Chain cfg)) in
  do! report_cursors chainName in
  watcher_loop n chainName.

Definition runWatcher (chainFlag : result string) (n : nat) : M (list (result ExecuteResult)) :=
  let! cfg := watcher_startup chainFlag in watcher_serve cfg n.
End watcher.

(** ** runBroadcaster *)

Section broadcaster.
Context `{B : TransactionBroadcaster}.

(** The signer of the backend the environment names. *)
Definition withdrawal_signer (backend : SignerBackend) : M Signer :=
  match backend with
  | BackendSoftware privateKeyHex =>
      let! (key, signerAddress) := wrapping "construct software signer"
        (lift_result (NewSigner PrivateKey PrivKeyBytesLen SetByteSlice_overflow PrivKeyFromBytes IsZero
           (λ key, SerializeUncompressed (PubKey key)) LegacyKeccak256 privateKeyHex)) in
      ret (software_Signer PrivateKey SignCompact key)
  | BackendKMS keyID =>
      let! (pub, signerAddress) := wrapping "construct KMS signer"
        (do! wrapping "load AWS config" LoadDefaultConfig in
         kms_newSigner PublicKey asn1_spki ParsePubKey SerializeUncompressed LegacyKeccak256
           kms_GetPublicKey keyID) in
      ret (kms_Signer PublicKey RecoverCompact IsEqual (kms_Sign keyID) pub)
  end.

Definition broadcaster_startup (chainFlag : result string) : M (BroadcasterConfig * Signer) :=
  let! chainName := wrapping "parse broadcaster flags" (lift_result chainFlag) in
  let! cfg := lift_result (broadcaster_config Getenv chainName) in
  do! wrapping "connect to postgres" (pgxpool_New (bc_DSN cfg)) in
  do! take_lock "broadcaster" chainName (broadcasterLockID chainName) in
  do! wrapping "run migrations" Migrate in
  do! wrapping "connect transaction broadcaster" (NewBroadcaster (bc_Chain cfg)) in
  let! backend := lift_result (signer_backend Getenv) in
  let! signer := withdrawal_signer backend in
  ret (cfg, signer).

Definition runBroadcaster (chainFlag : result string) (n fuel : nat) : M (list Tick) :=
  let! (cfg, G) := broadcaster_startup chainFlag in
  broadcaster_loop (G:=G) n fuel (ch_Name (bc_Chain cfg)) (bc_LivenessStaleness cfg)
    (bc_StuckThreshold cfg) None.
End broadcaster.

(** ** runAPI *)

(** The codecs, SHA-256 and HMAC are the real ones; the process's time zone, the UUID
    library ([uuid_Parse] is also its [UnmarshalText]) and the router are parameters. *)
Section api.
Context `{DD : DepositAddressDeriver} `{FE : FeeEstimator}.
Context (uuid_Parse : string → option bytes) (uuid_String : bytes → string).
Context (zone : Z → Z) (route : Request → Endpoint).

Definition api_startup : M ApiConfig :=
  let! cfg := lift_result (api_config Getenv) in
  do! forM_ (ac_Chains cfg) (λ chain,
    wrapping "verify canonical CREATE2 deployer presence" (VerifyDeployerPresence chain)) in
  do! wrapping "connect to postgres" (pgxpool_New (ac_DSN cfg)) in
  do! wrapping "run migrations" Migrate in
  do! wrapping "connect fee estimator RPC clients" (NewFeeEstimator (ac_Chains cfg)) in
  ret cfg.

(** The handler stack: authentication, idempotency, router. *)
Definition api_handler (cfg : ApiConfig) (r : Request) : M StoredResponse :=
  AuthMiddleware encode_problem (validTokens Getenv)
    (api_request (TxR := postgres_TransactionRepository zone uuid_Parse (HMAC (ac_CursorSigningKey cfg)))
       uuid_Parse uuid_String encode_problem (encode_payload uuid_String zone)
       (decode_transfer uuid_Parse) (decode_withdrawal uuid_Parse) decode_approve sha256 route) r.

(** Serving [requests]: a panic is contained in its request. *)
Definition runAPI (requests : list Request) : M (list (result StoredResponse)) :=
  let! cfg := api_startup in mapM (λ r, try (api_handler cfg r)) requests.
End api.

(** ** Nothing happens before the guards hold *)

Context `{!StartupLaws St} `{!CustodyLaws Cu}.

(** The endpoint of [chain] reported its id, and the deployer has code there. *)
Definition verified (c : Ctx) (chain : EvmChain) : Prop :=
  ∃ client s1 s2 s3 s4 s5 code,
    DialContext (ch_RPCURL chain) c s1 = (Ok client, s2) ∧
    cc_ChainID client c s2 = (Ok (ch_ChainID chain), s3) ∧
    cc_CodeAt client canonicalDeployerAddress c s4 = (Ok code, s5) ∧ code ≠ EmptyString.

Definition locked (c : Ctx) (id : Z) : Prop := ∃ s1 s2, pg_try_advisory_lock id c s1 = (Ok true, s2).

(** [external], when the continuation is external for the values that are answered. *)
Lemma external_bind_Ok {A X} (m : M A) (k : A → M X) :
  external m → (∀ c s a s', m c s = (Ok a, s') → external (k a)) → external (bind m k).
Proof.
  intros Hm Hk c s r s' H. unfold bind in H. destruct (m c s) as [[a|e] s1] eqn:E.
  - pose proof (Hm _ _ _ _ E) as (E1 & E2 & E3). apply (Hk _ _ _ _ E) in H as (H1 & H2 & H3).
    split_and!; congruence.
  - simplify_eq. by apply Hm in E.
Qed.

Lemma VerifyDeployerPresence_external chain : external (VerifyDeployerPresence chain).
Proof.
  unfold VerifyDeployerPresence. apply external_bind_Ok; [apply external_map_err, Dial_external|].
  intros c s client s' H%map_err_Ok. unfold verifyDeployerPresence.
  apply external_bind; [eapply external_map_err, ChainID_external; exact H|]. intros id.
  destruct (negb _); [apply external_throw|]. apply external_bind.
  - eapply external_map_err, CodeAt_external; exact H.
  - intros code. destruct (_ =? _)%nat; [apply external_throw|apply external_ret].
Qed.

Lemma VerifyDeployerPresence_Ok chain c s u s' :
  VerifyDeployerPresence chain c s = (Ok u, s') → verified c chain.
Proof.
  unfold VerifyDeployerPresence, verifyDeployerPresence. intros H. m_inv. bool_to_prop.
  match goal with H1 : cc_ChainID _ _ _ = (Ok ?z, _) |- _ => assert (z = ch_ChainID chain) as -> by lia end.
  eexists _, _, _, _, _, _, _. split_and!; try eassumption.
  match goal with H1 : (_ =? _)%nat = false |- _ => apply Nat.eqb_neq in H1 end. by intros ->.
Qed.

Lemma Migrate_external : external Migrate.
Proof.
  unfold Migrate, wrapping. auto 8 using locker_external, provider_external, Up_external with external.
Qed.

Lemma take_lock_external role ch id : external (take_lock role ch id).
Proof.
  unfold take_lock, wrapping. pose proof lock_external. pose proof Acquire_external.
  apply external_bind; [auto with external|]. intros _. apply external_bind; [auto with external|]. intros k.
  apply external_bind; [auto with external|]. intros []; auto with external.
Qed.

Lemma take_lock_Ok role ch id c s u s' :
  take_lock role ch id c s = (Ok u, s') → ∃ k, id = Some k ∧ locked c k.
Proof. unfold take_lock. intros H. m_inv. eexists. split; [done|]. by eexists _, _. Qed.

Lemma watcher_startup_external flag : external (watcher_startup flag).
Proof.
  unfold watcher_startup, wrapping. pose proof VerifyDeployerPresence_external. pose proof pool_external.
  pose proof take_lock_external. pose proof Migrate_external.
  repeat (apply external_bind; [auto with external|intros ?]). auto with external.
Qed.

(** What a watcher checked before its first write. *)
Definition watcher_ready (c : Ctx) (flag : result string) (cfg : WatcherConfig) : Prop :=
  ∃ chain id, flag = Ok chain ∧ watcher_config Getenv chain = Ok cfg ∧
    watcherLockID chain = Some id ∧ locked c id ∧ verified c (wc_Chain cfg).

Lemma watcher_startup_Ok flag c s cfg s' :
  watcher_startup flag c s = (Ok cfg, s') → watcher_ready c flag cfg.
Proof.
  unfold watcher_startup. intros H. m_inv.
  match goal with H1 : VerifyDeployerPresence _ _ _ = _ |- _ => apply VerifyDeployerPresence_Ok in H1 end.
  match goal with H1 : take_lock _ _ _ _ _ = _ |- _ => apply take_lock_Ok in H1 as (id & ? & ?) end.
  by eexists _, id.
Qed.

Lemma withdrawal_signer_external backend : external (withdrawal_signer backend).
Proof.
  pose proof LoadDefaultConfig_external. pose proof GetPublicKey_external.
  pose proof kms_newSigner_external. unfold withdrawal_signer, wrapping. destruct backend.
  - apply external_bind; [auto with external|intros []; auto with external].
  - apply external_bind; [auto with external|intros []; auto with external].
Qed.

(** Whichever backend it is, signing only signs. *)
Lemma withdrawal_signer_laws backend c s G s' :
  withdrawal_signer backend c s = (Ok G, s') → SignerLaws G.
Proof.
  unfold withdrawal_signer. destruct backend; intros ([key address] & s1 & _ & [-> _]%ret_Ok)%bind_Ok.
  - apply software_SignerLaws.
  - apply kms_SignerLaws, kms_Sign_external.
Qed.

Lemma broadcaster_startup_external flag : external (broadcaster_startup flag).
Proof.
  unfold broadcaster_startup, NewBroadcaster, wrapping. pose proof Dial_external. pose proof pool_external.
  pose proof take_lock_external. pose proof Migrate_external. pose proof withdrawal_signer_external.
  repeat (apply external_bind; [auto with external|intros ?]). auto with external.
Qed.

Lemma external_forM {A} (l : list A) f : (∀ x, external (f x)) → external (forM_ l f).
Proof. intros Hf. induction l; simpl; auto with external. Qed.

Lemma api_startup_external : external api_startup.
Proof.
  unfold api_startup, NewFeeEstimator, wrapping. pose proof VerifyDeployerPresence_external.
  pose proof pool_external. pose proof Dial_external. pose proof Migrate_external.
  repeat (apply external_bind; [auto using external_forM with external|intros ?]); auto with external.
Qed.

(** What a broadcaster checked before its first claim: the custody backend is the one
    the operator named. *)
Definition broadcaster_ready (c : Ctx) (flag : result string) (cfg : BroadcasterConfig) (G : Signer) : Prop :=
  ∃ chain id backend s1 s2, flag = Ok chain ∧ broadcaster_config Getenv chain = Ok cfg ∧
    broadcasterLockID chain = Some id ∧ locked c id ∧
    signer_backend Getenv = Ok backend ∧ withdrawal_signer backend c s1 = (Ok G, s2).

Lemma broadcaster_startup_Ok flag c s cfg G s' :
  broadcaster_startup flag c s = (Ok (cfg, G), s') → broadcaster_ready c flag cfg G.
Proof.
  unfold broadcaster_startup. intros H. m_inv. simplify_eq.
  match goal with H1 : take_lock _ _ _ _ _ = _ |- _ => apply take_lock_Ok in H1 as (id & ? & ?) end.
  by eexists _, id, _, _, _.
Qed.
End roles.
