(* ===== verification/RoleGuarantees.v ===== *)
(** * What the three binaries guarantee, from main

    A role writes nothing before its guards hold; whatever happens it takes the
    database only along the abstract system's steps; and a request changes it only
    when it is authenticated and one of the API's mutating operations. *)

From Stdlib Require Import ZArith Lia.
From stdpp Require Import prelude strings gmap.
From S2P Require Import Prelude GoStd Duration Sha256 Domain Store Effects Ledger Transfers Withdrawals.
From S2P Require Import WithdrawalSpecs Ports Broadcast Deposits Customers CreateWithdrawals Idempotency.
From S2P Require Import Handlers ApiJson Router History Watcher System ApiFrame Scanner FeeEstimation EvmBroadcaster.
From S2P Require Import Signers Config Walletd Roles.

(** A run that starts with an external part either fails in it, and then nothing
    happened, or goes on from where it started. *)
Lemma external_then {A X} (m : M A) (k : A → M X) c s r s' :
  external m → bind m k c s = (r, s') →
  (∃ e, r = Err e ∧ st_db s' = st_db s ∧ st_trace s' = st_trace s) ∨
  ∃ a s1, m c s = (Ok a, s1) ∧ st_db s1 = st_db s ∧ st_trace s1 = st_trace s ∧ k a c s1 = (r, s').
Proof.
  intros Hm H. unfold bind in H. destruct (m c s) as [[a|e] s1] eqn:E.
  - right. apply Hm in E as (E1 & E2 & _). eauto 6.
  - left. simplify_eq. apply Hm in E as (E1 & E2 & _). eauto.
Qed.

(** ** Startup *)

Section startup.
Context `{GE : GoEthereum} (Getenv : string → string) `{St : Startup} `{!StartupLaws St}.
Context `{Cu : Custody} `{!CustodyLaws Cu}.
Context `{Scan : ChainScanner} `{B : TransactionBroadcaster}.

(** C28: guarded startup. A watcher or broadcaster that stops before it is ready leaves
    the database and the network as they were. One that serves holds its chain's
    advisory lock and accepted its configuration; the watcher's endpoint answered with
    the configured chain id and has code at the deployer's address; the broadcaster
    signs with the backend its environment names. *)
Theorem roles_start_guarded flag n fuel c s r s' r' s'' :
  (runWatcher Getenv flag n c s = (r, s') →
     (∃ e, r = Err e ∧ st_db s' = st_db s ∧ st_trace s' = st_trace s) ∨
     ∃ cfg s1, watcher_ready Getenv c flag cfg ∧ st_db s1 = st_db s ∧ st_trace s1 = st_trace s ∧
       watcher_serve cfg n c s1 = (r, s')) ∧
  (runBroadcaster Getenv flag n fuel c s = (r', s'') →
     (∃ e, r' = Err e ∧ st_db s'' = st_db s ∧ st_trace s'' = st_trace s) ∨
     ∃ cfg G s1, broadcaster_ready Getenv c flag cfg G ∧ st_db s1 = st_db s ∧ st_trace s1 = st_trace s ∧
       broadcaster_loop (G:=G) n fuel (ch_Name (bc_Chain cfg)) (bc_LivenessStaleness cfg)
         (bc_StuckThreshold cfg) None c s1 = (r', s'')).
Proof.
  pose proof (watcher_startup_external Getenv flag) as Hw.
  pose proof (broadcaster_startup_external Getenv flag) as Hb. split; intros H.
  - apply (external_then _ _ _ _ _ _ Hw) in H as [H|(cfg & s1 & H1 & ? & ? & H)]; [by left|].
    right. apply watcher_startup_Ok in H1. by eexists cfg, s1.
  - apply (external_then _ _ _ _ _ _ Hb) in H as [H|([cfg G] & s1 & H1 & ? & ? & H)]; [by left|].
    right. apply broadcaster_startup_Ok in H1. by eexists cfg, G, s1.
Qed.
End startup.

(** ** The abstract system *)

Section refinement.
Context `{GE : GoEthereum} (Getenv : string → string) `{St : Startup} `{!StartupLaws St}.
Context `{Cu : Custody} `{!CustodyLaws Cu}.
Context `{Scan : ChainScanner} `{!ChainScannerLaws Scan}.
Context `{B : TransactionBroadcaster} `{!TransactionBroadcasterLaws B}.
Context `{DD : DepositAddressDeriver} `{FE : FeeEstimator}.
Context (Fee_quiet : ∀ ch a z, quiet (EstimateFee ch a z)).
Context (uuid_Parse : string → option bytes) (uuid_String : bytes → string).
Context (zone : Z → Z) (route : Request → Endpoint).

Let handle := api_handler Getenv uuid_Parse uuid_String zone route.
Let serve_api := runAPI Getenv uuid_Parse uuid_String zone route.

Section closed.
Context (I : DB → Prop) (I_commit : ∀ db db', I db → commit db db' → I db').

Lemma preserves_bind_Ok {A X} (m : M A) (k : A → M X) :
  preserves I m → (∀ c s a s', m c s = (Ok a, s') → preserves I (k a)) → preserves I (bind m k).
Proof.
  intros Hm Hk c s r s' Hc Ho HI H. unfold bind in H. destruct (m c s) as [[a|e] s1] eqn:E.
  - pose proof (Hk _ _ _ _ E) as Hka. apply (Hka c s1 r s'); [done..| |done]. by eapply Hm.
  - simplify_eq. by eapply Hm.
Qed.

Lemma runWatcher_preserves flag n : preserves I (runWatcher Getenv flag n).
Proof.
  apply preserves_bind; [by apply preserves_external, watcher_startup_external|]. intros cfg.
  unfold watcher_serve. apply preserves_bind; [by apply preserves_wrapping, UpsertToken_preserves|].
  intros _. apply preserves_bind.
  { apply preserves_wrapping, preserves_external. unfold NewScanner. pose proof Dial_external.
    apply external_bind; [auto with external|intros; auto with external]. }
  intros _. apply preserves_bind; [|intros _; by apply watcher_loop_preserves].
  unfold report_cursors. apply preserves_bind; [apply preserves_try, preserves_in_tx_read|auto with preserves].
Qed.

Lemma runBroadcaster_preserves flag n fuel : preserves I (runBroadcaster Getenv flag n fuel).
Proof.
  apply preserves_bind_Ok; [by apply preserves_external, broadcaster_startup_external|].
  intros c s [cfg G] s' (chain & id & backend & s1 & s2 & H)%broadcaster_startup_Ok. destruct_and! H.
  assert (SignerLaws G) by (by eapply withdrawal_signer_laws).
  by apply broadcaster_loop_preserves.
Qed.

Lemma handle_preserves cfg r : preserves I (handle cfg r).
Proof.
  unfold handle, api_handler, AuthMiddleware.
  destruct (bearerToken _); [|auto with preserves]. apply preserves_if; [auto with preserves|].
  apply api_request_preserves; try done.
  - apply history_reads.
  - apply deposits_reads.
  - intros id n cur. simpl. unfold TransactionRepository_ListCustomerTransactions, scan_big. preserves_tac.
  - intros id. simpl. unfold DepositReader_ListCustomerDeposits, scan_big. preserves_tac.
Qed.

Lemma serve_api_preserves requests : preserves I (serve_api requests).
Proof.
  apply preserves_bind.
  - by apply preserves_external, api_startup_external.
  - intros cfg. apply preserves_mapM. intros r. apply preserves_try, handle_preserves.
Qed.
End closed.

(** C11: the binaries refine the abstract system. Whatever their environment, whatever
    faults and lost acknowledgements happen and however other processes' steps
    interleave, each of the three binaries, from main, takes a reachable database to a
    reachable one. *)
Theorem binaries_refine_commits c s :
  cx_tx c = None → (∀ n db, reachable db → reachable (env_other (cx_env c) n db)) → reachable (st_db s) →
  (∀ flag n, reachable (st_db (snd (runWatcher Getenv flag n c s)))) ∧
  (∀ flag n fuel, reachable (st_db (snd (runBroadcaster Getenv flag n fuel c s)))) ∧
  (∀ requests, reachable (st_db (snd (serve_api requests c s)))).
Proof.
  intros Hc Ho HR.
  assert (∀ A (m : M A), preserves reachable m → reachable (st_db (snd (m c s)))) as Hm.
  { intros A m Hm. destruct (m c s) as [r s'] eqn:E. by eapply Hm. }
  split_and!; intros; apply Hm.
  - apply runWatcher_preserves, reachable_commit.
  - apply runBroadcaster_preserves, reachable_commit.
  - apply serve_api_preserves, reachable_commit.
Qed.
End refinement.

(** ** The API's requests *)

Definition mutating (ep : Endpoint) : Prop :=
  match ep with
  | EpCreateCustomer | EpCreateTransfer _ | EpCreateWithdrawal _ | EpApproveWithdrawal _ => True
  | _ => False
  end.

Section requests.
Context `{GE : GoEthereum} `{RT : OapiRuntime} (Getenv : string → string).
Context `{DD : DepositAddressDeriver} `{FE : FeeEstimator}.
Context (Fee_quiet : ∀ ch a z, quiet (EstimateFee ch a z)).
Context (uuid_Parse : string → option bytes) (uuid_String : bytes → string).
Context (zone : Z → Z).
Context (redirect_to : Request → string → list WriterCall).

Let operates := operation uuid_String.
Let handle := api_handler Getenv uuid_Parse uuid_String zone (mux_route uuid_String encode_problem redirect_to).

Lemma operation_mutating r ep :
  operates r ep → isMutatingMethod (rq_Method r) = true → mutating ep ∧ rq_Method r = "POST".
Proof.
  assert (∀ l, reads_from r l → isMutatingMethod (rq_Method r) = true → False) as Hr
    by (by intros l [[-> | ->] _]).
  intros [] Hm; try (by exfalso; eapply Hr); split; try done; by repeat match goal with H : posts_to _ _ |- _ => destruct H end.
Qed.
Let api_server cfg := server uuid_Parse uuid_String encode_problem (encode_payload uuid_String zone)
  (decode_transfer uuid_Parse) (decode_withdrawal uuid_Parse) decode_approve
  (TxR := postgres_TransactionRepository zone uuid_Parse (HMAC (ac_CursorSigningKey cfg)))
  (mux_route uuid_String encode_problem redirect_to).

(** A request without a mutating method only reads. *)
Lemma reads_change_nothing cfg r c s res s' :
  cx_tx c = None → isMutatingMethod (rq_Method r) = false →
  IdempotencyMiddleware encode_problem sha256 (api_server cfg) r c s = (res, s') →
  others_steps c (st_db s) (st_db s').
Proof.
  intros Hc Hm H. unfold IdempotencyMiddleware in H. rewrite Hm in H. simpl in H.
  assert (preserves (others_steps c (st_db s)) (api_server cfg r)) as HP.
  { apply server_preserves; [done|..].
    - intros id n cur. simpl. unfold TransactionRepository_ListCustomerTransactions, scan_big. preserves_tac.
    - intros id. simpl. unfold DepositReader_ListCustomerDeposits, scan_big. preserves_tac. }
  unfold bind in H. destruct (api_server cfg r c s) as [[calls|e] s1] eqn:E; injection H as _ <-;
    (eapply (HP c s); [done| |done|exact E]); intros n db Hdb; eapply rtc_r; eauto.
Qed.

(** C12: guarded API. A request leaves the database as it is, up to what others do,
    unless it carries a configured bearer token and is, by its method, path and
    parameters, one of the API's mutating operations: then what it adds is one step of
    the abstract system and the answer stored under its idempotency key. *)
Theorem api_changes_guarded cfg r c s res s' :
  cx_tx c = None → (∀ p, 300 <= status_of (redirect_to r p) < 400) →
  handle cfg r c s = (res, s') →
  others_steps c (st_db s) (st_db s') ∨
  ∃ token ep db1 db2 hash resp,
    token ∈ validTokens Getenv ∧ rq_Authorization r = "Bearer " +:+ token ∧
    operates r ep ∧ mutating ep ∧ rq_Method r = "POST" ∧ rq_IdempotencyKey r ≠ EmptyString ∧
    others_steps c (st_db s) db1 ∧ api_act db1 db2 ∧
    st_db s' = set_idempotency_keys (t_idempotency_keys db2 ++ [key_row r hash resp]) db2.
Proof.
  intros Hc Hred H. unfold handle, api_handler, AuthMiddleware in H.
  destruct (bearerToken _) as [token|] eqn:Et; [|by left; injection H as _ <-].
  destruct (tokenIsValid _ token) eqn:Ev; simpl in H; [|by left; injection H as _ <-].
  apply tokenIsValid_spec in Ev. apply bearerToken_spec in Et as [Et _].
  destruct (isMutatingMethod (rq_Method r)) eqn:Hm; [|left; by eapply reads_change_nothing].
  destruct (String.eqb_spec (rq_IdempotencyKey r) EmptyString) as [Ek|Ek].
  { left. unfold api_request, IdempotencyMiddleware in H. rewrite Hm, Ek in H. by injection H as _ <-. }
  apply IdempotencyMiddleware_effects in H as [[H _]|(resp & HC & _)]; [by left| |done|done].
  destruct HC as (db1 & c1 & s1 & calls & s2 & body & Ho & Hc1 & _ & E1 & _ & Hn & -> & Hst & _ & ->).
  right. assert (api_act (st_db s1) (st_db s2)) as Ha.
  { eapply server_acts; [exact Fee_quiet|apply history_reads|apply deposits_reads|by eexists|exact Hn|exact Hst]. }
  unfold server in Hn. destruct (decide (is_operation (mux_route uuid_String encode_problem redirect_to r))) as [Hop|Hop].
  - pose proof (mux_route_operation _ _ _ _ _ Hop eq_refl) as Hr.
    destruct (operation_mutating r _ Hr Hm) as [Hmut Hp].
    rewrite E1 in Ha. by eexists token, _, db1, (st_db s2), _, _.
  - exfalso. destruct (mux_route _ _ _ r) as [| | | | | | | | | |calls'] eqn:Er; try (by apply Hop).
    change (ret calls' c1 s1 = (Ok calls, s2)) in Hn. injection Hn as <- _. apply mux_route_refused in Er; [|done].
    change (200 <= status_of calls' < 300) in Hst.
    destruct Er as [Hin|?]; [|lia]. repeat (apply elem_of_cons in Hin as [Hin|Hin]); [lia..|by apply elem_of_nil in Hin].
Qed.
End requests.
