(* ===== verification/Progress.v ===== *)
(** * The broadcaster makes progress

    Total correctness of the broadcaster's inner loop: without faults and over a node
    and a signer that answer, every approved or signed withdrawal of the chain ends
    up broadcast. [total c s m Q] says that [m] succeeds from [s] and its result and
    final state satisfy [Q]. *)

From Stdlib Require Import ZArith Lia.
From stdpp Require Import prelude strings sorting gmap list_numbers.
From S2P Require Import Prelude GoStd Domain Store Effects Ledger Withdrawals WithdrawalSpecs.
From S2P Require Import WithdrawalInvariant Ports Broadcast BroadcastProofs System Walletd.

(** ** Total correctness *)

Definition total {A} (c : Ctx) (s : St) (m : M A) (Q : A → St → Prop) : Prop :=
  ∃ a s', m c s = (Ok a, s') ∧ Q a s'.

Section total_rules.
Context (c : Ctx).
Implicit Types (s : St).

Lemma total_ret {A} s (a : A) Q : Q a s → total c s (ret a) Q.
Proof. intros HQ. by exists a, s. Qed.

Lemma total_bind {A B} s (m : M A) (k : A → M B) P Q :
  total c s m P → (∀ a s1, P a s1 → total c s1 (k a) Q) → total c s (bind m k) Q.
Proof.
  intros (a & s1 & E & HP) Hk. destruct (Hk a s1 HP) as (b & s2 & E2 & HQ).
  exists b, s2. by rewrite (bind_run _ _ _ _ _ _ E).
Qed.

Lemma total_impl {A} s (m : M A) (P Q : A → St → Prop) :
  total c s m P → (∀ a s', P a s' → Q a s') → total c s m Q.
Proof. intros (a & s' & E & HP) H. exists a, s'. auto. Qed.

Lemma total_wrapping {A} s ctx (m : M A) Q : total c s m Q → total c s (wrapping ctx m) Q.
Proof. intros (a & s' & E & HQ). exists a, s'. by rewrite (wrapping_run _ _ _ _ _ _ E). Qed.

Lemma total_try {A} s (m : M A) (Q : result A → St → Prop) :
  total c s m (λ a s', Q (Ok a) s') → total c s (try m) Q.
Proof. intros (a & s' & E & HQ). exists (Ok a), s'. unfold try. by rewrite E. Qed.

Lemma total_bind_try {A B} s (m : M A) (k : result A → M B) P Q :
  total c s m P → (∀ a s1, P a s1 → total c s1 (k (Ok a)) Q) → total c s (bind (try m) k) Q.
Proof.
  intros (a & s1 & E & HP) Hk. apply total_bind with (P := λ r s', r = Ok a ∧ s' = s1); [|by intros ? ? [-> ->]; auto].
  apply total_try. by exists a, s1.
Qed.

Lemma total_lift_option {A} s (o : option A) e a Q : o = Some a → Q a s → total c s (lift_option o e) Q.
Proof. intros ->. apply total_ret. Qed.

Lemma total_lift_result {A} s (r : result A) a Q : r = Ok a → Q a s → total c s (lift_result r) Q.
Proof. intros ->. apply total_ret. Qed.

Lemma total_emit s ev Q : Q tt (log_event ev s) → total c s (emit ev) Q.
Proof. intros HQ. by eexists _, _. Qed.

Lemma total_now s Q : (∀ t, Q t (bump s)) → total c s now Q.
Proof. intros HQ. by eexists _, _. Qed.

End total_rules.

Section total_transactions.
Context (c : Ctx) (Hq : fault_free c).
Implicit Types (s : St).

(** A body that commits, without faults. *)
Lemma total_in_tx_out {A} s on_begin on_commit (body : M (TxOutcome A)) Q :
  total (fst (begin_tx c s)) (snd (begin_tx c s)) body (λ o s2,
    match o with
    | TxCommit a => st_aborted s2 = false ∧ Q a (end_tx (st_db s2) s2)
    | TxRollback a => Q a (end_tx (visible c s) s2)
    end) →
  total c s (in_tx_out on_begin on_commit body) Q.
Proof.
  intros (o & s2 & E & HQ). unfold in_tx_out, total. rewrite Hq.
  unfold begin_tx in *. cbn [fst snd] in E. rewrite E. destruct o as [a|a]; cbn [st_db] in *.
  - destruct HQ as [-> HQ]. rewrite Hq. eauto.
  - eauto.
Qed.

Lemma total_in_tx {A} s cb cc (body : M A) Q :
  total (fst (begin_tx c s)) (snd (begin_tx c s)) body
    (λ a s2, st_aborted s2 = false ∧ Q a (end_tx (st_db s2) s2)) →
  total c s (in_tx cb cc body) Q.
Proof.
  intros Hb. apply total_in_tx_out. eapply total_bind; [exact Hb|].
  intros a s1 H1. by apply total_ret.
Qed.

(** What a successful run of [m] satisfies anyway can be added. *)
Lemma total_and {A} s (m : M A) (P Q : A → St → Prop) :
  total c s m P → (∀ a s', m c s = (Ok a, s') → Q a s') → total c s m (λ a s', P a s' ∧ Q a s').
Proof. intros (a & s' & E & HP) HQ. exists a, s'. auto. Qed.
End total_transactions.

(** ** Statements of a transaction *)

(** A transaction body at [s], leaving the time no earlier and the transaction alive. *)
Definition alive (s s' : St) : Prop := st_aborted s' = false ∧ (st_tick s <= st_tick s')%nat.

Section in_transaction.
Context (c : Ctx) (Hq : fault_free c) (Htx : runs_in_tx c).

Lemma total_exec {A} s (f : DB → pgres (A * DB)) a db' Q :
  st_aborted s = false → f (st_db s) = PgOk (a, db') →
  Q a (set_db db' (bump s)) → total c s (tx_exec f) Q.
Proof. intros Ha E HQ. eexists _, _. split; [|exact HQ]. by rewrite tx_exec_run, E. Qed.

Lemma total_query {A} s (f : DB → A) Q :
  st_aborted s = false → Q (f (st_db s)) (bump s) → total c s (tx_query f) Q.
Proof. intros Ha HQ. eexists _, _. split; [by apply tx_query_run|done]. Qed.

Lemma find_by_key {R} (key : R → string) (l : list R) x :
  NoDup (map key l) → x ∈ l → List.find (λ r, bool_decide (key r = key x)) l = Some x.
Proof.
  induction l as [|y l IH]; intros Hnd Hx; [by apply elem_of_nil in Hx|]. simpl.
  apply NoDup_cons in Hnd as [Hy Hnd]. apply elem_of_cons in Hx as [->|Hx].
  - by rewrite bool_decide_true.
  - rewrite bool_decide_false; [by apply IH|]. intros E. apply Hy. rewrite E. by apply list_elem_of_fmap_2.
Qed.

Lemma rows_affected_elem {R} (P : R → Prop) `{∀ r, Decision (P r)} l r :
  r ∈ l → P r → rows_affected P l ≠ 0%nat.
Proof.
  intros Hr HP E. apply nil_length_inv in E. apply (not_elem_of_nil r). rewrite <-E.
  by apply list_elem_of_filter.
Qed.

Lemma total_lock s row Q :
  st_aborted s = false → NoDup (map wr_id (t_withdrawals (st_db s))) → row ∈ t_withdrawals (st_db s) →
  Q row (bump s) → total c s (lock_withdrawal (wr_id row)) Q.
Proof.
  intros Ha Hnd Hr HQ. unfold lock_withdrawal. eapply total_bind.
  - apply total_wrapping, total_query; [done|]. unfold find_withdrawal.
    rewrite (find_by_key wr_id) by done. exact (conj eq_refl eq_refl : (λ o s1, o = Some row ∧ s1 = bump s) _ _).
  - intros o s1 [-> ->]. by apply total_ret.
Qed.

Lemma total_update {R} s (get : DB → list R) set (P : R → Prop) `{∀ r, Decision (P r)} f r Q :
  st_aborted s = false → r ∈ get (st_db s) → P r →
  (∀ n, n ≠ 0%nat → Q n (set_db (set (update_where P f (get (st_db s))) (st_db s)) (bump s))) →
  total c s (tx_update_rows get set P f) Q.
Proof.
  intros Ha Hr HP HQ. eapply total_exec; [done|reflexivity|]. apply HQ. by eapply rows_affected_elem.
Qed.

(** *** RecordSignedTx, MarkBroadcast and ClaimApprovedWithdrawal succeed *)

Lemma total_record s row a h tx :
  st_aborted s = false → wd_ok (st_db s) → row ∈ t_withdrawals (st_db s) →
  wr_status row = WithdrawalStatusSigned → a ∈ t_broadcast_attempts (st_db s) → ba_withdrawal a = wr_id row →
  total c s (RecordSignedTx (wr_id row) h tx)
    (λ _ s', alive s s' ∧ recorded (wr_id row) h tx (st_db s) tt (st_db s')).
Proof.
  intros Ha Hw Hr Hs Hat Ea. apply total_and.
  2:{ intros [] s' E. by apply (RecordSignedTx_law (wr_id row) h tx c s tt s' Htx E). }
  simpl. unfold WithdrawalRepository_RecordSignedTx.
  eapply total_bind; [apply (total_lock s row (λ r s1, r = row ∧ s1 = bump s)); try done; apply Hw|].
  intros r s1 [-> ->]. rewrite decide_False by auto.
  eapply total_bind; [apply total_wrapping, (total_update _ _ _ _ _ a (λ n s1, n ≠ 0%nat ∧ alive s s1)); try done|].
  - intros n Hn. split; [done|]. split; simpl; [done|lia].
  - intros n s1 [Hn H1]. rewrite decide_False by done. by apply total_ret.
Qed.

Lemma total_mark s row a h :
  st_aborted s = false → wd_ok (st_db s) → row ∈ t_withdrawals (st_db s) →
  wr_status row = WithdrawalStatusSigned → a ∈ t_broadcast_attempts (st_db s) → ba_withdrawal a = wr_id row →
  ba_tx_hash a = Some h → h ≠ EmptyString →
  total c s (MarkBroadcast (wr_id row))
    (λ _ s', alive s s' ∧ marked_broadcast (wr_id row) (st_db s) tt (st_db s')).
Proof.
  intros Ha Hw Hr Hs Hat Ea Eh Hh. apply total_and.
  2:{ intros [] s' E. by apply (MarkBroadcast_law (wr_id row) c s tt s' Htx E). }
  simpl. unfold WithdrawalRepository_MarkBroadcast.
  eapply total_bind; [apply (total_lock s row (λ r s1, r = row ∧ s1 = bump s)); try done; apply Hw|].
  intros r s1 [-> ->]. rewrite decide_False by auto.
  eapply total_bind.
  { apply total_wrapping, total_query; [done|]. unfold find_attempt. rewrite <-Ea.
    rewrite (find_by_key ba_withdrawal); [|apply Hw|done].
    exact (conj eq_refl eq_refl : (λ o s1, o = Some a ∧ s1 = bump (bump s)) _ _). }
  intros o s1 [-> ->]. eapply total_bind; [by apply (total_lift_option _ _ _ _ a (λ x s1, x = a ∧ s1 = bump (bump s)))|].
  intros x s1 [-> ->]. rewrite Eh. simpl. apply String.eqb_neq in Hh as ->.
  eapply total_bind; [by apply (total_now _ _ (λ _ s1, s1 = bump (bump (bump s))))|]. intros t s1 ->.
  eapply total_bind; [apply total_wrapping, (total_update _ _ _ _ _ row (λ n s1, n ≠ 0%nat ∧ alive s s1)); try done|].
  - intros n Hn. split; [done|]. split; simpl; [done|lia].
  - intros n s1 [Hn H1]. rewrite decide_False by done. by apply total_ret.
Qed.

(** Ids not yet used by an attempt, from the present tick on. *)
Definition fresh_attempts (s : St) : Prop :=
  ∀ n, (st_tick s <= n)%nat → env_uuid (cx_env c) n ∉ map ba_id (t_broadcast_attempts (st_db s)).

(** The chain's nonce row, with room for one more nonce. *)
Definition nonce_room (chain : Chain) (db : DB) (nn : NonceRow) : Prop :=
  find_nonce db chain = Some nn ∧ is_bigint (nn_next nn) ∧ is_bigint (nn_next nn + 1).

Lemma total_advance s chain nn now Q :
  st_aborted s = false → NoDup (map nn_chain (t_chain_nonce_state (st_db s))) →
  nonce_room chain (st_db s) nn →
  (∀ n, n ≠ 0%nat → Q n (set_db (set_chain_nonce_state
     (update_where (λ r, nn_chain r = chain) (nn_advance now) (t_chain_nonce_state (st_db s))) (st_db s)) (bump s))) →
  total c s (advance_nonce chain now) Q.
Proof.
  intros Ha Hnd (Hf & _ & Hb) HQ. apply find_nonce_Some in Hf as [Hnn <-].
  eapply total_exec; [done| |apply HQ].
  - rewrite pg_require_true; [reflexivity|]. apply Forall_forall. intros r Hr E.
    by rewrite (key_unique nn_chain _ nn Hnd Hnn r Hr E).
  - by eapply rows_affected_elem.
Qed.

Lemma total_claim s chain row nn :
  st_aborted s = false → wd_ok (st_db s) → oldest_approved chain (st_db s) = Some row →
  nonce_room chain (st_db s) nn → known_chain chain → fresh_attempts s →
  total c s (ClaimApprovedWithdrawal chain) (λ o s',
    (alive s s' ∧ ∃ t, (st_tick s <= t < st_tick s')%nat ∧ is_Some o ∧
       map ba_id (t_broadcast_attempts (st_db s')) =
         map ba_id (t_broadcast_attempts (st_db s)) ++ [env_uuid (cx_env c) t]) ∧
    claimed chain (st_db s) o (st_db s')).
Proof.
  intros Ha Hw Ho Hn Hch Hfresh. apply total_and.
  2:{ intros o s' E. by apply (ClaimApprovedWithdrawal_law chain c s o s' Htx E). }
  pose proof (oldest_approved_Some _ _ _ Ho) as (Hrow & Ech & Est).
  pose proof (wk_rows _ Hw row Hrow) as Hok. unfold row_ok in Hok. rewrite Est in Hok.
  simpl. unfold WithdrawalRepository_ClaimApprovedWithdrawal.
  eapply total_bind; [apply total_wrapping, total_query; [done|]; rewrite Ho;
    exact (conj eq_refl eq_refl : (λ o s1, o = Some row ∧ s1 = bump s) _ _)|]. intros o s1 [-> ->].
  rewrite scan_big_eq. eapply total_bind; [by apply total_ret with (Q := λ _ s1, s1 = bump s)|]. intros amount s1 ->.
  eapply total_bind; [apply total_wrapping, total_query; [done|]; simpl; rewrite (proj1 Hn);
    exact (conj eq_refl eq_refl : (λ o s1, o = Some nn ∧ s1 = bump (bump s)) _ _)|]. intros o s1 [-> ->]. simpl.
  eapply total_bind; [by apply total_ret with (Q := λ x s1, x = nn_next nn ∧ s1 = bump (bump s))|]. intros x s1 [-> ->].
  eapply total_bind; [by apply total_now with (Q := λ _ s1, s1 = bump (bump (bump s)))|]. intros now s1 ->.
  eapply total_bind.
  { apply total_wrapping, total_advance with (nn := nn); [done|apply Hw|done|]. intros n Hnz.
    exact (conj Hnz eq_refl : (λ n s1, n ≠ 0%nat ∧ s1 = _) _ _). }
  intros n s1 [Hnz ->]. rewrite decide_False by done.
  eapply total_bind; [eexists _, _; split; [by apply newUUID_run|];
    exact (conj eq_refl eq_refl : (λ i s1, i = _ ∧ s1 = _) _ _)|]. intros i s1 [-> ->].
  cbn [st_tick bump set_db st_db].
  eapply total_bind.
  { apply total_wrapping. eapply total_exec; [done| |exact (eq_refl : (λ _ s1, s1 = _) tt _)].
    unfold insert_broadcast_attempt. cbn [st_db set_db bump].
    rewrite !pg_require_true; [reflexivity|..]; cbn; try done; try apply Hn.
    - by apply list_elem_of_fmap_2.
    - apply Hok.
    - apply Hfresh. lia. }
  intros _ s1 ->. eapply total_bind.
  { apply total_wrapping, total_update with (r := row); [done|done|by split|]. intros k Hk.
    exact (conj Hk eq_refl : (λ n s1, n ≠ 0%nat ∧ s1 = _) _ _). }
  intros k s1 [Hk ->]. rewrite decide_False by done. apply total_ret. split; [split; simpl; [done|lia]|].
  eexists. split; [|split; [done|cbn; by rewrite map_app]]. simpl. lia.
Qed.
End in_transaction.

(** ** Over a node and a signer that answer *)

Section progress.
Context `{G : Signer} `{!SignerLaws G} `{B : TransactionBroadcaster} `{!TransactionBroadcasterLaws B}.
Context (c : Ctx) (Hq : fault_free c) (Hc : cx_tx c = None) (chain : Chain).

(** A call that succeeds whenever it is made, with a result in [P]. *)
Definition answers {A} (m : M A) (P : A → Prop) : Prop :=
  ∀ s, total c s m (λ a s', P a ∧ (st_tick s <= st_tick s')%nat).

(** The node takes the transaction, or already has it. *)
Definition sendable (tx : bytes) : Prop :=
  ∀ s, ∃ r s', SendRawTransaction chain tx c s = (r, s') ∧ (st_tick s <= st_tick s')%nat ∧
    match r with Ok _ => True | Err e => isAlreadyKnownError (Some e) = true end.

(** The withdrawal can be built, signed, assembled and sent. *)
Definition cooperates (w : WithdrawalRow) : Prop :=
  ∀ n, answers (BuildUnsignedWithdrawal chain (wr_asset w) n (wr_destination w) (wr_amount w))
    (λ p, answers (Sign chain p.1) (λ sig, ∃ tx h,
       AssembleSignedTx p.2 sig = Ok (tx, h) ∧ h ≠ EmptyString ∧ sendable tx)).

(** An attempt is not signed yet, or holds a transaction that can be sent. *)
Definition attempt_ready (a : AttemptRow) : Prop :=
  (ba_signed_tx a = None) ∨
  ∃ tx h, ba_signed_tx a = Some (hex_EncodeToString tx) ∧ tx ≠ EmptyString ∧
    ba_tx_hash a = Some h ∧ h ≠ EmptyString ∧ sendable tx.

Record ready (s : St) : Prop := {
  rd_wd : wd_ok (st_db s);
  rd_nonce : is_Some (find_nonce (st_db s) chain);
  rd_room : Z.of_nat (length (t_withdrawals (st_db s))) < 2 ^ 63 - 1;
  rd_fresh : fresh_attempts c s;
  rd_attempts : ∀ a, a ∈ t_broadcast_attempts (st_db s) → ba_chain a = chain → attempt_ready a;
  rd_node : ∀ w, w ∈ t_withdrawals (st_db s) → wr_chain w = chain → cooperates w;
}.

(** The tables the pipeline works on. *)
Definition same_pipeline (db db' : DB) : Prop :=
  t_withdrawals db' = t_withdrawals db ∧ t_broadcast_attempts db' = t_broadcast_attempts db ∧
  t_chain_nonce_state db' = t_chain_nonce_state db.

(** Other sessions leave them alone, and keep the state machine's invariant. *)
Definition others_idle : Prop :=
  ∀ n db, same_pipeline db (env_other (cx_env c) n db) ∧ (wd_ok db → wd_ok (env_other (cx_env c) n db)).

Lemma ready_same s s' :
  ready s → same_pipeline (st_db s) (st_db s') → wd_ok (st_db s') → (st_tick s <= st_tick s')%nat → ready s'.
Proof.
  intros [] (E1 & E2 & E3) Hw Ht. constructor; rewrite ?E1, ?E2; try done.
  - unfold find_nonce in *. by rewrite E3.
  - intros n Hn. rewrite E2. apply rd_fresh0. lia.
Qed.

Context (Ho : others_idle) (Huuid : ∀ n m, env_uuid (cx_env c) n = env_uuid (cx_env c) m → n = m).

Lemma others_same db db' : others_only c db db' → same_pipeline db db' ∧ (wd_ok db → wd_ok db').
Proof.
  unfold others_only. rewrite Hc. induction 1 as [|d1 d2 d3 [n ->] _ [(E1 & E2 & E3) IHw]]; [done|].
  destruct (Ho n d1) as [(F1 & F2 & F3) Hw]. split; [|auto]. split_and!; congruence.
Qed.

Lemma ready_others s s' :
  ready s → others_only c (st_db s) (st_db s') → (st_tick s <= st_tick s')%nat → ready s'.
Proof. intros Hr [Hs Hw]%others_same Ht. apply (ready_same s); [done..|apply Hw, Hr|done]. Qed.

Lemma ready_begin s : ready s → ready (snd (begin_tx c s)).
Proof.
  intros Hr. destruct (Ho (st_tick s) (st_db s)) as [Hs Hw].
  apply (ready_same s); [done..|apply Hw, Hr|simpl; lia].
Qed.

(** A remote call keeps everything the broadcaster relies on. *)
Lemma total_answers {A} s (m : M A) P :
  ready s → quiet m → answers m P →
  total c s m (λ a s', P a ∧ ready s' ∧ same_pipeline (st_db s) (st_db s')).
Proof.
  intros Hr Hm Ha. destruct (Ha s) as (a & s' & E & HP & Ht). exists a, s'. split; [done|].
  destruct (Hm _ _ _ _ E) as (Hs & _ & _). split_and!; [done|by apply (ready_others s)|by apply others_same].
Qed.

(** There is room for a nonce: a chain has at most one per withdrawal. *)
Lemma ready_room s : ready s → ∃ nn, nonce_room chain (st_db s) nn.
Proof.
  intros [Hw [nn En] Hroom _ _ _]. exists nn. pose proof (find_nonce_Some _ _ _ En) as [Hin Ech].
  destruct (wk_nonces _ Hw nn Hin) as [Hpos Hseq].
  assert (nn_next nn <= Z.of_nat (length (t_withdrawals (st_db s)))) as Hle.
  { assert (length (filter (λ a, ba_chain a = nn_chain nn) (t_broadcast_attempts (st_db s)))
            = Z.to_nat (nn_next nn)) as El.
    { rewrite <-(length_map ba_nonce), Hseq, length_seqZ. done. }
    pose proof (length_filter (λ a, ba_chain a = nn_chain nn) (t_broadcast_attempts (st_db s))).
    assert (length (t_broadcast_attempts (st_db s)) <= length (t_withdrawals (st_db s)))%nat; [|lia].
    rewrite <-(length_map ba_withdrawal (t_broadcast_attempts _)), <-(length_map wr_id (t_withdrawals _)).
    apply submseteq_length, NoDup_submseteq; [apply Hw|]. intros i (a & -> & Ha)%list_elem_of_fmap.
    destruct (wk_attempt _ Hw a Ha) as (w & Hwi & <- & _). by apply list_elem_of_fmap_2. }
  split; [done|]. unfold is_bigint. lia.
Qed.

(** *** Marking and recording, in their transactions *)

(** The signed withdrawal [row] and its attempt. *)
Definition in_flight (db : DB) (row : WithdrawalRow) (a : AttemptRow) : Prop :=
  row ∈ t_withdrawals db ∧ wr_chain row = chain ∧ wr_status row = WithdrawalStatusSigned ∧
  a ∈ t_broadcast_attempts db ∧ ba_withdrawal a = wr_id row ∧ ba_chain a = chain.

Lemma in_flight_same db db' row a : same_pipeline db db' → in_flight db row a → in_flight db' row a.
Proof. intros (E1 & E2 & _). unfold in_flight. by rewrite E1, E2. Qed.

Lemma begin_in_tx s : runs_in_tx (fst (begin_tx c s)).
Proof. by eexists. Qed.
Lemma begin_fault_free s : fault_free (fst (begin_tx c s)).
Proof. exact Hq. Qed.

(** What a withdrawal's update keeps of its row. *)
Lemma ready_updated s s' P `{∀ r, Decision (P r)} f :
  ready s → wd_ok (st_db s') →
  (∀ r, wr_chain (f r) = wr_chain r ∧ wr_asset (f r) = wr_asset r ∧
        wr_destination (f r) = wr_destination r ∧ wr_amount (f r) = wr_amount r) →
  t_withdrawals (st_db s') = update_where P f (t_withdrawals (st_db s)) →
  is_Some (find_nonce (st_db s') chain) → fresh_attempts c s' →
  (∀ a, a ∈ t_broadcast_attempts (st_db s') → ba_chain a = chain → attempt_ready a) → ready s'.
Proof.
  intros [] Hw Hf E Hn Hfr Hat. constructor; try done.
  - rewrite E. unfold update_where. by rewrite length_map.
  - rewrite E. intros w (r & -> & Hr)%list_elem_of_fmap. destruct (Hf r) as (E1 & E2 & E3 & E4).
    case_decide; [rewrite E1; unfold cooperates; rewrite E2, E3, E4|]; by apply rd_node0.
Qed.

Lemma total_finalize s w row a h :
  ready s → in_flight (st_db s) row a → w_ID w = wr_id row →
  ba_tx_hash a = Some h → h ≠ EmptyString →
  total c s (finalize w) (λ _ s', ready s').
Proof.
  intros Hr Hf Ew Eh Hh. pose proof (ready_begin s Hr) as Hr1.
  apply (in_flight_same _ (st_db (snd (begin_tx c s)))) in Hf as (Hrow & Ech & Est & Ha & Ea & _); [|apply Ho].
  unfold finalize. apply total_in_tx; [done|]. apply total_wrapping. rewrite Ew.
  eapply total_impl; [by apply (total_mark _ (begin_fault_free s) (begin_in_tx s) _ row a h), Hh; try apply Hr1|].
  intros [] s2 [[Hal Ht] Hm]. split; [done|].
  pose proof (wd_ok_marked _ (rd_wd _ Hr1) _ _ _ Hm) as Hw2.
  destruct Hm as (row' & a' & h' & now & _ & _ & _ & _ & _ & _ & _ & E).
  apply (ready_same s2); [|done|done|simpl; lia].
  refine (ready_updated _ _ (λ r, wr_id r = wr_id row ∧ wr_status r = WithdrawalStatusSigned)
    (wr_broadcast h' now) Hr1 Hw2 _ _ _ _ _); unfold fresh_attempts, find_nonce in *; rewrite ?E; try done.
  - apply Hr1.
  - intros n Hn. apply (rd_fresh _ Hr1). lia.
  - apply Hr1.
Qed.

Lemma total_send s w row a h :
  ready s → in_flight (st_db s) row a → w_ID w = wr_id row →
  ba_tx_hash a = Some h → h ≠ EmptyString → sendable (w_SignedTx w) →
  total c s (sendAndFinalize chain w) (λ _ s', ready s').
Proof.
  intros Hr Hf Ew Eh Hh Hs. unfold sendAndFinalize.
  eapply total_bind; [by eexists _, _; split; [|exact (eq_refl : (λ _ s1, s1 = s) (st_db s) s)]|]. intros db s1 ->.
  eapply total_bind; [by apply total_emit with
    (Q := λ _ s1, s1 = log_event (EvSend (w_ID w) chain (w_SignedTx w) db) s)|]. intros _ s1 ->.
  destruct (Hs (log_event (EvSend (w_ID w) chain (w_SignedTx w) db) s)) as (r & s2 & E & Ht & Hres).
  pose proof (Send_external _ _ _ _ _ _ E) as (Edb & _ & _).
  assert (ready s2 ∧ in_flight (st_db s2) row a) as [Hr2 Hf2].
  { split; [|by rewrite Edb]. apply (ready_same s); [done|by rewrite Edb|rewrite Edb; apply Hr|done]. }
  eapply total_bind; [eexists r, s2; split; [unfold try; by rewrite E|exact (conj eq_refl eq_refl : (λ x s1, x = r ∧ s1 = s2) _ _)]|].
  intros x s1 [-> ->]. destruct r as [u|e]; cbn [err_of]; [|rewrite Hres; cbn [negb]]; by eapply total_finalize.
Qed.

(** [in_flight] after the signed bytes were recorded. *)
Lemma total_record_tx s cb cc ctx row a h tx :
  ready s → in_flight (st_db s) row a → h ≠ EmptyString → tx ≠ EmptyString → sendable tx →
  total c s (in_tx cb cc (wrapping ctx (RecordSignedTx (wr_id row) h (hex_EncodeToString tx))))
    (λ _ s', ready s' ∧ in_flight (st_db s') row (ba_record h (hex_EncodeToString tx) a)).
Proof.
  intros Hr Hf Hh Hx Hs. pose proof (ready_begin s Hr) as Hr1.
  apply (in_flight_same _ (st_db (snd (begin_tx c s)))) in Hf as (Hrow & Ech & Est & Ha & Ea & Eac); [|apply Ho].
  apply total_in_tx; [done|]. apply total_wrapping.
  eapply total_impl; [by apply (total_record _ (begin_fault_free s) (begin_in_tx s) _ row a); try apply Hr1|].
  intros [] s2 [[Hal Ht] Hm]. split; [done|].
  pose proof (wd_ok_recorded _ (rd_wd _ Hr1) _ _ _ _ _ Hm) as Hw2.
  destruct Hm as (row' & a' & _ & _ & _ & _ & _ & E). cbn [st_db end_tx].
  assert (ba_record h (hex_EncodeToString tx) a ∈ t_broadcast_attempts (st_db s2)) as Ha2.
  { rewrite E. cbn. apply list_elem_of_fmap. exists a. by rewrite decide_True. }
  split; [|rewrite E in *; by split_and!].
  destruct Hr1 as [_ Hn Hroom Hfr Hat Hnode]. constructor; cbn [st_db end_tx]; try by rewrite E.
  - done.
  - intros n Hn'. cbn [st_db end_tx]. rewrite E. cbn. rewrite (update_where_map _ _ ba_id) by done.
    apply Hfr. simpl in *. lia.
  - rewrite E. cbn. intros b (b' & -> & Hb)%list_elem_of_fmap. case_decide as Eb; [|by apply Hat].
    intros _. right. exists tx, h. by split_and!.
Qed.

Lemma total_signAndSend s w nonce row a :
  ready s → in_flight (st_db s) row a → w_ID w = wr_id row → w_Asset w = wr_asset row →
  w_DestinationAddress w = wr_destination row → w_Amount w = wr_amount row →
  total c s (signAndSend chain w nonce) (λ _ s', ready s').
Proof.
  intros Hr Hf E1 E2 E3 E4. unfold signAndSend. rewrite E1, E2, E3, E4.
  assert (cooperates row) as Hco by (apply (rd_node _ Hr); apply Hf).
  eapply total_bind; [apply total_wrapping, total_answers; [done|apply Build_quiet|apply Hco]|].
  intros [d u] s1 (Hsig & Hr1 & Hs1). cbn [fst snd] in Hsig.
  pose proof (in_flight_same _ _ _ _ Hs1 Hf) as Hf1.
  eapply total_bind; [by apply total_emit with (Q := λ _ s', s' = log_event (EvSign (wr_id row) d) s1)|]. intros _ s1' ->.
  eapply total_bind.
  { apply total_wrapping, total_answers; [|apply quiet_external, Sign_external|exact Hsig].
    by apply (ready_same s1); [..|apply Hr1|]. }
  intros sig s2 ((tx & h & Easm & Hh & Hsend) & Hr2 & Hs2). apply (in_flight_same _ (st_db s2)) in Hf1; [|done].
  eapply total_bind; [apply total_wrapping, (total_lift_result _ _ _ _ (λ p s', p = (tx, h) ∧ s' = s2) Easm); done|].
  intros p s2' [-> ->].
  eapply total_bind; [by apply (total_record_tx s2 _ _ _ row a); try done; eapply Assemble_nonempty|].
  intros _ s3 [Hr3 Hf3]. by eapply (total_send s3 _ row _ h).
Qed.

(** *** The listing, the claim and the use case *)

(** What is left to do on the chain. *)
Definition to_do (db : DB) (w : WithdrawalRow) : Prop :=
  w ∈ t_withdrawals db ∧ wr_chain w = chain ∧ to_broadcast w.

Lemma signed_rows_elem db row a :
  wd_ok db → (row, a) ∈ signed_rows chain db → in_flight db row a.
Proof.
  intros Hw Hin. unfold signed_rows in Hin. apply elem_of_take in Hin as (i & Hi & _).
  apply list_elem_of_lookup_2 in Hi. unfold join_attempts in Hi.
  apply list_elem_of_bind in Hi as (w & Hm & Hin).
  apply list_elem_of_fmap in Hm as (a0 & [= -> ->] & [E Ha]%list_elem_of_filter).
  rewrite merge_sort_Permutation in Hin. apply list_elem_of_filter in Hin as [[Hch Hs] Hin].
  destruct (wk_attempt _ Hw a0 Ha) as (w' & Hw' & Ei & Ech & _).
  assert (w' = w) as -> by (apply (key_unique wr_id _ w (wk_ids _ Hw) Hin w' Hw'); congruence).
  by split_and!; try done; congruence.
Qed.

Lemma decode_ready row a :
  wr_chain row = chain → attempt_ready a →
  ∃ w, decode_signed chain (row, a) = Some w ∧ w_ID w = wr_id row ∧ w_Asset w = wr_asset row ∧
    w_DestinationAddress w = wr_destination row ∧ w_Amount w = wr_amount row ∧
    w_Nonce w = Some (ba_nonce a) ∧
    (w_SignedTx w = EmptyString ∨
     ∃ h, ba_tx_hash a = Some h ∧ h ≠ EmptyString ∧ sendable (w_SignedTx w)).
Proof.
  intros Hch [E|(tx & h & E & Htx & Eh & Hh & Hs)]; unfold decode_signed; rewrite E; simpl.
  - eexists. split_and!; [reflexivity..|by left].
  - destruct (String.eqb_spec (hex_EncodeToString tx) EmptyString) as [E0|_].
    { by destruct tx. }
    unfold TrimPrefix. rewrite hex_encode_no_0x, hex_decode_encode. eexists. split_and!; [reflexivity..|]. right. by exists h.
Qed.

Lemma signed_rows_nil db w :
  wd_ok db → signed_rows chain db = [] → w ∈ t_withdrawals db → wr_chain w = chain →
  wr_status w ≠ WithdrawalStatusSigned.
Proof.
  intros Hw E Hin Hch Hs. pose proof (wk_rows _ Hw w Hin) as Hr. unfold row_ok in Hr. rewrite Hs in Hr.
  destruct Hr as (_ & (a & Ea & Ha)%list_elem_of_fmap). symmetry in Ea.
  unfold signed_rows in E. apply (f_equal (@length _)) in E. rewrite length_take in E. cbn [length] in E.
  assert ((w, a) ∈ join_attempts db (merge_sort created_id_le
    (filter (λ r, wr_chain r = chain ∧ wr_status r = WithdrawalStatusSigned) (t_withdrawals db)))) as Hj.
  { apply list_elem_of_bind. exists w. split.
    - apply list_elem_of_fmap. exists a. split; [done|]. by apply list_elem_of_filter.
    - rewrite merge_sort_Permutation. by apply list_elem_of_filter. }
  destruct (join_attempts _ _); [by apply elem_of_nil in Hj|]. unfold listSignedWithdrawalsBatchLimit in E. simpl in E. lia.
Qed.

(** The listed withdrawals: none when nothing is signed, else the first one's row. *)
Lemma total_list s :
  ready s →
  total c s (in_tx_read "begin list-signed transaction"
               (wrapping "list signed withdrawals" (ListSignedWithdrawals chain))) (λ ws s',
    ready s' ∧
    match ws with
    | [] => ∀ w, w ∈ t_withdrawals (st_db s') → wr_chain w = chain → wr_status w ≠ WithdrawalStatusSigned
    | w :: _ => ∃ row a, in_flight (st_db s') row a ∧ attempt_ready a ∧ decode_signed chain (row, a) = Some w
    end).
Proof.
  intros Hr. pose proof (ready_begin s Hr) as Hr1. pose proof (rd_wd _ Hr1) as Hw.
  unfold in_tx_read. apply total_in_tx_out; [done|]. eapply total_bind.
  { apply total_wrapping. simpl. unfold WithdrawalRepository_ListSignedWithdrawals.
    eapply total_bind; [apply total_wrapping, total_query; [apply begin_fault_free|apply begin_in_tx|done|];
      exact (conj eq_refl eq_refl : (λ rows s1, rows = _ ∧ s1 = _) _ _)|]. intros rows s1 [-> ->].
    eapply total_bind; [eexists _, _; split; [by apply (mapM_ret (λ r, wr_amount (fst r))); intros; apply scan_big_eq|];
      exact (eq_refl : (λ _ s1, s1 = _) _ _)|]. intros _ s1 ->.
    apply total_ret. exact (conj eq_refl eq_refl : (λ ws s1, ws = _ ∧ s1 = bump _) _ _). }
  intros ws s1 [-> ->]. apply total_ret.
  assert (ready (end_tx (visible c s) (bump (snd (begin_tx c s))))) as Hr2.
  { apply (ready_same (snd (begin_tx c s))); [done..|]. simpl. lia. }
  split; [done|]. cbn [st_db end_tx begin_tx snd] in *. fold (visible c s) in *.
  destruct (signed_rows chain (visible c s)) as [|[row a] rows] eqn:E.
  { simpl. intros w Hin Hch. by eapply signed_rows_nil. }
  assert ((row, a) ∈ signed_rows chain (visible c s)) as Hin by (rewrite E; by left).
  apply (signed_rows_elem _ _ _ Hw) in Hin.
  assert (attempt_ready a) as Har by (apply (rd_attempts _ Hr1); apply Hin).
  destruct (decode_ready row a (proj1 (proj2 Hin)) Har) as (w & Ed & _). cbn [omap list_omap].
  rewrite Ed. by exists row, a.
Qed.

(** A claim when nothing is signed: it takes a withdrawal, or nothing is to do. *)
Lemma total_claim_tx s :
  ready s → known_chain chain →
  total c s (claim chain) (λ o s', ready s' ∧
    match o with
    | None => same_pipeline (st_db s) (st_db s') ∧
        ∀ w, w ∈ t_withdrawals (st_db s') → wr_chain w = chain → wr_status w ≠ WithdrawalStatusApproved
    | Some (w, n) => ∃ row a, in_flight (st_db s') row a ∧ w_ID w = wr_id row ∧ w_Asset w = wr_asset row ∧
        w_DestinationAddress w = wr_destination row ∧ w_Amount w = wr_amount row
    end).
Proof.
  intros Hr Hch. pose proof (ready_begin s Hr) as Hr1. pose proof (rd_wd _ Hr1) as Hw.
  unfold claim. apply total_in_tx_out; [done|].
  destruct (oldest_approved chain (st_db (snd (begin_tx c s)))) as [row|] eqn:Eo.
  - destruct (ready_room _ Hr1) as [nn Hn]. eapply total_bind.
    { apply total_wrapping, (total_claim _ (begin_fault_free s) (begin_in_tx s) _ chain row nn); try done.
      exact (rd_fresh _ Hr1). }
    intros o s2 [((Hal & Ht) & t & Htt & [w ->] & Eids) HC]. cbn [st_db end_tx].
    pose proof (wd_ok_claimed _ (rd_wd _ Hr1) _ _ _ HC) as Hw2.
    destruct HC as (row' & nn' & now & aid & Eo' & En' & Hins & -> & E). rewrite Eo in Eo'. injection Eo' as <-.
    apply oldest_approved_Some in Eo as (Hrow & Ech & Est).
    eapply total_bind; [by apply total_ret with (Q := λ x s', x = nn_next nn' ∧ s' = s2)|]. intros x s2' [-> ->].
    apply total_ret. split; [done|]. cbn [st_db end_tx]. split.
    + apply (ready_same s2); [|done|done|simpl; lia].
      refine (ready_updated (snd (begin_tx c s)) _ (λ r, wr_id r = wr_id row ∧ wr_status r = WithdrawalStatusApproved)
        (wr_claim (nn_next nn') now) Hr1 Hw2 _ _ _ _ _).
      * done.
      * by rewrite E.
      * rewrite E. apply find_nonce_Some in En' as [Hin <-].
        refine (ex_intro _ (nn_advance now nn') (find_by_key nn_chain _ (nn_advance now nn') _ _)).
        -- cbn [t_chain_nonce_state set_withdrawals set_broadcast_attempts set_chain_nonce_state].
           rewrite (update_where_map _ _ nn_chain) by done. apply Hw.
        -- apply list_elem_of_fmap. exists nn'. by rewrite decide_True.
      * intros n Hnt. rewrite Eids. apply not_elem_of_app. split; [apply (rd_fresh _ Hr1); lia|].
        intros E'%list_elem_of_singleton%Huuid. lia.
      * rewrite E. cbn. intros a [Ha| ->%list_elem_of_singleton]%elem_of_app; [by apply (rd_attempts _ Hr1)|].
        intros _. by left.
    + rewrite E. exists (wr_claim (nn_next nn') now row), (mkAttemptRow aid (wr_id row) chain (nn_next nn') None now None).
      split; [|done]. split_and!; try done.
      * apply list_elem_of_fmap. exists row. by rewrite decide_True.
      * cbn. set_solver.
  - eapply total_bind.
    { apply total_wrapping. change (ClaimApprovedWithdrawal chain) with (WithdrawalRepository_ClaimApprovedWithdrawal chain).
      unfold WithdrawalRepository_ClaimApprovedWithdrawal.
      eapply total_bind; [apply total_wrapping, total_query; [apply begin_fault_free|apply begin_in_tx|done|];
        exact (conj eq_refl eq_refl : (λ o s1, o = _ ∧ s1 = _) _ _)|]. intros o s1 [-> ->]. rewrite Eo.
      apply total_ret. exact (conj eq_refl eq_refl : (λ o s1, o = None ∧ s1 = _) _ _). }
    intros o s1 [-> ->]. apply total_ret. split; [apply (ready_same (snd (begin_tx c s))); [done..|simpl; lia]|].
    cbn [st_db end_tx begin_tx snd] in *. fold (visible c s) in *. split; [apply Ho|]. intros w Hin Hwc Hs.
    unfold oldest_approved in Eo. assert (w ∈ merge_sort created_id_le (filter (λ r, wr_chain r = chain ∧
      wr_status r = WithdrawalStatusApproved) (t_withdrawals (visible c s)))) as Hm.
    { rewrite merge_sort_Permutation. by apply list_elem_of_filter. }
    destruct (merge_sort _ _); [by apply elem_of_nil in Hm|done].
Qed.

(** One run of the use case: it moves a withdrawal on, or there is nothing to do. *)
Lemma total_Execute s :
  ready s → known_chain chain →
  total c s (SignAndBroadcastWithdrawal_Execute chain true) (λ p s',
    ready s' ∧ p.2 = None ∧ (p.1 = false → ∀ w, ¬ to_do (st_db s') w)).
Proof.
  intros Hr Hch. unfold SignAndBroadcastWithdrawal_Execute.
  assert (∀ s1 (m : M unit), total c s1 m (λ _ s', ready s') → total c s1 (let! r := try m in ret (true, err_of r))
    (λ p s', ready s' ∧ p.2 = None ∧ (p.1 = false → ∀ w, ¬ to_do (st_db s') w))) as Hlast.
  { intros s1 m Hm. eapply total_bind_try; [exact Hm|]. intros [] s2 H2. by apply total_ret. }
  eapply total_bind_try; [by apply total_list|]. intros [|w ws] s1 [Hr1 H1]; cbn [negb].
  - eapply total_bind_try; [by apply total_claim_tx|]. intros [[w n]|] s2 [Hr2 H2].
    + destruct H2 as (row & a & Hf & E1 & E2 & E3 & E4). apply Hlast. by eapply total_signAndSend.
    + apply total_ret. split_and!; [done..|]. intros _ w (Hin & Hwc & [Hs|Hs]).
      * by apply H2 in Hs.
      * destruct H2 as [(Ew & _) _]. rewrite Ew in Hin. by apply H1 in Hs.
  - destruct H1 as (row & a & Hf & Har & Ed).
    destruct (decode_ready row a (proj1 (proj2 Hf)) Har) as (w' & Ed' & E1 & E2 & E3 & E4 & En & Hx).
    rewrite Ed in Ed'. injection Ed' as <-. rewrite En. apply Hlast. unfold resume.
    destruct (String.eqb_spec (w_SignedTx w) EmptyString) as [E|Hne]; [by eapply total_signAndSend|].
    destruct Hx as [?|(h & Eh & Hh & Hsend)]; [done|]. by eapply total_send.
Qed.

(** A run that reports progress leaves less to broadcast (Walletd.v). *)
Lemma others_idle_approve_nothing : others_approve_nothing c.
Proof. intros n db. unfold pending. destruct (Ho n db) as [(E & _) _]. by rewrite E. Qed.

Lemma total_drain fuel k s :
  ready s → known_chain chain → (pending (st_db s) < fuel)%nat →
  total c s (drain fuel chain true k) (λ n s',
    (∃ m, n = Some (k + m)%nat) ∧ ready s' ∧ ∀ w, ¬ to_do (st_db s') w).
Proof.
  intros Hr Hch. revert k s Hr. induction fuel as [|fuel IH]; intros k s Hr Hf; [lia|]. cbn [drain].
  eapply total_bind; [apply total_and; [by apply total_Execute|]|].
  { intros p s' E. exact (E : (λ p s', SignAndBroadcastWithdrawal_Execute chain true c s = (Ok p, s')) p s'). }
  intros [claimed err] s1 [(Hr1 & Herr & Hdone) E]. cbn [fst snd] in *. subst err.
  destruct claimed; cbn [negb].
  - apply Execute_shrinks in E; [|done|apply others_idle_approve_nothing].
    eapply total_impl; [apply IH; [done|lia]|]. intros n s' [[m ->] H]. split; [|done].
    exists (S m). f_equal. lia.
  - apply total_ret. split_and!; [exists 0%nat; by rewrite Nat.add_0_r|done|by apply Hdone].
Qed.

(** A withdrawal of the chain on its way to the node. *)
Definition on_its_way (id : string) (db : DB) : Prop :=
  ∃ w, w ∈ t_withdrawals db ∧ wr_id w = id ∧ wr_chain w = chain ∧
    (to_broadcast w ∨ wr_status w = WithdrawalStatusBroadcast).

Lemma on_its_way_update id db db' P `{∀ r, Decision (P r)} f :
  (∀ r, wr_id (f r) = wr_id r ∧ wr_chain (f r) = wr_chain r ∧
        (to_broadcast (f r) ∨ wr_status (f r) = WithdrawalStatusBroadcast)) →
  t_withdrawals db' = update_where P f (t_withdrawals db) → on_its_way id db → on_its_way id db'.
Proof.
  intros Hf E (w & Hin & Ei & Ec & Hs). exists (if decide (P w) then f w else w). rewrite E. split.
  - apply list_elem_of_fmap. by exists w.
  - destruct (Hf w) as (E1 & E2 & E3). case_decide; [|done]. rewrite E1, E2. done.
Qed.

Lemma on_its_way_step id db db' : on_its_way id db → broadcast_step db db' → on_its_way id db'.
Proof.
  intros Hw Hs. revert Hw. destruct Hs as [ch w d d' (row & nn & now & aid & _ & _ & _ & _ & ->)
            |i h tx d u d' (row & a & _ & _ & _ & _ & _ & ->)
            |i d u d' (row & a & h & now & _ & _ & _ & _ & _ & _ & _ & ->)].
  - eapply (on_its_way_update _ _ _ _ (wr_claim (nn_next nn) now)); [|reflexivity].
    intros r. split_and!; [done..|]. left. by right.
  - done.
  - eapply (on_its_way_update _ _ _ _ (wr_broadcast h now)); [|reflexivity].
    intros r. split_and!; [done..|by right].
Qed.

(** C15: progress. Without faults, over a node and a signer that answer, while no
    other session touches the withdrawals, and with the watcher live (the flag that
    allows claims and resends is true), the broadcaster's inner loop ends after
    finitely many withdrawals with every approved or signed withdrawal of its chain
    broadcast, those a previous run left signed or even sent included. *)
Theorem broadcaster_progress fuel k s :
  ready s → known_chain chain → (pending (st_db s) < fuel)%nat →
  ∃ m s', drain fuel chain true k c s = (Ok (Some (k + m)%nat), s') ∧
    ∀ w, w ∈ t_withdrawals (st_db s) → wr_chain w = chain → to_broadcast w →
      with_status (st_db s') (wr_id w) WithdrawalStatusBroadcast.
Proof.
  intros Hr Hch Hf. destruct (total_drain fuel k s Hr Hch Hf) as (n & s' & E & [m ->] & Hr' & Hdone).
  exists m, s'. split; [done|]. intros w Hw Hwc Hs.
  assert (on_its_way (wr_id w) (st_db s')) as (w' & Hw' & Ei & Ec & [Ht|Hb]).
  { refine (drain_keeps (on_its_way (wr_id w)) fuel chain true k (on_its_way_step _) c s _ s' Hc _ _ E).
    - intros n db (x & Hx & H). exists x. destruct (Ho n db) as [(Ew & _) _]. by rewrite Ew.
    - exists w. auto. }
  - by destruct (Hdone w').
  - by exists w'.
Qed.
End progress.
