(* ===== verification/ApiEndToEnd.v ===== *)
(** * The API end to end

    A request from its bytes to the committed database and the bytes of the answer:
    authentication, idempotency, routing, decoding, the use case, the repository, the
    commit and the encoding, as main wires them. *)

From Stdlib Require Import ZArith Lia.
From stdpp Require Import prelude strings gmap.
From S2P Require Import Prelude GoStd Utf8 Json Rfc3339 Sha256 Domain Store Effects Ledger Transfers Withdrawals.
From S2P Require Import Ports Customers Idempotency Handlers ApiJson ApiTransfers Router History System ApiFrame Config.
From S2P Require Import Walletd Roles Progress.

(** ** A request through the idempotency middleware, without faults *)

Section middleware.
Context (encode_problem : ProblemDetails → bytes) (sha256 : bytes → bytes) (next : Handler).
Context (c : Ctx) (Hq : fault_free c) (Hc : cx_tx c = None).
(** No other session writes meanwhile. *)
Hypothesis (alone : ∀ n db, env_other (cx_env c) n db = db).
Context (r : Request) (body : bytes) (s : St).
Hypothesis (Hm : isMutatingMethod (rq_Method r) = true) (Hk : rq_IdempotencyKey r ≠ EmptyString).
Hypothesis (Hb : rq_Body r = Some body) (Hsize : Z.of_nat (String.length body) <= maxRequestBodyBytes).
Hypothesis (Hnew : find_key (st_db s) (rq_IdempotencyKey r) = None).

Let key := rq_IdempotencyKey r.
Let hash := requestHash sha256 (rq_Method r) (rq_Path r) body.

(** Shortly after the request came in. *)
Definition shortly (s1 : St) : Prop := (st_tick s <= st_tick s1 <= st_tick s + 4)%nat.

(** The handler, in any transaction that starts on this database. *)
Definition handles (P : list WriterCall → St → Prop) : Prop :=
  ∀ c1 s1, cx_env c1 = cx_env c → runs_in_tx c1 → st_db s1 = st_db s → st_aborted s1 = false → shortly s1 →
    total c1 s1 (next r) P.

Lemma lookup_fresh : total c s (Lookup key) (λ o s2, o = None ∧ st_db s2 = st_db s ∧ st_tick s2 = S (st_tick s)).
Proof.
  apply total_wrapping. unfold pool_query, step, total. rewrite Hq, Hc, !alone.
  cbn [bump st_db]. unfold key. rewrite Hnew. by eexists _, _.
Qed.

(** Everything but the transaction. *)
Lemma middleware_total Q :
  (∀ s1, st_db s1 = st_db s → st_tick s1 = S (st_tick s) →
     total c s1 (try (in_tx_out begin_failed commit_failed (run_handler encode_problem next r key hash)))
       (λ o s2, ∃ resp, o = Ok (Ok resp) ∧ Q resp s2)) →
  total c s (IdempotencyMiddleware encode_problem sha256 next r) Q.
Proof.
  intros H. unfold IdempotencyMiddleware. rewrite Hm, Hb. cbn [negb].
  rewrite (proj2 (String.eqb_neq _ _) Hk). rewrite (proj2 (Z.ltb_ge _ _) Hsize).
  eapply total_bind_try; [by apply lookup_fresh|]. intros o s1 (-> & E & Et). cbv beta iota.
  eapply total_bind; [by apply H|]. intros o s2 (resp & -> & HQ). by apply total_ret.
Qed.
Definition plain_answer (ctype : string) (status : Z) (body : bytes) : list WriterCall :=
  [SetContentType ctype; WriteHeader status; WriteBody body].

(** A handler that answers a 2xx and leaves the key table alone is committed with its
    key row. *)
Lemma middleware_commits (P : StoredResponse → DB → Prop) :
  handles (λ calls s2, ∃ ctype status text, calls = plain_answer ctype status text ∧ 200 <= status < 300 ∧
    st_aborted s2 = false ∧ find_key (st_db s2) key = None ∧ P (mkStoredResponse status text ctype) (st_db s2)) →
  total c s (IdempotencyMiddleware encode_problem sha256 next r) (λ resp s', ∃ db2, P resp db2 ∧
    st_db s' = set_idempotency_keys (t_idempotency_keys db2 ++ [key_row r hash resp]) db2).
Proof.
  intros H. apply middleware_total. intros s1 E Et. apply total_try, (total_in_tx_out c Hq).
  unfold run_handler.
  apply (total_bind _ _ _ _ (λ _ s2, s2 = log_event (EvHandled key) (snd (begin_tx c s1)))); [by apply total_emit|].
  intros [] s2 ->. eapply total_bind_try.
  { apply H; [done|by eexists|cbn; by rewrite alone|done|unfold shortly; cbn; lia]. }
  intros calls s3 (ctype & status & text & -> & Hst & Hab & Hf & HP). cbv beta iota.
  change (recorder_result (recorded_calls (plain_answer ctype status text))) with (mkStoredResponse status text ctype).
  change (rec_wroteHeader (recorded_calls (plain_answer ctype status text))) with true.
  cbn [negb sr_Status]. destruct (Z.ltb_spec status 200), (Z.leb_spec 300 status); try lia. cbn [orb].
  set (row := key_row r hash (mkStoredResponse status text ctype)).
  assert (insert_idempotency_key row (st_db s3) =
    PgOk (set_idempotency_keys (t_idempotency_keys (st_db s3) ++ [row]) (st_db s3))) as Hins.
  { unfold insert_idempotency_key. rewrite pg_require_true by (unfold is_integer; cbn; lia).
    rewrite pg_require_true; [done|]. by apply find_key_None. }
  apply (total_bind_try _ _ _ _ (λ _ s4, s4 = set_db (set_idempotency_keys (t_idempotency_keys (st_db s3) ++ [row]) (st_db s3)) (bump s3))).
  { eexists _, _. split; [|reflexivity]. cbn [Insert postgres_IdempotencyStore]. apply map_err_run.
    apply tx_insert_run; [exact Hq|by eexists|done|exact Hins]. }
  intros [] s4 ->. apply total_ret. split; [done|]. eexists. split; [reflexivity|]. exists (st_db s3). split; [exact HP|]. done.
Qed.

(** A handler that answers anything else is rolled back. *)
Lemma middleware_refuses (P : StoredResponse → Prop) :
  handles (λ calls s2, ∃ ctype status text, calls = plain_answer ctype status text ∧ (status < 200 ∨ 300 <= status) ∧
    P (mkStoredResponse status text ctype)) →
  total c s (IdempotencyMiddleware encode_problem sha256 next r) (λ resp s', P resp ∧ st_db s' = st_db s).
Proof.
  intros H. apply middleware_total. intros s1 E Et. apply total_try, (total_in_tx_out c Hq). unfold run_handler.
  apply (total_bind _ _ _ _ (λ _ s2, s2 = log_event (EvHandled key) (snd (begin_tx c s1)))); [by apply total_emit|].
  intros [] s2 ->. eapply total_bind_try.
  { apply H; [done|by eexists|cbn; by rewrite alone|done|unfold shortly; cbn; lia]. }
  intros calls s3 (ctype & status & text & -> & Hst & HP). cbv beta iota.
  change (recorder_result (recorded_calls (plain_answer ctype status text))) with (mkStoredResponse status text ctype).
  change (rec_wroteHeader (recorded_calls (plain_answer ctype status text))) with true. cbn [negb sr_Status].
  assert ((status <? 200) || (300 <=? status) = true) as ->.
  { apply orb_true_iff. rewrite Z.ltb_lt, Z.leb_le. done. }
  apply total_ret. eexists. split; [reflexivity|]. split; [exact HP|]. cbn. unfold visible. by rewrite alone.
Qed.
End middleware.

(** ** A transfer, from the request's bytes to the answer's *)

Section transfers.
Context `{GE : GoEthereum} `{RT : OapiRuntime} (Getenv : string → string).
Context `{DD : DepositAddressDeriver} `{FE : FeeEstimator}.
Context (uuid_Parse : string → option bytes) (uuid_String : bytes → string) (zone : Z → Z).
Context (redirect_to : Request → string → list WriterCall).
Hypothesis (uuid_text : ∀ id, String.length id = 16%nat →
  ValidString (uuid_String id) = true ∧ uuid_Parse (uuid_String id) = Some id).

Let handle := api_handler Getenv uuid_Parse uuid_String zone (mux_route uuid_String encode_problem redirect_to).

(** A documented transfer request of an authenticated client, under a new key. *)
Record transfer_request_ok (r : Request) (b : TransferBody) (z : Z) (key : string) (db : DB) : Prop := {
  tq_token : ∃ token, rq_Authorization r = "Bearer " +:+ token ∧ token ≠ EmptyString ∧ token ∈ validTokens Getenv;
  tq_operation : operation uuid_String r (EpCreateTransfer key);
  tq_key : rq_IdempotencyKey r ≠ EmptyString ∧ find_key db (rq_IdempotencyKey r) = None;
  tq_body : ∃ t, delimiter (runes t) ∧ rq_Body r = Some (Marshal (TransferRequest_json uuid_String b) +:+ t) ∧
    Z.of_nat (String.length (Marshal (TransferRequest_json uuid_String b) +:+ t)) <= maxRequestBodyBytes;
  tq_form : well_formed b z;
}.

Lemma authenticated_handle cfg r token c s :
  rq_Authorization r = "Bearer " +:+ token → token ≠ EmptyString → token ∈ validTokens Getenv →
  handle cfg r c s =
    api_request (TxR := postgres_TransactionRepository zone uuid_Parse (HMAC (ac_CursorSigningKey cfg)))
      uuid_Parse uuid_String encode_problem (encode_payload uuid_String zone) (decode_transfer uuid_Parse)
      (decode_withdrawal uuid_Parse) decode_approve sha256 (mux_route uuid_String encode_problem redirect_to) r c s.
Proof.
  intros Ha Hne Hin. unfold handle, api_handler, AuthMiddleware.
  rewrite (proj2 (bearerToken_spec _ token)) by done. by rewrite (proj2 (tokenIsValid_spec _ _)) by done.
Qed.

(** The steps of a request before and in its handler, generously. *)
Definition request_steps : nat := 4 + transfer_steps.

Lemma fresh_uuids_shortly c c1 s s1 :
  cx_env c1 = cx_env c → st_db s1 = st_db s → shortly s s1 →
  fresh_uuids request_steps c s → fresh_uuids transfer_steps c1 s1.
Proof.
  unfold fresh_uuids, shortly, request_steps. intros -> -> Hs (H1 & H2 & H3).
  assert (∀ n, soon transfer_steps s1 n → soon (4 + transfer_steps) s n) as Hn by (unfold soon; lia).
  split_and!; eauto.
Qed.

(** What the client reads, and what the database keeps. *)
Definition created_transfer (req : TransferRequest) (b : TransferBody) (z : Z) (db : DB)
    (resp : StoredResponse) (db2 : DB) : Prop :=
  sr_Status resp = 201 ∧ sr_ContentType resp = "application/json"%string ∧
  ∃ tr id, tf_ID tr = uuid_String id ∧ tf_Amount tr = z ∧ transferred req db tr db2 ∧
    Decode (sr_Body resp) = Some (transfer_json uuid_String b id z (tf_CreatedAt tr)).
Definition refused_transfer (r : Request) (why : sentinel) (resp : StoredResponse) : Prop :=
  sr_Status resp = fst (refusal_answer why) ∧ sr_ContentType resp = "application/problem+json"%string ∧
  ∃ detail, Decode (sr_Body resp) =
    Some (sanitize (problem_of r (fst (refusal_answer why)) (snd (refusal_answer why)) detail)).

(** C17: a transfer over the API, end to end. An authenticated, documented request under
    a new idempotency key, run to its end without faults: when core's rules refuse it,
    the client reads a problem document with that refusal's status and title, and the
    database is untouched; otherwise the transfer is committed together with its
    idempotency row, and the client reads a 201 whose JSON is that transfer. *)
Theorem transfer_served cfg r b z key c s :
  fault_free c → cx_tx c = None → (∀ n db, env_other (cx_env c) n db = db) →
  ledger_ok (st_db s) → fresh_uuids request_steps c s →
  (∀ n, ∃ id, String.length id = 16%nat ∧ env_uuid (cx_env c) n = uuid_String id) →
  (∀ n, representable 0 (env_now (cx_env c) n)) →
  transfer_request_ok r b z key (st_db s) →
  let req := transfer_request uuid_String b z key in
  ∃ resp s', handle cfg r c s = (Ok resp, s') ∧
  match transfer_refusal req (st_db s) with
  | None => ∃ db2 hash, created_transfer req b z (st_db s) resp db2 ∧
      st_db s' = set_idempotency_keys (t_idempotency_keys db2 ++ [key_row r hash resp]) db2
  | Some why => refused_transfer r why resp ∧ st_db s' = st_db s
  end.
Proof.
  intros Hq Hc Ho Hok Hf Hu Hn [(token & Ha & Hne & Hin) Hop [Hk Hnew] (t & Ht & Hb & Hsize) Hwf] req.
  rewrite (authenticated_handle cfg r token) by done. unfold api_request.
  assert (isMutatingMethod (rq_Method r) = true) as Hm.
  { inversion Hop as [| | | | |key' [Hp _] _| | | |]. by rewrite Hp. }
  pose proof (operation_mux_route _ encode_problem redirect_to _ _ Hop) as Hroute.
  set (next := server _ _ _ _ _ _ _ _).
  assert (∀ c1 s1, next r c1 s1 = customerServer_CreateTransfer uuid_Parse uuid_String encode_problem
    (encode_payload uuid_String zone) (decode_transfer uuid_Parse) key r c1 s1) as Hnext.
  { intros c1 s1. unfold next, server. by rewrite Hroute. }
  assert (∀ c1 s1, cx_env c1 = cx_env c → runs_in_tx c1 → st_db s1 = st_db s → st_aborted s1 = false → shortly s s1 →
    match transfer_refusal req (st_db s) with
    | Some why => total c1 s1 (next r) (λ calls s2, ∃ detail,
        reads_as (Ok calls) "application/problem+json" (fst (refusal_answer why))
          (sanitize (problem_of r (fst (refusal_answer why)) (snd (refusal_answer why)) detail)))
    | None => total c1 s1 (next r) (λ calls s2, ∃ tr id, tf_ID tr = uuid_String id ∧ tf_Amount tr = z ∧
        transferred req (st_db s) tr (st_db s2) ∧ st_aborted s2 = false ∧
        reads_as (Ok calls) "application/json" 201 (transfer_json uuid_String b id z (tf_CreatedAt tr)))
    end) as Hrun.
  { intros c1 s1 Ec Htx E Hab Hshort. unfold total. rewrite Hnext.
    assert (fault_free c1) as Hq1 by (intros n; by rewrite Ec).
    pose proof (fresh_uuids_shortly c c1 s s1 Ec E Hshort Hf) as Hf1.
    pose proof (create_transfer_run uuid_Parse uuid_String zone uuid_text key r b z t c1 s1 Hb Ht Hwf
      ltac:(by rewrite E) Hq1 Htx Hab Hf1 ltac:(by rewrite Ec) ltac:(by rewrite Ec)) as H.
    destruct (customerServer_CreateTransfer _ _ _ _ _ key r c1 s1) as [res s2]. cbv zeta in H. rewrite E in H. fold req in H.
    destruct (transfer_refusal req (st_db s)) as [why|].
    - destruct H as (_ & detail & (text & -> & Hd)). eexists _, s2. split; [reflexivity|]. by exists detail, text.
    - destruct H as (tr & id & H1 & H2 & H3 & H4 & (text & -> & Hd)). eexists _, s2. split; [reflexivity|].
      exists tr, id. split_and!; try done. by exists text. }
  destruct (transfer_refusal req (st_db s)) as [why|] eqn:Hw.
  - destruct (middleware_refuses encode_problem sha256 next c Hq Hc Ho r _ s Hm Hk Hb Hsize Hnew
      (refused_transfer r why)) as (resp & s' & E & HP); [|by exists resp, s'].
    intros c1 s1 Ec Htx E Hab Hshort. eapply total_impl; [by apply Hrun|].
    intros calls s2 (detail & text & [= ->] & Hd). eexists _, _, text. split; [reflexivity|]. split; [right|by split_and!; eauto].
    pose proof (refusals _ _ _ Hw) as H.
    by destruct H as [-> |[-> |[-> |[-> | ->]]]].
  - destruct (middleware_commits encode_problem sha256 next c Hq Hc Ho r _ s Hm Hk Hb Hsize Hnew
      (created_transfer req b z (st_db s))) as (resp & s' & E & db2 & HP & Es); [|by exists resp, s'; eauto].
    intros c1 s1 Ec Htx E Hab Hshort. eapply total_impl; [by apply Hrun|].
    intros calls s2 (tr & id & H1 & H2 & H3 & H4 & (text & [= ->] & Hd)). eexists _, _, text.
    split; [reflexivity|]. split_and!; try done.
    + destruct (H3 Hok) as (_ & _ & _ & _ & _ & _ & HJ & _). apply only_journal_other in HJ as (_ & _ & _ & HJ & _).
      unfold find_key. rewrite HJ. exact Hnew.
    + split; [done|]. split; [done|]. by exists tr, id.
Qed.
End transfers.
