(* ===== verification/Lifecycle.v ===== *)
(** * Lifecycles of withdrawals and deposits

    What never changes of a row and along which edges its status moves, over every
    sequence of commits of the abstract system (System.v) and, for deposits, of runs of
    the reorg check. *)

From Stdlib Require Import ZArith Lia Relation_Operators.
From stdpp Require Import prelude strings sorting gmap list_numbers.
From S2P Require Import Prelude GoStd Domain Store Effects Ledger Transfers Withdrawals.
From S2P Require Import WithdrawalSpecs WithdrawalInvariant Ports Deposits DepositSpecs.
From S2P Require Import Customers Solvency Conservation CreateWithdrawals Watcher WatcherProofs System.

(** ** Tables whose rows only evolve *)

Definition grows {X} (R : X → X → Prop) (l l' : list X) : Prop :=
  ∀ x, x ∈ l → ∃ x', x' ∈ l' ∧ R x x'.

Section grows.
Context {X : Type} (R : X → X → Prop) `{!PreOrder R}.

#[export] Instance grows_preorder : PreOrder (grows R).
Proof.
  split; [by intros l x Hx; exists x|]. intros l1 l2 l3 H1 H2 x Hx.
  destruct (H1 x Hx) as (y & Hy & ?). destruct (H2 y Hy) as (z & Hz & ?). exists z. split; [done|by etrans].
Qed.
Lemma grows_app l l' : grows R l (l ++ l').
Proof. intros x Hx. exists x. split; [set_solver|done]. Qed.
Lemma grows_eq l l' : l' = l → grows R l l'.
Proof. by intros ->. Qed.
Lemma grows_update (P : X → Prop) `{∀ r, Decision (P r)} f l :
  (∀ r, r ∈ l → P r → R r (f r)) → grows R l (update_where P f l).
Proof.
  intros Hf x Hx. exists (if decide (P x) then f x else x). split.
  - apply list_elem_of_fmap. by exists x.
  - case_decide; [by apply Hf|done].
Qed.
End grows.

(** ** Withdrawals *)

Inductive status_edge : WithdrawalStatus → WithdrawalStatus → Prop :=
  | edge_approve : status_edge WithdrawalStatusAwaitingApproval WithdrawalStatusApproved
  | edge_claim : status_edge WithdrawalStatusApproved WithdrawalStatusSigned
  | edge_broadcast : status_edge WithdrawalStatusSigned WithdrawalStatusBroadcast
  | edge_confirm : status_edge WithdrawalStatusBroadcast WithdrawalStatusConfirmed
  | edge_fail : status_edge WithdrawalStatusBroadcast WithdrawalStatusFailed.

(** The request, and whatever nonce and hash it got, stay. *)
Definition withdrawal_evolves (w w' : WithdrawalRow) : Prop :=
  (wr_id w', wr_customer w', wr_chain w', wr_asset w', wr_amount w', wr_destination w', wr_created_at w') =
  (wr_id w, wr_customer w, wr_chain w, wr_asset w, wr_amount w, wr_destination w, wr_created_at w) ∧
  (is_Some (wr_nonce w) → wr_nonce w' = wr_nonce w) ∧
  (is_Some (wr_tx_hash w) → wr_tx_hash w' = wr_tx_hash w) ∧
  rtc status_edge (wr_status w) (wr_status w').

#[export] Instance withdrawal_evolves_preorder : PreOrder withdrawal_evolves.
Proof.
  split; [by intros w|]. intros w1 w2 w3 (E1 & N1 & H1 & S1) (E2 & N2 & H2 & S2).
  split_and!; [congruence| | |by etrans].
  - intros Hs. rewrite N2, N1; [done..|]. by rewrite N1.
  - intros Hs. rewrite H2, H1; [done..|]. by rewrite H1.
Qed.

Lemma credits_withdrawals es db db' :
  steps_over credited es db db' → t_withdrawals db' = t_withdrawals db.
Proof.
  revert db. induction es as [|e es IH]; intros db H; [by rewrite H|].
  destruct H as (db1 & (je & db2 & now & oid & _ & _ & _ & HO & ->) & H2). rewrite (IH _ H2). tables.
  by apply only_journal_other in HO as (_ & _ & _ & _ & _ & _ & _ & _ & _ & _ & -> & _).
Qed.

Lemma recorded_all_withdrawals {X} (R : X → DB → bool → DB → Prop) xs db n db' :
  (∀ x d b d', R x d b d' → t_withdrawals d' = t_withdrawals d) → recorded_all R xs db n db' →
  t_withdrawals db' = t_withdrawals db.
Proof.
  intros HR. revert db n. induction xs as [|x xs IH]; intros db n H; simpl in H.
  { by destruct H as [_ ->]. }
  destruct H as (b & db1 & m & H1 & H2 & _). apply HR in H1. apply IH in H2. congruence.
Qed.

Lemma polled_withdrawals chain latest safe finalized db r db' :
  polled chain latest safe finalized db r db' → t_withdrawals db' = t_withdrawals db.
Proof.
  intros (_ & from & to & n & m & ns & nf & t & t' & db1 & db2 & db3 & HS & HP & HF & HC & _).
  apply credits_withdrawals in HC. rewrite HC. destruct HF as (now1 & _ & _ & ->).
  destruct HP as (now2 & _ & _ & ->). tables. unfold scanned in HS.
  destruct (scan_range _ _) as [[a b]|]; [|by destruct HS as [_ ->]].
  destruct HS as (ts & us & now & k & l & d1 & d2 & s & H1 & H2 & _ & _ & ->).
  apply recorded_all_withdrawals in H1.
  2:{ intros x d b' d' (id & Ho). destruct b'; [by destruct Ho as (oid & _ & ->)|by destruct Ho as [-> _]]. }
  apply recorded_all_withdrawals in H2.
  2:{ intros x d b' d' (id & Ho). destruct b'; by destruct Ho as [-> _]. }
  unfold upsert_cursor. tables. congruence.
Qed.

Lemma api_act_withdrawals db db' :
  ledger_ok db → api_act db db' → grows withdrawal_evolves (t_withdrawals db) (t_withdrawals db').
Proof.
  intros Hl HA. destruct HA.
  - done.
  - destruct H0 as (_ & _ & _ & _ & _ & ->). tables. reflexivity.
  - destruct (H0 Hl) as (src & dst & _ & _ & _ & _ & HO & _). apply grows_eq; [apply _|].
    by apply only_journal_other in HO as (_ & _ & _ & _ & _ & _ & _ & _ & _ & _ & -> & _).
  - destruct H as (fee & th & _ & _ & HC).
    destruct HC as [(av & ho & je & db1 & oid & _ & _ & _ & _ & _ & _ & _ & _ & _ & _ & ty & _ & ->) _].
    tables. apply grows_app, _.
  - destruct H as (row & now & oid & _ & _ & _ & _ & ->). tables. apply grows_update; [apply _|].
    intros r _ [_ E]. unfold withdrawal_evolves. simpl. rewrite E. split_and!; try done.
    apply rtc_once. constructor.
Qed.

Lemma commit_withdrawals db db' :
  Inv db → commit db db' → grows withdrawal_evolves (t_withdrawals db) (t_withdrawals db').
Proof.
  intros HI HC. pose proof (wk_rows _ (inv_withdrawals _ HI)) as Hrow. unfold row_ok in Hrow.
  destruct HC as [db db1 row HA|? ? ? ? H|? ? ? ? ? ? H|? ? ? ? H|? ? ? ? H|? ? ? ? H
    |? ? ? ? H|? ? ? ? ? ? ? H|? ? ? H].
  - exact (api_act_withdrawals _ _ (inv_ledger _ HI) HA).
  - destruct H as (row & nn & now & aid & _ & _ & _ & _ & ->). tables. apply grows_update; [apply _|].
    intros r Hr [_ E]. specialize (Hrow r Hr). rewrite E in Hrow. destruct Hrow as (En & Eh & _).
    unfold withdrawal_evolves. simpl. rewrite E, En, Eh. split_and!; try done; try (by intros [? ?]).
    apply rtc_once. constructor.
  - destruct H as (row & a & _ & _ & _ & _ & _ & ->). tables. reflexivity.
  - destruct H as (row & a & h & now & _ & _ & _ & _ & _ & _ & _ & ->). tables.
    apply grows_update; [apply _|]. intros r Hr [_ E]. specialize (Hrow r Hr). rewrite E in Hrow.
    destruct Hrow as (Eh & _). unfold withdrawal_evolves. simpl. rewrite E, Eh.
    split_and!; try done; try (by intros [? ?]). apply rtc_once. constructor.
  - destruct H as (row & ho & cp & je & db1 & now & oid & _ & _ & _ & _ & _ & _ & _ & _ & _ & _ & ->).
    tables. apply grows_update; [apply _|]. intros r Hr [_ E]. unfold withdrawal_evolves. simpl. rewrite E.
    split_and!; try done. apply rtc_once. constructor.
  - destruct H as (row & ho & cp & je & db1 & now & oid & _ & _ & _ & _ & _ & _ & _ & _ & _ & _ & ->).
    tables. apply grows_update; [apply _|]. intros r Hr [_ E]. unfold withdrawal_evolves. simpl. rewrite E.
    split_and!; try done. apply rtc_once. constructor.
  - destruct H as (row & now & oid & _ & _ & _ & ->). tables. apply grows_update; [apply _|].
    intros r Hr _. unfold withdrawal_evolves. simpl. split_and!; done.
  - apply grows_eq; [apply _|]. by eapply polled_withdrawals.
  - apply upsert_token_frame in H as [l ->]. tables. reflexivity.
Qed.

(** ** Deposits *)

Inductive state_edge : DepositState → DepositState → Prop :=
  | edge_safe : state_edge DepositObserved DepositSafe
  | edge_final : state_edge DepositSafe DepositFinalized
  | edge_credit : state_edge DepositFinalized DepositCredited
  | edge_orphan_observed : state_edge DepositObserved DepositOrphaned
  | edge_orphan_safe : state_edge DepositSafe DepositOrphaned.

Definition deposit_evolves (d d' : DepositRow) : Prop :=
  (dr_id d', dr_key d', dr_asset d', dr_address d', dr_amount d', dr_block_number d', dr_block_hash d') =
  (dr_id d, dr_key d, dr_asset d, dr_address d, dr_amount d, dr_block_number d, dr_block_hash d) ∧
  rtc state_edge (dr_state d) (dr_state d').

#[export] Instance deposit_evolves_preorder : PreOrder deposit_evolves.
Proof.
  split; [by intros d|]. intros d1 d2 d3 [E1 S1] [E2 S2]. split; [congruence|by etrans].
Qed.

Lemma grows_transition P `{∀ r, Decision (P r)} state now l :
  (∀ r, r ∈ l → P r → rtc state_edge (dr_state r) state) →
  grows deposit_evolves l (update_where P (dr_transition state now) l).
Proof. intros HP. apply grows_update; [apply _|]. intros r Hr Hp. split; [done|by apply HP]. Qed.

Lemma promoted_deposits from to chain block db n db' :
  state_edge from to → promoted from to chain block db n db' →
  grows deposit_evolves (t_deposits db) (t_deposits db').
Proof.
  intros He (now & _ & _ & ->). tables. apply grows_transition. intros r _ (-> & _). by apply rtc_once.
Qed.

Lemma recorded_all_deposits {X} (R : X → DB → bool → DB → Prop) xs db n db' :
  (∀ x d b d', R x d b d' → grows deposit_evolves (t_deposits d) (t_deposits d')) →
  recorded_all R xs db n db' → grows deposit_evolves (t_deposits db) (t_deposits db').
Proof.
  intros HR. revert db n. induction xs as [|x xs IH]; intros db n H; simpl in H.
  { by destruct H as [_ ->]. }
  destruct H as (b & db1 & m & H1 & H2 & _). etrans; [by eapply HR|by eapply IH].
Qed.

Lemma scanned_deposits chain latest db r db' :
  scanned chain latest db r db' → grows deposit_evolves (t_deposits db) (t_deposits db').
Proof.
  unfold scanned. destruct (scan_range _ _) as [[a b]|]; [|by intros [_ ->]].
  intros (ts & us & now & k & l & d1 & d2 & s & H1 & H2 & _ & _ & ->).
  unfold upsert_cursor. tables. etrans; [eapply recorded_all_deposits; [|exact H1]|].
  - intros x d b' d' (id & Ho). destruct b'; [|by destruct Ho as [-> _]].
    destruct Ho as (oid & _ & ->). tables. apply grows_app, _.
  - eapply recorded_all_deposits; [|exact H2]. intros x d b' d' (id & Ho).
    destruct b'; destruct Ho as [-> _]; done.
Qed.

(** The credit loop: every id it transitions was finalized when the loop started. *)
Lemma credits_grow es db0 db db' :
  (∀ e, e ∈ es → ∀ d, d ∈ t_deposits db0 → dr_id d = el_depositID e → dr_state d = DepositFinalized) →
  (∀ d, d ∈ t_deposits db → ∃ d0, d0 ∈ t_deposits db0 ∧ dr_id d0 = dr_id d ∧
     (dr_state d = dr_state d0 ∨ dr_state d0 = DepositFinalized ∧ dr_state d = DepositCredited)) →
  steps_over credited es db db' → grows deposit_evolves (t_deposits db) (t_deposits db').
Proof.
  revert db. induction es as [|e es IH]; intros db He H0 H; simpl in H; [by subst|].
  destruct H as (db1 & H1 & H2). apply credited_deposits in H1 as (now & E1).
  assert (∀ d, d ∈ t_deposits db → dr_id d = el_depositID e →
    dr_state d = DepositFinalized ∨ dr_state d = DepositCredited) as Hst.
  { intros d Hd Ed. destruct (H0 d Hd) as (d0 & Hd0 & Eid & Es).
    pose proof (He e ltac:(set_solver) d0 Hd0 ltac:(congruence)). destruct Es as [Es|[_ ?]]; [|by right].
    left. congruence. }
  etrans; [|eapply (IH db1); [..|done]].
  - rewrite E1. apply grows_transition. intros r Hr Er. destruct (Hst r Hr Er) as [-> | ->]; [|done].
    apply rtc_once. constructor.
  - intros e' He'. apply He. by right.
  - intros d Hd. rewrite E1 in Hd. apply list_elem_of_fmap in Hd as (x & -> & Hx).
    destruct (H0 x Hx) as (d0 & Hd0 & Eid & Es). exists d0. case_decide as Ex; [|done]. cbn.
    split_and!; [done|done|]. right. split; [|done]. apply (He e ltac:(set_solver) d0 Hd0). congruence.
Qed.

Lemma polled_deposits chain latest safe finalized db r db' :
  Inv db → polled chain latest safe finalized db r db' →
  grows deposit_evolves (t_deposits db) (t_deposits db').
Proof.
  intros HI (_ & from & to & n & m & ns & nf & t & t' & db1 & db2 & db3 & HS & HP & HF & HC & _).
  pose proof (Inv_scanned _ _ _ _ _ HI HS) as HI1.
  pose proof (Inv_promoted DepositObserved DepositSafe _ _ _ _ _ HI1 ltac:(by left) HP) as HI2.
  pose proof (Inv_promoted DepositSafe DepositFinalized _ _ _ _ _ (Inv_cursor _ _ HI2) ltac:(by right) HF) as HI3.
  apply scanned_deposits in HS. apply promoted_deposits in HP; [|constructor].
  apply promoted_deposits in HF; [|constructor].
  etrans; [exact HS|]. etrans; [exact HP|]. etrans; [exact HF|].
  set (db4 := upsert_cursor _ db3) in *.
  refine (credits_grow _ db4 db4 _ _ _ HC).
  - intros e (d & da & Hd & _ & Hs & Hid & _)%eligible_credits_elem x Hx Ex.
    assert (x = d) as ->; [|done].
    apply (key_unique dr_id (t_deposits db3) d (dk_ids _ (inv_deposits _ HI3)) Hd x Hx). congruence.
  - intros d Hd. exists d. auto.
Qed.

Lemma commit_deposits db db' :
  Inv db → commit db db' → grows deposit_evolves (t_deposits db) (t_deposits db').
Proof.
  intros HI HC.
  assert (∀ d d', only_journal_differs d d' → t_deposits d' = t_deposits d) as HJ.
  { intros d d' HO. by apply only_journal_other in HO as (_ & _ & _ & _ & -> & _). }
  destruct HC as [db db1 row HA|? ? ? ? H|? ? ? ? ? ? H|? ? ? ? H|? ? ? ? H|? ? ? ? H
    |? ? ? ? H|? ? ? ? ? ? ? H|? ? ? H].
  - apply grows_eq; [apply _|]. tables. destruct HA.
    + done.
    + by destruct H0 as (_ & _ & _ & _ & _ & ->).
    + destruct (H0 (inv_ledger _ HI)) as (src & dst & _ & _ & _ & _ & HO & _). by apply HJ.
    + destruct H as (fee & th & _ & _ & HC).
      destruct HC as [(av & ho & je & db1 & oid & _ & _ & _ & _ & _ & _ & _ & _ & HO & _ & ty & _ & ->) _].
      apply HJ in HO. by tables.
    + by destruct H as (row' & now & oid & _ & _ & _ & _ & ->).
  - destruct H as (row & nn & now & aid & _ & _ & _ & _ & ->). tables. reflexivity.
  - destruct H as (row & a & _ & _ & _ & _ & _ & ->). tables. reflexivity.
  - destruct H as (row & a & h & now & _ & _ & _ & _ & _ & _ & _ & ->). tables. reflexivity.
  - destruct H as (row & ho & cp & je & db1 & now & oid & _ & _ & _ & _ & _ & _ & _ & _ & _ & HO & ->).
    apply grows_eq; [apply _|]. apply HJ in HO. by tables.
  - destruct H as (row & ho & cp & je & db1 & now & oid & _ & _ & _ & _ & _ & _ & _ & _ & _ & HO & ->).
    apply grows_eq; [apply _|]. apply HJ in HO. by tables.
  - destruct H as (row & now & oid & _ & _ & _ & ->). tables. reflexivity.
  - by eapply polled_deposits.
  - apply upsert_token_frame in H as [l ->]. tables. reflexivity.
Qed.

(** ** Over any number of commits *)

Lemma commits_grow {X} (R : X → X → Prop) `{!PreOrder R} (table : DB → list X) db db' :
  (∀ d d', Inv d → commit d d' → grows R (table d) (table d')) →
  reachable db → rtc commit db db' → grows R (table db) (table db').
Proof.
  intros HR Hreach Hs. induction Hs as [|a b d Hab Hs IH]; [done|].
  etrans; [apply HR; [|exact Hab]|apply IH].
  - by apply reachable_ok.
  - eapply reachable_commits; [done|by apply rtc_once].
Qed.

(** C19: the lifecycle of a withdrawal. Once a withdrawal exists it stays, with the same
    customer, chain, asset, amount and destination; its status only moves along
    awaiting-approval, approved, signed, broadcast, confirmed or failed; and a nonce
    or transaction hash, once set, never changes. *)
Theorem withdrawal_lifecycle db db' :
  reachable db → rtc commit db db' →
  ∀ w, w ∈ t_withdrawals db → ∃ w', w' ∈ t_withdrawals db' ∧
    wr_id w' = wr_id w ∧ wr_customer w' = wr_customer w ∧ wr_chain w' = wr_chain w ∧
    wr_asset w' = wr_asset w ∧ wr_amount w' = wr_amount w ∧ wr_destination w' = wr_destination w ∧
    (is_Some (wr_nonce w) → wr_nonce w' = wr_nonce w) ∧
    (is_Some (wr_tx_hash w) → wr_tx_hash w' = wr_tx_hash w) ∧
    rtc status_edge (wr_status w) (wr_status w').
Proof.
  intros HR Hs w Hw.
  destruct (commits_grow withdrawal_evolves t_withdrawals db db' commit_withdrawals HR Hs w Hw)
    as (w' & Hw' & [= E1 E2 E3 E4 E5 E6 E7] & ? & ? & ?).
  exists w'. split_and!; done.
Qed.

(** ** The reorg check *)

Section reorg_checks.
Context `{Scan : ChainScanner} `{!ChainScannerLaws Scan}.

(** A step of the platform with its reorg check: a commit of the abstract system, or a
    transaction that ran [checkForReorgs], whatever hashes the chain answered. *)
Inductive checked_step : DB → DB → Prop :=
  | step_commit db db' : commit db db' → checked_step db db'
  | step_reorg_check chain c s s' :
      runs_in_tx c → checkForReorgs chain c s = (Ok tt, s') → checked_step (st_db s) (st_db s').

Definition pending_id (db : DB) (id : string) : Prop :=
  ∀ r, r ∈ t_deposits db → dr_id r = id → dr_state r ∈ [DepositObserved; DepositSafe].

Lemma check_pending_steps cache pending c s u s' :
  runs_in_tx c → check_pending cache pending c s = (Ok u, s') →
  ∃ ids, ids `sublist_of` map dep_ID pending ∧ steps_over orphaned ids (st_db s) (st_db s').
Proof.
  intros Hc. revert cache s. induction pending as [|d pending IH]; intros cache s H; simpl in H.
  { apply ret_Ok in H as [_ ->]. by exists []. }
  destruct (String.eqb _ _).
  { apply IH in H as (ids & Hs & H); [|done..]. exists ids. split; [by apply sublist_cons|done]. }
  apply bind_Ok in H as (cached & s1 & Hca & H). assert (st_db s1 = st_db s) as Edb.
  { destruct (cache !! _); [by apply ret_Ok in Hca as [_ ->]|].
    apply wrapping_Ok in Hca. by apply BlockHash_external in Hca as (? & _). }
  apply bind_Ok in H as (u1 & s2 & Ho & H). apply IH in H as (ids & Hs & H).
  destruct (negb _); simpl in Ho.
  - apply wrapping_Ok, OrphanDeposit_refines in Ho as [Ho _]; [|done]. rewrite Edb in Ho.
    exists (dep_ID d :: ids). split; [by apply sublist_skip|]. destruct u1. by exists (st_db s2).
  - apply ret_Ok in Ho as [_ ->]. rewrite Edb in H. exists ids. split; [by apply sublist_cons|done].
Qed.

Lemma pending_rows_pending chain db :
  Inv db → NoDup (map dr_id (pending_rows chain db)) ∧
  ∀ id, id ∈ map dr_id (pending_rows chain db) → pending_id db id.
Proof.
  intros HI. pose proof (dk_ids _ (inv_deposits _ HI)) as Hids. unfold pending_rows.
  set (l := filter _ (t_deposits db)).
  assert (take maxPendingDepositsPerReorgCheck (merge_sort block_le l) ⊆+ l) as Hsub.
  { rewrite <-(merge_sort_Permutation block_le l) at 2. apply sublist_submseteq, sublist_take. }
  split.
  - eapply sublist_NoDup; [|apply (fmap_sublist dr_id), sublist_take].
    assert (map dr_id (merge_sort block_le l) ≡ₚ map dr_id l) as Hp
      by (apply (fmap_Permutation dr_id), merge_sort_Permutation).
    change (NoDup (map dr_id (merge_sort block_le l))). rewrite Hp.
    eapply sublist_NoDup; [exact Hids|apply (fmap_sublist dr_id), sublist_filter].
  - intros id (r & -> & Hr)%list_elem_of_fmap x Hx Ex.
    eapply elem_of_submseteq in Hr; [|done]. apply list_elem_of_filter in Hr as [[_ Hst] Hr].
    by rewrite (key_unique dr_id (t_deposits db) r Hids Hr x Hx Ex).
Qed.

Lemma orphaned_evolves id db u db' :
  pending_id db id → orphaned id db u db' → grows deposit_evolves (t_deposits db) (t_deposits db').
Proof.
  intros Hp (now & oid & _ & ->). tables. apply grows_transition. intros r Hr E.
  specialize (Hp r Hr E). apply rtc_once.
  apply elem_of_cons in Hp as [-> | ->%list_elem_of_singleton]; constructor.
Qed.

Lemma orphaned_pending id id' db u db' :
  id ≠ id' → orphaned id db u db' → pending_id db id' → pending_id db' id'.
Proof.
  intros Hne (now & oid & _ & ->) Hp r Hr E. apply list_elem_of_fmap in Hr as (x & -> & Hx).
  case_decide as Ex; [by destruct Hne; rewrite <-Ex, <-E|]. by apply Hp.
Qed.

Lemma orphans_ok ids db db' :
  NoDup ids → (∀ id, id ∈ ids → pending_id db id) → Inv db ∧ conserved db →
  steps_over orphaned ids db db' →
  (Inv db' ∧ conserved db') ∧ grows deposit_evolves (t_deposits db) (t_deposits db').
Proof.
  revert db. induction ids as [|id ids IH]; intros db Hnd Hp [HI Hc] H; simpl in H; [by subst|].
  destruct H as (db1 & H1 & H2). apply NoDup_cons in Hnd as [Hid Hnd].
  pose proof (Hp id ltac:(by left)) as Hpid.
  assert (Inv db1) as HI1.
  { refine (Inv_orphaned id db tt db1 HI _ H1). intros r Hr E. specialize (Hpid r Hr E).
    by apply elem_of_cons in Hpid as [-> | ->%list_elem_of_singleton]. }
  assert (conserved db1) as Hc1 by (by destruct H1 as (now & oid & _ & ->)).
  destruct (IH db1 Hnd) as [Hok Hg]; [|done..|split; [done|etrans; [by eapply orphaned_evolves|done]]].
  intros id' Hid'. eapply orphaned_pending; [|done|by apply Hp; right]. by intros ->.
Qed.

Lemma checked_step_ok db db' :
  checked_step db db' → Inv db ∧ conserved db →
  (Inv db' ∧ conserved db') ∧ grows deposit_evolves (t_deposits db) (t_deposits db').
Proof.
  intros H [HI Hc]. destruct H as [db db' H|chain c s s' Hrun H].
  { split; [by apply (commit_ok db)|by apply commit_deposits]. }
  unfold checkForReorgs in H. simpl in H. apply bind_Ok in H as (pending & s1 & Hp & H).
  apply wrapping_Ok in Hp. unfold DepositRepository_ListPendingDeposits in Hp. m_straight.
  match goal with Hm : mapM _ _ _ _ = _ |- _ =>
    rewrite (mapM_ret (λ r, dr_amount r)) in Hm by (intros; apply scan_big_eq) end. simplify_eq.
  destruct (pending_rows_pending chain (st_db s) HI) as [Hnd Hpend].
  assert (∃ ids, ids `sublist_of` map dr_id (pending_rows chain (st_db s)) ∧
    steps_over orphaned ids (st_db s) (st_db s')) as (ids & Hs & Ho).
  { destruct (map deposit_of_row (pending_rows chain (st_db s))) as [|d pending] eqn:E.
    - apply ret_Ok in H as [_ ->]. exists []. split; [apply sublist_nil_l|done].
    - apply check_pending_steps in H as (ids & Hs & H); [|done]. exists ids. split; [|done].
      rewrite <-E, map_map in Hs. exact Hs. }
  eapply orphans_ok; [by eapply sublist_NoDup|..|done]; [|done]. intros id Hid. apply Hpend.
  by eapply elem_of_submseteq, sublist_submseteq.
Qed.

(** C20: the lifecycle of a deposit, the reorg check included. Once observed, a deposit
    stays with the same transaction, log, asset, address, amount and block, and its
    state only moves from observed to safe, finalized and credited, or, when the check
    for reorgs runs, from observed or safe to orphaned: a finalized or credited deposit
    is never orphaned and an orphaned one never comes back, so it is never credited.
    (The poll's call of the check is commented out in track_deposits.go; the steps here
    include the check, so this is the lifecycle with and without it.) *)
Theorem deposit_lifecycle db db' :
  reachable db → rtc checked_step db db' →
  ∀ d, d ∈ t_deposits db → ∃ d', d' ∈ t_deposits db' ∧
    dr_id d' = dr_id d ∧ dr_key d' = dr_key d ∧ dr_asset d' = dr_asset d ∧
    dr_address d' = dr_address d ∧ dr_amount d' = dr_amount d ∧
    dr_block_number d' = dr_block_number d ∧ rtc state_edge (dr_state d) (dr_state d').
Proof.
  intros HR%reachable_ok Hs.
  assert (grows deposit_evolves (t_deposits db) (t_deposits db')) as Hg.
  { induction Hs as [|a b e Hab Hs IH]; [done|]. destruct (checked_step_ok _ _ Hab HR) as [HR' Hg].
    etrans; [exact Hg|]. by apply IH. }
  intros d Hd. destruct (Hg d Hd) as (d' & Hd' & [= E1 E2 E3 E4 E5 E6 E7 E8 E9] & ?).
  exists d'. split_and!; try done. unfold dr_key. congruence.
Qed.
End reorg_checks.
