(* ===== verification/BroadcasterGuarantees.v ===== *)
(** * What the broadcaster guarantees

    Persist before send, resend the same bytes, never sign twice; which withdrawal a
    claim takes and with which nonce; that a paused broadcaster allocates nothing;
    and that a receipt poll settles a withdrawal as its final receipt says, and else
    commits nothing. *)

From Stdlib Require Import ZArith Lia.
From stdpp Require Import prelude strings sorting gmap list_numbers.
From S2P Require Import Progress.
From S2P Require Import Prelude GoStd Domain Store Effects Ledger Transfers Withdrawals WithdrawalSpecs.
From S2P Require Import WithdrawalInvariant Ports Broadcast Solvency BroadcastProofs History System Walletd.

Section guarantees.
Context `{G : Signer} `{!SignerLaws G} `{B : TransactionBroadcaster} `{!TransactionBroadcasterLaws B}.

(** ** Signing and sending *)

Fixpoint broadcaster_runs (rs : list (Chain * bool)) (c : Ctx) (s : St) : St :=
  match rs with
  | [] => s
  | (chain, live) :: rs =>
      broadcaster_runs rs c (snd (SignAndBroadcastWithdrawal_Execute chain live c s))
  end.

Lemma broadcaster_runs_inv rs c s :
  cx_tx c = None → others_keep_bytes c → sends_inv s → sends_inv (broadcaster_runs rs c s).
Proof.
  intros Hc Ho. revert s. induction rs as [|[chain live] rs IH]; intros s Hs; [done|]. simpl. apply IH.
  destruct (SignAndBroadcastWithdrawal_Execute chain live c s) as [r s'] eqn:E.
  by apply (SignAndBroadcast_keeps c Ho chain live s r s' Hs) in E as [? _].
Qed.

(** C7: persist before send. Over any sequence of broadcaster runs, whatever fails, is
    lost or interleaves, every transaction handed to the node was already committed:
    at that moment the database held exactly those bytes for that withdrawal, which
    was signed, so a crash after the send can always find them again. *)
Theorem sends_are_recorded rs c s :
  cx_tx c = None → others_keep_bytes c → Inv (st_db s) → st_trace s = [] →
  ∀ id ch tx d, EvSend id ch tx d ∈ st_trace (broadcaster_runs rs c s) →
    tx ≠ EmptyString ∧ recorded_bytes d id tx ∧ with_status d id WithdrawalStatusSigned.
Proof.
  intros Hc Ho HI Ht id ch tx d Hin.
  assert (sends_inv s) as Hs.
  { split; [done|]. rewrite Ht. constructor; [by intros ? ? ? ? ?%elem_of_nil|]. by intros [] ? ? ?. }
  destruct (broadcaster_runs_inv rs c s Hc Ho Hs) as [_ [H _]].
  by destruct (H id ch tx d Hin) as (? & _ & ? & ?).
Qed.

(** C3: no double spend. Over any sequence of broadcaster runs, all transactions sent
    for one withdrawal are the same bytes, and after one was sent the withdrawal is
    never signed again. *)
Theorem one_transaction_per_withdrawal rs c s :
  cx_tx c = None → others_keep_bytes c → Inv (st_db s) → st_trace s = [] →
  let tr := st_trace (broadcaster_runs rs c s) in
  (∀ id ch1 ch2 tx1 tx2 d1 d2, EvSend id ch1 tx1 d1 ∈ tr → EvSend id ch2 tx2 d2 ∈ tr → tx1 = tx2) ∧
  (∀ tr1 tr2 id dg, tr = tr1 ++ EvSign id dg :: tr2 → ¬ sent id tr1).
Proof.
  intros Hc Ho HI Ht tr.
  assert (sends_inv s) as Hs.
  { split; [done|]. rewrite Ht. constructor; [by intros ? ? ? ? ?%elem_of_nil|]. by intros [] ? ? ?. }
  destruct (broadcaster_runs_inv rs c s Hc Ho Hs) as [HI' [H1 H2]]. split; [|exact H2].
  intros id ch1 ch2 tx1 tx2 d1 d2 Hin1 Hin2.
  destruct (H1 _ _ _ _ Hin1) as (_ & R1 & _). destruct (H1 _ _ _ _ Hin2) as (_ & R2 & _).
  by eapply recorded_bytes_unique.
Qed.

(** ** Claiming *)

#[local] Instance created_id_le_trans : Transitive created_id_le.
Proof.
  intros a b d. unfold created_id_le. intros [?|[? ?]] [?|[? ?]]; [left; lia..|right].
  split; [lia|by etrans].
Qed.
#[local] Instance created_id_le_total : Total created_id_le.
Proof.
  intros a b. unfold created_id_le.
  destruct (Z.lt_total (wr_created_at a) (wr_created_at b)) as [|[|]]; [by left; left| |by right; left].
  destruct (base.total str_le (wr_id a) (wr_id b)); [left|right]; right; auto.
Qed.

Lemma oldest_approved_oldest chain db row r :
  oldest_approved chain db = Some row → r ∈ t_withdrawals db → wr_chain r = chain →
  wr_status r = WithdrawalStatusApproved → created_id_le row r ∨ r = row.
Proof.
  unfold oldest_approved. intros Ho Hr Hch Hs.
  pose proof (StronglySorted_merge_sort created_id_le
    (filter (λ r, wr_chain r = chain ∧ wr_status r = WithdrawalStatusApproved) (t_withdrawals db))) as Hss.
  assert (r ∈ merge_sort created_id_le (filter (λ r, wr_chain r = chain ∧
    wr_status r = WithdrawalStatusApproved) (t_withdrawals db))) as Hin
    by (rewrite merge_sort_Permutation; by apply list_elem_of_filter).
  destruct (merge_sort _ _) as [|x l]; [done|]. simpl in Ho. injection Ho as ->.
  apply elem_of_cons in Hin as [->|Hin]; [by right|left].
  apply StronglySorted_inv in Hss as [_ Hall]. rewrite Forall_forall in Hall. auto.
Qed.

(** A claim takes the oldest approved withdrawal of its chain (by creation, then
    id), gives it the chain's next nonce, which is the number of withdrawals of that
    chain claimed before it, and commits it as signed with its broadcast attempt. *)
Theorem claim_takes_oldest chain c s w n s' :
  cx_tx c = None → Inv (visible c s) → claim chain c s = (Ok (Some (w, n)), s') →
  let before := visible c s in
  ∃ row, row ∈ t_withdrawals before ∧ wr_id row = w_ID w ∧ wr_chain row = chain ∧
    wr_status row = WithdrawalStatusApproved ∧
    (∀ r, r ∈ t_withdrawals before → wr_chain r = chain → wr_status r = WithdrawalStatusApproved →
       created_id_le row r ∨ r = row) ∧
    n = Z.of_nat (length (filter (λ a, ba_chain a = chain) (t_broadcast_attempts before))) ∧
    with_status (st_db s') (w_ID w) WithdrawalStatusSigned ∧
    ∃ a, t_broadcast_attempts (st_db s') = t_broadcast_attempts before ++ [a] ∧
         ba_withdrawal a = w_ID w ∧ ba_chain a = chain ∧ ba_nonce a = n ∧ ba_signed_tx a = None.
Proof.
  intros Hc HI H before. unfold claim in H.
  apply in_tx_out_cases in H as [(e & ? & _)|(o & s2 & Hb & _ & _ & Hcase)]; [done|].
  destruct Hcase as [[_ Ho]|(a & -> & Ed & _ & Hr)].
  { destruct o as [[x|x]|e]; [by destruct Ho|injection Ho as <-|done].
    apply bind_Ok in Hb as (y & s1 & _ & Hb). destruct y; m_inv; done. }
  destruct Hr as [[= <-]|(e & ? & _)]; [|done]. rewrite Ed.
  apply bind_Ok in Hb as (y & s1 & Hb & Hk). apply wrapping_Ok in Hb.
  apply ClaimApprovedWithdrawal_law in Hb as [HC _]; [|by eexists].
  change (st_db (snd (begin_tx c s))) with before in HC.
  destruct y as [w'|]; [|m_inv; done]. apply bind_Ok in Hk as (n' & s3 & Hn & Hk).
  apply lift_option_Ok in Hn as [Hn ->]. apply ret_Ok in Hk as [[= -> ->] ->].
  destruct HC as (row & nn & now & aid & Hold & Hnn & _ & -> & ->). cbn in Hn. assert (n' = nn_next nn) as -> by congruence.
  pose proof (oldest_approved_Some _ _ _ Hold) as (Hrow & Hch & Hst).
  apply find_nonce_Some in Hnn as [Hnn Enn].
  destruct (wk_nonces _ (inv_withdrawals _ HI) nn Hnn) as [Hpos Hseq]. rewrite Enn in Hseq.
  exists row. split_and!; try done.
  - intros r Hr1 Hr2 Hr3. by eapply oldest_approved_oldest.
  - apply (f_equal length) in Hseq. rewrite length_map, length_seqZ in Hseq. unfold before in *. lia.
  - exists (wr_claim (nn_next nn) now row). split_and!; [|done|done]. tables.
    apply list_elem_of_fmap. exists row. by rewrite decide_True.
  - eexists. tables. split_and!; try reflexivity.
Qed.

(** ** Pausing *)

(** Nonce counters and which withdrawal holds which nonce. *)
Definition allocations (db : DB) : list NonceRow * list (string * Chain * Z) :=
  (t_chain_nonce_state db, map (λ a, (ba_withdrawal a, ba_chain a, ba_nonce a)) (t_broadcast_attempts db)).

(** A paused broadcaster allocates nothing. While the watcher is not live, draining
    still resends what was already signed, but no nonce counter advances and no
    withdrawal is given a nonce. *)
Theorem paused_allocates_nothing fuel chain k c s r s' :
  cx_tx c = None → (∀ n db, allocations (env_other (cx_env c) n db) = allocations db) →
  drain fuel chain false k c s = (r, s') → allocations (st_db s') = allocations (st_db s).
Proof.
  intros Hc Ho H. set (I := λ db, allocations db = allocations (st_db s)).
  assert (preserves I (drain fuel chain false k)) as Hp.
  { clear H. revert k. induction fuel as [|fuel IH]; intros k; simpl; [auto with preserves|].
    apply preserves_bind; [|intros [claimed [e|]]; [auto with preserves|destruct claimed; [apply IH|apply preserves_ret]]].
    apply SignAndBroadcast_resumes; [..|done|done]; unfold I.
    - intros id h tx db u db' <- (row & a & _ & _ & _ & _ & _ & ->). unfold allocations. tables. f_equal.
      unfold update_where. rewrite map_map. apply map_ext. intros x. by case_decide.
    - by intros id db u db' <- (row & a & h & now & _ & _ & _ & _ & _ & _ & _ & ->). }
  eapply (Hp c s r s'); [done| |done|exact H]. intros n db Hdb. unfold I in *. by rewrite Ho.
Qed.

(** ** Settling *)

Lemma settlement_accounts_intro cust ch a ty (plat : bool) db r t :
  r ∈ t_accounts db → t = AccountTypeHold ∨ t = ty →
  is_account (if decide (t = AccountTypeHold) then Some cust
              else if plat then None else Some cust) ch a t r →
  (ac_id r, t) ∈ settlement_accounts cust ch a ty plat db.
Proof.
  intros Hr Ht (E1 & E2 & E3 & E4). unfold settlement_accounts. apply list_elem_of_fmap. exists r.
  split; [congruence|]. rewrite merge_sort_Permutation. apply list_elem_of_filter.
  split; [|done]. split_and!; [done|done|]. unfold settlement_where.
  destruct (decide (t = AccountTypeHold)), plat; naive_solver set_solver.
Qed.

(** The accounts a settlement moves between: the customer's hold account, and the
    pair's treasury or the customer's own available account. *)
Definition settlement_sides (success : bool) (row : WithdrawalRow) (db : DB) (ho cp : AccountRow) : Prop :=
  ho ∈ t_accounts db ∧ is_account (Some (wr_customer row)) (wr_chain row) (wr_asset row) AccountTypeHold ho ∧
  cp ∈ t_accounts db ∧
  is_account (if success then None else Some (wr_customer row)) (wr_chain row) (wr_asset row)
    (if success then AccountTypeTreasury else AccountTypeAvailable) cp.

(** Nothing stands in the way of settling a withdrawal: no faults, fresh ids, a row
    that is broadcast and whose accounts exist. *)
Definition settleable (id : string) (success : bool) (c : Ctx) (s : St) : Prop :=
  fault_free c ∧ fresh_uuids transfer_steps c s ∧
  (∀ n, soon transfer_steps s n → env_uuid (cx_env c) n ∉ map ob_id (t_outbox_events (st_db s))) ∧ Inv (st_db s) ∧
  ∃ row ho cp, row ∈ t_withdrawals (st_db s) ∧ wr_id row = id ∧ wr_status row = WithdrawalStatusBroadcast ∧
    numeric78 (wr_amount row) ∧ settlement_sides success row (st_db s) ho cp.

(** The settlement a final receipt calls for. *)
Definition settlement (id : string) (success : bool) : DB → unit → DB → Prop :=
  if success
  then settled id WithdrawalStatusConfirmed withdrawalSettlementCauseType withdrawalConfirmedEventType
         AccountTypeTreasury true
  else settled id WithdrawalStatusFailed withdrawalFailureCauseType withdrawalFailedEventType
         AccountTypeAvailable false.

Lemma settleWithdrawal_run id target ct et ty (plat : bool) row ho cp c s :
  fault_free c → runs_in_tx c → st_aborted s = false → fresh_uuids transfer_steps c s →
  (∀ n, soon transfer_steps s n → env_uuid (cx_env c) n ∉ map ob_id (t_outbox_events (st_db s))) → ty ≠ AccountTypeHold →
  NoDup (map wr_id (t_withdrawals (st_db s))) → row ∈ t_withdrawals (st_db s) → wr_id row = id →
  wr_status row = WithdrawalStatusBroadcast → numeric78 (wr_amount row) →
  ho ∈ t_accounts (st_db s) →
  is_account (Some (wr_customer row)) (wr_chain row) (wr_asset row) AccountTypeHold ho →
  cp ∈ t_accounts (st_db s) →
  is_account (if plat then None else Some (wr_customer row)) (wr_chain row) (wr_asset row) ty cp →
  ¬ has_cause (st_db s) ct id →
  ∃ s', settleWithdrawal id target ct et ty plat c s = (Ok tt, s') ∧ st_aborted s' = false.
Proof.
  intros Hq Htx Ha (Hinj & Hje & Hpo) Hob Hty Hnd Hrow Hid Hst Hnum Hho Iho Hcp Icp Hcause.
  unfold settleWithdrawal, lock_withdrawal, update_withdrawals, tx_update_rows.
  assert (find_withdrawal (st_db s) id = Some row) as Ef
    by (unfold find_withdrawal; rewrite <-Hid; by apply find_by_key).
  erewrite bind_run.
  2:{ erewrite bind_run by (apply wrapping_run, tx_query_run; done). rewrite Ef. reflexivity. }
  rewrite decide_False by auto. rewrite scan_big_eq. m_run1. m_run1.
  set (rows := settlement_accounts _ _ _ _ _ _).
  assert ((ac_id ho, AccountTypeHold) ∈ rows) as Hh
    by (apply settlement_accounts_intro; [done|by left|by rewrite decide_True]).
  assert ((ac_id cp, ty) ∈ rows) as Hc
    by (apply settlement_accounts_intro; [done|by right|by rewrite decide_False]).
  apply by_type_is_Some in Hh as [h Eh], Hc as [k Ek]. rewrite Eh, Ek. simpl. m_run1. m_run1.
  assert (h ∈ map ac_id (t_accounts (st_db s))) as Hh.
  { apply by_type_lookup, settlement_accounts_elem in Eh as (r & Hr & <- & _); [|by auto..]. by apply list_elem_of_fmap_2. }
  assert (k ∈ map ac_id (t_accounts (st_db s))) as Hk.
  { apply by_type_lookup, settlement_accounts_elem in Ek as (r & Hr & <- & _); [|by auto..]. by apply list_elem_of_fmap_2. }
  m_run. set (je := mkJournalEntry _ _ _ _).
  assert (je_id je ∉ map je_id (t_journal_entries (st_db s))) as Hjid by (apply Hje; soon_now).
  pose proof (insert_journal_entry_run je _ Hjid Hcause) as Hins. m_run1.
  erewrite bind_run.
  2:{ unfold write_postings. m_run. m_insert insert_posting_run.
      - apply wrapping_run, tx_insert_run; [done..|]. apply insert_posting_run; cbn.
        + rewrite map_app, not_elem_of_app. split; [apply Hpo; soon_now|].
          intros E%list_elem_of_singleton%Hinj; [lia|soon_now..].
        + rewrite map_app. apply elem_of_app. right. by left.
        + done.
        + done.
      - apply Hpo; soon_now.
      - cbn. rewrite map_app. apply elem_of_app. right. by left.
      - done.
      - by unfold numeric78 in *; simpl; rewrite Z.abs_opp. }
  erewrite bind_run by (apply wrapping_run; rewrite tx_exec_run by done; reflexivity).
  rewrite decide_False.
  2:{ apply (rows_affected_elem _ _ row); [|done]. exact Hrow. }
  unfold write_outbox. m_run1. eexists. split; [|].
  { apply wrapping_run, tx_insert_run; [done..|]. apply pg_require_ok. split; [apply Hob; soon_now|reflexivity]. }
  done.
Qed.

(** Without faults, a settlement whose way is clear commits. *)
Lemma settle_run id success c s :
  settleable id success c (snd (begin_tx c s)) →
  ∃ s', settle id (if success then SettleConfirmedWithdrawal else SettleFailedWithdrawal) c s = (Ok tt, s').
Proof.
  intros (Hq & Hf & Hob & HI & row & ho & cp & Hrow & Hid & Hst & Hnum & Hho & Iho & Hcp & Icp).
  pose proof (inv_withdrawals _ HI) as Hw.
  assert (∃ s2, (if success then SettleConfirmedWithdrawal else SettleFailedWithdrawal) id
      (fst (begin_tx c s)) (snd (begin_tx c s)) = (Ok tt, s2) ∧ st_aborted s2 = false) as (s2 & E & Ha).
  { assert (∀ st, with_status (st_db (snd (begin_tx c s))) id st → st = WithdrawalStatusBroadcast) as Honly.
    { intros st (w' & Hw' & E' & <-).
      rewrite (key_unique wr_id _ row (wk_ids _ Hw) Hrow w' Hw'); [done|congruence]. }
    destruct success; apply (settleWithdrawal_run id _ _ _ _ _ row ho cp); try done; try apply Hw; try by eexists.
    - intros Hcause%(wk_confirmed _ Hw)%Honly. done.
    - intros Hcause%(wk_failed _ Hw)%Honly. done. }
  assert (total c s (settle id (if success then SettleConfirmedWithdrawal else SettleFailedWithdrawal)) (λ _ _, True))
    as ([] & s' & E' & _); [|by exists s'].
  apply total_in_tx; [done|]. exists tt, s2. done.
Qed.

Lemma settle_cases id settleFn R c s y s' :
  tx_refines (settleFn id) R → settle id settleFn c s = (y, s') →
  match y with
  | Ok _ => R (visible c s) tt (st_db s')
  | Err _ => st_db s' = st_db s ∨ st_db s' = visible c s ∨
      R (visible c s) tt (st_db s') ∧ ∃ n, env_ack_lost (cx_env c) n = true
  end.
Proof.
  intros HR H. unfold settle, in_tx in H.
  apply in_tx_out_cases in H as [(e & -> & ->)|(o & s2 & Hb & _ & _ & Hcase)]; [by left|].
  assert (∀ a, o = Ok a → a = TxCommit tt ∧ R (visible c s) tt (st_db s2)) as Ho.
  { intros a ->. apply bind_Ok in Hb as ([] & s3 & Hs & [<- ->]%ret_Ok). split; [done|].
    by apply HR in Hs as [Hs _]; [|by eexists]. }
  destruct Hcase as [[Ed Hy]|(a & -> & Ed & _ & Hy)].
  - destruct o as [a|e]; [|by subst; auto]. destruct (Ho a eq_refl) as [-> _]. destruct Hy as [e ->]. auto.
  - destruct (Ho _ eq_refl) as [_ HRs]. rewrite <-Ed in HRs. destruct Hy as [->|(e & -> & Hn)]; auto.
Qed.

(** C31: only a final receipt settles. One step of the receipt poll always answers. It
    posts a withdrawal's settlement exactly when the node has a successful final
    receipt and the release of its hold exactly when the final receipt failed, each
    without fail when nothing stands in the way; a settlement that errs leaves other
    sessions' commits only, or that same settlement when just the acknowledgement of its
    commit was lost; and in every other case nothing is committed. *)
Theorem receipt_decides chain w c s x s' :
  cx_tx c = None → poll_one chain w c s = (x, s') →
  ∃ receipt s1 r errs, GetFinalizedReceipt chain (w_TxHash w) c s = (receipt, s1) ∧ x = Ok (r, errs) ∧
  match receipt with
  | Ok (true, success) =>
      (errs = [] ∧ r = (if success then mkPollResult 1 1 0 else mkPollResult 1 0 1) ∧
       settlement (w_ID w) success (visible c s1) tt (st_db s') ∨
       errs ≠ [] ∧ r = mkPollResult 1 0 0 ∧
       (st_db s' = st_db s ∨ st_db s' = visible c s1 ∨
        settlement (w_ID w) success (visible c s1) tt (st_db s') ∧ ∃ n, env_ack_lost (cx_env c) n = true)) ∧
      (settleable (w_ID w) success c (snd (begin_tx c s1)) → errs = [])
  | Ok (false, _) => r = mkPollResult 1 0 0 ∧ errs = [] ∧ st_db s' = st_db s
  | Err _ => r = mkPollResult 1 0 0 ∧ errs ≠ [] ∧ st_db s' = st_db s
  end.
Proof.
  intros Hc H. unfold poll_one in H. destruct (GetFinalizedReceipt chain (w_TxHash w) c s) as [receipt s1] eqn:Hr.
  erewrite bind_run in H by (unfold try; rewrite Hr; reflexivity).
  pose proof (Receipt_external _ _ _ _ _ _ Hr) as (Edb & _). exists receipt, s1.
  destruct receipt as [[[|] success]|e].
  2-3: injection H as <- <-; eexists _, _; done.
  set (settleFn := if success then SettleConfirmedWithdrawal else SettleFailedWithdrawal).
  assert (tx_refines (settleFn (w_ID w)) (settlement (w_ID w) success)) as Href
    by (destruct success; [apply SettleConfirmed_law|apply SettleFailed_law]).
  destruct (settle (w_ID w) settleFn c s1) as [y s2] eqn:Hy.
  assert (s2 = s' ∧ ∃ r errs, x = Ok (r, errs) ∧
    match y with
    | Ok _ => errs = [] ∧ r = (if success then mkPollResult 1 1 0 else mkPollResult 1 0 1)
    | Err _ => errs ≠ [] ∧ r = mkPollResult 1 0 0
    end) as (-> & r & errs & -> & Hm).
  { destruct success; (erewrite bind_run in H by (unfold try; fold settleFn; rewrite Hy; reflexivity));
      destruct y as [[]|e]; injection H as <- <-; (split; [done|]); by eexists _, _. }
  exists r, errs. split; [done|]. split; [done|]. split.
  - pose proof Hy as Hd. apply settle_cases with (R := settlement (w_ID w) success) in Hd; [|done].
    destruct y as [[]|e]; destruct Hm as [? ?]; [by left|]. right. rewrite <-Edb. done.
  - intros Hs. destruct (settle_run _ _ _ _ Hs) as [s2 E].
    assert (y = Ok tt) as -> by (unfold settleFn in Hy; congruence). by destruct Hm.
Qed.

Lemma settled_not_broadcast id target ct et ty plat db u db' :
  wd_ok db → target = WithdrawalStatusConfirmed ∨ target = WithdrawalStatusFailed →
  settled id target ct et ty plat db u db' → ¬ with_status db' id WithdrawalStatusBroadcast.
Proof.
  intros Hok Ht (row & ho & cp & je & db1 & now & oid & Hrow & Hid & Hst & _ & _ & _ & _ & _ & _ & _ & ->)
    (w & Hw & Ew & Es).
  apply list_elem_of_fmap in Hw as (x & -> & Hx). case_decide as Hd.
  - cbn in Es. destruct Ht; congruence.
  - apply Hd. done.
Qed.

(** A withdrawal settles once. After a settlement committed, settling the same
    withdrawal again, either way, never succeeds. *)
Theorem settles_once id target ct et ty plat db u db' c s r s' :
  Inv db → target = WithdrawalStatusConfirmed ∨ target = WithdrawalStatusFailed →
  settled id target ct et ty plat db u db' →
  runs_in_tx c → st_db s = db' →
  SettleConfirmedWithdrawal id c s = (r, s') ∨ SettleFailedWithdrawal id c s = (r, s') →
  ∃ e, r = Err e.
Proof.
  intros HI Ht Hs Hc Edb Hrun. destruct r as [[]|e]; [|by exists e]. exfalso.
  apply settled_not_broadcast in Hs; [|apply HI|done]. apply Hs. rewrite <-Edb.
  destruct Hrun as [H|H]; [apply SettleConfirmed_law in H as [H _]|apply SettleFailed_law in H as [H _]];
    try done; destruct H as (row & ho & cp & je & db1 & now & oid & Hrow & Hid & Hst & _); by exists row.
Qed.
End guarantees.
