(* ===== verification/WatcherGuarantees.v ===== *)
(** * What the watcher guarantees

    Cursor movement, the blocks a run of polls asked [ScanDeposits] for and that what it
    found there is recorded, no credit before finality, that a poll never orphans, and exactly which deposits [checkForReorgs] orphans. *)

From Stdlib Require Import ZArith Lia.
From stdpp Require Import prelude strings sorting gmap list_numbers.
From S2P Require Import Prelude GoStd Domain Store Effects Ledger Withdrawals WithdrawalSpecs.
From S2P Require Import WithdrawalInvariant Ports Deposits DepositSpecs Customers Solvency.
From S2P Require Import Watcher WatcherProofs System Scanner Walletd.

Section guarantees.
Context `{Scan : ChainScanner} `{!ChainScannerLaws Scan}.

(** A successful poll is one [polled] step from the database its transaction saw. *)
Lemma Execute_polled chain c s r s' :
  cx_tx c = None → TrackDeposits_Execute chain c s = (Ok r, s') →
  ∃ db, others_only c (st_db s) db ∧
    polled chain (er_Latest r) (er_Safe r) (er_Finalized r) db r (st_db s') ∧
    er_Finalized r <= er_Safe r <= er_Latest r.
Proof.
  intros Hc H. unfold TrackDeposits_Execute in H. simpl in H.
  apply bind_Ok in H as (addresses & s1 & H1 & H). apply bind_Ok in H as (registry & s2 & H2 & H).
  apply bind_Ok in H as ([[latest safe] finalized] & s3 & H3 & H).
  assert (quiet DepositAddressLister_ListDepositAddresses) as Q1
    by (unfold DepositAddressLister_ListDepositAddresses; auto with quiet).
  assert (quiet (TokenRegistry_ListTokenRegistry chain)) as Q2.
  { unfold TokenRegistry_ListTokenRegistry. apply quiet_bind; [auto with quiet|]. intros rows.
    auto with quiet external. }
  apply wrapping_Ok, Q1 in H1 as (O1 & _). apply wrapping_Ok, Q2 in H2 as (O2 & _).
  apply wrapping_Ok, Head_external in H3 as (O3 & _).
  destruct (negb _) eqn:Etags; [done|]. apply negb_false_iff, andb_true_iff in Etags as [E1 E2].
  apply (in_tx_refines _ _ _ _ _ _ _ _ (TrackDeposits_tx_refines _ _ _ _ _ _)) in H as [HR _].
  assert (er_Latest r = latest ∧ er_Safe r = safe ∧ er_Finalized r = finalized) as (-> & -> & ->).
  { destruct HR as (_ & from & to & n & m & ns & nf & t & t' & db1 & db2 & db3 & _ & _ & _ & _ & ->). done. }
  exists (visible c s3). split_and!; [|done|lia..].
  eapply others_only_trans; [exact O1|]. eapply others_only_trans; [exact O2|]. rewrite <-O3.
  unfold others_only, visible. rewrite Hc. apply rtc_once. by eexists.
Qed.

(** The chain's cursors move only in this watcher, which holds the chain's lock. *)
Definition others_keep_cursors (chain : Chain) (c : Ctx) : Prop :=
  ∀ n db tier, cursor_of (env_other (cx_env c) n db) chain tier = cursor_of db chain tier.

Lemma Execute_cursors chain c s r s' :
  cx_tx c = None → others_keep_cursors chain c → TrackDeposits_Execute chain c s = (Ok r, s') →
  let before := cursor_of (st_db s) chain CursorTierObserved in
  0 <= before < 2 ^ 63 → er_Latest r < 2 ^ 64 →
  before <= er_Latest r ∧ er_Finalized r <= er_Safe r <= er_Latest r ∧
  cursor_of (st_db s') chain CursorTierObserved = Z.min (er_Latest r) (before + maxBlocksPerScan) ∧
  cursor_of (st_db s') chain CursorTierSafe = er_Safe r ∧
  cursor_of (st_db s') chain CursorTierFinalized = er_Finalized r ∧
  (er_ScannedFrom r, er_ScannedTo r) =
    (if decide (before = er_Latest r) then (0, 0)
     else (before + 1, cursor_of (st_db s') chain CursorTierObserved)).
Proof.
  intros Hc Ho H before Hb Hl. destruct (Execute_polled _ _ _ _ _ Hc H) as (db & Hdb & HP & Htags).
  assert (cursor_of db chain CursorTierObserved = before) as Eb.
  { refine (others_only_keeps (λ d, cursor_of d chain CursorTierObserved = before) c _ _ _ Hdb eq_refl).
    intros n d Hd. by rewrite Ho. }
  pose proof HP as HP'. apply polled_cursors in HP' as (E1 & E2 & E3); [|by rewrite Eb|done].
  rewrite Eb in E1. destruct HP as (Hle & from & to & n & m & ns & nf & t & t' & db1 & db2 & db3 & HS & _ & _ & _ & Er).
  rewrite Eb in Hle. split_and!; try done; try lia.
  rewrite E1. clear E1 E2 E3. rewrite Er. cbn [er_ScannedFrom er_ScannedTo er_Latest] in *. rewrite Er in Hl, Hle.
  cbn [er_Latest] in Hl, Hle. unfold scanned in HS. rewrite Eb, scan_range_spec in HS by lia.
  unfold next_cursor. rewrite Er in HS |- *. cbn [er_Latest] in HS |- *. case_decide as E; [by destruct HS as [[= -> -> _ _] _]|].
  by destruct HS as (ts & us & now & k & l & d1 & d2 & t0 & _ & _ & _ & [= -> -> _ _] & _).
Qed.

(** A poll's cursors. Each successful poll resumes right after the persisted
    observed cursor, scans at most [maxBlocksPerScan] blocks and never past the head,
    advances the observed cursor to the end of what it scanned, and leaves the safe
    and finalized cursors at the chain's tags, in order. *)
Theorem poll_advances chain c s r s' :
  cx_tx c = None → others_keep_cursors chain c → TrackDeposits_Execute chain c s = (Ok r, s') →
  0 <= cursor_of (st_db s) chain CursorTierObserved < 2 ^ 63 → er_Latest r < 2 ^ 64 →
  let before := cursor_of (st_db s) chain CursorTierObserved in
  let after := cursor_of (st_db s') chain CursorTierObserved in
  before <= after <= er_Latest r ∧ after = Z.min (er_Latest r) (before + maxBlocksPerScan) ∧
  (er_ScannedFrom r, er_ScannedTo r) = (if decide (before = er_Latest r) then (0, 0) else (before + 1, after)) ∧
  cursor_of (st_db s') chain CursorTierSafe = er_Safe r ∧
  cursor_of (st_db s') chain CursorTierFinalized = er_Finalized r ∧
  er_Finalized r <= er_Safe r <= er_Latest r.
Proof.
  intros Hc Ho H Hb Hl before after.
  destruct (Execute_cursors _ _ _ _ _ Hc Ho H Hb Hl) as (H1 & H2 & H3 & H4 & H5 & H6).
  unfold before, after, maxBlocksPerScan in *. split_and!; try done; lia.
Qed.

(** A poll from [s] to [s'] that called [ScanDeposits] for the blocks [a] to [b], with the
    addresses and the registry it had read, and whose findings are committed: a live
    deposit for each transfer, an observation for each unsupported one. *)
Definition scanned_range (chain : Chain) (c : Ctx) (s s' : St) (a b : Z) : Prop :=
  ∃ addresses registry s1 s2 c3 s3 ts us s4,
    ListDepositAddresses c s = (Ok addresses, s1) ∧ ListTokenRegistry chain c s1 = (Ok registry, s2) ∧
    ScanDeposits addresses registry a b c3 s3 = (Ok (ts, us), s4) ∧ findings_recorded ts us (st_db s').

(** A run of polls, whether they succeed or fail, with the ranges they scanned. A poll
    that scanned nothing left the cursor alone, and if it succeeded there was nothing to
    scan; one that scanned left the cursor at the end of its range. *)
Inductive polls (chain : Chain) (c : Ctx) : St → list (Z * Z) → St → Prop :=
  | polls_nil s : polls chain c s [] s
  | polls_idle s r s1 ranges s' :
      TrackDeposits_Execute chain c s = (r, s1) →
      cursor_of (st_db s1) chain CursorTierObserved = cursor_of (st_db s) chain CursorTierObserved →
      (∀ res, r = Ok res → er_Latest res = cursor_of (st_db s) chain CursorTierObserved) →
      polls chain c s1 ranges s' → polls chain c s ranges s'
  | polls_scan s r s1 a b ranges s' :
      TrackDeposits_Execute chain c s = (r, s1) →
      scanned_range chain c s s1 a b → cursor_of (st_db s1) chain CursorTierObserved = b → a <= b →
      (∀ res, r = Ok res → b = Z.min (er_Latest res) (a + maxBlocksPerScan - 1)) →
      polls chain c s1 ranges s' → polls chain c s ((a, b) :: ranges) s'.

(** Block numbers are uint64. *)
Definition head_uint64 : Prop :=
  ∀ c s latest safe finalized s', Head c s = (Ok (latest, safe, finalized), s') → latest < 2 ^ 64.

Lemma others_only_cursor chain c db db' :
  others_keep_cursors chain c → others_only c db db' →
  cursor_of db' chain CursorTierObserved = cursor_of db chain CursorTierObserved.
Proof.
  intros Ho H. refine (others_only_keeps (λ d, cursor_of d chain CursorTierObserved = _) c _ _ _ H eq_refl).
  intros n d Hd. by rewrite Ho.
Qed.

Lemma watcher_reads_quiet chain :
  quiet DepositAddressLister_ListDepositAddresses ∧ quiet (TokenRegistry_ListTokenRegistry chain).
Proof.
  split; [unfold DepositAddressLister_ListDepositAddresses; auto with quiet|].
  unfold TokenRegistry_ListTokenRegistry. apply quiet_bind; [auto with quiet|]. intros rows.
  auto with quiet external.
Qed.

Lemma polled_scan chain latest safe finalized db r db' cursor :
  polled chain latest safe finalized db r db' → latest < 2 ^ 64 →
  cursor_of db chain CursorTierObserved = cursor → 0 <= cursor < 2 ^ 63 →
  er_Latest r = latest ∧ cursor <= latest ∧
  cursor_of db' chain CursorTierObserved = Z.min latest (cursor + maxBlocksPerScan) ∧
  (cursor ≠ latest → Z.min latest (cursor + maxBlocksPerScan) < 2 ^ 63).
Proof.
  intros HP Hl Ec Hb. pose proof (polled_cursors _ _ _ _ _ _ _ ltac:(by rewrite Ec) Hl HP) as (E & _).
  rewrite Ec in E. destruct HP as (Hle & from & to & n & m & ns & nf & t & t' & db1 & db2 & db3 & HS & _ & _ & _ & Er).
  rewrite Ec in Hle. split; [by rewrite Er|]. split; [done|]. split; [exact E|]. intros Hne.
  unfold scanned in HS. rewrite Ec, scan_range_spec, decide_False in HS by lia.
  destruct HS as (ts & us & now & k & l & d1 & d2 & t0 & _ & _ & [_ Hto] & _). exact Hto.
Qed.

Lemma Execute_scans chain c s r s' :
  head_uint64 → cx_tx c = None → others_keep_cursors chain c → TrackDeposits_Execute chain c s = (r, s') →
  let before := cursor_of (st_db s) chain CursorTierObserved in
  let after := cursor_of (st_db s') chain CursorTierObserved in
  0 <= before < 2 ^ 63 →
  (after = before ∧ ∀ res, r = Ok res → er_Latest res = before) ∨
  (scanned_range chain c s s' (before + 1) after ∧ before < after < 2 ^ 63 ∧
   ∀ res, r = Ok res → after = Z.min (er_Latest res) (before + maxBlocksPerScan)).
Proof.
  intros Hhead Hc Ho H before after Hb. destruct (watcher_reads_quiet chain) as [Q1 Q2].
  assert (∀ db, others_only c (st_db s) db → cursor_of db chain CursorTierObserved = before) as Hsame
    by (intros db Hdb; by eapply others_only_cursor).
  unfold TrackDeposits_Execute in H. simpl in H. unfold bind in H at 1.
  destruct (wrapping _ DepositAddressLister_ListDepositAddresses c s) as [[addresses|e] s1] eqn:H1.
  2:{ injection H as <- <-. left. split; [|done]. apply Hsame. by apply (quiet_wrapping _ _ Q1) in H1 as (? & _). }
  pose proof (quiet_wrapping _ _ Q1 _ _ _ _ H1) as (O1 & _). apply wrapping_Ok in H1. unfold bind in H at 1.
  destruct (wrapping _ (TokenRegistry_ListTokenRegistry chain) c s1) as [[registry|e] s2] eqn:H2;
    pose proof (quiet_wrapping _ _ Q2 _ _ _ _ H2) as (O2 & _);
    pose proof (others_only_trans _ _ _ _ O1 O2) as O12.
  2:{ injection H as <- <-. left. split; [by apply Hsame|done]. }
  apply wrapping_Ok in H2. unfold bind in H at 1.
  destruct (wrapping _ Head c s2) as [[[[latest safe] finalized]|e] s3] eqn:H3;
    pose proof (external_map_err _ _ Head_external _ _ _ _ H3) as (E3 & _); rewrite <-E3 in O12.
  2:{ injection H as <- <-. left. split; [by apply Hsame|done]. }
  apply wrapping_Ok, Hhead in H3. destruct (negb _).
  { injection H as <- <-. left. split; [by apply Hsame|done]. }
  assert (others_only c (st_db s) (visible c s3)) as Ov.
  { eapply others_only_trans; [exact O12|]. unfold others_only, visible. rewrite Hc. apply rtc_once. by eexists. }
  unfold in_tx in H. apply in_tx_out_cases in H as [(e & -> & ->)|(o & s4 & Hbody & _ & _ & Hcase)].
  { left. split; [by apply Hsame|done]. }
  assert (∀ a, o = Ok a → ∃ res, a = TxCommit res ∧
    polled chain latest safe finalized (visible c s3) res (st_db s4) ∧
    scan_made (fst (begin_tx c s3)) addresses registry (scan_range before latest) (st_db s4)) as Hok.
  { intros a ->. apply bind_Ok in Hbody as (res & s5 & Hrun & [-> ->]%ret_Ok). exists res. split; [done|].
    split; [by apply TrackDeposits_tx_refines in Hrun as [Hp _]; [|by eexists]|].
    apply TrackDeposits_tx_made in Hrun; [|by eexists].
    change (st_db (snd (begin_tx c s3))) with (visible c s3) in Hrun. by rewrite (Hsame _ Ov) in Hrun. }
  destruct Hcase as [[Ed Hr]|(a & -> & Ed & _ & Hr)].
  - left. unfold after. rewrite Ed. split; [by apply Hsame|]. intros res ->.
    destruct o as [a|e]; [|done]. destruct (Hok a eq_refl) as (res' & -> & _). by destruct Hr.
  - destruct (Hok _ eq_refl) as (res & [= ->] & HP & Hmade). rewrite <-Ed in HP, Hmade.
    destruct (polled_scan _ _ _ _ _ _ _ _ HP H3 (Hsame _ Ov) Hb) as (El & Hle & Ea & Hlt).
    fold after in Ea. assert (∀ res', r = Ok res' → er_Latest res' = latest) as Hres.
    { intros res' ->. destruct Hr as [[= ->]|(e & ? & _)]; done. }
    destruct (decide (before = latest)) as [E|E].
    + left. split; [unfold maxBlocksPerScan in Ea; lia|]. intros res' Hr'. rewrite (Hres _ Hr'). done.
    + right. unfold maxBlocksPerScan in *. rewrite <-Ea in Hlt. split; [|split; [specialize (Hlt E); lia|]].
      * rewrite scan_range_spec, decide_False in Hmade by lia. unfold maxBlocksPerScan in Hmade. rewrite <-Ea in Hmade.
        destruct Hmade as (s5 & ts & us & s6 & Hs & Hf). by eexists _, _, _, _, _, _, _, _, _.
      * intros res' Hr'. by rewrite (Hres _ Hr').
Qed.

(** C18: no block is skipped. Over any number of polls in a row, however the head moves
    and whichever of them fail, also after a commit whose acknowledgement was lost, the
    ranges for which [ScanDeposits] was called and whose findings were committed are, in
    order and once each, exactly the blocks between the observed cursor before the first
    poll and the one after the last. *)
Theorem polls_cover_every_block n chain c s x s' :
  head_uint64 → cx_tx c = None → others_keep_cursors chain c →
  watcher_loop n chain c s = (x, s') →
  0 <= cursor_of (st_db s) chain CursorTierObserved < 2 ^ 63 →
  let first := cursor_of (st_db s) chain CursorTierObserved in
  let last := cursor_of (st_db s') chain CursorTierObserved in
  ∃ rs ranges, x = Ok rs ∧ length rs = n ∧ polls chain c s ranges s' ∧ first <= last ∧
    (ranges ≫= λ '(a, b), seqZ a (b - a + 1)) = seqZ (first + 1) (last - first).
Proof.
  intros Hhead Hc Ho. revert s x. induction n as [|n IH]; intros s x H Hb first last; simpl in H.
  { injection H as <- <-. exists [], []. split_and!; [done|done|constructor|done|].
    by rewrite (Z.sub_diag _ : last - first = 0), seqZ_nil. }
  unfold bind at 1, try in H. destruct (TrackDeposits_Execute chain c s) as [r s1] eqn:Hr.
  unfold bind in H at 1. destruct (watcher_loop n chain c s1) as [y s2] eqn:Hn.
  assert (s2 = s') as -> by (destruct y; by injection H).
  destruct (Execute_scans _ _ _ _ _ Hhead Hc Ho Hr Hb) as [[Ea Hres]|(Hscan & Hlt & Hres)].
  - destruct (IH s1 y) as (rs & ranges & -> & Hlen & Hpolls & Hle & E); [done|by rewrite Ea|].
    injection H as <-. rewrite Ea in Hle, E. exists (r :: rs), ranges. split_and!; try done; [by f_equal/=|].
    by eapply polls_idle.
  - destruct (IH s1 y) as (rs & ranges & -> & Hlen & Hpolls & Hle & E); [done|fold first in Hlt; lia|].
    injection H as <-. set (mid := cursor_of (st_db s1) chain CursorTierObserved) in *.
    fold first in Hscan, Hlt, Hres. fold last in Hle, E.
    exists (r :: rs), ((first + 1, mid) :: ranges). split_and!; [done|by f_equal/=| |lia|].
    + eapply polls_scan; try done; [fold mid; lia|]. intros res ->. rewrite (Hres res eq_refl). lia.
    + rewrite bind_cons, E. replace (mid - (first + 1) + 1) with (mid - first) by lia.
      replace (mid + 1) with (first + 1 + (mid - first)) by lia. rewrite <-seqZ_app by lia. f_equal. lia.
Qed.


(** A poll never orphans. The reorg check its documentation promises is commented
    out, so the orphaned deposits after a poll are those before it, whatever the
    chain's current block hashes are. *)
Theorem poll_never_orphans chain c s r s' :
  cx_tx c = None → (∀ n db, Inv db → Inv (env_other (cx_env c) n db)) → Inv (st_db s) →
  TrackDeposits_Execute chain c s = (Ok r, s') →
  ∃ db, others_only c (st_db s) db ∧ orphans (st_db s') = orphans db.
Proof.
  intros Hc Ho HI H. destruct (Execute_polled _ _ _ _ _ Hc H) as (db & Hdb & HP & _).
  exists db. split; [done|]. refine (polled_orphans _ _ _ _ _ _ _ _ HP).
  by refine (others_only_keeps Inv c _ _ Ho Hdb HI).
Qed.

(** ** checkForReorgs *)

Section reorgs.
(** The chain's current history: the hash at each height it has. *)
Context (h : Z → option string).
Hypothesis (Hh : ∀ n c s o s', BlockHash n c s = (Ok o, s') → o = h n).

Definition is_stale (d : Deposit) : Prop :=
  dep_BlockHash d ≠ EmptyString ∧ h (dep_BlockNumber d) ≠ Some (dep_BlockHash d).
#[export] Instance is_stale_dec d : Decision (is_stale d).
Proof. unfold is_stale. apply _. Defined.
Definition stale_ids (ds : list Deposit) : list string := map dep_ID (filter is_stale ds).

Definition orphaned_if (ids : list string) (d d' : DepositRow) : Prop :=
  if decide (dr_id d ∈ ids) then ∃ now, d' = dr_transition DepositOrphaned now d else d' = d.

Lemma orphaned_if_compose ids1 ids2 d d1 d2 :
  orphaned_if ids1 d d1 → orphaned_if ids2 d1 d2 → orphaned_if (ids1 ++ ids2) d d2.
Proof.
  unfold orphaned_if. intros H1 H2. assert (dr_id d1 = dr_id d) as E.
  { destruct (decide (dr_id d ∈ ids1)); [by destruct H1 as [now ->]|by subst]. }
  rewrite E in H2. destruct (decide (dr_id d ∈ ids1)), (decide (dr_id d ∈ ids2)).
  - rewrite decide_True by set_solver. destruct H1 as [n1 ->], H2 as [n2 ->]. by exists n2.
  - rewrite decide_True by set_solver. by subst.
  - rewrite decide_True by set_solver. by subst.
  - rewrite decide_False by set_solver. by subst.
Qed.

Lemma Forall2_orphaned_if_compose ids1 ids2 l l1 l2 :
  Forall2 (orphaned_if ids1) l l1 → Forall2 (orphaned_if ids2) l1 l2 →
  Forall2 (orphaned_if (ids1 ++ ids2)) l l2.
Proof.
  intros H1. revert l2. induction H1 as [|d d1 l l1 Hd _ IH]; intros l2 H2.
  - apply Forall2_nil_inv_l in H2 as ->. constructor.
  - apply Forall2_cons_inv_l in H2 as (d2 & l2' & Hd2 & H2 & ->). constructor; [|by apply IH].
    by eapply orphaned_if_compose.
Qed.

Lemma Forall2_orphaned_none l : Forall2 (orphaned_if []) l l.
Proof. induction l; constructor; [|done]. unfold orphaned_if. by rewrite decide_False by set_solver. Qed.

Lemma orphaned_rows id db u db' :
  orphaned id db u db' → Forall2 (orphaned_if [id]) (t_deposits db) (t_deposits db').
Proof.
  intros (now & oid & _ & ->). tables. unfold update_where.
  induction (t_deposits db) as [|d l IH]; simpl; constructor; [|done].
  unfold orphaned_if. case_decide.
  - rewrite decide_True by set_solver. by exists now.
  - by rewrite decide_False by set_solver.
Qed.

Lemma check_pending_orphans cache pending c s u s' :
  runs_in_tx c → (∀ n v, cache !! n = Some v → v = h n) →
  check_pending cache pending c s = (Ok u, s') →
  Forall2 (orphaned_if (stale_ids pending)) (t_deposits (st_db s)) (t_deposits (st_db s')).
Proof.
  intros Hc. revert cache s. induction pending as [|d pending IH]; intros cache s Hcache H; simpl in H.
  { apply ret_Ok in H as [_ ->]. apply Forall2_orphaned_none. }
  destruct (String.eqb_spec (dep_BlockHash d) EmptyString) as [E|E].
  { unfold stale_ids. rewrite filter_cons_False by (unfold is_stale; naive_solver). by eapply IH. }
  apply bind_Ok in H as (cached & s1 & Hca & H).
  assert (cached = h (dep_BlockNumber d) ∧ t_deposits (st_db s1) = t_deposits (st_db s)) as [-> <-].
  { destruct (cache !! dep_BlockNumber d) as [v|] eqn:Ev.
    - apply ret_Ok in Hca as [-> ->]. split; [by apply Hcache|done].
    - apply wrapping_Ok in Hca. split; [by eapply Hh|].
      by apply BlockHash_external in Hca as (-> & _). }
  apply bind_Ok in H as (u1 & s2 & Ho & H).
  apply IH in H.
  2:{ intros n v. destruct (decide (n = dep_BlockNumber d)) as [->|Hne].
      - rewrite lookup_insert_eq. by intros [= <-].
      - rewrite lookup_insert_ne by done. apply Hcache. }
  unfold stale_ids. destruct (decide (is_stale d)) as [Hs|Hs].
  - rewrite filter_cons_True by done. change (map dep_ID (d :: filter is_stale pending))
      with ([dep_ID d] ++ stale_ids pending). eapply Forall2_orphaned_if_compose; [|exact H].
    rewrite bool_decide_false in Ho by apply Hs. simpl in Ho. apply wrapping_Ok in Ho.
    apply OrphanDeposit_refines in Ho as [Ho _]; [|done]. by eapply orphaned_rows.
  - rewrite filter_cons_False by done.
    assert (h (dep_BlockNumber d) = Some (dep_BlockHash d)) as Eh.
    { destruct (decide (h (dep_BlockNumber d) = Some (dep_BlockHash d))); [done|]. by destruct Hs. }
    rewrite Eh, bool_decide_true in Ho by done. by apply ret_Ok in Ho as [_ ->].
Qed.

(** The reorg check is exact. [checkForReorgs] orphans a deposit exactly when it is
    among the observed or safe ones it looks at (the 500 lowest), has a recorded block
    hash, and the chain's current hash at its height differs or is gone; every other
    deposit is left untouched. *)
Theorem checkForReorgs_exact chain c s u s' :
  runs_in_tx c → checkForReorgs chain c s = (Ok u, s') →
  Forall2 (orphaned_if (stale_ids (map deposit_of_row (pending_rows chain (st_db s)))))
    (t_deposits (st_db s)) (t_deposits (st_db s')).
Proof.
  intros Hc H. unfold checkForReorgs in H. simpl in H. apply bind_Ok in H as (pending & s1 & Hp & H).
  apply wrapping_Ok in Hp. unfold DepositRepository_ListPendingDeposits in Hp. m_straight.
  match goal with Hm : mapM _ _ _ _ = _ |- _ =>
    rewrite (mapM_ret (λ r, dr_amount r)) in Hm by (intros; apply scan_big_eq) end. simplify_eq.
  destruct (map deposit_of_row (pending_rows chain (st_db s))) as [|d pending] eqn:E.
  - apply ret_Ok in H as [_ ->]. apply Forall2_orphaned_none.
  - refine (check_pending_orphans ∅ (d :: pending) c _ u s' Hc _ H). intros n v. by rewrite lookup_empty.
Qed.
End reorgs.
End guarantees.
