(* ===== verification/Demo.v ===== *)
(** * A concrete platform

    Concrete instances of the parameters of the model (the node, the signer, the
    UUID library, the environment) and a run of all three binaries over
    them: two customers, a deposit that is scanned, finalized and credited, a
    withdrawal that is approved, broadcast and confirmed, and one that awaits an
    operator. The witnesses of Witnesses.v are evaluated on it. *)

From Stdlib Require Import ZArith Lia Ascii.
From stdpp Require Import prelude strings pretty gmap.
From S2P Require Import Prelude GoStd Json Rfc3339 Sha256 Domain Store Effects Ledger Transfers Withdrawals.
From S2P Require Import WithdrawalSpecs WithdrawalInvariant Ports Broadcast Deposits DepositSpecs.
From S2P Require Import Customers Solvency CreateWithdrawals Idempotency Handlers ApiJson Router History Watcher System Walletd.

(** ** The environment: nothing fails, ids are fresh, time passes *)

Definition demo_uuid (n : nat) : string := "u" +:+ big_String (Z.of_nat n).
Definition demo_env : Env :=
  mkEnv (λ _, None) (λ _, false) demo_uuid (λ n, Z.of_nat n) (λ _ db, db).
Definition demo_ctx : Ctx := mkCtx demo_env None.

Lemma demo_uuid_inj n m : demo_uuid n = demo_uuid m → n = m.
Proof.
  unfold demo_uuid. intros E%(f_equal (λ s, big_SetString10 (drop_bytes 1 s))).
  change (big_SetString10 (big_String (Z.of_nat n)) = big_SetString10 (big_String (Z.of_nat m))) in E.
  rewrite !big_SetString10_String in E. injection E as E. lia.
Qed.

(** ** The parameters *)

Definition demo_uuid_Parse (s : string) : option bytes :=
  if String.eqb s EmptyString || contains_byte "|"%char s then None else Some s.

(** An address spelled from the salt, and a transaction hash from the payload. *)
Definition demo_hex (n : nat) (b : bytes) : string :=
  "0x" +:+ hex_EncodeToString (big_FillBytes n (big_SetBytes b)).
Definition demo_DeriveAddress : DepositAddressDeriver :=
  {| DeriveAddress := λ salt, Ok (demo_hex 20 salt) |}.

Definition demo_FeeEstimator : FeeEstimator :=
  {| EstimateFee := λ ch a z, ret (mkFeeEstimate 900 100 (Some 1000)) |}.

Definition demo_deposit (to : string) : ObservedTransfer :=
  mkObservedTransfer ChainBase AssetETH to (demo_hex 32 "deposit") (-1) (5 * 10 ^ 18) 10
    (demo_hex 32 "block10").
Definition demo_Scanner : ChainScanner :=
  {| Head := ret (20, 15, 12);
     BlockHash := λ n, ret (Some (demo_hex 32 "block10"));
     ScanDeposits := λ ks _ a b,
       ret (match ks with
            | to :: _ => if (a <=? 10) && (10 <=? b) then [demo_deposit to] else []
            | [] => []
            end, []) |}.

Definition demo_Signer : Signer :=
  {| Sign := λ ch digest, ret (big_FillBytes 65 (big_SetBytes digest)) |}.
Definition demo_Broadcaster : TransactionBroadcaster :=
  {| BuildUnsignedWithdrawal := λ ch a n to v,
       let tx := ch +:+ a +:+ big_String n +:+ to +:+ big_String v in ret (tx, tx);
     AssembleSignedTx := λ u sig, Ok (String "t"%char (u +:+ sig), demo_hex 32 u);
     SendRawTransaction := λ ch tx, ret tt;
     GetFinalizedReceipt := λ ch h, ret (true, true) |}.

#[export] Existing Instance demo_DeriveAddress.
#[export] Existing Instance demo_FeeEstimator.
#[export] Existing Instance demo_Scanner.
#[export] Existing Instance demo_Signer.
#[export] Existing Instance demo_Broadcaster.

#[export] Instance demo_ScannerLaws : ChainScannerLaws demo_Scanner.
Proof. split; intros; apply external_ret. Qed.
#[export] Instance demo_SignerLaws : SignerLaws demo_Signer.
Proof. split; intros; apply external_ret. Qed.
#[export] Instance demo_BroadcasterLaws : TransactionBroadcasterLaws demo_Broadcaster.
Proof.
  split; intros; try (apply quiet_external, external_ret); try apply external_ret.
  simpl in *. by simplify_eq.
Qed.
Lemma demo_Fee_quiet ch a z : quiet (EstimateFee ch a z).
Proof. apply quiet_external, external_ret. Qed.

(** Request bodies. *)
Definition demo_destination : string := "0x00000000000000000000000000000000000000aa".
Definition withdrawal_body (id amount : string) : bytes :=
  Marshal (WithdrawalRequest_json Datatypes.id (mkWithdrawalBody id ChainBase AssetETH amount demo_destination)).
Definition transfer_body (source destination : string) : bytes :=
  Marshal (TransferRequest_json id (mkTransferBody source destination ChainBase AssetETH "700")).
Definition approve_body : bytes := Marshal (ApproveWithdrawalRequest_json (mkApproveBody "operator" "checked")).
(** Parameters bind when there is one value of the right form. *)
Definition demo_query {A} (parse : string → option A) (required : bool) (name : string)
    (query : list (string * string)) : QueryBinding A :=
  match map snd (filter (λ p, fst p = name) query) with
  | [] => if required then QueryRequired else QueryBound None
  | [v] => match parse v with
           | Some a => QueryBound (Some a)
           | None => QueryInvalid (ErrText "invalid value")
           end
  | _ => QueryInvalid (ErrText "multiple values for single value parameter")
  end.
#[export] Instance demo_runtime : OapiRuntime := {
  BindPathUUID s := match demo_uuid_Parse s with Some b => Ok b | None => Err (ErrText "invalid UUID") end;
  BindHeaderString v := if String.eqb v EmptyString then Err (ErrText "value is empty") else Ok v;
  BindQueryString := demo_query Some;
  BindQueryInteger := demo_query big_SetString10;
}.
Definition demo_redirect (r : Request) (path : string) : list WriterCall := [WriteHeader 307].
Definition demo_route : Request → Endpoint := mux_route id encode_problem demo_redirect.

(** Two hours east of Greenwich. *)
Definition demo_zone (t : Z) : Z := 120.
Definition demo_hmac : bytes → bytes := HMAC "secret".

Definition demo_run (es : list Entry) (s : St) : St :=
  run_entries demo_uuid_Parse id encode_problem (encode_payload id demo_zone) (decode_transfer demo_uuid_Parse)
    (decode_withdrawal demo_uuid_Parse) decode_approve sha256 demo_hmac demo_zone demo_route es demo_ctx s.

Definition post_request (path key body : string) : Request :=
  mkRequest "POST" ("/v1" +:+ path) ("/v1" +:+ path) [] "Bearer token" [key] (Some body).
Definition post (path key body : string) : Entry := EnApi (post_request path key body).

(** ** The scenario *)

Definition demo_db0 : DB := migrated_db demo_uuid 0.
Definition start (db : DB) (tick : nat) : St := mkSt db false tick [] false.

(** Two customers; a poll that credits a deposit to one of them. *)
Definition demo_s1 : St :=
  demo_run [post "/customers" "k1" ""; post "/customers" "k2" ""; EnWatch ChainBase] (start demo_db0 100).

(** Two withdrawal requests, the second above the threshold. *)
Definition demo_customer (n : nat) : string := default EmptyString (map cu_id (t_customers (st_db demo_s1)) !! n).
Definition demo_s2 : St :=
  demo_run [post "/withdrawals" "k3" (withdrawal_body (demo_customer 0) "100000000000000000");
            post "/withdrawals" "k4" (withdrawal_body (demo_customer 0) "2000000000000000000")]
    demo_s1.
Definition demo_withdrawal (n : nat) : string := default EmptyString (map wr_id (t_withdrawals (st_db demo_s2)) !! n).

(** The first is broadcast, and confirmed; a transfer moves funds to the other customer. *)
Definition demo_s3 : St := demo_run [EnBroadcast ChainBase true] demo_s2.
Definition demo_s4 : St :=
  demo_run [EnPollReceipts ChainBase;
            post "/transfers" "k5" (transfer_body (demo_customer 0) (demo_customer 1))] demo_s3.

(** ** It is a run of the system *)

Lemma demo_run_preserves (I : DB → Prop) es s :
  (∀ db db', I db → commit db db' → I db') → I (st_db s) → I (st_db (demo_run es s)).
Proof.
  intros HI. apply run_entries_preserves; [apply demo_Fee_quiet|try apply _..|exact HI|done|done].
Qed.

Lemma demo_run_commits es s : rtc commit (st_db s) (st_db (demo_run es s)).
Proof. apply demo_run_preserves; [intros; by eapply rtc_r|done]. Qed.

Lemma demo_db0_reachable : reachable demo_db0.
Proof. exists demo_uuid, 0. split; [apply demo_uuid_inj|done]. Qed.
Lemma demo_run_reachable es s : reachable (st_db s) → reachable (st_db (demo_run es s)).
Proof. apply demo_run_preserves, reachable_commit. Qed.
Lemma demo_s1_reachable : reachable (st_db demo_s1).
Proof. apply demo_run_reachable, demo_db0_reachable. Qed.
Lemma demo_s2_reachable : reachable (st_db demo_s2).
Proof. apply demo_run_reachable, demo_s1_reachable. Qed.
Lemma demo_s3_reachable : reachable (st_db demo_s3).
Proof. apply demo_run_reachable, demo_s2_reachable. Qed.
Lemma demo_s4_reachable : reachable (st_db demo_s4).
Proof. apply demo_run_reachable, demo_s3_reachable. Qed.
Lemma demo_s2_s4 : rtc commit (st_db demo_s2) (st_db demo_s4).
Proof. transitivity (st_db demo_s3); [unfold demo_s3|unfold demo_s4]; apply demo_run_commits. Qed.

(** A process that starts on a snapshot of the scenario. *)
Definition idle (s : St) : St := start (st_db s) 400.

Lemma run_ok {A} (p : result A * St) a : fst p = Ok a → p = (Ok a, snd p).
Proof. destruct p. simpl. by intros ->. Qed.

Lemma Ok_inj {A} (a b : A) : Ok a = Ok b → a = b.
Proof. congruence. Qed.

Definition demo_server : Handler :=
  server demo_uuid_Parse id encode_problem (encode_payload id demo_zone) (decode_transfer demo_uuid_Parse)
    (decode_withdrawal demo_uuid_Parse) decode_approve
    (TxR := postgres_TransactionRepository demo_zone demo_uuid_Parse demo_hmac) demo_route.

(** Rows of the final database. *)
Definition demo_nonce : NonceRow :=
  default (mkNonceRow "" 0 0) (t_chain_nonce_state (st_db demo_s4) !! 0%nat).
Definition demo_wrow : WithdrawalRow :=
  default (mkWithdrawalRow "" "" "" "" 0 "" WithdrawalStatusCreated "" 0 0 None None None None None None)
    (t_withdrawals (st_db demo_s4) !! 0%nat).
Definition demo_drow : DepositRow :=
  default (mkDepositRow "" "" "" "" "" 0 0 0 None DepositObserved 0 0) (t_deposits (st_db demo_s4) !! 0%nat).
(** The same rows before the broadcast. *)
Definition demo_wrow2 : WithdrawalRow := default demo_wrow (t_withdrawals (st_db demo_s2) !! 0%nat).
Definition demo_drow2 : DepositRow := default demo_drow (t_deposits (st_db demo_s2) !! 0%nat).

(** A claim, a settled withdrawal's receipt step, and the poll of the scenario. *)
Definition demo_claim : result (option (Withdrawal * Z)) * St := claim ChainBase demo_ctx (idle demo_s2).
Definition demo_claimed : Withdrawal * Z :=
  match fst demo_claim with
  | Ok (Some p) => p
  | _ => (mkWithdrawal "" "" "" "" 0 "" WithdrawalStatusCreated 0 None "" "" "" None "" None, 0)
  end.

(** The broadcast withdrawal as the receipt poll lists it, and its settlement. *)
Definition demo_broadcasted : Withdrawal :=
  match fst (ListBroadcastWithdrawals ChainBase (mkCtx demo_env (Some (st_db demo_s3))) (idle demo_s3)) with
  | Ok (w :: _) => w
  | _ => fst demo_claimed
  end.
Definition demo_brow : WithdrawalRow := default demo_wrow (t_withdrawals (st_db demo_s3) !! 0%nat).
Definition demo_settlement : result unit * St :=
  in_tx "begin" "commit" (SettleConfirmedWithdrawal (w_ID demo_broadcasted)) demo_ctx (idle demo_s3).

(** Polls of the watcher on the migrated database. *)
Definition demo_poll0 : result ExecuteResult * St :=
  TrackDeposits_Execute ChainBase demo_ctx (start demo_db0 100).
Definition demo_result0 : ExecuteResult :=
  match fst demo_poll0 with Ok r => r | Err _ => mkExecuteResult 0 0 0 0 0 0 0 0 0 0 end.
Definition demo_poll1 : result ExecuteResult * St := TrackDeposits_Execute ChainBase demo_ctx (idle demo_s1).
Definition demo_result1 : ExecuteResult :=
  match fst demo_poll1 with Ok r => r | Err _ => mkExecuteResult 0 0 0 0 0 0 0 0 0 0 end.
Definition demo_polls : result (list (result ExecuteResult)) * St :=
  watcher_loop 2 ChainBase demo_ctx (start demo_db0 100).

(** Two observed deposits, the first in a block that is no longer the chain's. *)
Definition demo_observed : DB :=
  set_deposits
    [mkDepositRow "d1" ChainBase AssetETH demo_destination (demo_hex 32 "t1") (-1) 5 18
       (Some (demo_hex 32 "stale")) DepositObserved 0 0;
     mkDepositRow "d2" ChainBase AssetETH demo_destination (demo_hex 32 "t2") (-1) 5 19
       (Some (demo_hex 32 "block10")) DepositObserved 0 0] demo_db0.
Definition demo_check : result unit * St :=
  checkForReorgs ChainBase (mkCtx demo_env (Some demo_observed)) (start demo_observed 100).

(** A chain that reorganises: a poll observes a deposit of block 10 at the head; the
    block is then replaced by another one without the transfer, and becomes final. *)
Definition before_reorg : ChainScanner :=
  {| Head := ret (10, 5, 5);
     BlockHash := λ n, ret (Some (demo_hex 32 "block10"));
     ScanDeposits := ScanDeposits (ChainScanner:=demo_Scanner) |}.
Definition after_reorg : ChainScanner :=
  {| Head := ret (20, 15, 12);
     BlockHash := λ n, ret (Some (demo_hex 32 "other10"));
     ScanDeposits := λ _ _ _ _, ret ([], []) |}.
#[export] Instance before_reorg_Laws : ChainScannerLaws before_reorg.
Proof. split; intros; apply external_ret. Qed.
#[export] Instance after_reorg_Laws : ChainScannerLaws after_reorg.
Proof. split; intros; apply external_ret. Qed.
Definition demo_reorged : St :=
  snd (TrackDeposits_Execute (Scan:=before_reorg) ChainBase demo_ctx
         (demo_run [post "/customers" "k1" ""] (start demo_db0 100))).
Definition demo_phantom : result ExecuteResult * St :=
  TrackDeposits_Execute (Scan:=after_reorg) ChainBase demo_ctx (idle demo_reorged).

(** The check for reorgs run at that point, in a transaction of its own. *)
Definition demo_recheck_ctx : Ctx := mkCtx demo_env (Some (st_db demo_reorged)).
Definition demo_recheck : result unit * St :=
  checkForReorgs (Scan:=after_reorg) ChainBase demo_recheck_ctx (idle demo_reorged).
Definition demo_lost : DepositRow := Eval vm_compute in hd demo_drow (t_deposits (st_db demo_reorged)).

Lemma poll_reachable (Scan : ChainScanner) `{!ChainScannerLaws Scan} s :
  reachable (st_db s) → reachable (st_db (snd (TrackDeposits_Execute (Scan:=Scan) ChainBase demo_ctx s))).
Proof.
  intros HR. destruct (TrackDeposits_Execute _ _ _) as [r s'] eqn:E. simpl.
  exact (TrackDeposits_preserves reachable reachable_commit ChainBase demo_ctx s r s' eq_refl (λ _ _ H, H) HR E).
Qed.
Lemma demo_reorged_reachable : reachable (st_db demo_reorged).
Proof. apply (poll_reachable before_reorg), demo_run_reachable, demo_db0_reachable. Qed.

Lemma demo_s4_eq : demo_s4 =
  demo_run [EnPollReceipts ChainBase;
            post "/transfers" "k5" (transfer_body (demo_customer 0) (demo_customer 1))] demo_s3.
Proof. reflexivity. Qed.

Lemma demo_s3_eq : demo_s3 = demo_run [EnBroadcast ChainBase true] demo_s2.
Proof. reflexivity. Qed.
Lemma demo_s2_eq : demo_s2 =
  demo_run [post "/withdrawals" "k3" (withdrawal_body (demo_customer 0) "100000000000000000");
            post "/withdrawals" "k4" (withdrawal_body (demo_customer 0) "2000000000000000000")]
    demo_s1.
Proof. reflexivity. Qed.
Lemma demo_s1_eq : demo_s1 =
  demo_run [post "/customers" "k1" ""; post "/customers" "k2" ""; EnWatch ChainBase] (start demo_db0 100).
Proof. reflexivity. Qed.

(** The snapshots are evaluated only by [vm_compute]. *)
#[global] Opaque demo_uuid demo_s1 demo_s2 demo_s3 demo_s4 demo_reorged.
(** A named run unfolds to the run before the run itself is unfolded. *)
#[global] Strategy expand [demo_poll0 demo_poll1 demo_polls demo_check demo_claim demo_settlement].

(** A later process, whose ids start another series. *)
Definition later_uuid (n : nat) : string := "v" +:+ pretty n.
Definition later_env : Env :=
  mkEnv (λ _, None) (λ _, false) later_uuid (λ n, Z.of_nat n) (λ _ db, db).
Definition later_ctx (tx : option DB) : Ctx := mkCtx later_env tx.

Lemma later_uuid_inj n m : later_uuid n = later_uuid m → n = m.
Proof.
  change (String "v"%char (pretty n) = String "v"%char (pretty m) → n = m). intros E. injection E as E.
  by apply (inj pretty) in E.
Qed.

Lemma later_fresh (l : list string) n : forallb (λ x, HasPrefix x "u") l = true → later_uuid n ∉ l.
Proof.
  intros H Hin. rewrite forallb_forall in H. by apply list_elem_of_In, H in Hin.
Qed.

Definition demo_new_customer : Customer :=
  match fst (CreateCustomer_Execute demo_uuid_Parse (later_ctx (Some (st_db demo_s4))) (idle demo_s4)) with
  | Ok cust => cust
  | Err _ => mkCustomer "" 0 ""
  end.

(** One transfer request, sent to the middleware by the later process. *)
Definition demo_transfer_request : Request :=
  post_request "/transfers" "k9" (transfer_body (demo_customer 0) (demo_customer 1)).
Definition demo_send (s : St) : result StoredResponse * St :=
  IdempotencyMiddleware encode_problem sha256 demo_server demo_transfer_request (later_ctx None) s.
Definition demo_transfer_answer : StoredResponse :=
  match fst (demo_send (idle demo_s4)) with Ok resp => resp | Err _ => mkStoredResponse 0 "" "" end.
Definition demo_resend : result StoredResponse * St := demo_send (snd (demo_send (idle demo_s4))).
Definition demo_second_answer : StoredResponse :=
  match fst demo_resend with Ok resp => resp | Err _ => mkStoredResponse 0 "" "" end.
(** A transfer whose body does not decode. *)
Definition demo_bad_request : Request := post_request "/transfers" "k10" "garbage".
Definition demo_refused : result StoredResponse * St :=
  IdempotencyMiddleware encode_problem sha256 demo_server demo_bad_request demo_ctx (idle demo_s4).
Definition demo_refusal : StoredResponse :=
  match fst demo_refused with Ok resp => resp | Err _ => mkStoredResponse 0 "" "" end.
#[global] Strategy expand [demo_send demo_resend demo_refused].
