(* ===== verification/DemoSessions.v ===== *)
(** * Sessions on the concrete platform

    Schedules of sessions on the database of Demo.v: two transfers in opposite
    directions between the same two customers, one of which waits for the other, two
    approvals of one withdrawal, and a transfer that meets a poll crediting the same two
    customers. *)

From Stdlib Require Import ZArith Lia.
From stdpp Require Import prelude strings pretty gmap.
From S2P Require Import Prelude GoStd Domain Store Effects Ledger Transfers Deposits Idempotency System.
From S2P Require Import Sql Sessions Interleaving Deadlock Demo.

(** Steps of sessions in the order given: which session, the id it may draw, the time. *)
Fixpoint schedule (ms : list (nat * string * Z)) (w : World) : option World :=
  match ms with
  | [] => Some w
  | (i, id, t) :: ms => match session_step i id t w with Some w' => schedule ms w' | None => None end
  end.

Lemma schedule_moves ms w w' : schedule ms w = Some w' → rtc moves w w'.
Proof.
  revert w. induction ms as [|[[i id] t] ms IH]; simpl; intros w H; [by simplify_eq|].
  destruct (session_step i id t w) as [w1|] eqn:E; [|done]. eapply rtc_l; [by exists i, id, t|by apply IH].
Qed.

(** [n] steps of session [i], drawing ids of the later process from the [k]-th on. *)
Definition steps_of (i n k : nat) : list (nat * string * Z) := map (λ m, (i, later_uuid m, 500)) (seq k n).

(** ** Two transfers *)

Definition demo_key_row (key : string) (t : Transfer) : IdempotencyRow := mkIdempotencyRow key "hash" 201 (tf_ID t) "application/json".
Definition demo_transfer_session (from to : nat) (amount : Z) (key : string) : Prog unit :=
  request_prog (transfer_prog (mkTransferRequest (demo_customer from) (demo_customer to) ChainBase AssetETH (Some amount) key))
    (demo_key_row key).
Definition opened (p : Prog unit) : Session := mkSession p [] [] [] [].

Definition demo_opened : World :=
  put 1 (opened (demo_transfer_session 1 0 200 "s1"))
    (put 0 (opened (demo_transfer_session 0 1 300 "s0")) (mkWorld (st_db demo_s4) ∅)).

(** Both have asked for the locks; the first has got them and done all but commit. *)
Definition demo_meeting_run : option World := schedule (steps_of 1 1 0 ++ steps_of 0 12 1) demo_opened.
Definition demo_meeting : World := default demo_opened demo_meeting_run.

Lemma demo_opened_runs : runs_from (st_db demo_s4) demo_opened.
Proof.
  apply (rtc_l _ _ (put 0 (opened (demo_transfer_session 0 1 300 "s0")) (mkWorld (st_db demo_s4) ∅))).
  - apply (w_begin _ 0 (st_db demo_s4)); [done|by apply as_transfer].
  - apply rtc_once, (w_begin _ 1 (st_db demo_s4)); [done|by apply as_transfer].
Qed.

Lemma demo_meeting_moves : rtc moves demo_opened demo_meeting.
Proof.
  assert (is_Some demo_meeting_run) as [w Hw].
  { assert (match demo_meeting_run with Some _ => true | None => false end = true) as H by (vm_compute; reflexivity).
    destruct demo_meeting_run; [by eexists|done]. }
  unfold demo_meeting. rewrite Hw. by eapply schedule_moves.
Qed.

Lemma demo_meeting_runs : runs_from (st_db demo_s4) demo_meeting.
Proof. unfold runs_from. transitivity demo_opened; [apply demo_opened_runs|apply moves_wsteps, demo_meeting_moves]. Qed.

(** ** A poll that credits two deposits meets a transfer *)

(** The deposits table as the poll has promoted it: one deposit of each customer, the
    second customer's in the older block. *)
Definition demo_credit_db : DB :=
  let to n := default EmptyString (map da_address (t_deposit_addresses (st_db demo_s4)) !! n) in
  let row id n block := mkDepositRow id ChainBase AssetETH (to n) (demo_hex 32 id) (-1) 400 block
                          (Some (demo_hex 32 "block")) DepositFinalized 0 0 in
  set_deposits (t_deposits (st_db demo_s4) ++ [row "d1" 1%nat 21; row "d2" 0%nat 22]) (st_db demo_s4).

(** The crediting of the poll (session 0), and a transfer (session 1). *)
Definition demo_crediting : World :=
  put 1 (opened (demo_transfer_session 0 1 300 "s0")) (put 0 (opened (bindP (credit_prog ChainBase) (λ _, Return tt)))
    (mkWorld demo_credit_db ∅)).

(** The poll credits the first deposit and journals the second; then the transfer locks
    the account the second deposit is for, and each needs what the other has. *)
Definition demo_deadlock_run : option World := schedule (steps_of 0 16 0 ++ steps_of 1 2 20) demo_crediting.

Lemma both_wait w :
  match w_sessions w !! 0%nat, w_sessions w !! 1%nat with
  | Some a, Some b => (bool_decide (waits_on a b) && bool_decide (waits_on b a))%bool
  | _, _ => false
  end = true → waits_for w 0 1 ∧ waits_for w 1 0.
Proof.
  destruct (w_sessions w !! 0%nat) as [a|] eqn:Ea, (w_sessions w !! 1%nat) as [b|] eqn:Eb; [|done..].
  intros H. bool_to_prop. split; [exists a, b|exists b, a]; by split_and!.
Qed.

(** Crediting is outside the discipline. A poll that credits two deposits, whose
    postings lock the accounts for their foreign keys in the order of the blocks, and a
    transfer between the same two customers can come to wait for each other, and
    neither can go on. *)
Theorem crediting_can_deadlock :
  ∃ w, demo_deadlock_run = Some w ∧ waits_for w 0 1 ∧ waits_for w 1 0 ∧
    ∀ id t, session_step 0 id t w = None ∧ session_step 1 id t w = None.
Proof.
  assert (match demo_deadlock_run with
          | Some w => match w_sessions w !! 0%nat, w_sessions w !! 1%nat with
                      | Some a, Some b => (bool_decide (waits_on a b) && bool_decide (waits_on b a))%bool
                      | _, _ => false
                      end
          | None => false end = true) as H by (vm_compute; reflexivity).
  destruct demo_deadlock_run as [w|]; [|done]. exists w. apply both_wait in H as [H01 H10].
  split_and!; [done..|]. intros id t. split; by eapply waits_stuck.
Qed.

(** ** Two operators approve the same withdrawal *)

Definition demo_approval_session (actor key : string) : Prog unit :=
  request_prog (approve_prog (demo_withdrawal 1) actor "checked") (λ w, mkIdempotencyRow key "hash" 200 (w_ApprovedBy w) "application/json").
Definition demo_approvals : World :=
  put 1 (opened (demo_approval_session "bob" "a1")) (put 0 (opened (demo_approval_session "ann" "a0")) (mkWorld (st_db demo_s4) ∅)).

(** The second waits for the row. *)
Example second_approval_waits : schedule (steps_of 0 1 0 ++ steps_of 1 1 20) demo_approvals = None.
Proof. vm_compute. reflexivity. Qed.

(** Once it has it, it reads the status the first has committed, and gives up before its
    UPDATE: one approval, one key. *)
Example second_approval_refused :
  option_map (λ w, (size (w_sessions w), length (t_idempotency_keys (w_db w)),
                    omap wr_approved_by (t_withdrawals (w_db w))))
    (schedule (steps_of 0 7 0 ++ steps_of 1 2 20) demo_approvals) =
  Some (0%nat, S (length (t_idempotency_keys (st_db demo_s4))), ["ann"]).
Proof. vm_compute. reflexivity. Qed.

(** ** Witnesses *)

(** The first transfer commits. *)
Definition demo_met : World := default demo_meeting (session_step 0 (later_uuid 50) 500 demo_meeting).

Lemma demo_met_step : session_step 0 (later_uuid 50) 500 demo_meeting = Some demo_met.
Proof.
  assert (match session_step 0 (later_uuid 50) 500 demo_meeting with Some _ => true | None => false end = true) as H
    by (vm_compute; reflexivity).
  unfold demo_met. by destruct (session_step 0 _ _ _).
Qed.

Lemma interleavings_refine_commits_witness :
  (w_db demo_met = w_db demo_meeting ∨ commit (w_db demo_meeting) (w_db demo_met)) ∧
  length (t_journal_entries (w_db demo_met)) = S (length (t_journal_entries (w_db demo_meeting))) ∧
  size (w_sessions demo_met) = 1%nat.
Proof.
  split; [|split; vm_compute; reflexivity].
  apply (interleavings_refine_commits _ _ _ demo_s4_reachable demo_meeting_runs).
  eapply w_session, demo_met_step.
Defined.

Lemma sessions_never_deadlock_witness :
  size (w_sessions demo_meeting) = 2%nat ∧
  ∃ i, ∀ id t, unused_id id demo_meeting → ∃ w', session_step i id t demo_meeting = Some w'.
Proof.
  split; [vm_compute; reflexivity|].
  apply (sessions_never_deadlock _ _ demo_s4_reachable demo_meeting_runs).
  intros E%(f_equal size). revert E. vm_compute. discriminate.
Defined.

(** Both transfers commit, one after the other. *)
Definition demo_end_run : option World :=
  schedule (steps_of 1 1 0 ++ steps_of 0 13 1 ++ steps_of 1 12 20) demo_opened.

Lemma sessions_all_end_witness :
  (∃ bound, ∀ n w', nsteps moves n demo_opened w' → (n <= bound)%nat) ∧
  option_map (λ w, (size (w_sessions w), length (t_journal_entries (w_db w)))) demo_end_run =
    Some (0%nat, (2 + length (t_journal_entries (w_db demo_opened)))%nat).
Proof.
  split; [|vm_compute; reflexivity].
  apply (sessions_all_end _ _ demo_s4_reachable demo_opened_runs).
Defined.
