(* ===== verification/DemoNode.v ===== *)
(** * A concrete node

    Concrete instances of what the evm and signer adapters use of go-ethereum, KMS
    and secp256k1, small enough to evaluate: an ABI and a transaction encoding that
    are plain constructors, a three-block chain, a node that answers from it, and a
    signature scheme in which a signature is accepted by its digest. The adapters'
    witnesses are evaluated on them. *)

From Stdlib Require Import ZArith Lia Ascii.
From stdpp Require Import prelude strings pretty gmap.
From S2P Require Import Prelude GoStd Domain Store Effects Ports Scanner ScannerProofs.
From S2P Require Import FeeEstimation EvmBroadcaster Signers Demo.

(** ** go-ethereum *)

Definition hex0x (b : bytes) : string := "0x" +:+ hex_EncodeToString b.
(** The last [n] bytes, padded on the left with zeros. *)
Fixpoint zeros (n : nat) : bytes := match n with O => EmptyString | S n => String "000"%char (zeros n) end.
Definition demo_fixed (n : nat) (b : bytes) : bytes :=
  zeros (n - String.length b) +:+ drop_bytes (String.length b - n) b.

Lemma zeros_length n : String.length (zeros n) = n.
Proof. induction n; simpl; congruence. Qed.
Lemma drop_bytes_length n b : String.length (drop_bytes n b) = (String.length b - n)%nat.
Proof. revert b. induction n as [|n IH]; intros [|x b]; simpl; auto. Qed.
Lemma demo_fixed_length n b : String.length (demo_fixed n b) = n.
Proof. unfold demo_fixed. rewrite string_length_app, zeros_length, drop_bytes_length. lia. Qed.

#[export] Instance demo_GoEthereum : GoEthereum := {
  HexToAddress := λ s, demo_fixed 20 (default EmptyString (hex_DecodeString (TrimPrefix s "0x")));
  Address_Hex := hex0x;
  BytesToAddress := demo_fixed 20;
  BytesToHash := demo_fixed 32;
  Hash_Hex := hex0x;
  Keccak256Hash := λ b, b;
  SafeBlockNumber := -4;
  FinalizedBlockNumber := -3;
}.

Lemma demo_address_padded s : BytesToAddress (BytesToHash (HexToAddress s)) = HexToAddress s.
Proof.
  simpl. set (a := demo_fixed 20 (default EmptyString _)).
  assert (String.length a = 20%nat) as Ha by apply demo_fixed_length.
  assert (demo_fixed 32 a = zeros 12 +:+ a) as ->.
  { unfold demo_fixed at 1. rewrite Ha. done. }
  unfold demo_fixed at 1. rewrite string_length_app, Ha, zeros_length.
  exact (drop_bytes_app (zeros 12) a).
Qed.

(** A transaction, and the signature it carries, if any; its encoding spells its
    fields. *)
Inductive DemoTx := demo_tx (t : DynamicFeeTx) (signature : bytes).
#[export] Instance DynamicFeeTx_eq_dec : EqDecision DynamicFeeTx.
Proof. solve_decision. Defined.
#[export] Instance DemoTx_eq_dec : EqDecision DemoTx.
Proof. solve_decision. Defined.
Definition demo_chain_id : Z := 8453.
Definition demo_tx_fields (t : DynamicFeeTx) : list Z :=
  [dt_ChainID t; dt_Nonce t; dt_GasTipCap t; dt_GasFeeCap t; dt_Gas t; dt_Value t].
Definition demo_encode (tx : DemoTx) : string :=
  let 'demo_tx t signature := tx in
  Join (map big_String (demo_tx_fields t) ++
        [hex_EncodeToString (dt_To t); hex_EncodeToString (dt_Data t); hex_EncodeToString signature]) "|"%char.
Fixpoint demo_all {A} (l : list (option A)) : option (list A) :=
  match l with
  | [] => Some []
  | o :: l => match o, demo_all l with Some a, Some l => Some (a :: l) | _, _ => None end
  end.
Definition demo_decode (s : string) : option DemoTx :=
  match Split s "|"%char with
  | [a; b; c; d; e; v; to; data; sig] =>
      match demo_all (map big_SetString10 [a; b; c; d; e; v]),
            demo_all (map hex_DecodeString [to; data; sig]) with
      | Some [a; b; c; d; e; v], Some [to; data; sig] =>
          Some (demo_tx (mkDynamicFeeTx a b c d e to v data) sig)
      | _, _ => None
      end
  | _ => None
  end.

Definition demo_Unpack (b : bytes) : result (list AbiValue) :=
  Ok [AbiUint64 30; AbiUint64 10; AbiBig 7; AbiBig 1].
#[export] Instance demo_GoEthereumTx : GoEthereumTx := {
  Pack_transfer := λ to z, Ok (to +:+ big_FillBytes 32 z);
  Pack_gasEstimateComponents := λ to b data, Ok (to +:+ data);
  Unpack_gasEstimateComponents := demo_Unpack;
  Pack_getL1FeeUpperBound := λ z, Ok (big_FillBytes 32 z);
  Unpack_getL1FeeUpperBound := λ b, Ok [AbiBig 500];
  Transaction := DemoTx;
  NewTx := λ t, demo_tx t EmptyString;
  MarshalBinary := λ tx, if decide (demo_decode (demo_encode tx) = Some tx) then Ok (demo_encode tx)
                         else Err (ErrText "rlp");
  UnmarshalBinary := λ b, match demo_decode b with Some tx => Ok tx | None => Err (ErrText "rlp") end;
  ChainId := λ tx, let 'demo_tx t _ := tx in dt_ChainID t;
  Signer_Hash := λ id tx, big_FillBytes 32 (big_SetBytes (demo_encode tx));
  WithSignature := λ id tx sig, let 'demo_tx t _ := tx in Ok (demo_tx t sig);
  Transaction_Hash := λ tx, big_FillBytes 32 (big_SetBytes (demo_encode tx));
}.

#[export] Instance demo_GoEthereumTxLaws : GoEthereumTxLaws.
Proof.
  constructor.
  - intros tx b. simpl. case_decide as E; [|done]. intros [= <-]. by rewrite E.
  - intros tx. simpl. case_decide as E; [|done]. intros [= H]. by rewrite H in E.
  - done.
Qed.

(** ** A chain and its node *)

Definition demo_to : bytes := big_FillBytes 20 170.
Definition demo_token : bytes := big_FillBytes 20 187.
(** Block 2 pays [demo_to] 5 at top level and, in a call tree with one reverted
    branch, 3 internally; block 3's log moves 9 of the token to it. *)
Definition demo_blocks (n : Z) : rawBlock :=
  mkRawBlock (big_FillBytes 32 n)
    (if Z.eqb n 2 then [mkRawTx (big_FillBytes 32 77) (Some demo_to) (Some 5)] else []).
Definition demo_frame (value : Z) (err : string) (calls : list callFrame) : callFrame :=
  mkCallFrame "CALL" EmptyString (Some demo_to) (Some value) err calls.
Definition demo_trace : txCallTrace :=
  mkTrace (big_FillBytes 32 77)
    (mkCallFrame "CALL" EmptyString None None EmptyString
       [demo_frame 3 EmptyString []; demo_frame 4 "execution reverted" [demo_frame 6 EmptyString []]])
    EmptyString.
Definition demo_traces (n : Z) : result (list txCallTrace) :=
  if Z.eqb n 3 then Err (ErrText "trace unsupported")
  else Ok (if Z.eqb n 2 then [demo_trace] else []).
Definition demo_log (contract data : bytes) (block index : Z) (removed : bool) : Log :=
  mkLog contract [Keccak256Hash "Transfer(address,address,uint256)"; big_FillBytes 32 1; big_FillBytes 32 170]
    data block (big_FillBytes 32 78) (big_FillBytes 32 block) index removed.
(** The registered token's transfer, one of an unknown token, a removed one, a malformed
    one, and one outside the range scanned. *)
Definition demo_chain_logs : list Log :=
  [demo_log demo_token (big_FillBytes 32 9) 3 0 false; demo_log (big_FillBytes 20 204) (big_FillBytes 32 8) 3 1 false;
   demo_log demo_token (big_FillBytes 32 7) 3 2 true; demo_log demo_token (big_FillBytes 31 7) 3 3 false;
   demo_log demo_token (big_FillBytes 32 7) 4 0 false].
#[export] Instance demo_scanClient : scanClient := {
  BlockNumber := ret 3;
  HeaderByNumber := λ n, ret (Some (mkHeader (Some 3) (big_FillBytes 32 n)));
  FilterLogs := λ a b ts, ret (logs demo_chain_logs a b ts);
  eth_getBlockByNumber := λ n, ret (demo_blocks n);
  debug_traceBlockByNumber := λ n, lift_result (demo_traces n);
}.

#[export] Instance demo_broadcastClient : broadcastClient := {
  bc_EstimateGas := λ to d v, ret 21000;
  bc_SuggestGasPrice := ret 10;
  bc_SendTransaction := λ tx, ret tt;
  bc_TransactionReceipt := λ h, ret (mkReceipt (Some 2) 1);
  bc_HeaderByNumber := λ n, ret (Some (mkHeader (Some 3) EmptyString));
}.
Definition demo_clients : gmap string feeClient :=
  {[ChainBase := mkFeeClient (λ to d, ret d) (λ to d v, ret 21000) (ret 10)]}.
#[export] Instance demo_registry : TokenRegistryLister :=
  { ListTokenRegistry := λ ch, ret {[hex0x demo_token := AssetUSDC]} }.
