(* ===== verification/Witnesses.v ===== *)
(** * Witnesses

    Each property with hypotheses, applied to the concrete platform of Demo.v (or
    to concrete instances of its own parameters), where the hypotheses hold. *)

From Stdlib Require Import ZArith Lia Ascii DecimalString.
From stdpp Require Import prelude strings pretty gmap list_numbers.
From S2P Require Import Progress Schema SchemaKept Router.
From S2P Require Import Prelude GoStd Rfc3339 Sha256 Domain Store Effects Ledger Transfers Withdrawals.
From S2P Require Import WithdrawalSpecs WithdrawalInvariant Ports Broadcast Deposits DepositSpecs.
From S2P Require Import Customers Solvency CreateWithdrawals BroadcastProofs Idempotency Handlers ApiJson History Watcher WatcherProofs System.
From S2P Require Import ApiFrame Scanner ScannerProofs FeeEstimation EvmBroadcaster Signers Walletd.
From S2P Require Import Lifecycle BroadcasterGuarantees WatcherGuarantees Demo.

Ltac compute_ok := apply run_ok; vm_compute; reflexivity.

(** ** The whole system *)

Lemma entries_refine_commits_witness :
  rtc commit (st_db demo_s3) (st_db demo_s4) ∧ map wr_status (t_withdrawals (st_db demo_s4)) =
    [WithdrawalStatusConfirmed; WithdrawalStatusAwaitingApproval].
Proof.
  split; [|vm_compute; reflexivity]. rewrite demo_s4_eq. unfold demo_run.
  apply (entries_refine_commits demo_Fee_quiet); [reflexivity|by intros|apply demo_s3_reachable].
Defined.

Lemma entries_keep_schema_witness :
  schema_ok (st_db demo_s4) ∧ length (t_postings (st_db demo_s4)) = 10%nat.
Proof.
  split; [|vm_compute; reflexivity].
  destruct (entries_keep_schema demo_Fee_quiet demo_uuid_Parse id encode_problem (encode_payload id demo_zone)
    (decode_transfer demo_uuid_Parse) (decode_withdrawal demo_uuid_Parse) decode_approve sha256 demo_hmac
    demo_zone demo_route) as [Hm Hk].
  assert (others_preserve schema_ok demo_ctx) as Ho by (by intros n db).
  rewrite demo_s4_eq. apply (Hk _ _ _ Ho). rewrite demo_s3_eq. apply (Hk _ _ _ Ho).
  rewrite demo_s2_eq. apply (Hk _ _ _ Ho). rewrite demo_s1_eq. apply (Hk _ _ _ Ho).
  apply Hm, demo_uuid_inj.
Defined.

(** A page of a customer's history, and a POST with two idempotency keys. *)
Lemma routes_exactly_witness :
  let r := mkRequest "GET" "/v1/customers/u7/transactions" "/v1/customers/u7/transactions"
             [("pageSize", "2")] "Bearer token" [] None in
  let r' := mkRequest "POST" "/v1/transfers" "/v1/transfers" [] "Bearer token" ["k1"; "k2"] (Some "") in
  operation id r (EpListTransactions "u7" (Some 2) None) ∧ ∀ ep, ¬ operation id r' ep.
Proof.
  assert (∀ r p, 300 <= status_of (demo_redirect r p) < 400) as Hred by (intros; vm_compute; split; congruence).
  split.
  - apply (proj1 (routes_exactly id encode_problem demo_redirect _ (Hred _))); vm_compute; reflexivity.
  - eapply (proj2 (proj2 (routes_exactly id encode_problem demo_redirect _ (Hred _))));
      vm_compute; reflexivity.
Defined.

Lemma reachable_ledger_witness :
  (∀ e, entry_sum (st_db demo_s4) e = 0) ∧ length (t_postings (st_db demo_s4)) = 10%nat.
Proof.
  split; [|vm_compute; reflexivity]. exact (proj1 (reachable_ledger _ demo_s4_reachable)).
Defined.

Lemma reachable_solvent_witness :
  customers_total (st_db demo_s4) ChainBase AssetETH =
    deposited (st_db demo_s4) ChainBase AssetETH - paid_out (st_db demo_s4) ChainBase AssetETH ∧
  customers_total (st_db demo_s4) ChainBase AssetETH = 4900000000000000000.
Proof.
  split; [|vm_compute; reflexivity].
  apply (proj2 (reachable_solvent _ demo_s4_reachable)). by left.
Defined.

Lemma reachable_nonces_witness :
  map ba_nonce (filter (λ a, ba_chain a = ChainBase) (t_broadcast_attempts (st_db demo_s4))) = [0].
Proof.
  assert (demo_nonce ∈ t_chain_nonce_state (st_db demo_s4)) as Hn by (vm_compute; by left).
  exact (proj1 (reachable_nonces _ _ demo_s4_reachable Hn)).
Defined.

Lemma reachable_settlements_witness :
  has_cause (st_db demo_s4) withdrawalSettlementCauseType (demo_withdrawal 0).
Proof.
  apply (reachable_settlements _ (demo_withdrawal 0) demo_s4_reachable).
  exists demo_wrow. vm_compute. split_and!; [by left|reflexivity..].
Defined.

Lemma reachable_credits_witness : has_cause (st_db demo_s4) depositCreditCauseType (dr_id demo_drow).
Proof.
  apply (reachable_credits _ (dr_id demo_drow) demo_s4_reachable).
  exists demo_drow. vm_compute. split_and!; [by left|reflexivity..].
Defined.

Lemma withdrawal_lifecycle_witness :
  ∃ w', w' ∈ t_withdrawals (st_db demo_s4) ∧ wr_id w' = wr_id demo_wrow2 ∧
        rtc status_edge WithdrawalStatusApproved (wr_status w').
Proof.
  assert (demo_wrow2 ∈ t_withdrawals (st_db demo_s2)) as Hw by (vm_compute; by left).
  assert (wr_status demo_wrow2 = WithdrawalStatusApproved) as <- by (vm_compute; reflexivity).
  destruct (withdrawal_lifecycle _ _ demo_s2_reachable demo_s2_s4 _ Hw)
    as (w' & H & E & _ & _ & _ & _ & _ & _ & _ & HE).
  exists w'. split_and!; [exact H|exact E|exact HE].
Defined.

(** A customer's deposit is observed, its block is replaced, and the check for reorgs
    runs against the chain after the reorganisation. *)
Lemma deposit_lifecycle_witness :
  map dr_state (t_deposits (st_db demo_reorged)) = [DepositObserved] ∧
  map dr_state (t_deposits (st_db (snd demo_recheck))) = [DepositOrphaned] ∧
  ∃ d', d' ∈ t_deposits (st_db (snd demo_recheck)) ∧ dr_key d' = dr_key demo_lost ∧
        rtc state_edge DepositObserved (dr_state d').
Proof.
  split; [vm_compute; reflexivity|]. split; [vm_compute; reflexivity|].
  assert (demo_lost ∈ t_deposits (st_db demo_reorged)) as Hd by (vm_compute; by left).
  assert (dr_state demo_lost = DepositObserved) as <- by (vm_compute; reflexivity).
  assert (checkForReorgs (Scan:=after_reorg) ChainBase demo_recheck_ctx (idle demo_reorged) =
    (Ok tt, snd demo_recheck)) as H by compute_ok.
  destruct (deposit_lifecycle (Scan:=after_reorg) _ (st_db (snd demo_recheck)) demo_reorged_reachable) with demo_lost
    as (d' & H' & _ & E & _ & _ & _ & _ & HE); [|exact Hd|].
  - apply rtc_once. refine (step_reorg_check (Scan:=after_reorg) ChainBase demo_recheck_ctx (idle demo_reorged) _ _ H).
    eexists. reflexivity.
  - exists d'. split_and!; [exact H'|exact E|exact HE].
Defined.

(** ** The broadcaster *)

Lemma demo_s2_Inv : Inv (st_db demo_s2).
Proof. apply reachable_ok, demo_s2_reachable. Qed.

Lemma demo_keeps_bytes : others_keep_bytes demo_ctx.
Proof. by intros n db HI. Qed.

Lemma sends_are_recorded_witness :
  let tr := st_trace (broadcaster_runs [(ChainBase, true)] demo_ctx (idle demo_s2)) in
  length tr = 2%nat ∧
  ∀ id ch tx d, EvSend id ch tx d ∈ tr → recorded_bytes d id tx ∧ with_status d id WithdrawalStatusSigned.
Proof.
  split; [vm_compute; reflexivity|]. intros id ch tx d Hin.
  exact (proj2 (sends_are_recorded _ demo_ctx (idle demo_s2) eq_refl demo_keeps_bytes demo_s2_Inv eq_refl id ch tx d Hin)).
Defined.

Lemma one_transaction_per_withdrawal_witness :
  let tr := st_trace (broadcaster_runs [(ChainBase, true); (ChainBase, false)] demo_ctx (idle demo_s2)) in
  length tr = 2%nat ∧ ∀ tr1 tr2 id dg, tr = tr1 ++ EvSign id dg :: tr2 → ¬ sent id tr1.
Proof.
  split; [vm_compute; reflexivity|].
  exact (proj2 (one_transaction_per_withdrawal _ demo_ctx (idle demo_s2) eq_refl demo_keeps_bytes demo_s2_Inv eq_refl)).
Defined.

Lemma claim_takes_oldest_witness :
  ∃ row, row ∈ t_withdrawals (st_db demo_s2) ∧ wr_id row = w_ID (fst demo_claimed) ∧
         wr_status row = WithdrawalStatusApproved.
Proof.
  assert (claim ChainBase demo_ctx (idle demo_s2) =
    (Ok (Some (fst demo_claimed, 0)), snd demo_claim)) as H by compute_ok.
  destruct (claim_takes_oldest ChainBase demo_ctx (idle demo_s2) _ 0 _ eq_refl demo_s2_Inv H)
    as (row & H1 & H2 & _ & H3 & _).
  exists row. split_and!; [exact H1|exact H2|exact H3].
Defined.

Lemma paused_allocates_nothing_witness :
  allocations (st_db (snd (drain 5 ChainBase false 0 demo_ctx (idle demo_s2)))) = allocations (st_db demo_s2).
Proof.
  apply (paused_allocates_nothing 5 ChainBase 0 demo_ctx (idle demo_s2)
    (fst (drain 5 ChainBase false 0 demo_ctx (idle demo_s2)))); [reflexivity|by intros|].
  apply surjective_pairing.
Defined.

Lemma drain_terminates_witness : ∃ n, fst (drain 3 ChainBase true 0 demo_ctx (idle demo_s2)) = Ok (Some n).
Proof.
  assert (pending (st_db (idle demo_s2)) < 3)%nat as Hp by (vm_compute; lia).
  destruct (drain_terminates 3 ChainBase true 0 demo_ctx (idle demo_s2) _ _ eq_refl
    ltac:(by intros ? ?) Hp (surjective_pairing _)) as (n & E & _). by exists n.
Defined.

Lemma demo_cooperates w : cooperates demo_ctx ChainBase w.
Proof.
  intros n s. refine (ex_intro _ _ (ex_intro _ s (conj eq_refl (conj _ (le_n _))))).
  intros s1. refine (ex_intro _ _ (ex_intro _ s1 (conj eq_refl (conj _ (le_n _))))).
  refine (ex_intro _ _ (ex_intro _ _ (conj eq_refl (conj _ _)))); [done|].
  intros s2. exact (ex_intro _ (Ok tt) (ex_intro _ s2 (conj eq_refl (conj (le_n _) I)))).
Qed.

Lemma demo_s2_ready : ready demo_ctx ChainBase (idle demo_s2).
Proof.
  assert (t_broadcast_attempts (st_db (idle demo_s2)) = []) as Ea by (vm_compute; reflexivity).
  constructor; rewrite ?Ea.
  - apply demo_s2_Inv.
  - vm_compute. by eexists.
  - vm_compute. reflexivity.
  - intros n _. rewrite Ea. exact (not_elem_of_nil _).
  - intros a Ha. destruct (not_elem_of_nil _ Ha).
  - intros w _ _. apply demo_cooperates.
Qed.

Lemma broadcaster_progress_witness :
  ∃ m s', drain 3 ChainBase true 0 demo_ctx (idle demo_s2) = (Ok (Some m), s') ∧
    with_status (st_db s') (demo_withdrawal 0) WithdrawalStatusBroadcast.
Proof.
  assert (pending (st_db (idle demo_s2)) < 3)%nat as Hp by (vm_compute; lia).
  assert (known_chain ChainBase) as Hk by (by left).
  destruct (broadcaster_progress demo_ctx (λ _, eq_refl) eq_refl ChainBase
    (λ _ _, conj (conj eq_refl (conj eq_refl eq_refl)) (λ H, H)) demo_uuid_inj 3 0 (idle demo_s2)
    demo_s2_ready Hk Hp) as (m & s' & E & H).
  exists m, s'. split; [exact E|].
  assert (demo_wrow2 ∈ t_withdrawals (st_db (idle demo_s2))) as Hw by (vm_compute; by left).
  assert (wr_id demo_wrow2 = demo_withdrawal 0) as <- by (vm_compute; reflexivity).
  apply H; [exact Hw|vm_compute; reflexivity|left; vm_compute; reflexivity].
Defined.

(** The receipt of the broadcast withdrawal settles it. *)
Lemma demo_s3_Inv : Inv (st_db demo_s3).
Proof. apply reachable_ok, demo_s3_reachable. Qed.

Lemma demo_settleable :
  settleable (w_ID demo_broadcasted) true (later_ctx None) (snd (begin_tx (later_ctx None) (idle demo_s3))).
Proof.
  change (snd (begin_tx (later_ctx None) (idle demo_s3))) with (mkSt (st_db demo_s3) false 401 [] false).
  split; [done|]. split.
  { split_and!; [intros n m _ _; apply later_uuid_inj|intros n _; apply (later_fresh _ n); vm_compute; reflexivity..]. }
  split; [intros n _; apply (later_fresh _ n); vm_compute; reflexivity|]. split; [exact demo_s3_Inv|].
  assert (demo_brow ∈ t_withdrawals (st_db demo_s3)) as Hrow by (vm_compute; by left).
  assert (is_Some (find_account (st_db demo_s3) (Some (wr_customer demo_brow)) (wr_chain demo_brow)
    (wr_asset demo_brow) AccountTypeHold)) as [ho Hho] by (vm_compute; by eexists).
  assert (is_Some (find_account (st_db demo_s3) None (wr_chain demo_brow)
    (wr_asset demo_brow) AccountTypeTreasury)) as [cp Hcp] by (vm_compute; by eexists).
  apply find_account_Some in Hho as [Hho Iho], Hcp as [Hcp Icp].
  exists demo_brow, ho, cp. split; [exact Hrow|]. split; [vm_compute; reflexivity|]. split; [vm_compute; reflexivity|].
  split; [apply (bool_decide_eq_true_1 _); vm_compute; reflexivity|]. split_and!; assumption.
Qed.

(** With nothing in the way, the final receipt settles. *)
Lemma receipt_decides_witness :
  let run := poll_one ChainBase demo_broadcasted (later_ctx None) (idle demo_s3) in
  fst run = Ok (mkPollResult 1 1 0, []) ∧
  settled (w_ID demo_broadcasted) WithdrawalStatusConfirmed withdrawalSettlementCauseType
    withdrawalConfirmedEventType AccountTypeTreasury true (st_db demo_s3) tt (st_db (snd run)).
Proof.
  intros run. destruct run as [x s'] eqn:H.
  destruct (receipt_decides ChainBase demo_broadcasted (later_ctx None) (idle demo_s3) _ _ eq_refl H)
    as (receipt & s1 & r & errs & Hr & -> & Hm). injection Hr as <- <-. destruct Hm as [Hm Hs].
  specialize (Hs demo_settleable). destruct Hm as [(_ & -> & HS)|[Hne _]]; [|by destruct Hne].
  rewrite Hs. split; [reflexivity|exact HS].
Defined.

Lemma demo_settled : settled (w_ID demo_broadcasted) WithdrawalStatusConfirmed withdrawalSettlementCauseType
  withdrawalConfirmedEventType AccountTypeTreasury true (st_db demo_s3) tt (st_db (snd demo_settlement)).
Proof.
  assert (demo_settlement = (Ok tt, snd demo_settlement)) as H by compute_ok.
  apply (in_tx_refines _ _ _ _ _ _ _ _ (SettleConfirmed_law _)) in H as [H _]. exact H.
Qed.

Lemma settles_once_witness :
  ∃ e, fst (SettleFailedWithdrawal (w_ID demo_broadcasted) (mkCtx demo_env (Some (st_db demo_s3)))
              (snd demo_settlement)) = Err e.
Proof.
  exact (settles_once _ _ _ _ _ _ _ _ _ (mkCtx demo_env (Some (st_db demo_s3))) (snd demo_settlement) _ _
    demo_s3_Inv (or_introl eq_refl) demo_settled (ex_intro _ _ eq_refl) eq_refl
    (or_intror (surjective_pairing _))).
Defined.

Lemma one_process_per_chain_witness : NoDup [(RoleWatcher, "base"); (RoleBroadcaster, "base")].
Proof.
  refine (proj1 (one_process_per_chain (mkFleet _ [(RoleWatcher, "base"); (RoleBroadcaster, "base")]) _)).
  eapply rtc_l; [apply (fleet_start _ (RoleWatcher, "base") 890100001); [reflexivity|set_solver]|].
  eapply rtc_l; [apply (fleet_start _ (RoleBroadcaster, "base") 890200001); [reflexivity|set_solver]|].
  apply rtc_refl.
Defined.

(** ** The watcher *)

Lemma demo_keeps_cursors : others_keep_cursors ChainBase demo_ctx.
Proof. by intros n db tier. Qed.
Lemma demo_others_Inv n db : Inv db → Inv (env_other (cx_env demo_ctx) n db).
Proof. done. Qed.
Lemma demo_db0_Inv : Inv (st_db (start demo_db0 100)).
Proof. apply reachable_ok, demo_db0_reachable. Qed.

Lemma poll_advances_witness : cursor_of (st_db (snd demo_poll0)) ChainBase CursorTierObserved = 20.
Proof.
  assert (TrackDeposits_Execute ChainBase demo_ctx (start demo_db0 100) = (Ok demo_result0, snd demo_poll0))
    as H by compute_ok.
  assert (er_Latest demo_result0 < 2 ^ 64) as Hl by (vm_compute; reflexivity).
  assert (0 <= cursor_of (st_db (start demo_db0 100)) ChainBase CursorTierObserved < 2 ^ 63) as Hb
    by (vm_compute; split; [discriminate|reflexivity]).
  destruct (poll_advances (Scan:=demo_Scanner) ChainBase demo_ctx _ _ _ eq_refl demo_keeps_cursors H Hb Hl) as (_ & E & _).
  rewrite E. vm_compute. reflexivity.
Defined.

(** Two polls of a chain of 20 blocks: the calls of [ScanDeposits] cover blocks 1 to 20. *)
Lemma polls_cover_every_block_witness :
  ∃ ranges, polls (Scan:=demo_Scanner) ChainBase demo_ctx (start demo_db0 100) ranges (snd demo_polls) ∧
    (ranges ≫= λ '(a, b), seqZ a (b - a + 1)) = seqZ 1 20.
Proof.
  assert (watcher_loop 2 ChainBase demo_ctx (start demo_db0 100) = (fst demo_polls, snd demo_polls)) as H
    by (unfold demo_polls; apply surjective_pairing).
  assert (0 <= cursor_of (st_db (start demo_db0 100)) ChainBase CursorTierObserved < 2 ^ 63) as Hb
    by (vm_compute; split; [discriminate|reflexivity]).
  assert (head_uint64 (Scan:=demo_Scanner)) as Hh by (intros c s l sf f s' E; injection E as <- _ _ _; reflexivity).
  destruct (polls_cover_every_block (Scan:=demo_Scanner) 2 ChainBase demo_ctx _ _ _ Hh eq_refl demo_keeps_cursors H Hb)
    as (rs & ranges & _ & _ & Hp & _ & E).
  exists ranges. split; [exact Hp|]. rewrite E. vm_compute. reflexivity.
Defined.


Lemma demo_reorged_Inv : Inv (st_db (idle demo_reorged)).
Proof. apply reachable_ok, demo_reorged_reachable. Qed.

(** What it means: the deposit of a block that was replaced is credited to the
    customer, although the chain no longer has that block or the transfer. *)
Lemma poll_never_orphans_witness :
  (∃ db, others_only demo_ctx (st_db (idle demo_reorged)) db ∧
     orphans (st_db (snd demo_phantom)) = orphans db) ∧
  map (λ d, (dr_block_number d, dr_block_hash d, dr_state d)) (t_deposits (st_db (snd demo_phantom))) =
    [(10, Some (demo_hex 32 "block10"), DepositCredited)] ∧
  fst (BlockHash (ChainScanner:=after_reorg) 10 demo_ctx (idle demo_reorged)) = Ok (Some (demo_hex 32 "other10")) ∧
  map (λ p, (po_amount p)) (t_postings (st_db (snd demo_phantom))) = [-5 * 10 ^ 18; 5 * 10 ^ 18].
Proof.
  split; [|split_and!; vm_compute; reflexivity].
  assert (TrackDeposits_Execute (Scan:=after_reorg) ChainBase demo_ctx (idle demo_reorged) =
    (Ok (mkExecuteResult 20 15 12 11 20 0 0 1 1 1), snd demo_phantom)) as H by compute_ok.
  exact (poll_never_orphans (Scan:=after_reorg) ChainBase demo_ctx (idle demo_reorged) _ _ eq_refl
    demo_others_Inv demo_reorged_Inv H).
Defined.

Lemma checkForReorgs_exact_witness :
  Forall2 (orphaned_if (stale_ids (λ _, Some (demo_hex 32 "block10"))
            (map deposit_of_row (pending_rows ChainBase demo_observed))))
    (t_deposits demo_observed) (t_deposits (st_db (snd demo_check))) ∧
  map dr_state (t_deposits (st_db (snd demo_check))) = [DepositOrphaned; DepositObserved].
Proof.
  split; [|vm_compute; reflexivity].
  assert (checkForReorgs ChainBase (mkCtx demo_env (Some demo_observed)) (start demo_observed 100) = (Ok tt, snd demo_check))
    as H by compute_ok.
  refine (checkForReorgs_exact (λ _, Some (demo_hex 32 "block10")) _ ChainBase _ _ _ _ _ H).
  - intros n c s o s' E. injection E as <- _. reflexivity.
  - eexists. reflexivity.
Defined.

(** ** The API *)

Lemma demo_s4_Inv : Inv (st_db demo_s4).
Proof. apply reachable_ok, demo_s4_reachable. Qed.
Lemma later_fresh_ids : fresh_uuids transfer_steps (later_ctx (Some (st_db demo_s4))) (idle demo_s4).
Proof.
  split_and!; [intros n m _ _; apply later_uuid_inj|intros n _; apply (later_fresh _ n); vm_compute; reflexivity..].
Qed.

Lemma CreateTransfer_Execute_outcome_witness :
  let req := mkTransferRequest (demo_customer 0) (demo_customer 1) ChainBase AssetETH (Some 5) "k9" in
  let run := CreateTransfer_Execute req (later_ctx (Some (st_db demo_s4))) (idle demo_s4) in
  ∃ t, fst run = Ok t ∧ transferred req (st_db demo_s4) t (st_db (snd run)).
Proof.
  intros req run.
  assert (numeric78 (default 0 (tr_Amount req))) as Hn by (apply (bool_decide_eq_true_1 _); vm_compute; reflexivity).
  pose proof (CreateTransfer_Execute_outcome req (later_ctx (Some (st_db demo_s4))) (idle demo_s4)
    (inv_ledger _ demo_s4_Inv) (λ _, eq_refl) (ex_intro _ _ eq_refl) eq_refl later_fresh_ids Hn) as H.
  fold run in H. destruct run as [r s']. assert (transfer_refusal req (st_db (idle demo_s4)) = None) as E
    by (vm_compute; reflexivity).
  rewrite E in H. destruct H as (t & -> & _ & H). exists t. split; [reflexivity|exact H].
Defined.

Lemma later_unused_uuids : unused_uuids (later_ctx (Some (st_db demo_s4))) (st_db demo_s4).
Proof.
  split_and!; [apply later_uuid_inj|intros n; apply (later_fresh _ n); vm_compute; reflexivity..].
Qed.

(** A request the balance covers succeeds, and holds the amount out of a balance that
    covered it and the fee the estimator asked for. *)
Lemma withdrawal_request_spec_witness :
  let req := mkWithdrawalRequest (demo_customer 0) ChainBase AssetETH (Some 7) demo_destination "k9" in
  let c := later_ctx (Some (st_db demo_s4)) in
  ∃ w s' av fee, CreateWithdrawal_Execute req c (idle demo_s4) = (Ok w, s') ∧ w_Amount w = 7 ∧
    w_Status w = WithdrawalStatusApproved ∧ fee = 1000 ∧ 7 + fee <= sum_postings (st_db demo_s4) (ac_id av).
Proof.
  intros req c. pose proof (withdrawal_request_spec demo_Fee_quiet req c (idle demo_s4) _ eq_refl) as (_ & Hok & Hrun).
  assert (is_Some (find_account (st_db demo_s4) (Some (demo_customer 0)) ChainBase AssetETH AccountTypeAvailable))
    as [av Hav] by (vm_compute; by eexists).
  assert (is_Some (find_account (st_db demo_s4) (Some (demo_customer 0)) ChainBase AssetETH AccountTypeHold))
    as [ho Hho] by (vm_compute; by eexists).
  assert (is_Some (find_threshold (st_db demo_s4) ChainBase AssetETH)) as [th Hth] by (vm_compute; by eexists).
  assert (placeable req (st_db demo_s4)) as Hpl.
  { split; [split; vm_compute; reflexivity|vm_compute; reflexivity|by left|by left|vm_compute; by left]. }
  assert (withdrawal_refusal req = None) as Hr by (vm_compute; reflexivity).
  specialize (Hrun _ _ _ _ _ _ (λ _, eq_refl) eq_refl (inv_ledger _ demo_s4_Inv) later_unused_uuids Hr Hpl
    eq_refl eq_refl Hth Hav Hho).
  assert (match find_account (st_db demo_s4) (Some (demo_customer 0)) ChainBase AssetETH AccountTypeAvailable with
          | Some av => match hold_refusal req 1000 av (st_db demo_s4) with None => true | Some _ => false end
          | None => false
          end = true) as Hd by (vm_compute; reflexivity).
  rewrite Hav in Hd. destruct (CreateWithdrawal_Execute req c (idle demo_s4)) as [r s'] eqn:E.
  unfold decided in Hrun. change (st_db (idle demo_s4)) with (st_db demo_s4) in Hrun.
  destruct (hold_refusal req 1000 av (st_db demo_s4)); [discriminate Hd|]. destruct Hrun as [w ->].
  destruct (Hok w s' eq_refl) as (amount & fe & fee & s1 & th' & av' & [= <-] & _ & _ & _ & He & Hf & _ & _ & Hbal &
    Hth' & Ew & Est & _). injection He as <- <-. injection Hf as <-.
  exists w, s', av', 1000. split; [reflexivity|]. split; [exact Ew|]. split; [|split; [reflexivity|exact Hbal]].
  rewrite Est. assert (match find_threshold (st_db demo_s4) ChainBase AssetETH with
    Some th => 7 <=? th_amount th | None => false end = true) as Ht by (vm_compute; reflexivity).
  change (find_threshold (st_db demo_s4) ChainBase AssetETH = Some th') in Hth'.
  rewrite Hth' in Ht. by rewrite Ht.
Defined.

Lemma approval_outcome_witness :
  let run := ApproveWithdrawal_Execute (demo_withdrawal 1) "ops" "checked"
               (later_ctx (Some (st_db demo_s4))) (idle demo_s4) in
  ∃ w, fst run = Ok w ∧ w_Status w = WithdrawalStatusApproved.
Proof.
  intros run. assert (∀ n, env_uuid (cx_env (later_ctx (Some (st_db demo_s4)))) n
    ∉ map ob_id (t_outbox_events (st_db (idle demo_s4)))) as Hob
    by (intros n; apply (later_fresh _ n); vm_compute; reflexivity).
  pose proof (approval_outcome (demo_withdrawal 1) "ops" "checked" (later_ctx (Some (st_db demo_s4)))
    (idle demo_s4) (λ _, eq_refl) (ex_intro _ _ eq_refl) eq_refl Hob) as H.
  fold run in H. destruct run as [r s'].
  assert (approval_refusal (st_db (idle demo_s4)) (demo_withdrawal 1) "ops" "checked" = None) as E
    by (vm_compute; reflexivity).
  rewrite E in H. destruct H as (w & -> & Hs & _). exists w. split; [reflexivity|exact Hs].
Defined.

Lemma customer_provisioned_witness :
  let run := CreateCustomer_Execute demo_uuid_Parse (later_ctx (Some (st_db demo_s4))) (idle demo_s4) in
  ∃ cust, fst run = Ok cust ∧ cust_DepositAddress cust ∉ map da_address (t_deposit_addresses (st_db demo_s4)).
Proof.
  intros run.
  assert (CreateCustomer_Execute demo_uuid_Parse (later_ctx (Some (st_db demo_s4))) (idle demo_s4) =
    (Ok demo_new_customer, snd run)) as H by compute_ok.
  destruct (customer_provisioned demo_uuid_Parse (later_ctx (Some (st_db demo_s4))) _ _ _ (ex_intro _ _ eq_refl) H) as (_ & _ & _ & _ & _ & Hd).
  exists demo_new_customer. split; [unfold run; rewrite H; reflexivity|exact Hd].
Defined.

(** ** Idempotency *)

Lemma demo_keeps_keys : handler_keeps_keys demo_server.
Proof.
  apply server_keeps_keys; [apply demo_Fee_quiet|intros; apply history_reads|intros; apply deposits_reads].
Qed.
Lemma later_keeps_keys : others_keep_keys (later_ctx None).
Proof. by intros n db key row. Qed.

(** A transfer sent twice with one key: the first run commits. *)
Lemma demo_first_commits :
  committed_once sha256 demo_server (later_ctx None) demo_transfer_request (st_db (idle demo_s4))
    (st_db (snd (demo_send (idle demo_s4)))) demo_transfer_answer.
Proof.
  assert (IdempotencyMiddleware encode_problem sha256 demo_server demo_transfer_request (later_ctx None) (idle demo_s4)
    = (Ok demo_transfer_answer, snd (demo_send (idle demo_s4)))) as H by compute_ok.
  apply IdempotencyMiddleware_effects in H as [[Hs _]|(resp & HC & [E%Ok_inj|[(p & E%Ok_inj & Hp) _]])];
    [..|reflexivity|reflexivity].
  - exfalso. assert (∀ a b, others_steps (later_ctx None) a b → b = a) as Hsame
      by (intros a b Hab; induction Hab as [|x y z [n ->] _ IH]; [done|exact IH]).
    apply Hsame, (f_equal (λ db, length (t_idempotency_keys db))) in Hs. vm_compute in Hs. done.
  - by rewrite E.
  - exfalso. revert Hp. rewrite <-E. vm_compute. done.
Qed.

Lemma retries_commit_once_witness :
  Forall (λ run, ¬ committed_run sha256 demo_server (later_ctx None) "k9" run)
    [(st_db (snd (demo_send (idle demo_s4))), fst demo_resend, st_db (snd demo_resend))].
Proof.
  refine (retries_commit_once encode_problem sha256 demo_server (later_ctx None) "k9"
    [demo_transfer_request; demo_transfer_request] (idle demo_s4) []
    (st_db (idle demo_s4), fst (demo_send (idle demo_s4)), st_db (snd (demo_send (idle demo_s4)))) _
    eq_refl demo_keeps_keys later_keeps_keys _ _ _).
  - repeat constructor.
  - cbn [request_runs]. fold (demo_send (idle demo_s4)). unfold demo_resend.
    destruct (demo_send (idle demo_s4)) as [r s']. cbn [snd]. fold (demo_send s').
    destruct (demo_send s') as [r2 s2]. reflexivity.
  - exists demo_transfer_request, demo_transfer_answer. split; [reflexivity|apply demo_first_commits].
Defined.

(** A transfer with an unreadable body is refused with a 400. *)
Lemma failed_request_commits_nothing_witness :
  others_steps demo_ctx (st_db (idle demo_s4)) (st_db (snd demo_refused)) ∧
  option_map sr_Status (match fst demo_refused with Ok resp => Some resp | Err _ => None end) = Some 400.
Proof.
  split; [|vm_compute; reflexivity].
  assert (demo_refused = (Ok demo_refusal, snd demo_refused)) as H by compute_ok.
  destruct (failed_request_commits_nothing encode_problem sha256 demo_server demo_ctx demo_bad_request
    (idle demo_s4) _ _ eq_refl eq_refl H) as [Ho|(resp & p & n & Hn & _)]; [|exact Ho|discriminate Hn].
  intros resp E. apply Ok_inj in E. subst resp.
  assert (sr_Status demo_refusal = 400) as -> by (vm_compute; reflexivity). lia.
Defined.

Lemma retry_replays_witness :
  fst demo_resend = Ok demo_transfer_answer ∧
  others_steps (later_ctx None) (st_db (snd (demo_send (idle demo_s4)))) (st_db (snd demo_resend)).
Proof.
  assert (demo_resend = (Ok demo_second_answer, snd demo_resend)) as H by compute_ok.
  destruct (retry_replays encode_problem sha256 demo_server (later_ctx None)
    demo_transfer_request demo_transfer_request (idle demo_s4) _ _ _ _ _ demo_transfer_answer demo_second_answer
    eq_refl demo_keeps_keys later_keeps_keys eq_refl eq_refl (surjective_pairing _) demo_first_commits
    (rtc_refl _ _) H (ex_intro _ _ eq_refl) eq_refl ltac:(vm_compute; split; [discriminate|reflexivity])) as [E Ho].
  split; [rewrite H, E; reflexivity|exact Ho].
Defined.

(** ** The history *)

Lemma demo_zone_bounded t : -1440 < demo_zone t < 1440.
Proof. unfold demo_zone. lia. Qed.
Lemma demo_uuid_no_bar s : is_Some (demo_uuid_Parse s) → contains_byte "|"%char s = false.
Proof. unfold demo_uuid_Parse. destruct (_ || _) eqn:E; [by intros []|]. by apply orb_false_iff in E as [_ ->]. Qed.

Lemma all_decided {A} (P : A → Prop) `{∀ x, Decision (P x)} l x :
  forallb (λ x, bool_decide (P x)) l = true → x ∈ l → P x.
Proof. rewrite forallb_forall. intros H' Hx. by apply (bool_decide_eq_true_1 (P x)), H', list_elem_of_In. Qed.
Lemma demo_uuid_columns : uuid_columns demo_uuid_Parse (st_db (idle demo_s4)).
Proof.
  split_and!; intros x; apply (all_decided (λ x, is_Some (demo_uuid_Parse (_ x)))); vm_compute; reflexivity.
Qed.

Lemma demo_showable : showable_journal demo_zone (st_db (idle demo_s4)).
Proof.
  intros je. apply (all_decided (λ je, representable 120 (je_created_at je))). vm_compute. reflexivity.
Qed.

Lemma pagination_complete_witness :
  let rows := history (st_db (idle demo_s4)) (demo_customer 0) in
  length rows = 4%nat ∧
  follow_cursors demo_zone demo_uuid_Parse demo_hmac (S (length rows)) (demo_customer 0) 2
    EmptyString demo_ctx (idle demo_s4) = map transaction_of rows.
Proof.
  intros rows. split; [vm_compute; reflexivity|].
  assert (customer_exists (st_db (idle demo_s4)) (demo_customer 0) = true) as He by (vm_compute; reflexivity).
  exact (proj1 (pagination_complete demo_zone demo_uuid_Parse demo_hmac
    demo_zone_bounded demo_uuid_no_bar (demo_customer 0) 2 demo_ctx (idle demo_s4)
    (λ _, eq_refl) eq_refl (λ _ _, eq_refl) (inv_ledger _ demo_s4_Inv) demo_uuid_columns demo_showable He eq_refl)).
Defined.

(** One microsecond before 2024-03-01T00:00:00+02:00. *)
Lemma cursor_bound_to_customer_witness :
  decodeCursor demo_uuid_Parse demo_hmac "u1"
    (encodeCursor demo_zone demo_hmac "u1" (1709243999999999, "u2", "u3")) = Ok (1709243999999999, "u2", "u3").
Proof.
  exact (cursor_bound_to_customer demo_zone demo_uuid_Parse demo_hmac "u1" "u1" (1709243999999999, "u2", "u3")
    demo_zone_bounded (bool_decide_eq_true_1 (representable 120 1709243999999999) eq_refl) demo_uuid_no_bar
    (ex_intro _ "u1" eq_refl) (ex_intro _ "u2" eq_refl) (ex_intro _ "u3" eq_refl)).
Defined.
