(* ===== verification/AdapterWitnesses.v ===== *)
(** * Witnesses of the evm and signer adapters

    The adapters' properties with hypotheses, applied to the concrete node of
    DemoNode.v. *)

From Stdlib Require Import ZArith Lia Ascii.
From stdpp Require Import prelude strings pretty gmap list_numbers.
From S2P Require Import Prelude GoStd Domain Store Effects Ports Scanner ScannerProofs.
From S2P Require Import FeeEstimation EvmBroadcaster Signers Demo DemoNode.

Lemma node_answers {A} (m : M A) r : (∀ c s, m c s = (r, s)) → answers demo_ctx m r.
Proof. intros H s. exists s. split; [apply H|done]. Qed.

Lemma demo_blocks_answer n : answers demo_ctx (eth_getBlockByNumber n) (Ok (demo_blocks n)).
Proof. by apply node_answers. Qed.
Lemma demo_logs_answer a b ts : answers demo_ctx (FilterLogs a b ts) (Ok (logs demo_chain_logs a b ts)).
Proof. by apply node_answers. Qed.
Lemma demo_traces_answer n : answers demo_ctx (debug_traceBlockByNumber n) (demo_traces n).
Proof. apply node_answers. intros c s. simpl. by destruct (demo_traces n). Qed.

(** Tracing works up to block 2 and fails at block 3. The scan of blocks 1 to 3 reports
    the token transfer of 9 that the chain has, and nothing from the failed call. *)
Lemma ScanDeposits_complete_witness :
  ∃ ts us s', Scanner_ScanDeposits "base" [hex0x demo_to] {[hex0x demo_token := AssetUSDC]} 1 3 demo_ctx
    (start demo_db0 100) = (Ok (ts, us), s') ∧
    mkObservedTransfer "base" AssetUSDC (hex0x demo_to) (hex0x (big_FillBytes 32 78)) 0 9 3
      (hex0x (big_FillBytes 32 3)) ∈ ts ∧
    map ot_Amount ts = [5; 3; 9] ∧ map un_Amount us = [8].
Proof.
  destruct (ScanDeposits_complete "base" demo_ctx demo_blocks demo_traces demo_chain_logs
    demo_blocks_answer demo_traces_answer demo_logs_answer demo_address_padded
    [hex0x demo_to] {[hex0x demo_token := AssetUSDC]} 1 3 (start demo_db0 100)) as (ts & us & s' & H & Hts & _);
    [split; discriminate|reflexivity|].
  exists ts, us, s'. split; [exact H|]. split.
  - apply Hts. right. right. exists (demo_log demo_token (big_FillBytes 32 9) 3 0 false).
    split; [by left|]. split; [split; discriminate|]. exists (hex0x demo_to), 9, AssetUSDC.
    split; [|split; vm_compute; reflexivity].
    split; [reflexivity|]. split.
    { exists (big_FillBytes 32 1), (big_FillBytes 20 170). split; [vm_compute; reflexivity|].
      exists [], []. split; [reflexivity|]. split; [vm_compute; reflexivity|]. intros x Hx. destruct (not_elem_of_nil x Hx). }
    split; [vm_compute; reflexivity|]. split; [vm_compute; reflexivity|reflexivity].
  - assert (match fst (Scanner_ScanDeposits "base" [hex0x demo_to] {[hex0x demo_token := AssetUSDC]} 1 3 demo_ctx
      (start demo_db0 100)) with Ok (ts, us) => (map ot_Amount ts, map un_Amount us) | Err _ => ([], []) end
      = ([5; 3; 9], [8])) as Hv by (vm_compute; reflexivity).
    rewrite H in Hv. injection Hv as E1 E2. split; [exact E1|exact E2].
Defined.

Lemma EstimateFee_consistent_witness :
  ∃ e s', FeeEstimator_EstimateFee demo_clients ChainBase AssetUSDC 5 demo_ctx (start demo_db0 100) = (Ok e, s') ∧
    fe_TotalFee e = Some (fe_L2Fee e + fe_L1Fee e).
Proof.
  assert (FeeEstimator_EstimateFee demo_clients ChainBase AssetUSDC 5 demo_ctx (start demo_db0 100) =
    (Ok (mkFeeEstimate 210000 500 (Some 210500)), start demo_db0 100)) as H by (vm_compute; reflexivity).
  eexists _, _. split; [exact H|]. exact (proj1 (EstimateFee_consistent demo_clients _ _ _ _ _ _ _ H)).
Defined.

(** The unsigned transaction of a withdrawal of 5 wei with nonce 4. *)
Definition demo_wtx : DynamicFeeTx := withdrawal_tx demo_chain_id 4 10 21000 demo_to 5 "".
Definition demo_unsigned : bytes := demo_encode (demo_tx demo_wtx "").
Definition demo_build : result (bytes * bytes) * St :=
  Broadcaster_BuildUnsignedWithdrawal "base" demo_chain_id ChainBase AssetETH 4 (hex0x demo_to) 5
    demo_ctx (start demo_db0 100).

Lemma Build_pays_witness :
  ∃ t, MarshalBinary (NewTx t) = Ok demo_unsigned ∧ dt_Nonce t = 4 ∧
       pays ChainBase AssetETH demo_to 5 demo_ctx (start demo_db0 100) t.
Proof.
  assert (Broadcaster_BuildUnsignedWithdrawal "base" demo_chain_id ChainBase AssetETH 4 (hex0x demo_to) 5
    demo_ctx (start demo_db0 100) =
    (Ok (Signer_Hash demo_chain_id (NewTx demo_wtx), demo_unsigned), start demo_db0 100)) as H
    by (vm_compute; reflexivity).
  destruct (Build_pays "base" demo_chain_id ChainBase AssetETH 4 (hex0x demo_to) 5 demo_ctx _ _ _ _ H eq_refl)
    as (_ & _ & _ & t & Hm & _ & _ & Hn & _ & Hp).
  exists t. split_and!; [exact Hm|exact Hn|]. assert (HexToAddress (hex0x demo_to) = demo_to) as <-
    by (vm_compute; reflexivity). exact Hp.
Defined.

Definition demo_signed : bytes := demo_encode (demo_tx demo_wtx "sig").

Lemma Assemble_Send_roundtrip_witness :
  ∃ stx, MarshalBinary stx = Ok demo_signed ∧
    Broadcaster_SendRawTransaction "base" "base" demo_signed demo_ctx (start demo_db0 100) =
      wrapping "send raw withdrawal transaction" (bc_SendTransaction stx) demo_ctx (start demo_db0 100).
Proof.
  assert (MarshalBinary (NewTx demo_wtx) = Ok demo_unsigned) as Hm by (vm_compute; reflexivity).
  assert (Broadcaster_AssembleSignedTx demo_unsigned "sig" =
    Ok (demo_signed, Hash_Hex (Transaction_Hash (demo_tx demo_wtx "sig")))) as Ha by (vm_compute; reflexivity).
  destruct (Assemble_Send_roundtrip "base" demo_wtx _ _ _ _ demo_ctx (start demo_db0 100) Hm Ha)
    as (stx & _ & Hs & _ & Hsend).
  exists stx. split; [exact Hs|exact Hsend].
Defined.

Lemma GetFinalizedReceipt_final_witness :
  Broadcaster_GetFinalizedReceipt 1 HexToAddress "base" ChainBase "0x01" demo_ctx (start demo_db0 100) =
    (Ok (true, true), start demo_db0 100).
Proof.
  destruct (proj1 (GetFinalizedReceipt_final 1 HexToAddress "base" "0x01" demo_ctx (start demo_db0 100))
    (mkReceipt (Some 2) 1) (start demo_db0 100) 3 EmptyString (start demo_db0 100)) as (found & success & H & Hf & Hs);
    [vm_compute; reflexivity..|].
  assert (found = true) as -> by (apply Hf; exists 2; split; [reflexivity|vm_compute; discriminate]).
  assert (success = true) as -> by (apply Hs; split; [reflexivity|vm_compute; reflexivity]).
  exact H.
Defined.

(** A scheme whose signatures are all recovered by recovery id 1. *)
Definition demo_RecoverCompact (sig digest : bytes) : option unit :=
  if HasPrefix sig (String (byte_of 28) EmptyString) then Some tt else None.

Lemma kms_signature_canonical_witness :
  ∃ v, kms_assemble unit demo_RecoverCompact (λ _ _, true) tt "digest" (der_signature 5 (secp256k1N - 2)) =
    Ok (big_FillBytes 32 5 +:+ big_FillBytes 32 2 +:+ String (byte_of v) EmptyString).
Proof.
  destruct (proj1 (kms_signature_canonical unit demo_RecoverCompact (λ _ _, true) tt "digest")
    5 (secp256k1N - 2)) as (v & H & _);
    [split; reflexivity|split; reflexivity|exists 1; split; [by right|vm_compute; reflexivity]|].
  exists v. rewrite H. assert (normalizeLowS (secp256k1N - 2) = 2) as -> by (vm_compute; reflexivity). reflexivity.
Defined.

Lemma software_signer_spec_witness :
  ∃ address, NewSigner bytes 32 (λ b, secp256k1N <=? big_SetBytes b) (λ b, b)
    (λ k, Z.eqb (big_SetBytes k mod secp256k1N) 0) (λ k, k) (λ b, b)
    ("0x" +:+ hex_EncodeToString (big_FillBytes 32 5)) = Ok (big_FillBytes 32 5, address).
Proof.
  apply (proj1 (software_signer_spec bytes 32 (λ b, secp256k1N <=? big_SetBytes b) (λ b, b)
    (λ k, Z.eqb (big_SetBytes k mod secp256k1N) 0) (λ k d, k +:+ d) (λ k, k) (λ b, b)
    eq_refl (λ b _, Z.leb_le _ _) (λ b _, Z.eqb_eq _ _))); vm_compute; [reflexivity|split; [|split]; reflexivity].
Defined.
