(* ===== verification/RoleWitnesses.v ===== *)
(** * Witnesses of the roles' guarantees

    An environment of the three binaries whose remote calls answer, one whose lock is
    taken, and the theorems of RoleGuarantees.v applied to runs in them. *)

From Stdlib Require Import ZArith Lia Ascii.
From stdpp Require Import prelude strings pretty gmap.
From S2P Require Import Prelude GoStd Utf8 Json Rfc3339 Domain Store OutboxJson Effects Ledger Transfers Ports Idempotency.
From S2P Require Import Withdrawals WithdrawalInvariant Solvency Handlers ApiJson Answers ApiTransfers Router System Scanner Signers Config Walletd Roles.
From S2P Require Import RoleGuarantees ApiEndToEnd Demo DemoNode.

Definition demo_usdc : string := hex0x demo_token.
Definition demo_variables : list (string * string) :=
  [("DATABASE_URL", "postgres://wallet"); ("BASE_RPC_URL", "http://base"); ("ARBITRUM_RPC_URL", "http://arbitrum");
   ("BASE_CHAIN_ID", "8453"); ("ARBITRUM_CHAIN_ID", "8453"); ("BASE_USDC_ADDRESS", demo_usdc);
   ("WATCHER_POLL_INTERVAL", "1m30s"); ("SIGNER_BACKEND", "kms"); ("SIGNER_KMS_KEY_ID", "key");
   ("API_BEARER_TOKENS", "other, token"); ("API_CURSOR_SIGNING_KEY", "secret")].
Definition demo_Getenv (name : string) : string :=
  match List.find (λ v, String.eqb (fst v) name) demo_variables with
  | Some v => snd v
  | None => EmptyString
  end.

(** The endpoints answer; [granted] tells which locks are free. *)
Definition demo_Startup (granted : bool) : Startup := {|
  DialContext := λ url, ret (mkChainClient (ret 8453) (λ address, ret "code"));
  pgxpool_New := λ dsn, ret tt;
  pool_Acquire := ret tt;
  pg_try_advisory_lock := λ id, ret granted;
  NewPostgresSessionLocker := ret tt;
  goose_NewProvider := ret tt;
  provider_Up := ret tt;
|}.
#[export] Instance demo_StartupLaws granted : StartupLaws (demo_Startup granted).
Proof.
  split; intros; try apply external_ret; simpl in *; injection H as <- _; apply external_ret.
Qed.

(** Keys are their own bytes; a key recovers from any signature. *)
#[export] Instance demo_Custody : Custody := {
  LoadDefaultConfig := ret tt;
  kms_GetPublicKey := λ keyID, ret keyID;
  kms_Sign := λ keyID digest, ret (der_signature 5 7);
  asn1_spki := λ der, Ok der;
  PublicKey := bytes;
  ParsePubKey := λ b, Ok b;
  SerializeUncompressed := λ k, big_FillBytes 65 (big_SetBytes k);
  RecoverCompact := λ signature digest, Some "key";
  IsEqual := String.eqb;
  PrivateKey := bytes;
  PrivKeyBytesLen := 32;
  SetByteSlice_overflow := λ b, secp256k1N <=? big_SetBytes b;
  PrivKeyFromBytes := λ b, b;
  IsZero := λ k, Z.eqb (big_SetBytes k) 0;
  PubKey := λ k, k;
  SignCompact := λ k digest, big_FillBytes 65 (27 * 256 ^ 64);
  LegacyKeccak256 := λ b, drop_bytes 33 b;
}.
#[export] Instance demo_CustodyLaws : CustodyLaws demo_Custody.
Proof. split; intros; apply external_ret. Qed.

Lemma accepted_configuration_witness :
  ∃ cfg, broadcaster_config demo_Getenv "base" = Ok cfg ∧ bc_LivenessStaleness cfg = 270 * 10 ^ 9.
Proof.
  assert (∃ cfg, broadcaster_config demo_Getenv "base" = Ok cfg) as [cfg H] by (eexists; vm_compute; reflexivity).
  exists cfg. split; [exact H|].
  destruct (proj1 (proj2 (accepted_configuration demo_Getenv)) "base" cfg H) as (_ & _ & _ & _ & _ & Hs & _).
  rewrite Hs; [vm_compute; reflexivity|reflexivity|vm_compute; reflexivity].
Defined.

(** With the lock taken, a watcher stops and leaves the database alone; with it free,
    it is ready before it serves. *)
Lemma roles_start_guarded_witness :
  st_db (snd (runWatcher (St:=demo_Startup false) (Scan:=demo_Scanner) demo_Getenv (Ok "base") 1 demo_ctx
                (start demo_db0 100))) = demo_db0 ∧
  ∃ cfg, watcher_ready (St:=demo_Startup true) demo_Getenv demo_ctx (Ok "base") cfg.
Proof.
  split.
  - destruct (runWatcher (St:=demo_Startup false) (Scan:=demo_Scanner) demo_Getenv (Ok "base") 1 demo_ctx
      (start demo_db0 100)) as [r s'] eqn:E.
    destruct (proj1 (roles_start_guarded (St:=demo_Startup false) (Scan:=demo_Scanner) (B:=demo_Broadcaster)
      demo_Getenv (Ok "base") 1 1 demo_ctx _ r s' (Err (ErrText "")) s') E)
      as [(e & _ & H & _)|(cfg & s1 & (chain & id & _ & _ & _ & (s2 & s3 & H) & _) & _)]; [exact H|discriminate H].
  - destruct (runWatcher (St:=demo_Startup true) (Scan:=demo_Scanner) demo_Getenv (Ok "base") 1 demo_ctx
      (start demo_db0 100)) as [r s'] eqn:E.
    assert (match r with Ok _ => true | Err _ => false end = true) as Hr.
    { transitivity (match fst (runWatcher (St:=demo_Startup true) (Scan:=demo_Scanner) demo_Getenv (Ok "base") 1
        demo_ctx (start demo_db0 100)) with Ok _ => true | Err _ => false end);
        [by rewrite E|vm_compute; reflexivity]. }
    destruct (proj1 (roles_start_guarded (St:=demo_Startup true) (Scan:=demo_Scanner) (B:=demo_Broadcaster)
      demo_Getenv (Ok "base") 1 1 demo_ctx _ r s' (Err (ErrText "")) s') E)
      as [(e & -> & _)|(cfg & s1 & H & _)]; [discriminate Hr|]. exists cfg. exact H.
Defined.

Definition demo_api (requests : list Request) : M (list (result StoredResponse)) :=
  runAPI (St:=demo_Startup true) demo_Getenv demo_uuid_Parse id demo_zone demo_route requests.

(** A customer is created through the API, from main. *)
Lemma binaries_refine_commits_witness :
  let s := snd (demo_api [post_request "/customers" "k1" ""] demo_ctx (start demo_db0 100)) in
  reachable (st_db s) ∧ length (t_customers (st_db s)) = 1%nat.
Proof.
  split; [|vm_compute; reflexivity].
  refine (proj2 (proj2 (binaries_refine_commits (Scan:=demo_Scanner) (B:=demo_Broadcaster) (St:=demo_Startup true)
    demo_Getenv demo_Fee_quiet demo_uuid_Parse id demo_zone demo_route demo_ctx (start demo_db0 100) eq_refl (λ _ _ H, H)
    demo_db0_reachable)) [post_request "/customers" "k1" ""]).
Defined.

Definition demo_cfg : ApiConfig := mkApiConfig "" "" "secret" [].
Definition demo_handle (r : Request) : result StoredResponse * St :=
  api_handler demo_Getenv demo_uuid_Parse id demo_zone demo_route demo_cfg r demo_ctx (start demo_db0 100).

(** A request that creates a customer is one of the API's mutating operations. *)
Lemma api_changes_guarded_witness :
  let r := post_request "/customers" "k1" "" in
  length (t_customers (st_db (snd (demo_handle r)))) = 1%nat ∧
  ∃ token ep, rq_Authorization r = "Bearer " +:+ token ∧ operation id r ep ∧ mutating ep.
Proof.
  split; [vm_compute; reflexivity|].
  destruct (demo_handle (post_request "/customers" "k1" "")) as [res s'] eqn:E.
  assert (length (t_customers (st_db s')) = 1%nat) as Hn.
  { transitivity (length (t_customers (st_db (snd (demo_handle (post_request "/customers" "k1" ""))))));
      [by rewrite E|vm_compute; reflexivity]. }
  unfold demo_handle, demo_route in E.
  destruct (api_changes_guarded demo_Getenv demo_Fee_quiet demo_uuid_Parse id demo_zone demo_redirect demo_cfg (post_request "/customers" "k1" "")
    demo_ctx (start demo_db0 100) res s' eq_refl) as [H|H];
    [intros; vm_compute; split; congruence|exact E| |].
  - exfalso. assert (st_db s' = demo_db0) as H'; [|by rewrite H' in Hn; vm_compute in Hn].
    clear -H. change (st_db (start demo_db0 100)) with demo_db0 in H. induction H as [x|x y z [n ->] _ IH]; [done|].
    exact IH.
  - destruct H as (token & ep & db1 & db2 & hash & resp & _ & H1 & H2 & H3 & _). exists token, ep. split_and!; done.
Defined.

(** ** The API end to end *)

(** A text form of 16-byte ids under which the ids of Demo.v are ids. *)
Definition id_text (id : bytes) : string := "u" +:+ big_String (big_SetBytes id).
Definition text_id (s : string) : option bytes :=
  match s with
  | String c t =>
      if Ascii.eqb c "u" then
        z ← big_SetString10 t;
        if (0 <=? z) && (z <? 256 ^ 16) then Some (big_FillBytes 16 z) else None
      else None
  | EmptyString => None
  end.

Lemma id_text_laws id :
  String.length id = 16%nat → ValidString (id_text id) = true ∧ text_id (id_text id) = Some id.
Proof.
  intros Hid. split.
  - apply ascii_valid. change (ascii_text (String "u" (big_String (big_SetBytes id))) = true).
    change (ascii_text (big_String (big_SetBytes id)) = true). apply big_String_ascii.
  - change (text_id (String "u" (big_String (big_SetBytes id))) = Some id). cbn [text_id].
    change (Ascii.eqb "u" "u") with true. rewrite big_SetString10_String. cbn [mbind option_bind].
    pose proof (big_SetBytes_bound id) as Hb. rewrite Hid in Hb. change (Z.of_nat 16) with 16 in Hb.
    rewrite (proj2 (Z.leb_le _ _)), (proj2 (Z.ltb_lt _ _)) by lia. cbn [andb].
    pose proof (big_FillBytes_SetBytes id) as Hf. rewrite Hid in Hf. by rewrite Hf.
Qed.

(** Ids from another series, a thousand of them. *)
Definition served_env : Env :=
  mkEnv (λ _, None) (λ _, false) (λ n, demo_uuid (1000 + n mod 1000)) (λ n, Z.of_nat (n mod 1000)) (λ _ db, db).
Definition served_ctx : Ctx := mkCtx served_env None.
Definition served_body : TransferBody :=
  mkTransferBody (default "" (text_id (demo_customer 0))) (default "" (text_id (demo_customer 1))) ChainBase AssetETH "700".
Definition served_request : Request :=
  post_request "/transfers" "k9" (Marshal (TransferRequest_json id_text served_body)).
Definition served : result StoredResponse * St :=
  api_handler demo_Getenv text_id id_text demo_zone (mux_route id_text encode_problem demo_redirect) demo_cfg
    served_request served_ctx (idle demo_s4).

Lemma served_ids n : ∃ id, String.length id = 16%nat ∧ env_uuid served_env n = id_text id.
Proof.
  pose proof (Nat.mod_upper_bound n 1000 ltac:(done)) as Hn.
  exists (big_FillBytes 16 (Z.of_nat (1000 + n mod 1000))). split; [apply big_FillBytes_length|].
  unfold id_text. rewrite big_SetBytes_Fill; [done|]. change (256 ^ Z.of_nat 16) with (2 ^ 128).
  assert (2000 < 2 ^ 128) by (vm_compute; reflexivity). lia.
Qed.

Lemma served_fresh : fresh_uuids request_steps served_ctx (idle demo_s4).
Proof.
  assert (∀ n, soon request_steps (idle demo_s4) n → n ∈ seq 400 20) as Hs.
  { intros n Hn. apply elem_of_seq. change (400 <= n < 420)%nat in Hn. lia. }
  assert (∀ l : list string, forallb (λ n, bool_decide (demo_uuid (1000 + n mod 1000) ∉ l)) (seq 400 20) = true →
    ∀ n, soon request_steps (idle demo_s4) n → env_uuid served_env n ∉ l) as Hl.
  { intros l H n Hn%Hs%list_elem_of_In. rewrite forallb_forall in H.
    specialize (H n Hn). by apply bool_decide_eq_true in H. }
  split_and!.
  - intros n m Hn Hm E%demo_uuid_inj. change (400 <= n < 420)%nat in Hn. change (400 <= m < 420)%nat in Hm.
    rewrite !Nat.mod_small in E by lia. lia.
  - apply (Hl (map je_id (t_journal_entries (st_db (idle demo_s4))))). vm_compute. reflexivity.
  - apply (Hl (map po_id (t_postings (st_db (idle demo_s4))))). vm_compute. reflexivity.
Qed.

Lemma served_times n : representable 0 (env_now served_env n).
Proof.
  pose proof (Nat.mod_upper_bound n 1000 ltac:(done)) as Hn. cbn [served_env env_now].
  assert (forallb (λ k, (0 <=? local_year 0 (Z.of_nat k)) && (local_year 0 (Z.of_nat k) <=? 9999)) (seq 0 1000) = true) as H
    by (vm_compute; reflexivity).
  rewrite forallb_forall in H. specialize (H (n mod 1000)%nat). apply andb_true_iff in H as [H1%Z.leb_le H2%Z.leb_le];
    [done|]. apply in_seq. lia.
Qed.

Lemma served_request_ok :
  transfer_request_ok demo_Getenv id_text served_request served_body 700 "k9" (st_db demo_s4).
Proof.
  split.
  - exists "token"%string. split_and!; [reflexivity|done|vm_compute; right; by left].
  - apply op_CreateTransfer; vm_compute; [done|]. by eexists.
  - split; [done|vm_compute; reflexivity].
  - exists EmptyString. split_and!; [done|by rewrite string_app_empty_r|vm_compute; congruence].
  - split; [split; [vm_compute; reflexivity|intros H; vm_compute in H; discriminate H]..| | |].
    + by left.
    + by left.
    + split; [vm_compute; reflexivity|]. apply (bool_decide_eq_true_1 _). vm_compute. reflexivity.
Qed.

Lemma transfer_served_witness :
  ∃ resp id at_ hash, fst served = Ok resp ∧ sr_Status resp = 201 ∧
    Decode (sr_Body resp) = Some (transfer_json id_text served_body id 700 at_) ∧
    key_row served_request hash resp ∈ t_idempotency_keys (st_db (snd served)).
Proof.
  destruct (transfer_served demo_Getenv text_id id_text demo_zone demo_redirect id_text_laws demo_cfg served_request
    served_body 700 "k9" served_ctx (idle demo_s4) (λ _, eq_refl) eq_refl (λ _ _, eq_refl)
    (inv_ledger _ (proj1 (reachable_ok _ demo_s4_reachable))) served_fresh served_ids served_times served_request_ok)
    as (resp & s' & E & H).
  assert (transfer_refusal (transfer_request id_text served_body 700 "k9") (st_db (idle demo_s4)) = None) as Hn
    by (vm_compute; reflexivity).
  rewrite Hn in H. destruct H as (db2 & hash & (H1 & _ & tr & id & _ & _ & _ & H2) & H3).
  exists resp, id, (tf_CreatedAt tr), hash. unfold served. rewrite E.
  split_and!; [reflexivity|exact H1|exact H2|]. cbn [snd]. rewrite H3.
  change (key_row served_request hash resp ∈ t_idempotency_keys db2 ++ [key_row served_request hash resp]).
  apply elem_of_app. right. by left.
Defined.

(** The body of that request, followed by a newline. *)
Lemma requests_decoded_witness :
  decode_transfer text_id (Marshal (TransferRequest_json id_text served_body) +:+ String "010" "") = Some served_body.
Proof.
  apply (requests_decoded text_id id_text id_text_laws); [repeat constructor|done|vm_compute; reflexivity..].
Defined.

(** A deposit observed in the year 10000 has no answer. *)
Definition unshowable : Payload :=
  DepositsPayload [mkDepositItem "d" ChainBase AssetETH "1" "0x" "pending" DepositObserved (253402300800 * 1000000)].

(** An approved withdrawal of the year 2024. *)
Definition showable : Payload :=
  WithdrawalPayload "w" "c" ChainBase AssetETH "7" demo_destination "approved" (1717243200 * 1000000)
    (Some (1717246800 * 1000000)) (Some "operator") (Some "checked").

Lemma answers_read_back_witness :
  encode_payload id demo_zone unshowable = EmptyString ∧
  ∃ v, Decode (encode_payload id demo_zone showable) = Some v ∧ shows id showable v.
Proof.
  split.
  - destruct (decide (encode_payload id demo_zone unshowable = EmptyString)) as [E|E]; [exact E|].
    destruct (answers_read_back id demo_zone unshowable (mkProblem "" "" 0 "" "")) as (_ & [H _] & _).
    specialize (H E). apply Forall_singleton in H as [[_ H] _]. exfalso. revert H.
    apply (bool_decide_eq_false_1 _). vm_compute. reflexivity.
  - destruct (answers_read_back id demo_zone showable (mkProblem "" "" 0 "" "")) as (_ & [_ H] & Hs).
    apply Hs, H. repeat constructor; apply (bool_decide_eq_true_1 _); vm_compute; reflexivity.
Defined.

(** An approval's event. *)
Lemma outbox_recorded_witness :
  let p := withdrawalRoutedPayload "w" "c" ChainBase AssetETH "7" demo_destination "operator" "checked" in
  Decode (outbox_text p) = Some (outbox_json p).
Proof.
  intros p. apply (proj2 (outbox_recorded p)). unfold outbox_json, withdrawalRoutedPayload_json. cbn [p utf8].
  repeat split; vm_compute; reflexivity.
Defined.
